(** * SawitDB: a shallow embedding of the storage-and-execution core

    The engine class [SawitDB] (the refactored engine that sits on the
    pager, the B-tree index and the event sink) is embedded here as Rocq
    functions over an explicit database state.

    Modelling conventions.
    - JavaScript values stored in records are [jsval]: [null], booleans,
      numbers and strings.  Numbers are the integer-valued ones ([Z]);
      a computation that would need a fractional number, a nested JSON
      value or a non-ASCII code unit ends in [Stuck] instead of inventing
      a result.
    - Strings are ASCII text: one [ascii] per UTF-16 code unit, and the
      UTF-8 encoding of such a string is the string itself, byte for byte.
    - A [Buffer] is a [list byte]; a page is a buffer of [PAGE_SIZE] bytes.
    - A JavaScript exception is [Throw msg]; the state reached when it is
      thrown is kept, as in the source.  Loops over the page chain take a
      fuel argument and end in [Stuck] when it runs out. *)

From Stdlib Require Import ZArith List Ascii String Bool Lia.
From Stdlib Require Import DecimalString Decimal DecimalPos DecimalFacts.
From Stdlib.Strings Require Import Byte.
From stdpp Require Import base option list gmap.
Import ListNotations.

Local Open Scope string_scope.
Local Open Scope list_scope.
Local Open Scope Z_scope.

(** ** Outcomes *)

Inductive outcome (A : Type) : Type :=
| Ok (a : A)
| Throw (msg : string)
| Stuck (why : string).
Arguments Ok {A} a.
Arguments Throw {A} msg.
Arguments Stuck {A} why.

Definition obind {A B} (m : outcome A) (k : A -> outcome B) : outcome B :=
  match m with
  | Ok a => k a
  | Throw e => Throw e
  | Stuck w => Stuck w
  end.

Notation "x <-? m ;; k" := (obind m (fun x => k))
  (at level 90, m at next level, right associativity).

(** ** JavaScript values *)

Inductive jsval : Type :=
| JNull
| JBool (b : bool)
| JNum (n : Z)
| JStr (s : string).

(** What a criteria leaf carries in [val]: nothing, a primitive, or an
    array of primitives (for [IN], [NOT IN] and [BETWEEN]). *)
Inductive jsany : Type :=
| AUndef
| APrim (v : jsval)
| AArr (l : list jsval).

Inductive jnum : Type :=
| NaN
| Num (z : Z).

Definition jsval_eqb (a b : jsval) : bool :=
  match a, b with
  | JNull, JNull => true
  | JBool x, JBool y => Bool.eqb x y
  | JNum x, JNum y => Z.eqb x y
  | JStr x, JStr y => String.eqb x y
  | _, _ => false
  end.

(** ** Strings *)

Definition chars (s : string) : list ascii := list_ascii_of_string s.
Definition str (l : list ascii) : string := string_of_list_ascii l.

Definition code (c : ascii) : Z := Z.of_N (N_of_ascii c).

Definition is_digit (c : ascii) : bool := (48 <=? code c) && (code c <=? 57).

(** The white space that [StringToNumber] trims, as far as ASCII goes. *)
Definition is_js_space (c : ascii) : bool :=
  let n := code c in
  (n =? 32) || ((9 <=? n) && (n <=? 13)).

Fixpoint drop_while {A} (p : A -> bool) (l : list A) : list A :=
  match l with
  | [] => []
  | x :: r => if p x then drop_while p r else l
  end.

Definition trim (l : list ascii) : list ascii :=
  rev (drop_while is_js_space (rev (drop_while is_js_space l))).

(** Decimal numerals of integers, as [String(n)] and [JSON.stringify(n)]
    print them below [10^21] in absolute value (from there on JavaScript
    prints an exponent). *)
Definition string_of_Z (z : Z) : string := NilZero.string_of_int (Z.to_int z).

(** [digits l] is the value of a non-empty run of decimal digits. *)
Fixpoint digits_acc (acc : Z) (l : list ascii) : option Z :=
  match l with
  | [] => Some acc
  | c :: r => if is_digit c then digits_acc (10 * acc + (code c - 48)) r else None
  end.

Definition digits (l : list ascii) : option Z :=
  match l with
  | [] => None
  | _ => digits_acc 0 l
  end.

(** [Number(s)] for a string.  Integer numerals (with an optional sign) and
    the empty string are computed; a string that cannot start a numeric
    literal is [NaN]; any other string might denote a number outside the
    integers and is left [Stuck]. *)
Definition StringToNumber (s : string) : outcome jnum :=
  match trim (chars s) with
  | [] => Ok (Num 0)
  | c :: r =>
      let unsigned l :=
        match digits l with
        | Some z => Some z
        | None => None
        end in
      let attempt :=
        if Ascii.eqb c "-" then option_map Z.opp (unsigned r)
        else if Ascii.eqb c "+" then unsigned r
        else unsigned (c :: r) in
      match attempt with
      | Some z => Ok (Num z)
      | None =>
          if is_digit c || Ascii.eqb c "-" || Ascii.eqb c "+"
             || Ascii.eqb c "." || Ascii.eqb c "I"
          then Stuck "Number(): numeral outside the integers"
          else Ok NaN
      end
  end.

(** [String(v)] of a primitive. *)
Definition ToString (v : jsval) : string :=
  match v with
  | JNull => "null"
  | JBool true => "true"
  | JBool false => "false"
  | JNum n => string_of_Z n
  | JStr s => s
  end.

Fixpoint join (sep : string) (l : list string) : string :=
  match l with
  | [] => ""
  | [x] => x
  | x :: r => (x ++ sep ++ join sep r)%string
  end.

(** [Array.prototype.join]: [null] elements print as the empty string. *)
Definition array_to_string (l : list jsval) : string :=
  join "," (map (fun v => match v with JNull => "" | _ => ToString v end) l).

(** [ToPrimitive] of a value that is either undefined, primitive, or an
    array (which becomes its joined string). *)
Definition ToPrimitive (a : jsany) : option jsval :=
  match a with
  | AUndef => None
  | APrim v => Some v
  | AArr l => Some (JStr (array_to_string l))
  end.

(** [Number(x)] of an optional primitive ([None] is [undefined]). *)
Definition ToNumber (v : option jsval) : outcome jnum :=
  match v with
  | None => Ok NaN
  | Some JNull => Ok (Num 0)
  | Some (JBool b) => Ok (Num (if b then 1 else 0))
  | Some (JNum n) => Ok (Num n)
  | Some (JStr s) => StringToNumber s
  end.

Definition ToNumber_any (a : jsany) : outcome jnum := ToNumber (ToPrimitive a).

Definition is_number (v : option jsval) : bool :=
  match v with Some (JNum _) => true | _ => false end.

(** Lexicographic order on code units, for [<] between two strings. *)
Fixpoint str_ltb (a b : list ascii) : bool :=
  match a, b with
  | [], [] => false
  | [], _ :: _ => true
  | _ :: _, [] => false
  | x :: a', y :: b' =>
      if code x <? code y then true
      else if code y <? code x then false
      else str_ltb a' b'
  end.

(** The abstract relational comparison [x < y]. *)
Definition js_lt (x y : option jsval) : outcome bool :=
  match x, y with
  | Some (JStr a), Some (JStr b) => Ok (str_ltb (chars a) (chars b))
  | _, _ =>
      nx <-? ToNumber x ;;
      ny <-? ToNumber y ;;
      match nx, ny with
      | Num a, Num b => Ok (a <? b)
      | _, _ => Ok false
      end
  end.

Definition js_gt (x y : option jsval) : outcome bool := js_lt y x.

(** [x <= y] is "not (y < x), and neither is NaN". *)
Definition js_le (x y : option jsval) : outcome bool :=
  match x, y with
  | Some (JStr a), Some (JStr b) => Ok (negb (str_ltb (chars b) (chars a)))
  | _, _ =>
      nx <-? ToNumber x ;;
      ny <-? ToNumber y ;;
      match nx, ny with
      | Num a, Num b => Ok (a <=? b)
      | _, _ => Ok false
      end
  end.

Definition js_ge (x y : option jsval) : outcome bool := js_le y x.

Definition jnum_eqb (a b : jnum) : bool :=
  match a, b with
  | Num x, Num y => Z.eqb x y
  | _, _ => false
  end.

(** Strict equality [x === y] between optional primitives. *)
Definition strict_eq (x y : option jsval) : bool :=
  match x, y with
  | None, None => true
  | Some a, Some b => jsval_eqb a b
  | _, _ => false
  end.

(** Strict equality against a criteria value: an array is never [===] to a
    primitive. *)
Definition strict_eq_any (x : option jsval) (t : jsany) : bool :=
  match t with
  | AArr _ => false
  | AUndef => strict_eq x None
  | APrim v => strict_eq x (Some v)
  end.

(** Loose equality [x == y] between optional primitives. *)
Definition loose_eq (x y : option jsval) : outcome bool :=
  match x, y with
  | None, None => Ok true
  | None, Some JNull | Some JNull, None => Ok true
  | None, _ | _, None => Ok false
  | Some JNull, Some JNull => Ok true
  | Some JNull, _ | _, Some JNull => Ok false
  | Some (JStr a), Some (JStr b) => Ok (String.eqb a b)
  | Some a, Some b =>
      na <-? ToNumber (Some a) ;;
      nb <-? ToNumber (Some b) ;;
      Ok (jnum_eqb na nb)
  end.

Definition loose_eq_any (x : option jsval) (t : jsany) : outcome bool :=
  loose_eq x (ToPrimitive t).

(** ** Record objects

    A record is a JavaScript object: its own enumerable properties in
    insertion order, plus the one property the engine ever defines as
    non-enumerable, the page hint [_pageId].  Field names are taken not to
    be array-index strings (which JavaScript would enumerate first) and
    not to collide with the names on [Object.prototype]. *)

Record obj : Type := mkObj {
  fields : list (string * jsval);
  hidden_pageId : option jsval
}.

Definition plain (fs : list (string * jsval)) : obj := mkObj fs None.

Fixpoint assoc {V} (k : string) (l : list (string * V)) : option V :=
  match l with
  | [] => None
  | (k', v) :: r => if String.eqb k k' then Some v else assoc k r
  end.

Fixpoint assoc_set {V} (k : string) (v : V) (l : list (string * V)) : list (string * V) :=
  match l with
  | [] => [(k, v)]
  | (k', v') :: r =>
      if String.eqb k k' then (k', v) :: r else (k', v') :: assoc_set k v r
  end.

Fixpoint assoc_remove {V} (k : string) (l : list (string * V)) : list (string * V) :=
  match l with
  | [] => []
  | (k', v') :: r =>
      if String.eqb k k' then assoc_remove k r else (k', v') :: assoc_remove k r
  end.

Definition keys {V} (l : list (string * V)) : list string := map fst l.

Definition mem_string (k : string) (l : list string) : bool :=
  existsb (String.eqb k) l.

(** [o[k]], for a key that is a field of [o], the page hint, or a name
    that objects do not inherit: the members of [Object.prototype] are
    not looked up. *)
Definition obj_get (o : obj) (k : string) : option jsval :=
  match assoc k (fields o) with
  | Some v => Some v
  | None => if String.eqb k "_pageId" then hidden_pageId o else None
  end.

(** [o[k] = v] *)
Definition obj_set (o : obj) (k : string) (v : jsval) : obj :=
  if String.eqb k "_pageId" && negb (mem_string k (keys (fields o)))
     && match hidden_pageId o with Some _ => true | None => false end
  then mkObj (fields o) (Some v)
  else mkObj (assoc_set k v (fields o)) (hidden_pageId o).

(** [o.hasOwnProperty(k)] *)
Definition hasOwnProperty (o : obj) (k : string) : bool :=
  match obj_get o k with Some _ => true | None => false end.

(** [{ ...o }]: own enumerable properties only. *)
Definition spread (o : obj) : obj := plain (fields o).

(** [{ ...a, ...b }] *)
Definition spread2 (a b : obj) : obj :=
  fold_left (fun acc kv => obj_set acc (fst kv) (snd kv)) (fields b) (spread a).

(** [Object.defineProperty(o, '_pageId',
       { value: p, enumerable: false, writable: true })] *)
Definition define_pageId (o : obj) (p : Z) : obj :=
  mkObj (assoc_remove "_pageId" (fields o)) (Some (JNum p)).

(** ** JSON *)

Definition dquote : ascii := ascii_of_nat 34.
Definition backslash : ascii := ascii_of_nat 92.

Definition hex_digit (n : Z) : ascii :=
  if n <? 10 then ascii_of_N (Z.to_N (48 + n)) else ascii_of_N (Z.to_N (87 + n)).

Definition json_escape_char (c : ascii) : list ascii :=
  let n := code c in
  if n =? 34 then [backslash; dquote]
  else if n =? 92 then [backslash; backslash]
  else if n =? 8 then [backslash; "b"%char]
  else if n =? 9 then [backslash; "t"%char]
  else if n =? 10 then [backslash; "n"%char]
  else if n =? 12 then [backslash; "f"%char]
  else if n =? 13 then [backslash; "r"%char]
  else if n <? 32 then
    [backslash; "u"%char; "0"%char; "0"%char; hex_digit (n / 16); hex_digit (n mod 16)]
  else [c].

Definition json_quote (s : string) : list ascii :=
  dquote :: flat_map json_escape_char (chars s) ++ [dquote].

Definition json_value (v : jsval) : list ascii :=
  match v with
  | JStr s => json_quote s
  | _ => chars (ToString v)
  end.

Definition json_member (kv : string * jsval) : list ascii :=
  json_quote (fst kv) ++ ":"%char :: json_value (snd kv).

Fixpoint json_members (l : list (string * jsval)) : list ascii :=
  match l with
  | [] => []
  | [kv] => json_member kv
  | kv :: r => json_member kv ++ ","%char :: json_members r
  end.

(** [JSON.stringify(o)]: the own enumerable properties, in order. *)
Definition JSON_stringify (o : obj) : string :=
  str ("{"%char :: json_members (fields o) ++ ["}"%char]).

Definition is_json_ws (c : ascii) : bool :=
  let n := code c in
  (n =? 32) || (n =? 9) || (n =? 10) || (n =? 13).

Definition skip_ws (l : list ascii) : list ascii := drop_while is_json_ws l.

Definition hex_val (c : ascii) : option Z :=
  let n := code c in
  if (48 <=? n) && (n <=? 57) then Some (n - 48)
  else if (97 <=? n) && (n <=? 102) then Some (n - 87)
  else if (65 <=? n) && (n <=? 70) then Some (n - 55)
  else None.

Definition unescape (c : ascii) : option ascii :=
  let n := code c in
  if n =? 34 then Some dquote
  else if n =? 92 then Some backslash
  else if n =? 47 then Some "/"%char
  else if n =? 98 then Some (ascii_of_nat 8)
  else if n =? 102 then Some (ascii_of_nat 12)
  else if n =? 110 then Some (ascii_of_nat 10)
  else if n =? 114 then Some (ascii_of_nat 13)
  else if n =? 116 then Some (ascii_of_nat 9)
  else None.

(** The characters of a JSON string after its opening quote, up to the
    closing one; returns the decoded text and what follows. *)
Fixpoint parse_string_body (l : list ascii) : outcome (list ascii * list ascii) :=
  match l with
  | [] => Throw "Unterminated string in JSON"
  | c :: r =>
      if code c =? 34 then Ok ([], r)
      else if code c =? 92 then
        match r with
        | [] => Throw "Unterminated string in JSON"
        | e :: r' =>
            if code e =? 117 then
              match r' with
              | h1 :: h2 :: h3 :: h4 :: r'' =>
                  match hex_val h1, hex_val h2, hex_val h3, hex_val h4 with
                  | Some a, Some b, Some c', Some d =>
                      let n := ((a * 16 + b) * 16 + c') * 16 + d in
                      if n <? 128 then
                        p <-? parse_string_body r'' ;;
                        Ok (ascii_of_N (Z.to_N n) :: fst p, snd p)
                      else Stuck "JSON.parse: code unit outside ASCII"
                  | _, _, _, _ => Throw "Bad Unicode escape in JSON"
                  end
              | _ => Throw "Bad Unicode escape in JSON"
              end
            else
              match unescape e with
              | Some x =>
                  p <-? parse_string_body r' ;;
                  Ok (x :: fst p, snd p)
              | None => Throw "Bad escaped character in JSON"
              end
        end
      else if code c <? 32 then Throw "Bad control character in string literal in JSON"
      else if 128 <=? code c then Stuck "JSON.parse: code unit outside ASCII"
      else
        p <-? parse_string_body r ;;
        Ok (c :: fst p, snd p)
  end.

Fixpoint span {A} (p : A -> bool) (l : list A) : list A * list A :=
  match l with
  | [] => ([], [])
  | x :: r => if p x then let '(a, b) := span p r in (x :: a, b) else ([], l)
  end.

(** Whether a fraction or an exponent follows the integer part. *)
Definition fraction_follows (rest : list ascii) : bool :=
  match rest with
  | c :: _ => (code c =? 46) || (code c =? 101) || (code c =? 69)
  | [] => false
  end.

(** The digits of a JSON number, after its sign if it has one: a single
    zero, or a run of digits that does not start with zero. *)
Definition parse_unsigned (neg : bool) (l : list ascii) : outcome (Z * list ascii) :=
  match l with
  | [] => Throw "No number after minus sign in JSON"
  | d :: r =>
      if negb (is_digit d) then Throw "No number after minus sign in JSON"
      else
        let '(ds, rest) := if code d =? 48 then ([d], r) else span is_digit l in
        if fraction_follows rest
        then Stuck "JSON.parse: number outside the integers"
        else
          match digits ds with
          | Some z => Ok (if neg then - z else z, rest)
          | None => Throw "Unexpected token in JSON"
          end
  end.

(** A JSON number; only integers are computed. *)
Definition parse_number (l : list ascii) : outcome (Z * list ascii) :=
  match l with
  | c :: r => if code c =? 45 then parse_unsigned true r else parse_unsigned false l
  | [] => parse_unsigned false l
  end.

Fixpoint strip_prefix (p l : list ascii) : option (list ascii) :=
  match p, l with
  | [], _ => Some l
  | x :: p', y :: l' => if Ascii.eqb x y then strip_prefix p' l' else None
  | _ :: _, [] => None
  end.

Definition parse_value (l : list ascii) : outcome (jsval * list ascii) :=
  match l with
  | [] => Throw "Unexpected end of JSON input"
  | c :: r =>
      if code c =? 34 then
        p <-? parse_string_body r ;; Ok (JStr (str (fst p)), snd p)
      else if (code c =? 45) || is_digit c then
        p <-? parse_number l ;; Ok (JNum (fst p), snd p)
      else if (code c =? 91) || (code c =? 123) then
        Stuck "JSON.parse: nested value"
      else
        match strip_prefix (chars "true") l with
        | Some rest => Ok (JBool true, rest)
        | None =>
            match strip_prefix (chars "false") l with
            | Some rest => Ok (JBool false, rest)
            | None =>
                match strip_prefix (chars "null") l with
                | Some rest => Ok (JNull, rest)
                | None => Throw "Unexpected token in JSON"
                end
            end
        end
  end.

(** The members of an object, from the first key to the closing brace. *)
Fixpoint parse_members (fuel : nat) (l : list ascii)
  : outcome (list (string * jsval) * list ascii) :=
  match fuel with
  | O => Stuck "JSON.parse: out of fuel"
  | S f =>
      match skip_ws l with
      | [] => Throw "Unexpected end of JSON input"
      | c :: r =>
          if code c =? 34 then
            k <-? parse_string_body r ;;
            match skip_ws (snd k) with
            | c2 :: r2 =>
                if code c2 =? 58 then
                  v <-? parse_value (skip_ws r2) ;;
                  match skip_ws (snd v) with
                  | c3 :: r3 =>
                      if code c3 =? 44 then
                        ms <-? parse_members f r3 ;;
                        Ok ((str (fst k), fst v) :: fst ms, snd ms)
                      else if code c3 =? 125 then
                        Ok ([(str (fst k), fst v)], r3)
                      else Throw "Unexpected token in JSON"
                  | [] => Throw "Unexpected end of JSON input"
                  end
                else Throw "Unexpected token in JSON"
            | [] => Throw "Unexpected end of JSON input"
            end
          else Throw "Unexpected token in JSON"
      end
  end.

(** Properties are created in the order of the text; a repeated key keeps
    its first position and takes the last value. *)
Definition obj_of_members (ms : list (string * jsval)) : obj :=
  plain (fold_left (fun acc kv => assoc_set (fst kv) (snd kv) acc) ms []).

(** [JSON.parse(s)] for the text of a flat object.  Other JSON texts are
    valid input to [JSON.parse] but are not records; they are [Stuck]. *)
Definition JSON_parse (s : string) : outcome obj :=
  match skip_ws (chars s) with
  | [] => Throw "Unexpected end of JSON input"
  | c :: r =>
      if code c =? 123 then
        match skip_ws r with
        | c1 :: r1 =>
            if code c1 =? 125 then
              match skip_ws r1 with
              | [] => Ok (plain [])
              | _ => Throw "Unexpected token in JSON"
              end
            else
              ms <-? parse_members (S (length r)) r ;;
              match skip_ws (snd ms) with
              | [] => Ok (obj_of_members (fst ms))
              | _ => Throw "Unexpected token in JSON"
              end
        | [] => Throw "Unexpected end of JSON input"
        end
      else if (code c =? 91) || (code c =? 34) || (code c =? 45) || is_digit c
              || (code c =? 116) || (code c =? 102) || (code c =? 110)
      then Stuck "JSON.parse: text is not an object"
      else Throw "Unexpected token in JSON"
  end.


(** ** Buffers *)

Definition buffer : Type := list Byte.byte.

Definition PAGE_SIZE : Z := 4096.

Definition byte_val (b : Byte.byte) : Z := Z.of_N (Byte.to_N b).

Definition byte_of_Z (z : Z) : Byte.byte :=
  match Byte.of_N (Z.to_N (z mod 256)) with
  | Some b => b
  | None => Byte.x00
  end.

(** [Buffer.alloc(n)] *)
Definition Buffer_alloc (n : Z) : buffer := repeat Byte.x00 (Z.to_nat n).

Definition buf_length (b : buffer) : Z := Z.of_nat (length b).

(** [Buffer.from(s, 'utf8')] *)
Definition Buffer_from (s : string) : buffer := map byte_of_ascii (chars s).

(** [Buffer.byteLength(s, 'utf8')] *)
Definition Buffer_byteLength (s : string) : Z := buf_length (Buffer_from s).

Definition byte_at (b : buffer) (i : Z) : Z :=
  match nth_error b (Z.to_nat i) with
  | Some x => byte_val x
  | None => 0
  end.

(** Overwrite [b] from position [off] with [data]; what does not fit is
    dropped and the length of [b] is kept. *)
Definition blit (b : buffer) (off : Z) (data : list Byte.byte) : buffer :=
  if (off <? 0) || (buf_length b <=? off) then b
  else
    let o := Z.to_nat off in
    let room := (length b - o)%nat in
    let d := firstn room data in
    firstn o b ++ d ++ skipn (o + length d) b.

(** [b.readUInt16LE(off)] *)
Definition readUInt16LE (b : buffer) (off : Z) : outcome Z :=
  if (off <? 0) || (buf_length b - 2 <? off)
  then Throw "ERR_OUT_OF_RANGE"
  else Ok (byte_at b off + 256 * byte_at b (off + 1)).

(** [b.readUInt32LE(off)] *)
Definition readUInt32LE (b : buffer) (off : Z) : outcome Z :=
  if (off <? 0) || (buf_length b - 4 <? off)
  then Throw "ERR_OUT_OF_RANGE"
  else Ok (byte_at b off + 256 * byte_at b (off + 1)
           + 65536 * byte_at b (off + 2) + 16777216 * byte_at b (off + 3)).

(** [b.writeUInt16LE(v, off)] *)
Definition writeUInt16LE (b : buffer) (v off : Z) : outcome buffer :=
  if (v <? 0) || (65535 <? v) then Throw "ERR_OUT_OF_RANGE"
  else if (off <? 0) || (buf_length b - 2 <? off) then Throw "ERR_OUT_OF_RANGE"
  else Ok (blit b off [byte_of_Z v; byte_of_Z (v / 256)]).

(** [b.writeUInt32LE(v, off)] *)
Definition writeUInt32LE (b : buffer) (v off : Z) : outcome buffer :=
  if (v <? 0) || (4294967295 <? v) then Throw "ERR_OUT_OF_RANGE"
  else if (off <? 0) || (buf_length b - 4 <? off) then Throw "ERR_OUT_OF_RANGE"
  else Ok (blit b off [byte_of_Z v; byte_of_Z (v / 256);
                       byte_of_Z (v / 65536); byte_of_Z (v / 16777216)]).

(** [b.slice(s, e)], as a copy: the callers only read it. *)
Definition buf_slice (b : buffer) (s e : Z) : list Byte.byte :=
  let s' := Z.max 0 (Z.min s (buf_length b)) in
  let e' := Z.max s' (Z.min e (buf_length b)) in
  firstn (Z.to_nat (e' - s')) (skipn (Z.to_nat s') b).

(** [b.toString('utf8', s, e)] *)
Definition buf_toString (b : buffer) (s e : Z) : string :=
  str (map ascii_of_byte (buf_slice b s e)).

(** [src.copy(target, targetStart)] *)
Definition buf_copy (src : list Byte.byte) (target : buffer) (targetStart : Z) : buffer :=
  blit target targetStart src.

(** [b.write(s, off, len, 'utf8')] *)
Definition buf_write (b : buffer) (s : string) (off len : Z) : buffer :=
  blit b off (firstn (Z.to_nat len) (Buffer_from s)).

(** [b.fill(0, s, e)] *)
Definition buf_fill0 (b : buffer) (s e : Z) : buffer :=
  let s' := Z.max 0 (Z.min s (buf_length b)) in
  let e' := Z.max s' (Z.min e (buf_length b)) in
  blit b s' (repeat Byte.x00 (Z.to_nat (e' - s'))).

(** ** Events, indexes and the database state *)

Record table_entry : Type := mkEntry {
  entry_index : Z;
  entry_offset : Z;
  startPage : Z;
  lastPage : Z
}.

(** One call of a hook of the event sink, with its arguments. *)
Inductive event : Type :=
| OnTableCreated (name : string) (entry : option table_entry) (aql : string)
| OnTableDropped (name : string) (entry : table_entry) (aql : string)
| OnTableInserted (table : string) (records : list obj) (aql : string)
| OnTableUpdated (table : string) (records : list obj) (aql : string)
| OnTableDeleted (table : string) (records : list obj) (aql : string)
| OnTableSelected (table : string) (records : list obj) (aql : string).

(** Modelled from the spec: the B-tree index module is not part of the
    sources at hand.  An index maps a key to the bucket of record
    references inserted under it; [insert] appends to the bucket, [delete]
    removes one entry of the bucket (the oldest) and drops the key when the
    bucket empties, [search] returns the bucket.  Keys are compared as
    values of the same type.  The order among keys is not observable
    through these three operations, so buckets are kept in order of first
    insertion. *)
Record BTreeIndex : Type := mkIndex {
  index_name : string;
  keyField : string;
  buckets : list (jsval * list obj)
}.

Fixpoint bucket_insert (k : jsval) (r : obj) (bs : list (jsval * list obj))
  : list (jsval * list obj) :=
  match bs with
  | [] => [(k, [r])]
  | (k', rs) :: rest =>
      if jsval_eqb k k' then (k', rs ++ [r]) :: rest
      else (k', rs) :: bucket_insert k r rest
  end.

Fixpoint bucket_delete (k : jsval) (bs : list (jsval * list obj))
  : list (jsval * list obj) :=
  match bs with
  | [] => []
  | (k', rs) :: rest =>
      if jsval_eqb k k' then
        match rs with
        | _ :: (_ :: _) as rs' => (k', rs') :: rest
        | _ => rest
        end
      else (k', rs) :: bucket_delete k rest
  end.

Fixpoint bucket_search (k : jsval) (bs : list (jsval * list obj)) : list obj :=
  match bs with
  | [] => []
  | (k', rs) :: rest => if jsval_eqb k k' then rs else bucket_search k rest
  end.

Definition index_insert (k : jsval) (r : obj) (ix : BTreeIndex) : BTreeIndex :=
  mkIndex (index_name ix) (keyField ix) (bucket_insert k r (buckets ix)).

Definition index_delete (k : jsval) (ix : BTreeIndex) : BTreeIndex :=
  mkIndex (index_name ix) (keyField ix) (bucket_delete k (buckets ix)).

Definition index_search (k : jsany) (ix : BTreeIndex) : list obj :=
  match k with
  | APrim v => bucket_search v (buckets ix)
  | _ => []
  end.

(** The state of one database handle: the page file, the pager's cache of
    decoded pages, the indexes (a [Map] from ["table.field"], in insertion
    order), the calls received by the event sink (oldest first) and the
    text of the query being run. *)
Record db : Type := mkDb {
  file : gmap Z buffer;
  objectCache : gmap Z (Z * list obj);
  indexes : list (string * BTreeIndex);
  events : list event;
  queryString : string
}.

(** ** The monad of engine methods *)

Definition M (A : Type) : Type := db -> outcome A * db.

Definition ret {A} (a : A) : M A := fun s => (Ok a, s).

Definition bind {A B} (m : M A) (k : A -> M B) : M B :=
  fun s =>
    match m s with
    | (Ok a, s') => k a s'
    | (Throw e, s') => (Throw e, s')
    | (Stuck w, s') => (Stuck w, s')
    end.

Notation "x <- m ;; k" := (bind m (fun x => k))
  (at level 90, m at next level, right associativity).
Notation "m ;;; k" := (bind m (fun _ => k))
  (at level 90, right associativity).

Definition throw {A} (msg : string) : M A := fun s => (Throw msg, s).
Definition stuck {A} (why : string) : M A := fun s => (Stuck why, s).
Definition lift {A} (o : outcome A) : M A := fun s => (o, s).
Definition gets {A} (f : db -> A) : M A := fun s => (Ok (f s), s).
Definition modify (f : db -> db) : M unit := fun s => (Ok tt, f s).

(** [try { m } catch (e) { h e }] *)
Definition try_catch {A} (m : M A) (h : string -> M A) : M A :=
  fun s =>
    match m s with
    | (Throw e, s') => h e s'
    | r => r
    end.

Definition emit (e : event) : M unit :=
  modify (fun s => mkDb (file s) (objectCache s) (indexes s) (events s ++ [e]) (queryString s)).

Definition set_indexes (ixs : list (string * BTreeIndex)) : M unit :=
  modify (fun s => mkDb (file s) (objectCache s) ixs (events s) (queryString s)).

(** ** Pager

    [readPage], [writePage] and [allocPage] follow the [Pager] class of
    the engine source.  A page that was never written reads as zeros, as
    a read past the end of the file leaves the fresh buffer. *)

Definition readPage (pageId : Z) : M buffer :=
  if pageId <? 0 then stuck "readPage: negative page id"
  else gets (fun s => match file s !! pageId with
                      | Some b => b
                      | None => Buffer_alloc PAGE_SIZE
                      end).

Definition writePage (pageId : Z) (buf : buffer) : M unit :=
  if negb (buf_length buf =? PAGE_SIZE) then throw "Buffer must be 4KB"
  else if pageId <? 0 then stuck "writePage: negative page id"
  else modify (fun s => mkDb (<[pageId := buf]> (file s)) (delete pageId (objectCache s))
                             (indexes s) (events s) (queryString s)).

Definition allocPage : M Z :=
  page0 <- readPage 0 ;;
  totalPages <- lift (readUInt32LE page0 4) ;;
  let newPageId := totalPages in
  let newTotal := totalPages + 1 in
  page0 <- lift (writeUInt32LE page0 newTotal 4) ;;
  writePage 0 page0 ;;;
  let newPage := Buffer_alloc PAGE_SIZE in
  newPage <- lift (writeUInt32LE newPage 0 0) ;;
  newPage <- lift (writeUInt16LE newPage 0 4) ;;
  newPage <- lift (writeUInt16LE newPage 8 6) ;;
  writePage newPageId newPage ;;;
  ret newPageId.

(** The records of a page, decoded slot by slot; a slot whose text does
    not parse is skipped. *)
Fixpoint decode_items (n : nat) (buf : buffer) (offset : Z) : outcome (list obj) :=
  match n with
  | O => Ok []
  | S n' =>
      len <-? readUInt16LE buf offset ;;
      let jsonStr := buf_toString buf (offset + 2) (offset + 2 + len) in
      rest <-? decode_items n' buf (offset + 2 + len) ;;
      match JSON_parse jsonStr with
      | Ok o => Ok (o :: rest)
      | Throw _ => Ok rest
      | Stuck w => Stuck w
      end
  end.

(** Modelled from the spec: [readPageObjects] belongs to the pager module
    that is not part of the sources at hand.  It is a read-through cache
    that decodes a page into [{next, items}]; an entry is dropped by any
    [writePage] of that page. *)
Definition readPageObjects (pageId : Z) : M (Z * list obj) :=
  cached <- gets (fun s => objectCache s !! pageId) ;;
  match cached with
  | Some e => ret e
  | None =>
      buf <- readPage pageId ;;
      next <- lift (readUInt32LE buf 0) ;;
      count <- lift (readUInt16LE buf 4) ;;
      items <- lift (decode_items (Z.to_nat count) buf 8) ;;
      modify (fun s => mkDb (file s) (<[pageId := (next, items)]> (objectCache s))
                            (indexes s) (events s) (queryString s)) ;;;
      ret (next, items)
  end.

(** ** Regular expressions

    [new RegExp(src, 'i').test(s)] for the fragment of the pattern
    language that the engine's LIKE translations can produce from plain
    text: literal characters, [.], identity escapes, the quantifiers
    [*], [+] and [?], and the assertions [^] and [$].  Groups, classes,
    alternation, braces and letter escapes are outside the fragment
    ([Stuck]). *)

Inductive atom : Type :=
| AChar (c : ascii)
| AAny.

Inductive quant : Type := QOne | QStar | QPlus | QOpt.

Inductive term : Type :=
| TAtom (a : atom) (q : quant)
| TBol
| TEol.

Definition regex : Type := list term.

Inductive tok : Type :=
| KAtom (a : atom)
| KStar | KPlus | KQuest
| KBol | KEol
| KUnsupported
| KDangling.

Definition is_alnum (c : ascii) : bool :=
  let n := code c in
  is_digit c || ((65 <=? n) && (n <=? 90)) || ((97 <=? n) && (n <=? 122)).

Fixpoint tokenize (l : list ascii) : list tok :=
  match l with
  | [] => []
  | c :: r =>
      let n := code c in
      if n =? 92 then
        match r with
        | [] => [KDangling]
        | e :: r' => (if is_alnum e then KUnsupported else KAtom (AChar e)) :: tokenize r'
        end
      else if n =? 46 then KAtom AAny :: tokenize r
      else if n =? 42 then KStar :: tokenize r
      else if n =? 43 then KPlus :: tokenize r
      else if n =? 63 then KQuest :: tokenize r
      else if n =? 94 then KBol :: tokenize r
      else if n =? 36 then KEol :: tokenize r
      else if (n =? 40) || (n =? 41) || (n =? 91) || (n =? 93)
              || (n =? 123) || (n =? 125) || (n =? 124)
      then KUnsupported :: tokenize r
      else KAtom (AChar c) :: tokenize r
  end.

Fixpoint assemble (ts : list tok) : outcome regex :=
  let lazy_mark (r : list tok) : list tok :=
    match r with KQuest :: r' => r' | _ => r end in
  match ts with
  | [] => Ok []
  | t :: r =>
      match t with
      | KStar | KPlus | KQuest => Throw "Invalid regular expression: Nothing to repeat"
      | KDangling => Throw "Invalid regular expression: \ at end of pattern"
      | KUnsupported => Stuck "RegExp: construct outside the modelled fragment"
      | KBol => rs <-? assemble r ;; Ok (TBol :: rs)
      | KEol => rs <-? assemble r ;; Ok (TEol :: rs)
      | KAtom a =>
          match r with
          | KStar :: r1 =>
              match r1 with
              | KQuest :: r2 => rs <-? assemble r2 ;; Ok (TAtom a QStar :: rs)
              | _ => rs <-? assemble r1 ;; Ok (TAtom a QStar :: rs)
              end
          | KPlus :: r1 =>
              match r1 with
              | KQuest :: r2 => rs <-? assemble r2 ;; Ok (TAtom a QPlus :: rs)
              | _ => rs <-? assemble r1 ;; Ok (TAtom a QPlus :: rs)
              end
          | KQuest :: r1 =>
              match r1 with
              | KQuest :: r2 => rs <-? assemble r2 ;; Ok (TAtom a QOpt :: rs)
              | _ => rs <-? assemble r1 ;; Ok (TAtom a QOpt :: rs)
              end
          | _ => rs <-? assemble r ;; Ok (TAtom a QOne :: rs)
          end
      end
  end.

Definition RegExp (src : string) : outcome regex := assemble (tokenize (chars src)).

(** Case folding of the [i] flag on ASCII. *)
Definition canonicalize (c : ascii) : Z :=
  let n := code c in
  if (97 <=? n) && (n <=? 122) then n - 32 else n.

Definition atom_match (a : atom) (c : ascii) : bool :=
  match a with
  | AChar x => canonicalize x =? canonicalize c
  | AAny => negb ((code c =? 10) || (code c =? 13))
  end.

Definition step (a : atom) (k : list ascii -> bool -> bool) (s : list ascii) : bool :=
  match s with
  | c :: s' => atom_match a c && k s' false
  | [] => false
  end.

Fixpoint star (a : atom) (k : list ascii -> bool -> bool) (s : list ascii) (at_start : bool) : bool :=
  k s at_start ||
  match s with
  | c :: s' => atom_match a c && star a k s' false
  | [] => false
  end.

(** [match_here r s at_start]: some prefix of [s] matches [r], where
    [at_start] tells whether [s] begins at the start of the input. *)
Fixpoint match_here (r : regex) : list ascii -> bool -> bool :=
  match r with
  | [] => fun _ _ => true
  | t :: r' =>
      let k := match_here r' in
      match t with
      | TBol => fun s at_start => at_start && k s at_start
      | TEol => fun s at_start => match s with [] => k s at_start | _ => false end
      | TAtom a QOne => fun s _ => step a k s
      | TAtom a QOpt => fun s at_start => k s at_start || step a k s
      | TAtom a QStar => star a k
      | TAtom a QPlus => fun s _ => step a (star a k) s
      end
  end.

Fixpoint match_anywhere (r : regex) (s : list ascii) (at_start : bool) : bool :=
  match_here r s at_start ||
  match s with
  | _ :: s' => match_anywhere r s' false
  | [] => false
  end.

(** [new RegExp(src, 'i').test(s)] *)
Definition RegExp_test (src : string) (s : string) : outcome bool :=
  r <-? RegExp src ;;
  Ok (match_anywhere r (chars s) true).

(** [s.replace(/[.*+?^${}()|[\]\\]/g, '\\$&')] *)
Definition is_regex_meta (c : ascii) : bool :=
  let n := code c in
  (n =? 46) || (n =? 42) || (n =? 43) || (n =? 63) || (n =? 94) || (n =? 36)
  || (n =? 123) || (n =? 125) || (n =? 40) || (n =? 41) || (n =? 124)
  || (n =? 91) || (n =? 93) || (n =? 92).

Definition escape_regex (l : list ascii) : list ascii :=
  flat_map (fun c => if is_regex_meta c then [backslash; c] else [c]) l.

(** [s.replace(/%/g, '.*').replace(/_/g, '.')] *)
Definition like_wildcards (l : list ascii) : list ascii :=
  flat_map (fun c => if code c =? 95 then ["."%char] else [c])
    (flat_map (fun c => if code c =? 37 then ["."%char; "*"%char] else [c]) l).

(** [String(val)] where [val] may be undefined. *)
Definition String_of (v : option jsval) : string :=
  match v with
  | None => "undefined"
  | Some x => ToString x
  end.

(** ** Criteria *)

#[local] Set Warnings "-register-all".

Inductive criteria : Type :=
| Leaf (key : string) (op : string) (val : jsany)
| Compound (logic : string) (conditions : list criteria).

(** [target[i]] *)
Definition target_at (t : jsany) (i : nat) : outcome (option jsval) :=
  match t with
  | AUndef => Throw "TypeError: Cannot read properties of undefined"
  | APrim JNull => Throw "TypeError: Cannot read properties of null"
  | APrim (JStr s) =>
      Ok (match nth_error (chars s) i with
          | Some c => Some (JStr (str [c]))
          | None => None
          end)
  | APrim _ => Ok None
  | AArr l => Ok (nth_error l i)
  end.

(** [Array.isArray(target) && target.includes(val)] *)
Definition array_includes (t : jsany) (v : option jsval) : option bool :=
  match t with
  | AArr l => Some (existsb (fun x => strict_eq v (Some x)) l)
  | _ => None
  end.

Definition typeof_number_any (t : jsany) : bool :=
  match t with APrim (JNum _) => true | _ => false end.

Definition _checkSingleCondition (o : obj) (key op : string) (target : jsany)
  : outcome bool :=
  let val := obj_get o key in
  if String.eqb op "=" then
    if is_number val || typeof_number_any target then
      a <-? ToNumber val ;; b <-? ToNumber_any target ;; Ok (jnum_eqb a b)
    else Ok (strict_eq_any val target)
  else if String.eqb op "!=" then
    if is_number val || typeof_number_any target then
      a <-? ToNumber val ;; b <-? ToNumber_any target ;; Ok (negb (jnum_eqb a b))
    else Ok (negb (strict_eq_any val target))
  else if String.eqb op ">" then js_gt val (ToPrimitive target)
  else if String.eqb op "<" then js_lt val (ToPrimitive target)
  else if String.eqb op ">=" then js_ge val (ToPrimitive target)
  else if String.eqb op "<=" then js_le val (ToPrimitive target)
  else if String.eqb op "IN" then
    Ok (match array_includes target val with Some b => b | None => false end)
  else if String.eqb op "NOT IN" then
    Ok (match array_includes target val with Some b => negb b | None => false end)
  else if String.eqb op "LIKE" then
    match target with
    | APrim (JStr pat) =>
        let escaped := escape_regex (chars pat) in
        let regexStr := str ("^"%char :: like_wildcards escaped ++ ["$"%char]) in
        RegExp_test regexStr (String_of val)
    | _ => Throw "TypeError: target.replace is not a function"
    end
  else if String.eqb op "BETWEEN" then
    lo <-? target_at target 0 ;;
    ge <-? js_ge val lo ;;
    if ge then hi <-? target_at target 1 ;; js_le val hi else Ok false
  else if String.eqb op "IS NULL" then
    Ok (match val with None | Some JNull => true | _ => false end)
  else if String.eqb op "IS NOT NULL" then
    Ok (match val with None | Some JNull => false | _ => true end)
  else Ok false.

(** [_checkMatch(obj, criteria)] for a criteria object.  A condition of a
    compound is passed on to [_checkMatch] when it is itself compound and
    to [_checkSingleCondition] otherwise; the recursion below makes the
    same case distinction. *)
Fixpoint checkMatch_criteria (o : obj) (c : criteria) : outcome bool :=
  match c with
  | Leaf key op val => _checkSingleCondition o key op val
  | Compound logic conditions =>
      let is_or := String.eqb logic "OR" in
      (fix loop (cs : list criteria) (result : bool) : outcome bool :=
         match cs with
         | [] => Ok result
         | cond :: rest =>
             matches <-? checkMatch_criteria o cond ;;
             if is_or then
               let result := result || matches in
               if result then Ok true else loop rest result
             else
               let result := result && matches in
               if negb result then Ok false else loop rest result
         end) conditions (if is_or then false else true)
  end.

(** [_checkMatch(obj, criteria)]; [None] is a missing criteria. *)
Definition _checkMatch (o : obj) (c : option criteria) : outcome bool :=
  match c with
  | None => Ok true
  | Some c => checkMatch_criteria o c
  end.

(** ** The catalog *)

Definition strip_nul (s : string) : string :=
  str (filter (fun c => negb (code c =? 0)) (chars s)).

Fixpoint find_entry_loop (n : nat) (p0 : buffer) (name : string) (i offset : Z)
  : outcome (option table_entry) :=
  match n with
  | O => Ok None
  | S n' =>
      let tName := strip_nul (buf_toString p0 offset (offset + 32)) in
      if String.eqb tName name then
        sp <-? readUInt32LE p0 (offset + 32) ;;
        lp <-? readUInt32LE p0 (offset + 36) ;;
        Ok (Some (mkEntry i offset sp lp))
      else find_entry_loop n' p0 name (i + 1) (offset + 40)
  end.

Definition _findTableEntry (name : string) : M (option table_entry) :=
  p0 <- readPage 0 ;;
  numTables <- lift (readUInt32LE p0 8) ;;
  lift (find_entry_loop (Z.to_nat numTables) p0 name 0 12).

Definition _updateTableLastPage (name : string) (newLastPageId : Z) : M unit :=
  entry <- _findTableEntry name ;;
  match entry with
  | None => throw "Internal Error: Table missing for update"
  | Some entry =>
      p0 <- readPage 0 ;;
      p0 <- lift (writeUInt32LE p0 newLastPageId (entry_offset entry + 36)) ;;
      writePage 0 p0
  end.

Definition not_found (table : string) : string :=
  ("Kebun '" ++ table ++ "' tidak ditemukan.")%string.

(** ** Index maintenance *)

(** [s.split('.')] *)
Fixpoint split_dot_aux (cur : list ascii) (l : list ascii) : list string :=
  match l with
  | [] => [str (rev cur)]
  | c :: r =>
      if code c =? 46 then str (rev cur) :: split_dot_aux [] r
      else split_dot_aux (c :: cur) r
  end.

Definition split_dot (s : string) : list string := split_dot_aux [] (chars s).

(** [const [tbl, field] = indexKey.split('.')] *)
Definition index_key_parts (indexKey : string) : string * string :=
  match split_dot indexKey with
  | tbl :: field :: _ => (tbl, field)
  | [tbl] => (tbl, "undefined")
  | [] => ("undefined", "undefined")
  end.

Definition has_index (ixs : list (string * BTreeIndex)) (indexKey : string) : bool :=
  match assoc indexKey ixs with Some _ => true | None => false end.

Definition _updateIndexes_one (table : string) (newObj oldObj : option obj)
    (entry : string * BTreeIndex) : string * BTreeIndex :=
  let '(indexKey, index) := entry in
  let '(tbl, field) := index_key_parts indexKey in
  if negb (String.eqb tbl table) then entry
  else
    let index :=
      match oldObj with
      | Some old =>
          if hasOwnProperty old field then
            match obj_get old field with
            | Some oldv =>
                if match newObj with
                   | None => true
                   | Some new => negb (strict_eq (obj_get new field) (Some oldv))
                   end
                then index_delete oldv index else index
            | None => index
            end
          else index
      | None => index
      end in
    let index :=
      match newObj with
      | Some new =>
          if hasOwnProperty new field then
            match obj_get new field with
            | Some newv =>
                if match oldObj with
                   | None => true
                   | Some old => negb (strict_eq (Some newv) (obj_get old field))
                   end
                then index_insert newv new index else index
            | None => index
            end
          else index
      | None => index
      end in
    (indexKey, index).

(** [_updateIndexes(table, newObj, oldObj)] *)
Definition _updateIndexes (table : string) (newObj oldObj : option obj) : M unit :=
  ixs <- gets indexes ;;
  set_indexes (map (_updateIndexes_one table newObj oldObj) ixs).

Definition _removeFromIndexes_one (table : string) (data : obj)
    (entry : string * BTreeIndex) : string * BTreeIndex :=
  let '(indexKey, index) := entry in
  let '(tbl, field) := index_key_parts indexKey in
  if String.eqb tbl table && hasOwnProperty data field then
    match obj_get data field with
    | Some v => (indexKey, index_delete v index)
    | None => entry
    end
  else entry.

(** [_removeFromIndexes(table, data)] *)
Definition _removeFromIndexes (table : string) (data : obj) : M unit :=
  ixs <- gets indexes ;;
  set_indexes (map (_removeFromIndexes_one table data) ixs).

(** ** INSERT *)

Record insert_state : Type := mkIns {
  ins_page : Z;
  ins_buf : buffer;
  ins_free : Z;
  ins_count : Z;
  ins_changed : bool
}.

(** [pData.writeUInt16LE(recordLen, freeOffset);
     dataBuf.copy(pData, freeOffset + 2)] *)
Definition store_record (pData : buffer) (freeOffset : Z) (dataBuf : list Byte.byte)
  : outcome buffer :=
  pData <-? writeUInt16LE pData (buf_length dataBuf) freeOffset ;;
  Ok (buf_copy dataBuf pData (freeOffset + 2)).

(** One turn of the loop of [_insertMany]; returns the record with its
    page hint attached. *)
Definition _insertMany_step (table : string) (st : insert_state) (data : obj)
  : M (insert_state * obj) :=
  let dataStr := JSON_stringify data in
  let dataBuf := Buffer_from dataStr in
  let recordLen := buf_length dataBuf in
  let totalLen := 2 + recordLen in
  st <-
    (if PAGE_SIZE <? ins_free st + totalLen then
       pData <- lift (writeUInt16LE (ins_buf st) (ins_count st) 4) ;;
       pData <- lift (writeUInt16LE pData (ins_free st) 6) ;;
       writePage (ins_page st) pData ;;;
       newPageId <- allocPage ;;
       pData <- lift (writeUInt32LE pData newPageId 0) ;;
       writePage (ins_page st) pData ;;;
       let currentPageId := newPageId in
       pData <- readPage currentPageId ;;
       freeOffset <- lift (readUInt16LE pData 6) ;;
       count <- lift (readUInt16LE pData 4) ;;
       ret (mkIns currentPageId pData freeOffset count true)
     else ret st) ;;
  pData <- lift (store_record (ins_buf st) (ins_free st) dataBuf) ;;
  let freeOffset := ins_free st + totalLen in
  let count := ins_count st + 1 in
  let data := define_pageId data (ins_page st) in
  (if negb (String.eqb table "_indexes")
   then _updateIndexes table (Some data) None
   else ret tt) ;;;
  ret (mkIns (ins_page st) pData freeOffset count (ins_changed st), data).

Fixpoint _insertMany_loop (table : string) (st : insert_state) (dataArray : list obj)
  : M (insert_state * list obj) :=
  match dataArray with
  | [] => ret (st, [])
  | data :: rest =>
      r <- _insertMany_step table st data ;;
      r' <- _insertMany_loop table (fst r) rest ;;
      ret (fst r', snd r :: snd r')
  end.

Definition inserted_message (n : nat) : string :=
  (string_of_Z (Z.of_nat n) ++ " bibit tertanam.")%string.

Definition _insertMany (table : string) (dataArray : list obj) : M string :=
  match dataArray with
  | [] => ret "Tidak ada bibit untuk ditanam."
  | _ =>
      entry <- _findTableEntry table ;;
      match entry with
      | None => throw (not_found table)
      | Some entry =>
          let currentPageId := lastPage entry in
          pData <- readPage currentPageId ;;
          freeOffset <- lift (readUInt16LE pData 6) ;;
          count <- lift (readUInt16LE pData 4) ;;
          r <- _insertMany_loop table (mkIns currentPageId pData freeOffset count false) dataArray ;;
          let st := fst r in
          pData <- lift (writeUInt16LE (ins_buf st) (ins_count st) 4) ;;
          pData <- lift (writeUInt16LE pData (ins_free st) 6) ;;
          writePage (ins_page st) pData ;;;
          (if ins_changed st then _updateTableLastPage table (ins_page st) else ret tt) ;;;
          q <- gets queryString ;;
          emit (OnTableInserted table (snd r) q) ;;;
          ret (inserted_message (length dataArray))
      end
  end.

Definition _insert (table : string) (data : obj) : M string :=
  match fields data with
  | [] => throw "Data kosong / fiktif? Ini melanggar integritas (Korupsi Data)."
  | _ => _insertMany table [data]
  end.

(** ** Scans *)

(** [limit || Infinity]: [None] is no bound. *)
Definition effective_limit (limit : option Z) : option Z :=
  match limit with
  | Some l => if l =? 0 then None else Some l
  | None => None
  end.

(** [results.length < effectiveLimit] *)
Definition below_limit (n : nat) (lim : option Z) : bool :=
  match lim with
  | None => true
  | Some l => Z.of_nat n <? l
  end.

(** [criteria && !criteria.type && criteria.key && criteria.op] *)
Definition simple_criteria (c : option criteria) : option (string * string * jsany) :=
  match c with
  | Some (Leaf key op val) =>
      if negb (String.eqb key "") && negb (String.eqb op "")
      then Some (key, op, val) else None
  | _ => None
  end.

(** The inlined condition check of the scan loop. *)
Definition scan_matches (c : option criteria) (o : obj) : outcome bool :=
  match simple_criteria c with
  | Some (criteriaKey, criteriaOp, criteriaVal) =>
      let val := obj_get o criteriaKey in
      if String.eqb criteriaOp "=" then loose_eq_any val criteriaVal
      else if String.eqb criteriaOp ">" then js_gt val (ToPrimitive criteriaVal)
      else if String.eqb criteriaOp "<" then js_lt val (ToPrimitive criteriaVal)
      else if String.eqb criteriaOp ">=" then js_ge val (ToPrimitive criteriaVal)
      else if String.eqb criteriaOp "<=" then js_le val (ToPrimitive criteriaVal)
      else if String.eqb criteriaOp "!=" then
        b <-? loose_eq_any val criteriaVal ;; Ok (negb b)
      else if String.eqb criteriaOp "LIKE" then
        match criteriaVal with
        | APrim (JStr pat) =>
            let pattern := like_wildcards (chars pat) in
            RegExp_test (str ("^"%char :: pattern ++ ["$"%char])) (String_of val)
        | _ => Throw "TypeError: criteriaVal.replace is not a function"
        end
      else _checkMatch o c
  | None =>
      match c with
      | Some _ => _checkMatch o c
      | None => Ok true
      end
  end.

(** The loop over the items of one page.  Returns the results so far and
    the items as the loop leaves them (with a page hint on those it
    returned, in raw mode). *)
Fixpoint scan_items (c : option criteria) (lim : option Z) (returnRaw : bool)
    (currentPageId : Z) (items : list obj) (results : list obj)
  : outcome (list obj * list obj) :=
  match items with
  | [] => Ok (results, [])
  | o :: rest =>
      if negb (below_limit (length results) lim) then Ok (results, items)
      else
        matches <-? scan_matches c o ;;
        let o' := if matches && returnRaw then define_pageId o currentPageId else o in
        let results := if matches then results ++ [o'] else results in
        r <-? scan_items c lim returnRaw currentPageId rest results ;;
        Ok (fst r, o' :: snd r)
  end.

Fixpoint scan_pages (fuel : nat) (c : option criteria) (lim : option Z) (returnRaw : bool)
    (currentPageId : Z) (results : list obj) : M (list obj) :=
  if (currentPageId =? 0) || negb (below_limit (length results) lim) then ret results
  else
    match fuel with
    | O => stuck "scan: out of fuel"
    | S fuel' =>
        pageData <- readPageObjects currentPageId ;;
        r <- lift (scan_items c lim returnRaw currentPageId (snd pageData) results) ;;
        (if returnRaw then
           modify (fun s => mkDb (file s)
                                 (<[currentPageId := (fst pageData, snd r)]> (objectCache s))
                                 (indexes s) (events s) (queryString s))
         else ret tt) ;;;
        scan_pages fuel' c lim returnRaw (fst pageData) (fst r)
    end.

(** [_scanTable(entry, criteria, limit, returnRaw)] *)
Definition _scanTable (fuel : nat) (entry : table_entry) (c : option criteria)
    (limit : option Z) (returnRaw : bool) : M (list obj) :=
  scan_pages fuel c (effective_limit limit) returnRaw (startPage entry) [].

(** ** SELECT *)

Record sort_spec : Type := mkSort { sort_key : string; sort_dir : string }.

Record on_clause : Type := mkOn { on_left : string; on_op : string; on_right : string }.

(** A join of the command: [type] may be missing (the empty string here),
    and a CROSS join has no [on]. *)
Record join_spec : Type := mkJoin {
  join_table : string;
  join_type : string;
  join_on : option on_clause
}.

(** The comparator passed to [results.sort]. *)
Definition sort_compare (sort : sort_spec) (a b : obj) : outcome Z :=
  let valA := obj_get a (sort_key sort) in
  let valB := obj_get b (sort_key sort) in
  lt <-? js_lt valA valB ;;
  if lt then Ok (if String.eqb (sort_dir sort) "asc" then -1 else 1)
  else
    gt <-? js_gt valA valB ;;
    if gt then Ok (if String.eqb (sort_dir sort) "asc" then 1 else -1)
    else Ok 0.

(** [Array.prototype.sort] is stable; it is modelled by insertion from
    the right, which puts an element in front of the first later element
    it does not follow.  (For a comparator that is not a consistent order
    the result of the real sort depends on the engine.) *)
Fixpoint sort_insert (cmp : obj -> obj -> outcome Z) (x : obj) (l : list obj)
  : outcome (list obj) :=
  match l with
  | [] => Ok [x]
  | y :: r =>
      c <-? cmp x y ;;
      if c <=? 0 then Ok (x :: y :: r)
      else r' <-? sort_insert cmp x r ;; Ok (y :: r')
  end.

Fixpoint js_sort (cmp : obj -> obj -> outcome Z) (l : list obj) : outcome (list obj) :=
  match l with
  | [] => Ok []
  | x :: r => r' <-? js_sort cmp r ;; sort_insert cmp x r'
  end.

(** [a.slice(start, end)] *)
Definition js_slice {A} (l : list A) (start stop : Z) : list A :=
  let len := Z.of_nat (length l) in
  let from := if start <? 0 then Z.max (len + start) 0 else Z.min start len in
  let to := if stop <? 0 then Z.max (len + stop) 0 else Z.min stop len in
  firstn (Z.to_nat (to - from)) (skipn (Z.to_nat from) l).

(** The offset and limit step at the end of [_select]. *)
Definition limit_offset {A} (results : list A) (limit offsetCount : option Z) : list A :=
  let len := Z.of_nat (length results) in
  let start := 0 in
  let stop := len in
  let start := match offsetCount with
               | Some o => if o =? 0 then start else o
               | None => start
               end in
  let stop := match limit with
              | Some l => if l =? 0 then stop else start + l
              | None => stop
              end in
  let stop := if len <? stop then len else stop in
  let start := if len <? start then len else start in
  js_slice results start stop.

(** How [_select] gets at the rows. *)
Inductive access_path : Type :=
| JoinPipeline
| IndexProbe (indexKey : string) (key : jsany)
| TableScan (scanLimit : option Z).

(** The branching at the head of [_select]: joins first; otherwise the
    index when the criteria has [op === '='], no sort is asked for and an
    index is registered under ["table.key"]; otherwise a scan, which
    takes the limit only when there is no sort. *)
Definition select_access_path (ixs : list (string * BTreeIndex)) (table : string)
    (c : option criteria) (sort : option sort_spec) (limit : option Z)
    (joins : list join_spec) : access_path :=
  let scanLimit := match sort with Some _ => None | None => limit end in
  match joins with
  | _ :: _ => JoinPipeline
  | [] =>
      match c, sort with
      | Some (Leaf key op val), None =>
          if String.eqb op "=" then
            let indexKey := (table ++ "." ++ key)%string in
            if has_index ixs indexKey then IndexProbe indexKey val
            else TableScan scanLimit
          else TableScan scanLimit
      | _, _ => TableScan scanLimit
      end
  end.

(** [_select(table, criteria, sort, limit, offsetCount, joins)], for a
    command without joins.  The branch for a command with joins is
    [_select_joins], further down; [_select] itself is [Stuck] on a list
    of joins that is not empty. *)
Definition _select (fuel : nat) (table : string) (c : option criteria)
    (sort : option sort_spec) (limit offsetCount : option Z) (joins : list join_spec)
  : M (list obj) :=
  entry <- _findTableEntry table ;;
  match entry with
  | None => throw (not_found table)
  | Some entry =>
      ixs <- gets indexes ;;
      results <-
        match select_access_path ixs table c sort limit joins with
        | JoinPipeline => stuck "_select: joins are not modelled"
        | IndexProbe indexKey key =>
            match assoc indexKey ixs with
            | Some index => ret (index_search key index)
            | None => ret []
            end
        | TableScan scanLimit => _scanTable fuel entry c scanLimit false
        end ;;
      results <-
        match sort with
        | Some sort => lift (js_sort (sort_compare sort) results)
        | None => ret results
        end ;;
      let results := limit_offset results limit offsetCount in
      q <- gets queryString ;;
      emit (OnTableSelected table results q) ;;;
      ret results
  end.

(** ** DELETE *)

(** [searchRes.length > 0 && searchRes[0]._pageId !== undefined]: the page
    hint of the first index entry, or [-1]. *)
Definition index_hint (ixs : list (string * BTreeIndex)) (table : string)
    (c : option criteria) : outcome Z :=
  match c with
  | Some (Leaf key op val) =>
      if String.eqb op "=" && negb (String.eqb key "") then
        match assoc (table ++ "." ++ key)%string ixs with
        | Some index =>
            match index_search val index with
            | first :: _ =>
                match obj_get first "_pageId" with
                | Some (JNum p) => Ok p
                | Some _ => Stuck "page hint is not a number"
                | None => Ok (-1)
                end
            | [] => Ok (-1)
            end
        | None => Ok (-1)
        end
      else Ok (-1)
  | _ => Ok (-1)
  end.

Record kept_record : Type := mkKept { kept_len : Z; kept_data : list Byte.byte }.

Record delete_page_state : Type := mkDelPage {
  del_offset : Z;
  del_keep : list kept_record;
  del_modified : bool;
  del_count : Z;
  del_data : list obj
}.

(** The loop over the [count] slots of one page in [_delete].  The kept
    slices are views of the page in the source; they are read before any
    byte they cover is overwritten, so copies behave the same. *)
Fixpoint _delete_slots (n : nat) (table : string) (c : option criteria)
    (pData : buffer) (st : delete_page_state) : M delete_page_state :=
  match n with
  | O => ret st
  | S n' =>
      let offset := del_offset st in
      len <- lift (readUInt16LE pData offset) ;;
      let jsonStr := buf_toString pData (offset + 2) (offset + 2 + len) in
      let attempt :=
        parsedObj <-? JSON_parse jsonStr ;;
        m <-? _checkMatch parsedObj c ;;
        Ok (parsedObj, m) in
      shouldDelete <-
        match attempt with
        | Ok (parsedObj, true) => ret (Some parsedObj)
        | Ok (_, false) => ret None
        | Throw _ => ret None
        | Stuck w => stuck w
        end ;;
      st <-
        match shouldDelete with
        | Some parsedObj =>
            (if negb (String.eqb table "_indexes")
             then _removeFromIndexes table parsedObj else ret tt) ;;;
            ret (mkDelPage offset (del_keep st) true (del_count st + 1)
                           (del_data st ++ [parsedObj]))
        | None =>
            ret (mkDelPage offset
                           (del_keep st ++ [mkKept len (buf_slice pData (offset + 2) (offset + 2 + len))])
                           (del_modified st) (del_count st) (del_data st))
        end ;;
      _delete_slots n' table c pData
        (mkDelPage (offset + 2 + len) (del_keep st) (del_modified st) (del_count st) (del_data st))
  end.

(** Packing the kept records from offset 8. *)
Fixpoint write_kept (recs : list kept_record) (pData : buffer) (writeOffset : Z)
  : outcome (buffer * Z) :=
  match recs with
  | [] => Ok (pData, writeOffset)
  | rec :: rest =>
      pData <-? writeUInt16LE pData (kept_len rec) writeOffset ;;
      let pData := buf_copy (kept_data rec) pData (writeOffset + 2) in
      write_kept rest pData (writeOffset + 2 + kept_len rec)
  end.

Definition compact_page (recs : list kept_record) (pData : buffer) : outcome buffer :=
  pData <-? writeUInt16LE pData (Z.of_nat (length recs)) 4 ;;
  r <-? write_kept recs pData 8 ;;
  let '(pData, writeOffset) := r in
  pData <-? writeUInt16LE pData writeOffset 6 ;;
  Ok (buf_fill0 pData writeOffset (buf_length pData)).

(** The [while (currentPageId !== 0)] loop of [_delete]. *)
Fixpoint _delete_pages (fuel : nat) (table : string) (c : option criteria)
    (hintPageId : Z) (currentPageId : Z) (deletedCount : Z) (deletedData : list obj)
  : M (Z * list obj) :=
  if currentPageId =? 0 then ret (deletedCount, deletedData)
  else
    match fuel with
    | O => stuck "delete: out of fuel"
    | S fuel' =>
        pData <- readPage currentPageId ;;
        count <- lift (readUInt16LE pData 4) ;;
        st <- _delete_slots (Z.to_nat count) table c pData
                (mkDelPage 8 [] false deletedCount deletedData) ;;
        pData <-
          (if del_modified st then
             pData <- lift (compact_page (del_keep st) pData) ;;
             writePage currentPageId pData ;;;
             ret pData
           else ret pData) ;;
        if negb (hintPageId =? -1) then ret (del_count st, del_data st)
        else
          next <- lift (readUInt32LE pData 0) ;;
          _delete_pages fuel' table c hintPageId next (del_count st) (del_data st)
    end.

Definition deleted_message (n : Z) : string :=
  ("Berhasil menggusur " ++ string_of_Z n ++ " bibit.")%string.

(** The body of [_delete(table, criteria, forceFullScan)]; [again] stands
    for the call [this._delete(table, criteria, true)]. *)
Definition _delete_body (again : M string) (fuel : nat) (table : string)
    (c : option criteria) (forceFullScan : bool) : M string :=
  entry <- _findTableEntry table ;;
  match entry with
  | None => throw (not_found table)
  | Some entry =>
      ixs <- gets indexes ;;
      hintPageId <- (if forceFullScan then ret (-1) else lift (index_hint ixs table c)) ;;
      let currentPageId := if negb (hintPageId =? -1) then hintPageId else startPage entry in
      r <- _delete_pages fuel table c hintPageId currentPageId 0 [] ;;
      let '(deletedCount, deletedData) := r in
      if negb (hintPageId =? -1) && (deletedCount =? 0) then again
      else
        q <- gets queryString ;;
        emit (OnTableInserted table deletedData q) ;;;
        ret (deleted_message deletedCount)
  end.

(** [_delete(table, criteria, forceFullScan)].  A call with
    [forceFullScan] looks for no hint, so it never calls itself again. *)
Definition _delete (fuel : nat) (table : string) (c : option criteria)
    (forceFullScan : bool) : M string :=
  _delete_body
    (_delete_body (stuck "_delete: second fallback") fuel table c true)
    fuel table c forceFullScan.

(** ** UPDATE *)

Record update_page_state : Type := mkUpdPage {
  upd_offset : Z;
  upd_buf : buffer;
  upd_modified : bool;
  upd_count : Z;
  upd_data : list obj;
  upd_break : bool
}.

(** [for (const k in updates) obj[k] = updates[k]] *)
Definition apply_updates (o : obj) (updates : list (string * jsval)) : obj :=
  fold_left (fun acc kv => obj_set acc (fst kv) (snd kv)) updates o.

(** The record [_update] serializes: the updates applied, then the page
    hint defined on it. *)
Definition updated_record (o : obj) (updates : list (string * jsval)) (pageId : Z) : obj :=
  define_pageId (apply_updates o updates) pageId.

(** The in-place rewrite of a slot of [len] bytes at [offset]: the new
    length, the new text, and zeros over what is left of the old text. *)
Definition write_in_place (pData : buffer) (offset len : Z) (newJsonStr : string)
  : outcome buffer :=
  let newLen := Buffer_byteLength newJsonStr in
  pData <-? writeUInt16LE pData newLen offset ;;
  let pData := buf_write pData newJsonStr (offset + 2) newLen in
  Ok (if newLen <? len
      then buf_fill0 pData (offset + 2 + newLen) (offset + 2 + len)
      else pData).

(** The loop over the slots of one page in [_update].  The body of the
    [try] leaves the loop state as it found it when something is thrown
    inside; what it did to the database stays. *)
Fixpoint _update_slots (n : nat) (fuel : nat) (table : string)
    (updates : list (string * jsval)) (c : option criteria) (currentPageId : Z)
    (st : update_page_state) : M update_page_state :=
  match n with
  | O => ret st
  | S n' =>
      let offset := upd_offset st in
      let pData := upd_buf st in
      len <- lift (readUInt16LE pData offset) ;;
      let jsonStr := buf_toString pData (offset + 2) (offset + 2 + len) in
      st <-
        try_catch
          (o <- lift (JSON_parse jsonStr) ;;
           m <- lift (_checkMatch o c) ;;
           if m then
             let originalObj := spread o in
             let o := updated_record o updates currentPageId in
             _updateIndexes table (Some originalObj) (Some o) ;;;
             let newJsonStr := JSON_stringify o in
             let newLen := Buffer_byteLength newJsonStr in
             if newLen <=? len then
               pData <- lift (write_in_place pData offset len newJsonStr) ;;
               ret (mkUpdPage offset pData true (upd_count st + 1) (upd_data st ++ [o]) false)
             else
               _delete fuel table c false ;;;
               _insert table o ;;;
               ret (mkUpdPage offset pData (upd_modified st) (upd_count st + 1) (upd_data st) true)
           else ret st)
          (fun _ => ret st) ;;
      if upd_break st then ret st
      else
        _update_slots n' fuel table updates c currentPageId
          (mkUpdPage (offset + 2 + len) (upd_buf st) (upd_modified st)
                     (upd_count st) (upd_data st) false)
  end.

Fixpoint _update_pages (fuel0 fuel : nat) (table : string)
    (updates : list (string * jsval)) (c : option criteria)
    (hintPageId : Z) (currentPageId : Z) (updatedCount : Z) (updatedData : list obj)
  : M (Z * list obj) :=
  if currentPageId =? 0 then ret (updatedCount, updatedData)
  else
    match fuel with
    | O => stuck "update: out of fuel"
    | S fuel' =>
        pData <- readPage currentPageId ;;
        count <- lift (readUInt16LE pData 4) ;;
        st <- _update_slots (Z.to_nat count) fuel0 table updates c currentPageId
                (mkUpdPage 8 pData false updatedCount updatedData false) ;;
        (if upd_modified st then writePage currentPageId (upd_buf st) else ret tt) ;;;
        if negb (hintPageId =? -1) then ret (upd_count st, upd_data st)
        else
          next <- lift (readUInt32LE (upd_buf st) 0) ;;
          _update_pages fuel0 fuel' table updates c hintPageId next (upd_count st) (upd_data st)
    end.

Definition updated_message (n : Z) : string :=
  ("Berhasil memupuk " ++ string_of_Z n ++ " bibit.")%string.

(** [_update(table, updates, criteria)] *)
Definition _update (fuel : nat) (table : string) (updates : list (string * jsval))
    (c : option criteria) : M string :=
  entry <- _findTableEntry table ;;
  match entry with
  | None => throw (not_found table)
  | Some entry =>
      ixs <- gets indexes ;;
      hintPageId <- lift (index_hint ixs table c) ;;
      let currentPageId := if negb (hintPageId =? -1) then hintPageId else startPage entry in
      r <- _update_pages fuel fuel table updates c hintPageId currentPageId 0 [] ;;
      let '(updatedCount, updatedData) := r in
      q <- gets queryString ;;
      emit (OnTableUpdated table updatedData q) ;;;
      ret (updated_message updatedCount)
  end.

(** ** CREATE INDEX *)

Definition build_index (field : string) (records : list obj) (index : BTreeIndex) : BTreeIndex :=
  fold_left (fun ix record =>
               if hasOwnProperty record field then
                 match obj_get record field with
                 | Some v => index_insert v record ix
                 | None => ix
                 end
               else ix) records index.

Definition _createIndex (fuel : nat) (table field : string) : M string :=
  entry <- _findTableEntry table ;;
  match entry with
  | None => throw (not_found table)
  | Some _ =>
      let indexKey := (table ++ "." ++ field)%string in
      ixs <- gets indexes ;;
      if has_index ixs indexKey then
        ret ("Indeks pada '" ++ table ++ "." ++ field ++ "' sudah ada.")%string
      else
        let index := mkIndex indexKey field [] in
        allRecords <- _select fuel table None None None None [] ;;
        let index := build_index field allRecords index in
        ixs <- gets indexes ;;
        set_indexes (ixs ++ [(indexKey, index)]) ;;;
        try_catch
          (_insert "_indexes" (plain [("table", JStr table); ("field", JStr field)]) ;;; ret tt)
          (fun _ => ret tt) ;;;
        ret ("Indeks dibuat pada '" ++ table ++ "." ++ field ++ "' ("
             ++ string_of_Z (Z.of_nat (length allRecords)) ++ " records indexed)")%string
  end.

(** ** Commands, EXPLAIN and the dispatch of [query] *)

(** The command shapes the executor takes from the parser, for the
    commands embedded here. *)
Inductive command : Type :=
| INSERT (table : string) (data : obj)
| SELECT (table : string) (cols : list string) (c : option criteria)
         (sort : option sort_spec) (limit offset : option Z)
         (joins : list join_spec) (distinct : bool)
| DELETE (table : string) (c : option criteria)
| UPDATE (table : string) (updates : list (string * jsval)) (c : option criteria)
| CREATE_INDEX (table field : string)
| EXPLAIN (innerCommand : command).

Definition command_type (cmd : command) : string :=
  match cmd with
  | INSERT _ _ => "INSERT"
  | SELECT _ _ _ _ _ _ _ _ => "SELECT"
  | DELETE _ _ => "DELETE"
  | UPDATE _ _ _ => "UPDATE"
  | CREATE_INDEX _ _ => "CREATE_INDEX"
  | EXPLAIN _ => "EXPLAIN"
  end.

(** [cmd.table], which an EXPLAIN command does not have. *)
Definition command_table (cmd : command) : option string :=
  match cmd with
  | INSERT t _ | SELECT t _ _ _ _ _ _ _ | DELETE t _ | UPDATE t _ _ | CREATE_INDEX t _ => Some t
  | EXPLAIN _ => None
  end.

Inductive plan_value : Type :=
| PUndef
| PStr (s : string)
| PNum (n : Z)
| PList (l : list string).

Definition plan_step : Type := list (string * plan_value).

Record plan : Type := mkPlan {
  plan_type : string;
  plan_table : option string;
  steps : list plan_step;
  plan_error : option string;
  availableIndexes : option (list string)
}.

(** [JSON.stringify(v)] of a criteria value; it is [undefined] when the
    value is, which a template literal prints as such. *)
Definition stringify_any (a : jsany) : string :=
  match a with
  | AUndef => "undefined"
  | APrim v => str (json_value v)
  | AArr l => ("[" ++ join "," (map (fun v => str (json_value v)) l) ++ "]")%string
  end.

(** [`${criteria.key} ${criteria.op} ${JSON.stringify(criteria.val)}`] *)
Definition condition_text (c : criteria) : string :=
  match c with
  | Leaf key op val => (key ++ " " ++ op ++ " " ++ stringify_any val)%string
  | Compound _ _ => "undefined undefined undefined"
  end.

Definition criteria_key_text (c : criteria) : string :=
  match c with Leaf key _ _ => key | Compound _ _ => "undefined" end.

Definition criteria_op_is_eq (c : criteria) : bool :=
  match c with Leaf _ op _ => String.eqb op "=" | Compound _ _ => false end.

Definition starts_with (p s : string) : bool :=
  match strip_prefix (chars p) (chars s) with Some _ => true | None => false end.

Definition join_plan_step (j : join_spec) : plan_step :=
  let joinType := if String.eqb (join_type j) "" then "INNER" else join_type j in
  let useHashJoin :=
    match join_on j with Some on => String.eqb (on_op on) "=" | None => false end in
  [("operation", PStr (joinType ++ " JOIN")%string);
   ("table", PStr (join_table j));
   ("method", PStr (if useHashJoin then "Hash Join" else "Nested Loop Join"));
   ("condition", PStr (match join_on j with
                       | Some on => (on_left on ++ " " ++ on_op on ++ " " ++ on_right on)%string
                       | None => "CROSS"
                       end))].

(** The steps [_explain] lists for a SELECT command, before the DISTINCT,
    SORT, LIMIT/OFFSET and PROJECT steps. *)
Definition explain_select_access (ixs : list (string * BTreeIndex)) (table : string)
    (c : option criteria) (joins : list join_spec) : list plan_step :=
  match joins with
  | _ :: _ =>
      [("operation", PStr "SCAN"); ("table", PStr table);
       ("method", PStr "Full Table Scan"); ("reason", PStr "Base table for JOIN")]
      :: map join_plan_step joins
  | [] =>
      match c with
      | Some c =>
          let indexKey := (table ++ "." ++ criteria_key_text c)%string in
          let hasIndex := has_index ixs indexKey in
          if hasIndex && criteria_op_is_eq c then
            [[("operation", PStr "INDEX SCAN"); ("table", PStr table);
              ("index", PStr indexKey); ("method", PStr "B-Tree Index Lookup");
              ("condition", PStr (condition_text c))]]
          else
            [[("operation", PStr "TABLE SCAN"); ("table", PStr table);
              ("method", PStr (if hasIndex
                               then "Full Scan (index not usable for this operator)"
                               else "Full Table Scan"));
              ("condition", PStr (condition_text c))]]
      | None =>
          [[("operation", PStr "TABLE SCAN"); ("table", PStr table);
            ("method", PStr "Full Table Scan"); ("reason", PStr "No WHERE clause")]]
      end
  end.

Definition nonzero (z : option Z) : bool :=
  match z with Some n => negb (n =? 0) | None => false end.

Definition is_star (cols : list string) : bool :=
  match cols with [c] => String.eqb c "*" | _ => false end.

(** [_explain(cmd)] *)
Definition _explain (cmd : command) : M plan :=
  ixs <- gets indexes ;;
  let tableIndexes :=
    filter (fun key => starts_with (match command_table cmd with
                                    | Some t => t | None => "undefined" end ++ ".")%string key)
           (keys ixs) in
  let available := match tableIndexes with [] => None | _ => Some tableIndexes end in
  let finish steps := ret (mkPlan (command_type cmd) (command_table cmd) steps None available) in
  let missing table :=
    ret (mkPlan (command_type cmd) (command_table cmd) []
                (Some ("Table '" ++ table ++ "' not found")%string) None) in
  match cmd with
  | SELECT table cols c sort limit offset joins distinct =>
      entry <- _findTableEntry table ;;
      match entry with
      | None => missing table
      | Some _ =>
          finish
            (explain_select_access ixs table c joins
             ++ (if distinct
                 then [[("operation", PStr "DISTINCT"); ("method", PStr "Hash-based deduplication")]]
                 else [])
             ++ (match sort with
                 | Some _ => [[("operation", PStr "SORT"); ("field", PUndef); ("direction", PStr "ASC")]]
                 | None => []
                 end)
             ++ (if nonzero limit || nonzero offset
                 then [[("operation", PStr "LIMIT/OFFSET");
                        ("limit", match limit with
                                  | Some l => if l =? 0 then PStr "none" else PNum l
                                  | None => PStr "none" end);
                        ("offset", match offset with Some o => PNum o | None => PNum 0 end)]]
                 else [])
             ++ (if negb (is_star cols)
                 then [[("operation", PStr "PROJECT"); ("columns", PList cols)]]
                 else []))
      end
  | DELETE table c | UPDATE table _ c =>
      entry <- _findTableEntry table ;;
      match entry with
      | None => missing table
      | Some _ =>
          finish
            ((match c with
              | Some c =>
                  let indexKey := (table ++ "." ++ criteria_key_text c)%string in
                  let hasIndex := has_index ixs indexKey in
                  [("operation", PStr "SCAN"); ("table", PStr table);
                   ("method", PStr (if hasIndex && criteria_op_is_eq c
                                    then "Index-assisted scan" else "Full Table Scan"));
                   ("condition", PStr (condition_text c))]
              | None =>
                  [("operation", PStr "SCAN"); ("table", PStr table);
                   ("method", PStr "Full Table Scan");
                   ("reason", PStr "No WHERE clause - affects all rows")]
              end)
             :: [[("operation", PStr (command_type cmd)); ("table", PStr table);
                  ("method", PStr "In-place modification")]])
      end
  | _ => finish []
  end.

Inductive result : Type :=
| RString (s : string)
| RRows (rows : list obj)
| RPlan (p : plan).

(** The column projection of [query], for column names that are kept in
    the order of their creation and that objects do not inherit (no
    array index, no member of [Object.prototype]). *)
Definition project (cols : list string) (r : obj) : obj :=
  fold_left (fun newRow c =>
               obj_set newRow c (match obj_get r c with Some v => v | None => JNull end))
            cols (plain []).

(** The DISTINCT filter of [query]: rows are told apart by their JSON text. *)
Fixpoint distinct_rows (seen : list string) (rows : list obj) : list obj :=
  match rows with
  | [] => []
  | row :: rest =>
      let key := JSON_stringify row in
      if mem_string key seen then distinct_rows seen rest
      else row :: distinct_rows (key :: seen) rest
  end.

(** [query], from the dispatch on the parsed command on: the [switch]
    inside [try], and the [catch] that turns an exception into the
    returned string. *)
Definition query (fuel : nat) (cmd : command) : M result :=
  try_catch
    (match cmd with
     | INSERT table data => s <- _insert table data ;; ret (RString s)
     | SELECT table cols c sort limit offset joins distinct =>
         rows <- _select fuel table c sort limit offset joins ;;
         let rows := if negb (is_star cols) then map (project cols) rows else rows in
         let rows := if distinct then distinct_rows [] rows else rows in
         ret (RRows rows)
     | DELETE table c => s <- _delete fuel table c false ;; ret (RString s)
     | UPDATE table updates c => s <- _update fuel table updates c ;; ret (RString s)
     | CREATE_INDEX table field => s <- _createIndex fuel table field ;; ret (RString s)
     | EXPLAIN inner => p <- _explain inner ;; ret (RPlan p)
     end)
    (fun msg => ret (RString ("Error: " ++ msg)%string)).

(** ** Database images

    A database file as the engine leaves it after creating tables: page 0
    holds the magic, the page count and one 40-byte slot per table; every
    table starts on one empty heap page. *)

Definition u32_bytes (v : Z) : list Byte.byte :=
  [byte_of_Z v; byte_of_Z (v / 256); byte_of_Z (v / 65536); byte_of_Z (v / 16777216)].

Definition name_bytes (name : string) : list Byte.byte :=
  let b := firstn 32 (Buffer_from name) in
  b ++ repeat Byte.x00 (32 - length b).

Fixpoint catalog_slots (names : list string) (page : Z) : list Byte.byte :=
  match names with
  | [] => []
  | n :: r => name_bytes n ++ u32_bytes page ++ u32_bytes page ++ catalog_slots r (page + 1)
  end.

Definition catalog_page (names : list string) : buffer :=
  let n := Z.of_nat (length names) in
  blit (Buffer_alloc PAGE_SIZE) 0
       (Buffer_from "WOWO" ++ u32_bytes (n + 1) ++ u32_bytes n ++ catalog_slots names 1).

Definition empty_heap_page : buffer :=
  blit (Buffer_alloc PAGE_SIZE) 0 (u32_bytes 0 ++ [Byte.x00; Byte.x00; Byte.x08; Byte.x00]).

Fixpoint heap_pages (n : nat) (page : Z) (f : gmap Z buffer) : gmap Z buffer :=
  match n with
  | O => f
  | S n' => heap_pages n' (page + 1) (<[page := empty_heap_page]> f)
  end.

(** The handle on a file holding the empty tables [names] (table number
    [i], counting from 1, on page [i]), with no index loaded and no event
    received yet. *)
Definition new_db (names : list string) : db :=
  mkDb (heap_pages (length names) 1 (<[0 := catalog_page names]> ∅)) ∅ [] [] "".

(** Run commands one after the other on a state, collecting the results. *)
Fixpoint run (fuel : nat) (cmds : list command) (s : db) : list (outcome result) * db :=
  match cmds with
  | [] => ([], s)
  | cmd :: rest =>
      let '(r, s') := query fuel cmd s in
      let '(rs, s'') := run fuel rest s' in
      (r :: rs, s'')
  end.

(** ** Scenarios

    The states and commands the theorems below are evaluated on.  Every
    state is reached from an image with the system table [_indexes] on
    page 1 and the user table [t] on page 2 by running commands. *)

(** The rows of a table as a full scan without criteria sees them. *)
Definition table_rows (fuel : nat) (table : string) (s : db)
  : outcome (list (list (string * jsval))) :=
  let scan :=
    entry <- _findTableEntry table ;;
    match entry with
    | Some entry => _scanTable fuel entry None None false
    | None => throw (not_found table)
    end in
  match fst (scan s) with
  | Ok rows => Ok (map fields rows)
  | Throw e => Throw e
  | Stuck w => Stuck w
  end.

(** The heap page header: [recordCount] and [freeOffset]. *)
Definition page_header (pageId : Z) (s : db) : outcome (Z * Z) :=
  match fst (readPage pageId s) with
  | Ok buf =>
      count <-? readUInt16LE buf 4 ;;
      free <-? readUInt16LE buf 6 ;;
      Ok (count, free)
  | Throw e => Throw e
  | Stuck w => Stuck w
  end.

Definition base_db : db := new_db ["_indexes"; "t"].

Definition xs (n : nat) : string := str (repeat "x"%char n).

Definition rec_a : obj := plain [("k", JNum 1); ("v", JStr "a")].
Definition rec_b : obj := plain [("k", JNum 1); ("v", JStr "b")].
(** A record that fills page 2 up to 13 bytes from its end. *)
Definition rec_filler : obj := plain [("k", JNum 9); ("v", JStr (xs 4040))].

Definition k_is_1 : option criteria := Some (Leaf "k" "=" (APrim (JNum 1))).
Definition v_is (s : string) : option criteria := Some (Leaf "v" "=" (APrim (JStr s))).

Definition results_of (fuel : nat) (cmds : list command) (s : db) : list (outcome result) :=
  fst (run fuel cmds s).
Definition state_after (fuel : nat) (cmds : list command) (s : db) : db :=
  snd (run fuel cmds s).

(** An index on [t.k], a record with [k = 1] on page 2, and one on page 3. *)
Definition two_page_setup : list command :=
  [CREATE_INDEX "t" "k"; INSERT "t" rec_a; INSERT "t" rec_filler; INSERT "t" rec_b].

Definition two_page_db : db := state_after 8 two_page_setup base_db.

(** Two records with [k = 1] on the one page of [t], and no index. *)
Definition two_match_db : db :=
  state_after 8 [INSERT "t" rec_a; INSERT "t" rec_b] base_db.

(** After the record on page 3 is deleted through a criteria on [v], the
    index on [t.k] has lost its oldest entry for the key 1: what it keeps
    is the entry of the deleted record, whose hint names page 3, while the
    record with [k = 1] that is left lives on page 2. *)
Definition stale_hint_db : db :=
  state_after 8 [DELETE "t" (v_is "b")] two_page_db.

Definition three_rows_db : db :=
  state_after 8 [INSERT "t" (plain [("id", JNum 1)]); INSERT "t" (plain [("id", JNum 2)]);
                 INSERT "t" (plain [("id", JNum 3)])] base_db.

Definition rec_abc : obj := plain [("v", JStr "abc")].
Definition abc_db : db := state_after 8 [INSERT "t" rec_abc] base_db.
Definition like_a_dot_c : option criteria := Some (Leaf "v" "LIKE" (APrim (JStr "a.c"))).

Definition rec_oversize : obj := plain [("v", JStr (xs 4100))].

Definition indexed_db : db := state_after 8 [CREATE_INDEX "t" "k"; INSERT "t" rec_a] base_db.

(** The evaluation the SELECT claim compares with: scan all the matching
    records in page order, sort, then take rows [O .. O+L-1]. *)
Definition naive_select (fuel : nat) (table : string) (c : option criteria)
    (sort : option sort_spec) (limit offsetCount : option Z) : M (list obj) :=
  entry <- _findTableEntry table ;;
  match entry with
  | None => throw (not_found table)
  | Some entry =>
      all <- _scanTable fuel entry c None false ;;
      sorted <- match sort with
                | Some sort => lift (js_sort (sort_compare sort) all)
                | None => ret all
                end ;;
      ret (limit_offset sorted limit offsetCount)
  end.

(** Whether a plan has an INDEX SCAN step. *)
Definition step_is_index_scan (st : plan_step) : bool :=
  match assoc "operation" st with
  | Some (PStr op) => String.eqb op "INDEX SCAN"
  | _ => false
  end.

Definition has_index_scan (p : plan) : bool := existsb step_is_index_scan (steps p).

(** Whether an event is a call of a given hook. *)
Definition is_OnTableDeleted (e : event) : bool :=
  match e with OnTableDeleted _ _ _ => true | _ => false end.

(** The reading of a criteria tree the specification gives: a leaf is
    its comparison, an AND node the conjunction of its conditions, an OR
    node their disjunction. *)
Fixpoint criteria_truth (o : obj) (c : criteria) : bool :=
  match c with
  | Leaf key op val =>
      match _checkSingleCondition o key op val with
      | Ok b => b
      | _ => false
      end
  | Compound logic conditions =>
      if String.eqb logic "OR" then existsb (criteria_truth o) conditions
      else forallb (criteria_truth o) conditions
  end.

(** A criteria tree of the specified shape, on a record for which every
    leaf comparison yields a boolean (none throws). *)
Fixpoint evaluable (o : obj) (c : criteria) : bool :=
  match c with
  | Leaf key op val =>
      match _checkSingleCondition o key op val with
      | Ok _ => true
      | _ => false
      end
  | Compound logic conditions =>
      (String.eqb logic "AND" || String.eqb logic "OR")
      && forallb (evaluable o) conditions
  end.

(** Induction on criteria trees, with the hypothesis for every condition
    of a compound. *)
Fixpoint criteria_tree_ind (P : criteria -> Prop)
    (HLeaf : forall key op val, P (Leaf key op val))
    (HCompound : forall logic conditions,
        Forall P conditions -> P (Compound logic conditions))
    (c : criteria) : P c :=
  match c with
  | Leaf key op val => HLeaf key op val
  | Compound logic conditions =>
      HCompound logic conditions
        ((fix all (cs : list criteria) : Forall P cs :=
            match cs with
            | [] => @Stdlib.Lists.List.Forall_nil criteria P
            | c' :: rest =>
                @Stdlib.Lists.List.Forall_cons criteria P c' rest
                  (criteria_tree_ind P HLeaf HCompound c') (all rest)
            end) conditions)
  end.

(** The scenario of the specification for AND and OR:
    [b = 'D' OR (b = 'P' AND l = 'B')]. *)
Definition d_or_p_and_b : criteria :=
  Compound "OR"
    [Leaf "b" "=" (APrim (JStr "D"));
     Compound "AND" [Leaf "b" "=" (APrim (JStr "P")); Leaf "l" "=" (APrim (JStr "B"))]].

Definition bibit_row (id : Z) (b l : string) : obj :=
  plain [("id", JNum id); ("b", JStr b); ("l", JStr l)].

(** ** Well-formed records

    A record the JSON codec of this model carries faithfully: its keys
    are distinct (as the properties of an object are) and its text is
    ASCII. *)

Definition is_ascii (c : ascii) : bool := code c <? 128.

Definition is_ascii_text (s : string) : bool := forallb is_ascii (chars s).

Definition value_ascii (v : jsval) : bool :=
  match v with JStr s => is_ascii_text s | _ => true end.

Definition member_ascii (kv : string * jsval) : bool :=
  is_ascii_text (fst kv) && value_ascii (snd kv).

Fixpoint distinct_keys (l : list string) : bool :=
  match l with
  | [] => true
  | x :: r => negb (mem_string x r) && distinct_keys r
  end.

Definition record_ok (fs : list (string * jsval)) : bool :=
  distinct_keys (keys fs) && forallb member_ascii fs.

(** The value of a decimal numeral, by Horner's rule. *)
Fixpoint uint_val (d : uint) (acc : Z) : Z :=
  match d with
  | Nil => acc
  | D0 d => uint_val d (10 * acc + 0)
  | D1 d => uint_val d (10 * acc + 1)
  | D2 d => uint_val d (10 * acc + 2)
  | D3 d => uint_val d (10 * acc + 3)
  | D4 d => uint_val d (10 * acc + 4)
  | D5 d => uint_val d (10 * acc + 5)
  | D6 d => uint_val d (10 * acc + 6)
  | D7 d => uint_val d (10 * acc + 7)
  | D8 d => uint_val d (10 * acc + 8)
  | D9 d => uint_val d (10 * acc + 9)
  end.

(** What may follow an integer in a JSON text for it to end there. *)
Definition number_end (rest : list ascii) : bool :=
  match rest with
  | c :: _ => negb (is_digit c || (code c =? 46) || (code c =? 101) || (code c =? 69))
  | [] => true
  end.

(** What follows a member of an object: a comma or the closing brace. *)
Definition member_end (rest : list ascii) : bool :=
  match rest with
  | c :: _ => (code c =? 44) || (code c =? 125)
  | [] => false
  end.

(** The first character of a number: a minus sign or a digit. *)
Definition num_head (c : ascii) : bool := (code c =? 45) || is_digit c.

(** A record submitted with a field of its own named [_pageId]. *)
Definition rec_with_pageId : obj := plain [("_pageId", JNum 7); ("v", JStr "a")].

(** ** Access paths and hooks, as properties

    [silent m]: the method [m] calls no hook and leaves the text of the
    running query as it is. *)

Definition is_index_probe (p : access_path) : bool :=
  match p with IndexProbe _ _ => true | _ => false end.

Definition silent {A} (m : M A) : Prop :=
  forall s, events (snd (m s)) = events s /\ queryString (snd (m s)) = queryString s.

(** [m], where it succeeds, has called [OnTableInserted] once, for
    [table] and with the text of the running query, and no other hook;
    the records handed to the hook are records that [_checkMatch]
    matches, as many as the returned message counts. *)
Definition reports_deleted (table : string) (c : option criteria) (m : M string) : Prop :=
  forall s msg s', m s = (Ok msg, s') ->
    exists recs,
      events s' = events s ++ [OnTableInserted table recs (queryString s)]
      /\ msg = deleted_message (Z.of_nat (length recs))
      /\ Forall (fun r => _checkMatch r c = Ok true) recs.

(** ** LIKE as a pattern language

    The reading of a LIKE pattern to compare the evaluator with: [%]
    stands for any run of characters, [_] for exactly one, and any other
    character for itself, letters in either case.  The characters a
    wildcard may stand for are those the [.] of a regular expression
    matches, that is all but the line terminators. *)

Definition wild (d : ascii) : bool := negb ((code d =? 10) || (code d =? 13)).

Fixpoint like_any (k : list ascii -> bool) (s : list ascii) : bool :=
  k s ||
  match s with
  | d :: s' => wild d && like_any k s'
  | [] => false
  end.

Fixpoint like_match (p s : list ascii) : bool :=
  match p with
  | [] => match s with [] => true | _ => false end
  | c :: p' =>
      if code c =? 37 then like_any (like_match p') s
      else
        match s with
        | d :: s' =>
            (if code c =? 95 then wild d else canonicalize c =? canonicalize d)
            && like_match p' s'
        | [] => false
        end
  end.

(** The tokens and the term of the regular expression that one character
    of a LIKE pattern becomes. *)
Definition like_toks (c : ascii) : list tok :=
  if code c =? 37 then [KAtom AAny; KStar]
  else if code c =? 95 then [KAtom AAny]
  else [KAtom (AChar c)].

Definition like_term (c : ascii) : term :=
  if code c =? 37 then TAtom AAny QStar
  else if code c =? 95 then TAtom AAny QOne
  else TAtom (AChar c) QOne.

Definition starts_plain (ts : list tok) : Prop :=
  match ts with
  | KAtom _ :: _ | KEol :: _ => True
  | _ => False
  end.

(** ** A record that an UPDATE shortens

    Two records on one page; the update replaces the four-letter value of
    the first by a one-letter value, which fits the slot. *)

Definition rec_long : obj := plain [("k", JNum 1); ("v", JStr "aaaa")].
Definition rec_next : obj := plain [("k", JNum 2); ("v", JStr "b")].
Definition k_is_2 : option criteria := Some (Leaf "k" "=" (APrim (JNum 2))).
Definition long_next_db : db := state_after 8 [INSERT "t" rec_long; INSERT "t" rec_next] base_db.
Definition shorten : command := UPDATE "t" [("v", JStr "a")] k_is_1.
Definition shortened_db : db := state_after 8 [shorten] long_next_db.

(** ** Columns, comparisons and kinds, for stating what SELECT returns *)

Definition column_of (r : obj) (c : string) : string * jsval :=
  (c, match obj_get r c with Some v => v | None => JNull end).

Definition comparison_op (op : string) : bool :=
  mem_string op ["="; "!="; "<"; "<="; ">"; ">="].

Definition same_kind (v : jsval) (t : jsval) : bool :=
  match v, t with
  | JNum _, JNum _ | JStr _, JStr _ => true
  | _, _ => false
  end.

(** The rows whose JSON text no row before them in the list has. *)
Definition first_of_each_text (rows : list obj) : list obj :=
  map snd
    (List.filter
       (fun ir => negb (mem_string (JSON_stringify (snd ir))
                                   (map JSON_stringify (firstn (fst ir) rows))))
       (combine (seq 0 (length rows)) rows)).

(** ** The catalog: listing and dropping tables *)

(** The loop of [_showTables()]: system tables (names that start with an
    underscore) are left out. *)
Fixpoint showTables_loop (n : nat) (p0 : buffer) (offset : Z) : list string :=
  match n with
  | O => []
  | S n' =>
      let tName := strip_nul (buf_toString p0 offset (offset + 32)) in
      (if negb (starts_with "_" tName) then [tName] else [])
      ++ showTables_loop n' p0 (offset + 40)
  end.

Definition _showTables : M (list string) :=
  p0 <- readPage 0 ;;
  numTables <- lift (readUInt32LE p0 8) ;;
  ret (showTables_loop (Z.to_nat numTables) p0 12).

(** [b.fill(0, s, e)] with the range check that [fill] makes when it is
    given both ends. *)
Definition buf_fill0_checked (b : buffer) (s e : Z) : outcome buffer :=
  if (s <? 0) || (e <? 0) || (buf_length b <? e) then Throw "ERR_OUT_OF_RANGE"
  else Ok (buf_fill0 b s e).

(** What [_dropTable] does to page 0: the last slot moves into the slot
    of the dropped entry, the last slot is zeroed, and the table count
    goes down by one. *)
Definition drop_slot (p0 : buffer) (numTables : Z) (entry : table_entry) : outcome buffer :=
  let p0 :=
    if (1 <? numTables) && (entry_index entry <? numTables - 1) then
      let lastOffset := 12 + (numTables - 1) * 40 in
      let lastEntryBuf := buf_slice p0 lastOffset (lastOffset + 40) in
      buf_copy lastEntryBuf p0 (entry_offset entry)
    else p0 in
  let lastOffset := 12 + (numTables - 1) * 40 in
  p0 <-? buf_fill0_checked p0 lastOffset (lastOffset + 40) ;;
  writeUInt32LE p0 (numTables - 1) 8.

Definition dropped_message (name : string) : string :=
  ("Kebun '" ++ name ++ "' telah dibakar (Drop).")%string.

(** [_dropTable(name)].  A missing table is reported by the returned
    string, not by an exception. *)
Definition _dropTable (fuel : nat) (name : string) : M string :=
  if String.eqb name "_indexes" then ret "Tidak boleh membakar catatan sistem."
  else
    entry <- _findTableEntry name ;;
    match entry with
    | None => ret (not_found name)
    | Some entry =>
        ixs <- gets indexes ;;
        let toRemove := filter (starts_with (name ++ ".")%string) (keys ixs) in
        set_indexes (filter (fun kv => negb (mem_string (fst kv) toRemove)) ixs) ;;;
        try_catch
          (_delete fuel "_indexes"
             (Some (Compound "AND" [Leaf "table" "=" (APrim (JStr name))])) false ;;; ret tt)
          (fun _ => ret tt) ;;;
        p0 <- readPage 0 ;;
        numTables <- lift (readUInt32LE p0 8) ;;
        p0 <- lift (drop_slot p0 numTables entry) ;;
        writePage 0 p0 ;;;
        q <- gets queryString ;;
        emit (OnTableDropped name entry q) ;;;
        ret (dropped_message name)
    end.

(** The catalog as the lookups read it: page 0, the number of slots in
    use, and the name, first page and last page stored in slot [i]. *)
Definition page0 (s : db) : buffer :=
  match file s !! 0 with
  | Some b => b
  | None => Buffer_alloc PAGE_SIZE
  end.

Definition u32_at (b : buffer) (off : Z) : Z :=
  byte_at b off + 256 * byte_at b (off + 1)
  + 65536 * byte_at b (off + 2) + 16777216 * byte_at b (off + 3).

Definition numTables (s : db) : Z := u32_at (page0 s) 8.
Definition totalPages (s : db) : Z := u32_at (page0 s) 4.

Definition slot_name (p0 : buffer) (i : Z) : string :=
  strip_nul (buf_toString p0 (12 + 40 * i) (12 + 40 * i + 32)).

Definition slot_startPage (p0 : buffer) (i : Z) : Z := u32_at p0 (12 + 40 * i + 32).
Definition slot_lastPage (p0 : buffer) (i : Z) : Z := u32_at p0 (12 + 40 * i + 36).

(** Page 0 is a whole page and its slots in use lie inside it. *)
Definition catalog_ok (s : db) : Prop :=
  buf_length (page0 s) = PAGE_SIZE /\ 12 + 40 * numTables s <= PAGE_SIZE.

(** Whether a method leaves an observation [f] of the state as it found it. *)
Definition preserves {X A} (f : db -> X) (m : M A) : Prop :=
  forall s, f (snd (m s)) = f s.

(** No two slots in use carry the same name. *)
Definition catalog_distinct (s : db) : Prop :=
  forall i j, 0 <= i < numTables s -> 0 <= j < numTables s ->
    slot_name (page0 s) i = slot_name (page0 s) j -> i = j.

(** A name that a catalog slot stores and gives back unchanged: at most
    32 characters, all ASCII, none of them NUL. *)
Definition storable_name (name : string) : bool :=
  (Z.of_nat (String.length name) <=? 32)
  && forallb (fun c => is_ascii c && negb (code c =? 0)) (chars name).

(** ** The first engine ([WowoEngine.js])

    The single-file engine that the modular one was refactored from.  It
    shares the page format and the [Pager] above; [_findTableEntry] and
    [_updateTableLastPage] are the same text in both and are not
    repeated.  It has no event sink and no object cache; those parts of
    the state stay as they are. *)

Module Wowo.

(** [_initNewFile()] *)
Definition _initNewFile : outcome buffer :=
  let buf := Buffer_alloc PAGE_SIZE in
  let buf := buf_write buf "WOWO" 0 PAGE_SIZE in
  buf <-? writeUInt32LE buf 1 4 ;;
  writeUInt32LE buf 0 8.

(** The handle on a file that did not exist: page 0 as [_initNewFile]
    writes it, and no index. *)
Definition new_file : db :=
  match _initNewFile with
  | Ok buf => mkDb (<[0 := buf]> ∅) ∅ [] [] ""
  | _ => mkDb ∅ ∅ [] [] ""
  end.

Definition opened_message (name : string) : string :=
  ("Kebun '" ++ name ++ "' telah dibuka.")%string.

(** [_createTable(name)].  A name with a character that is not ASCII is
    [Stuck]: the bytes that [nameBuf.write] stores for it are not
    modelled. *)
Definition _createTable (name : string) : M string :=
  if negb (is_ascii_text name) then stuck "nameBuf.write: the name is not ASCII"
  else if 32 <? Z.of_nat (String.length name) then throw "Nama kebun max 32 karakter"
  else
    entry <- _findTableEntry name ;;
    match entry with
    | Some _ => ret ("Kebun '" ++ name ++ "' sudah ada.")%string
    | None =>
        p0 <- readPage 0 ;;
        numTables <- lift (readUInt32LE p0 8) ;;
        let offset := 12 + numTables * 40 in
        if PAGE_SIZE <? offset + 40 then throw "Lahan penuh (Page 0 full)"
        else
          newPageId <- allocPage ;;
          let nameBuf := Buffer_alloc 32 in
          let nameBuf := buf_write nameBuf name 0 32 in
          let p0 := buf_copy nameBuf p0 offset in
          p0 <- lift (writeUInt32LE p0 newPageId (offset + 32)) ;;
          p0 <- lift (writeUInt32LE p0 newPageId (offset + 36)) ;;
          p0 <- lift (writeUInt32LE p0 (numTables + 1) 8) ;;
          writePage 0 p0 ;;;
          ret (opened_message name)
    end.

(** [_insert(table, data)]: one record, appended to the last page of the
    table, or to a fresh page linked after it. *)
Definition _insert (table : string) (data : obj) : M string :=
  match fields data with
  | [] => throw "Data kosong / fiktif? Ini melanggar integritas (Korupsi Data)."
  | _ =>
      entry <- _findTableEntry table ;;
      match entry with
      | None => throw (not_found table)
      | Some entry =>
          let dataStr := JSON_stringify data in
          let dataBuf := Buffer_from dataStr in
          let recordLen := buf_length dataBuf in
          let totalLen := 2 + recordLen in
          let currentPageId := lastPage entry in
          pData <- readPage currentPageId ;;
          freeOffset <- lift (readUInt16LE pData 6) ;;
          st <-
            (if PAGE_SIZE <? freeOffset + totalLen then
               newPageId <- allocPage ;;
               pData <- lift (writeUInt32LE pData newPageId 0) ;;
               writePage currentPageId pData ;;;
               let currentPageId := newPageId in
               pData <- readPage currentPageId ;;
               freeOffset <- lift (readUInt16LE pData 6) ;;
               _updateTableLastPage table currentPageId ;;;
               ret (currentPageId, pData, freeOffset)
             else ret (currentPageId, pData, freeOffset)) ;;
          let '(currentPageId, pData, freeOffset) := st in
          pData <- lift (store_record pData freeOffset dataBuf) ;;
          count <- lift (readUInt16LE pData 4) ;;
          pData <- lift (writeUInt16LE pData (count + 1) 4) ;;
          pData <- lift (writeUInt16LE pData (freeOffset + totalLen) 6) ;;
          writePage currentPageId pData ;;;
          ret "Bibit tertanam."
      end
  end.

(** A condition as [_parseWhere] builds it. *)
Record condition : Type := mkCond {
  cond_key : string;
  cond_op : string;
  cond_val : jsval;
  cond_logic : string
}.

(** A criteria is one condition or [{ type: 'compound', conditions }]. *)
Inductive criteria : Type :=
| Single (c : condition)
| Compound (conditions : list condition).

Definition _checkSingleCondition (o : obj) (c : condition) : outcome bool :=
  let val := obj_get o (cond_key c) in
  let target := Some (cond_val c) in
  let op := cond_op c in
  if String.eqb op "=" then loose_eq val target
  else if String.eqb op "!=" then b <-? loose_eq val target ;; Ok (negb b)
  else if String.eqb op ">" then js_gt val target
  else if String.eqb op "<" then js_lt val target
  else if String.eqb op ">=" then js_ge val target
  else if String.eqb op "<=" then js_le val target
  else Ok false.

(** The loop of [_checkMatch] over the conditions of a compound. *)
Fixpoint checkMatch_loop (o : obj) (conds : list condition) (result : bool)
    (currentLogic : string) : outcome bool :=
  match conds with
  | [] => Ok result
  | cond :: rest =>
      matches <-? _checkSingleCondition o cond ;;
      if String.eqb (cond_logic cond) "OR" || String.eqb currentLogic "OR"
      then checkMatch_loop o rest (result || matches) "OR"
      else checkMatch_loop o rest (result && matches) "AND"
  end.

Definition _checkMatch (o : obj) (c : option criteria) : outcome bool :=
  match c with
  | None => Ok true
  | Some (Compound conds) => checkMatch_loop o conds true "AND"
  | Some (Single cond) => _checkSingleCondition o cond
  end.

(** The loop of [_select] over the [count] slots of a page. *)
Fixpoint select_slots (n : nat) (c : option criteria) (pData : buffer) (offset : Z)
    (results : list obj) : outcome (list obj) :=
  match n with
  | O => Ok results
  | S n' =>
      len <-? readUInt16LE pData offset ;;
      let jsonStr := buf_toString pData (offset + 2) (offset + 2 + len) in
      let attempt := o <-? JSON_parse jsonStr ;; m <-? _checkMatch o c ;; Ok (o, m) in
      results <-?
        match attempt with
        | Ok (o, true) => Ok (results ++ [o])
        | Ok (_, false) => Ok results
        | Throw _ => Ok results
        | Stuck w => Stuck w
        end ;;
      select_slots n' c pData (offset + 2 + len) results
  end.

Fixpoint select_pages (fuel : nat) (c : option criteria) (currentPageId : Z)
    (results : list obj) : M (list obj) :=
  if currentPageId =? 0 then ret results
  else
    match fuel with
    | O => stuck "select: out of fuel"
    | S fuel' =>
        pData <- readPage currentPageId ;;
        count <- lift (readUInt16LE pData 4) ;;
        results <- lift (select_slots (Z.to_nat count) c pData 8 results) ;;
        next <- lift (readUInt32LE pData 0) ;;
        select_pages fuel' c next results
    end.

(** [_select(table, criteria)].  The index module is not part of the
    sources; its [search] is the one described with [BTreeIndex] above. *)
Definition _select (fuel : nat) (table : string) (c : option criteria) : M (list obj) :=
  entry <- _findTableEntry table ;;
  match entry with
  | None => throw (not_found table)
  | Some entry =>
      ixs <- gets indexes ;;
      let probe :=
        match c with
        | Some (Single cond) =>
            if String.eqb (cond_op cond) "=" then
              match assoc (table ++ "." ++ cond_key cond)%string ixs with
              | Some index => Some (index_search (APrim (cond_val cond)) index)
              | None => None
              end
            else None
        | _ => None
        end in
      match probe with
      | Some indexedRecords => ret indexedRecords
      | None => select_pages fuel c (startPage entry) []
      end
  end.

Record delete_page_state : Type := mkDelPage {
  del_offset : Z;
  del_keep : list kept_record;
  del_count : Z
}.

(** The loop of [_delete] over the [count] slots of a page. *)
Fixpoint delete_slots (n : nat) (c : option criteria) (pData : buffer)
    (st : delete_page_state) : outcome delete_page_state :=
  match n with
  | O => Ok st
  | S n' =>
      let offset := del_offset st in
      len <-? readUInt16LE pData offset ;;
      let jsonStr := buf_toString pData (offset + 2) (offset + 2 + len) in
      let attempt := o <-? JSON_parse jsonStr ;; _checkMatch o c in
      shouldDelete <-?
        match attempt with
        | Ok m => Ok m
        | Throw _ => Ok false
        | Stuck w => Stuck w
        end ;;
      let st :=
        if shouldDelete
        then mkDelPage offset (del_keep st) (del_count st + 1)
        else mkDelPage offset
               (del_keep st ++ [mkKept len (buf_slice pData (offset + 2) (offset + 2 + len))])
               (del_count st) in
      delete_slots n' c pData (mkDelPage (offset + 2 + len) (del_keep st) (del_count st))
  end.

Fixpoint delete_pages (fuel : nat) (c : option criteria) (currentPageId : Z)
    (deletedCount : Z) : M Z :=
  if currentPageId =? 0 then ret deletedCount
  else
    match fuel with
    | O => stuck "delete: out of fuel"
    | S fuel' =>
        pData <- readPage currentPageId ;;
        count <- lift (readUInt16LE pData 4) ;;
        st <- lift (delete_slots (Z.to_nat count) c pData (mkDelPage 8 [] deletedCount)) ;;
        pData <-
          (if Z.of_nat (length (del_keep st)) <? count then
             pData <- lift (compact_page (del_keep st) pData) ;;
             writePage currentPageId pData ;;;
             ret pData
           else ret pData) ;;
        next <- lift (readUInt32LE pData 0) ;;
        delete_pages fuel' c next (del_count st)
    end.

Definition _delete (fuel : nat) (table : string) (c : option criteria) : M string :=
  entry <- _findTableEntry table ;;
  match entry with
  | None => throw (not_found table)
  | Some entry =>
      deletedCount <- delete_pages fuel c (startPage entry) 0 ;;
      ret (deleted_message deletedCount)
  end.

End Wowo.

(** ** Catalog slots and observations of the state *)

(** The entry that [_findTableEntry] builds for slot [i]. *)
Definition slot_entry (p0 : buffer) (i : Z) : table_entry :=
  mkEntry i (12 + 40 * i) (slot_startPage p0 i) (slot_lastPage p0 i).

(** An observation that no write to a page other than page 0, no change
    of the indexes and no event changes. *)
Definition stable {X} (f : db -> X) : Prop :=
  (forall pageId buf, pageId <> 0 -> preserves f (writePage pageId buf))
  /\ (forall ixs, preserves f (set_indexes ixs))
  /\ (forall e, preserves f (emit e)).

Definition slot_bytes (b : buffer) (j : Z) : list Byte.byte :=
  buf_slice b (12 + 40 * j) (12 + 40 * j + 40).

(** A slot of the catalog after the drop is a slot of the catalog
    before: the same one, or the last one moved in. *)
Definition moved_from (n k j : Z) : Z := if Z.eqb j k then n - 1 else j.

(** ** Heap pages as lists of slots

    What a heap page holds, for stating what the operations keep: the
    link to the next page at offset 0, the number of slots at offset 4,
    the free offset at offset 6, and from offset 8 on the slots one
    after the other, each a 16-bit length followed by that many bytes.
    The free offset is the end of the last slot. *)

Definition u16_at (b : buffer) (off : Z) : Z := byte_at b off + 256 * byte_at b (off + 1).

Definition u16_bytes (v : Z) : list Byte.byte := [byte_of_Z v; byte_of_Z (v / 256)].

Definition slot_image (d : list Byte.byte) : list Byte.byte :=
  u16_bytes (Z.of_nat (length d)) ++ d.

Definition layout (slots : list (list Byte.byte)) : list Byte.byte :=
  flat_map slot_image slots.

Definition layout_end (slots : list (list Byte.byte)) : Z :=
  8 + Z.of_nat (length (layout slots)).

Definition page_holds (buf : buffer) (next : Z) (slots : list (list Byte.byte)) : Prop :=
  buf_length buf = PAGE_SIZE
  /\ u32_at buf 0 = next
  /\ u16_at buf 4 = Z.of_nat (length slots)
  /\ u16_at buf 6 = layout_end slots
  /\ layout_end slots <= PAGE_SIZE
  /\ buf_slice buf 8 (layout_end slots) = layout slots.

(** The pages of a table, from a page on: each page of the list is in
    the file, holds its slots and links to the page that follows; the
    last one links to no page. *)
Inductive chain_holds (f : gmap Z buffer) : Z -> list (Z * list (list Byte.byte)) -> Prop :=
| chain_end : chain_holds f 0 []
| chain_page (p next : Z) (buf : buffer) (slots : list (list Byte.byte))
             (rest : list (Z * list (list Byte.byte))) :
    0 < p ->
    f !! p = Some buf ->
    page_holds buf next slots ->
    chain_holds f next rest ->
    chain_holds f p ((p, slots) :: rest).

(** A table whose catalog entry points at the first and at the last page
    of a chain that visits no page twice. *)
Definition table_holds (s : db) (e : table_entry) (pages : list (Z * list (list Byte.byte)))
  : Prop :=
  chain_holds (file s) (startPage e) pages
  /\ NoDup (map fst pages)
  /\ last (map fst pages) = Some (lastPage e).

(** The text of a slot, and the record a reader makes of it: none when
    the text is not JSON. *)
Definition slot_text (d : list Byte.byte) : string := str (map ascii_of_byte d).

(** The rows a scan of [_select] adds for a list of slots. *)
Fixpoint rows_of_slots (c : option Wowo.criteria) (slots : list (list Byte.byte))
    (results : list obj) : outcome (list obj) :=
  match slots with
  | [] => Ok results
  | d :: rest =>
      let attempt :=
        o <-? JSON_parse (slot_text d) ;; m <-? Wowo._checkMatch o c ;; Ok (o, m) in
      results <-?
        match attempt with
        | Ok (o, true) => Ok (results ++ [o])
        | Ok (_, false) => Ok results
        | Throw _ => Ok results
        | Stuck w => Stuck w
        end ;;
      rows_of_slots c rest results
  end.

Fixpoint rows_of_pages (c : option Wowo.criteria) (pages : list (Z * list (list Byte.byte)))
    (results : list obj) : outcome (list obj) :=
  match pages with
  | [] => Ok results
  | (_, slots) :: rest =>
      results <-? rows_of_slots c slots results ;;
      rows_of_pages c rest results
  end.

(** Whether [_delete] removes a slot: its text parses and the record
    matches. *)
Definition slot_matches (c : option Wowo.criteria) (d : list Byte.byte) : outcome bool :=
  match (o <-? JSON_parse (slot_text d) ;; Wowo._checkMatch o c) with
  | Ok m => Ok m
  | Throw _ => Ok false
  | Stuck w => Stuck w
  end.

(** What the loop of [_delete] makes of a list of slots: the slots it
    keeps, in order, and the number of slots it removes. *)
Fixpoint split_slots (c : option Wowo.criteria) (slots : list (list Byte.byte))
  : outcome (list (list Byte.byte) * Z) :=
  match slots with
  | [] => Ok ([], 0)
  | d :: rest =>
      m <-? slot_matches c d ;;
      r <-? split_slots c rest ;;
      Ok (if m then (fst r, snd r + 1) else (d :: fst r, snd r))
  end.

Fixpoint split_pages (c : option Wowo.criteria) (pages : list (Z * list (list Byte.byte)))
  : outcome (list (Z * list (list Byte.byte)) * Z) :=
  match pages with
  | [] => Ok ([], 0)
  | (p, slots) :: rest =>
      r1 <-? split_slots c slots ;;
      r2 <-? split_pages c rest ;;
      Ok ((p, fst r1) :: fst r2, snd r1 + snd r2)
  end.

Definition kept_of (d : list Byte.byte) : kept_record := mkKept (Z.of_nat (length d)) d.

(** Whether a record matches a criteria, where the check gives an answer. *)
Definition row_matches (c : option Wowo.criteria) (r : obj) : bool :=
  match Wowo._checkMatch r c with Ok true => true | _ => false end.

(** Whether one condition holds of a record, where the comparison gives
    an answer. *)
Definition cond_holds (o : obj) (cond : Wowo.condition) : bool :=
  match Wowo._checkSingleCondition o cond with Ok true => true | _ => false end.

Definition is_or (cond : Wowo.condition) : bool := String.eqb (Wowo.cond_logic cond) "OR".

(** The slots of a page region that holds [layout slots] from [off] on. *)
Definition holds_at (buf : buffer) (off : Z) (slots : list (list Byte.byte)) : Prop :=
  0 <= off
  /\ off + Z.of_nat (length (layout slots)) <= buf_length buf
  /\ buf_slice buf off (off + Z.of_nat (length (layout slots))) = layout slots.

(** ** Pages and the object cache of the modular engine *)

(** What [readPageObjects] makes of a page it has to decode. *)
Definition decode_page (buf : buffer) : outcome (Z * list obj) :=
  next <-? readUInt32LE buf 0 ;;
  count <-? readUInt16LE buf 4 ;;
  items <-? decode_items (Z.to_nat count) buf 8 ;;
  Ok (next, items).

(** Every entry of the object cache is what decoding the page of the file
    gives.  (A scan in raw mode, as DELETE and UPDATE run it, puts page
    hints on cached objects, and the entry is then no longer that.) *)
Definition cache_ok (s : db) : Prop :=
  forall p entry, objectCache s !! p = Some entry ->
    exists buf, file s !! p = Some buf /\ decode_page buf = Ok entry.

(** The records [decode_items] reads from a list of slots. *)
Fixpoint items_of_slots (slots : list (list Byte.byte)) : outcome (list obj) :=
  match slots with
  | [] => Ok []
  | d :: rest =>
      rest <-? items_of_slots rest ;;
      match JSON_parse (slot_text d) with
      | Ok o => Ok (o :: rest)
      | Throw _ => Ok rest
      | Stuck w => Stuck w
      end
  end.

(** The rows an unlimited scan of [_scanTable] adds, page after page. *)
Fixpoint scan_of_pages (c : option criteria) (pages : list (Z * list (list Byte.byte)))
    (results : list obj) : outcome (list obj) :=
  match pages with
  | [] => Ok results
  | (p, slots) :: rest =>
      items <-? items_of_slots slots ;;
      r <-? scan_items c None false p items results ;;
      scan_of_pages c rest (fst r)
  end.

(** What the slot loop of [_delete] makes of a list of slots: the slots
    it keeps and the records it removes, both in order. *)
Fixpoint keep_slots (c : option criteria) (slots : list (list Byte.byte))
  : outcome (list (list Byte.byte) * list obj) :=
  match slots with
  | [] => Ok ([], [])
  | d :: rest =>
      let attempt :=
        parsedObj <-? JSON_parse (slot_text d) ;;
        m <-? _checkMatch parsedObj c ;;
        Ok (parsedObj, m) in
      match attempt with
      | Ok (parsedObj, true) =>
          r <-? keep_slots c rest ;; Ok (fst r, parsedObj :: snd r)
      | Ok (_, false) | Throw _ =>
          r <-? keep_slots c rest ;; Ok (d :: fst r, snd r)
      | Stuck w => Stuck w
      end
  end.

Fixpoint keep_pages (c : option criteria) (pages : list (Z * list (list Byte.byte)))
  : outcome (list (Z * list (list Byte.byte)) * list obj) :=
  match pages with
  | [] => Ok ([], [])
  | (p, slots) :: rest =>
      r1 <-? keep_slots c slots ;;
      r2 <-? keep_pages c rest ;;
      Ok ((p, fst r1) :: fst r2, snd r1 ++ snd r2)
  end.

(** Whether [_checkMatch] says that a record matches. *)
Definition evaluator_matches (c : option criteria) (r : obj) : bool :=
  match _checkMatch r c with Ok true => true | _ => false end.

(** The criteria with which [_dropTable] deletes from [_indexes]. *)
Definition indexes_of_table (name : string) : option criteria :=
  Some (Compound "AND" [Leaf "table" "=" (APrim (JStr name))]).

(** A slot that holds a record on which [_checkMatch] decides the
    criteria. *)
Definition slot_decided (c : option criteria) (d : list Byte.byte) : Prop :=
  exists o b, JSON_parse (slot_text d) = Ok o /\ _checkMatch o c = Ok b.

(** ** AGGREGATE

    [func] is a string; [field] and [groupBy] are what the command
    carries: a string, or nothing ([None] for [undefined]). *)

(** [if (v)] *)
Definition truthy (v : option jsval) : bool :=
  match v with
  | None | Some JNull => false
  | Some (JBool b) => b
  | Some (JNum n) => negb (n =? 0)
  | Some (JStr s) => negb (String.eqb s "")
  end.

Definition upper_char (c : ascii) : ascii :=
  if (97 <=? code c) && (code c <=? 122) then ascii_of_nat (Z.to_nat (code c - 32)) else c.

(** [s.toUpperCase()] for an ASCII string; the case mapping of other
    characters is not modelled. *)
Definition toUpperCase (s : string) : outcome string :=
  if is_ascii_text s then Ok (str (map upper_char (chars s)))
  else Stuck "toUpperCase: the string is not ASCII".

(** Numbers are doubles: a sum of integers is the integer sum as long as
    the operands and the result are safe integers. *)
Definition MAX_SAFE_INTEGER : Z := 9007199254740991.

Definition safe_integer (z : Z) : bool :=
  (- MAX_SAFE_INTEGER <=? z) && (z <=? MAX_SAFE_INTEGER).

Definition js_add (a b : Z) : outcome Z :=
  if safe_integer a && safe_integer b && safe_integer (a + b) then Ok (a + b)
  else Stuck "addition beyond the safe integers".

(** [a / n] for a count [n > 0], when the quotient is an integer. *)
Definition js_div (a n : Z) : outcome Z :=
  if safe_integer a && (0 <? n) && (a mod n =? 0) then Ok (a / n)
  else Stuck "division with a quotient outside the integers".

(** [Number(v) || 0] *)
Definition number_or_zero (v : option jsval) : outcome Z :=
  n <-? ToNumber v ;;
  Ok (match n with Num z => z | NaN => 0 end).

(** [records.reduce((acc, r) => acc + (Number(r[field]) || 0), 0)] *)
Fixpoint sum_loop (field : string) (records : list obj) (acc : Z) : outcome Z :=
  match records with
  | [] => Ok acc
  | r :: rest =>
      v <-? number_or_zero (obj_get r field) ;;
      acc <-? js_add acc v ;;
      sum_loop field rest acc
  end.

(** The loops of MIN and MAX; [None] is the [Infinity] (or [-Infinity])
    they start from. *)
Fixpoint min_loop (field : string) (records : list obj) (min : option Z)
  : outcome (option Z) :=
  match records with
  | [] => Ok min
  | r :: rest =>
      val <-? ToNumber (obj_get r field) ;;
      let min :=
        match val with
        | NaN => min
        | Num z => if match min with None => true | Some m => z <? m end
                   then Some z else min
        end in
      min_loop field rest min
  end.

Fixpoint max_loop (field : string) (records : list obj) (max : option Z)
  : outcome (option Z) :=
  match records with
  | [] => Ok max
  | r :: rest =>
      val <-? ToNumber (obj_get r field) ;;
      let max :=
        match val with
        | NaN => max
        | Num z => if match max with None => true | Some m => m <? z end
                   then Some z else max
        end in
      max_loop field rest max
  end.

Definition num_or_null (v : option Z) : jsval :=
  match v with Some z => JNum z | None => JNull end.

(** The names every object inherits from [Object.prototype]. *)
Definition prototype_names : list string :=
  ["constructor"; "__defineGetter__"; "__defineSetter__"; "hasOwnProperty";
   "__lookupGetter__"; "__lookupSetter__"; "isPrototypeOf"; "propertyIsEnumerable";
   "toString"; "valueOf"; "__proto__"; "toLocaleString"].

(** The first loop of [_groupedAggregate]: [groups] in the order in
    which its keys were created.  Under an inherited name [groups[key]]
    is not an array, and [push] is not a function. *)
Fixpoint add_to_group (key : string) (record : obj) (groups : list (string * list obj))
  : list (string * list obj) :=
  match groups with
  | [] => [(key, [record])]
  | (k, rs) :: rest =>
      if String.eqb key k then (k, rs ++ [record]) :: rest
      else (k, rs) :: add_to_group key record rest
  end.

Fixpoint group_loop (groupBy : string) (records : list obj) (groups : list (string * list obj))
  : outcome (list (string * list obj)) :=
  match records with
  | [] => Ok groups
  | record :: rest =>
      let key := String_of (obj_get record groupBy) in
      if mem_string key prototype_names
      then Throw "groups[key].push is not a function"
      else group_loop groupBy rest (add_to_group key record groups)
  end.

(** A key that is an array index: a canonical numeral below [2^32 - 1]. *)
Definition array_index (k : string) : option Z :=
  match digits (chars k) with
  | Some n => if String.eqb (string_of_Z n) k && (n <=? 4294967294) then Some n else None
  | None => None
  end.

(** A property name that an object keeps in the order of its creation
    and that no object inherits: not an array index and not the name of
    a member of [Object.prototype]. *)
Definition plain_name (k : string) : bool :=
  negb (mem_string k prototype_names)
  && match array_index k with Some _ => false | None => true end.

Fixpoint insert_by_index {V} (n : Z) (e : string * V) (l : list (Z * (string * V)))
  : list (Z * (string * V)) :=
  match l with
  | [] => [(n, e)]
  | (m, e') :: rest =>
      if n <? m then (n, e) :: (m, e') :: rest else (m, e') :: insert_by_index n e rest
  end.

(** [Object.entries(groups)]: the array indices in ascending order, then
    the other keys in the order of their creation. *)
Definition entries {V} (groups : list (string * V)) : list (string * V) :=
  let indexed :=
    fold_left (fun acc e => match array_index (fst e) with
                            | Some n => insert_by_index n e acc
                            | None => acc
                            end) groups [] in
  map snd indexed
  ++ List.filter (fun e => match array_index (fst e) with Some _ => false | None => true end)
       groups.

(** The row of one group. *)
Definition group_row (FUNC field groupBy : string) (key : string) (groupRecords : list obj)
  : outcome obj :=
  let result := obj_set (plain []) groupBy (JStr key) in
  if String.eqb FUNC "COUNT" then
    Ok (obj_set result "count" (JNum (Z.of_nat (length groupRecords))))
  else if String.eqb FUNC "SUM" then
    sum <-? sum_loop field groupRecords 0 ;;
    Ok (obj_set result "sum" (JNum sum))
  else if String.eqb FUNC "AVG" then
    match groupRecords with
    | [] => Ok (obj_set result "avg" JNull)
    | _ =>
        sum <-? sum_loop field groupRecords 0 ;;
        avg <-? js_div sum (Z.of_nat (length groupRecords)) ;;
        Ok (obj_set result "avg" (JNum avg))
    end
  else if String.eqb FUNC "MIN" then
    min <-? min_loop field groupRecords None ;;
    Ok (obj_set result "min" (num_or_null min))
  else if String.eqb FUNC "MAX" then
    max <-? max_loop field groupRecords None ;;
    Ok (obj_set result "max" (num_or_null max))
  else Ok result.

Fixpoint group_rows (func field groupBy : string) (es : list (string * list obj))
  : outcome (list obj) :=
  match es with
  | [] => Ok []
  | (key, groupRecords) :: rest =>
      FUNC <-? toUpperCase func ;;
      row <-? group_row FUNC field groupBy key groupRecords ;;
      rows <-? group_rows func field groupBy rest ;;
      Ok (row :: rows)
  end.

Record having_clause : Type := mkHaving {
  having_field : string;
  having_op : string;
  having_val : option jsval
}.

Definition having_keeps (h : having_clause) (row : obj) : outcome bool :=
  let val := obj_get row (having_field h) in
  let target := having_val h in
  let op := having_op h in
  if String.eqb op "=" then Ok (strict_eq val target)
  else if String.eqb op "!=" || String.eqb op "<>" then Ok (negb (strict_eq val target))
  else if String.eqb op ">" then js_gt val target
  else if String.eqb op "<" then js_lt val target
  else if String.eqb op ">=" then js_ge val target
  else if String.eqb op "<=" then js_le val target
  else Ok true.

Fixpoint having_filter (h : having_clause) (rows : list obj) : outcome (list obj) :=
  match rows with
  | [] => Ok []
  | row :: rest =>
      keep <-? having_keeps h row ;;
      rest <-? having_filter h rest ;;
      Ok (if keep then row :: rest else rest)
  end.

(** [_groupedAggregate(records, func, field, groupBy, having)]; [field]
    and [groupBy] are the property keys that [r[field]] and
    [record[groupBy]] use. *)
Definition _groupedAggregate (records : list obj) (func field groupBy : string)
    (having : option having_clause) : outcome (list obj) :=
  groups <-? group_loop groupBy records [] ;;
  results <-? group_rows func field groupBy (entries groups) ;;
  match having with
  | Some h => having_filter h results
  | None => Ok results
  end.

(** What [_aggregate] returns: one object, or the rows of the groups. *)
Inductive aggregate_result : Type :=
| AggObject (o : obj)
| AggRows (rows : list obj).

(** [_aggregate(table, func, field, criteria, groupBy, having)] *)
Definition _aggregate (fuel : nat) (table func : string) (field : option string)
    (c : option criteria) (groupBy : option string) (having : option having_clause)
  : M aggregate_result :=
  records <- _select fuel table c None None None [] ;;
  let key := String_of (option_map JStr field) in
  if truthy (option_map JStr groupBy) then
    rows <- lift (_groupedAggregate records func key
                    (String_of (option_map JStr groupBy)) having) ;;
    ret (AggRows rows)
  else
    FUNC <- lift (toUpperCase func) ;;
    let fieldv := match field with Some f => JStr f | None => JNull end in
    if String.eqb FUNC "COUNT" then
      ret (AggObject (plain [("count", JNum (Z.of_nat (length records)))]))
    else if String.eqb FUNC "SUM" then
      if negb (truthy (option_map JStr field)) then throw "SUM requires a field"
      else
        sum <- lift (sum_loop key records 0) ;;
        ret (AggObject (plain [("sum", JNum sum); ("field", fieldv)]))
    else if String.eqb FUNC "AVG" then
      if negb (truthy (option_map JStr field)) then throw "AVG requires a field"
      else
        match records with
        | [] => ret (AggObject (plain [("avg", JNull); ("field", fieldv); ("count", JNum 0)]))
        | _ =>
            avgSum <- lift (sum_loop key records 0) ;;
            avg <- lift (js_div avgSum (Z.of_nat (length records))) ;;
            ret (AggObject (plain [("avg", JNum avg); ("field", fieldv);
                                   ("count", JNum (Z.of_nat (length records)))]))
        end
    else if String.eqb FUNC "MIN" then
      if negb (truthy (option_map JStr field)) then throw "MIN requires a field"
      else
        match records with
        | [] => ret (AggObject (plain [("min", JNull); ("field", fieldv)]))
        | _ =>
            min <- lift (min_loop key records None) ;;
            ret (AggObject (plain [("min", num_or_null min); ("field", fieldv)]))
        end
    else if String.eqb FUNC "MAX" then
      if negb (truthy (option_map JStr field)) then throw "MAX requires a field"
      else
        match records with
        | [] => ret (AggObject (plain [("max", JNull); ("field", fieldv)]))
        | _ =>
            max <- lift (max_loop key records None) ;;
            ret (AggObject (plain [("max", num_or_null max); ("field", fieldv)]))
        end
    else throw ("Unknown aggregate function: " ++ func)%string.

(** The numbers MIN and MAX look at: [Number(r[field])] where that is
    not [NaN]. *)
Definition numeric_values (field : string) (records : list obj) : list Z :=
  flat_map (fun r => match ToNumber (obj_get r field) with
                     | Ok (Num z) => [z]
                     | _ => []
                     end) records.

(** The key under which [_groupedAggregate] files a record. *)
Definition group_key (groupBy : string) (r : obj) : string := String_of (obj_get r groupBy).



(** Whether a record belongs to the group of a key. *)
Definition in_group (g k : string) (r : obj) : bool := String.eqb (group_key g r) k.

Definition group_size (groupBy key : string) (records : list obj) : Z :=
  Z.of_nat (length (List.filter (in_group groupBy key) records)).

(** [groups] after the records [processed]: no key twice, and under
    each key the records of that key, in their order. *)
Definition groups_of (g : string) (gs : list (string * list obj)) (processed : list obj) : Prop :=
  NoDup (map fst gs)
  /\ forall k, assoc k gs = match List.filter (in_group g k) processed with
                            | [] => None
                            | l => Some l
                            end.

(** Whether the key of an entry is an array index. *)
Definition is_index_entry {V} (e : string * V) : bool :=
  match array_index (fst e) with Some _ => true | None => false end.

(** ** Joins

    The branch of [_select] for a command with joins, as definitions of
    their own: a join step is a function of the rows so far and the rows
    of the joined table. *)

(** [`${table}.${k}`] *)
Definition prefixed (table k : string) : string := (table ++ "." ++ k)%string.

(** A row of the main table: [{ ...row }], and every column once more
    under ["table.column"]. *)
Definition prefixLeftRow (table : string) (row : obj) : obj :=
  fold_left (fun newRow kv => obj_set newRow (prefixed table (fst kv)) (snd kv))
            (fields row) (spread row).

(** [prefixRightRow(row)] *)
Definition prefixRightRow (joinTable : string) (row : obj) : obj :=
  fold_left (fun p kv => obj_set (obj_set p (fst kv) (snd kv))
                                 (prefixed joinTable (fst kv)) (snd kv))
            (fields row) (plain []).

(** [createNullRightRow()]: the columns of the first row of the joined
    table, all [null]; no column when that table is empty. *)
Definition createNullRightRow (joinTable : string) (joinRows : list obj) : obj :=
  match joinRows with
  | [] => plain []
  | first :: _ =>
      fold_left (fun n kv => obj_set (obj_set n (fst kv) JNull)
                                     (prefixed joinTable (fst kv)) JNull)
                (fields first) (plain [])
  end.

(** [createNullLeftRow()] *)
Definition createNullLeftRow (currentRows : list obj) : obj :=
  match currentRows with
  | [] => plain []
  | first :: _ => fold_left (fun n kv => obj_set n (fst kv) JNull) (fields first) (plain [])
  end.

(** [join.on.right] without the prefix ["table."], if it has it. *)
Definition rightKey (joinTable : string) (on : on_clause) : string :=
  match strip_prefix (chars (joinTable ++ ".")%string) (chars (on_right on)) with
  | Some rest => str rest
  | None => on_right on
  end.

(** [matchRows(leftRow, rightRow)] *)
Definition matchRows (joinTable : string) (on : on_clause) (leftRow rightRow : obj)
  : outcome bool :=
  let lVal := obj_get leftRow (on_left on) in
  let rVal := obj_get rightRow (rightKey joinTable on) in
  let op := on_op on in
  if String.eqb op "=" then loose_eq lVal rVal
  else if String.eqb op "!=" || String.eqb op "<>" then
    b <-? loose_eq lVal rVal ;; Ok (negb b)
  else if String.eqb op ">" then js_gt lVal rVal
  else if String.eqb op "<" then js_lt lVal rVal
  else if String.eqb op ">=" then js_ge lVal rVal
  else if String.eqb op "<=" then js_le lVal rVal
  else Ok false.

(** A [Map] from values to arrays, in the order in which its keys were
    set; keys are told apart as [Map] does (SameValueZero). *)
Fixpoint map_push {V} (k : jsval) (v : V) (m : list (jsval * list V)) : list (jsval * list V) :=
  match m with
  | [] => [(k, [v])]
  | (k', vs) :: rest =>
      if jsval_eqb k k' then (k', vs ++ [v]) :: rest else (k', vs) :: map_push k v rest
  end.

Fixpoint map_find {V} (k : jsval) (m : list (jsval * list V)) : option (list V) :=
  match m with
  | [] => None
  | (k', vs) :: rest => if jsval_eqb k k' then Some vs else map_find k rest
  end.

(** [joinMap.has(val) ? joinMap.get(val) : nothing]; no key is
    [undefined]. *)
Definition map_get {V} (val : option jsval) (m : list (jsval * list V)) : list V :=
  match val with
  | Some k => match map_find k m with Some vs => vs | None => [] end
  | None => []
  end.

(** The loop that fills [joinMap] (and [leftMap]): rows whose key is
    [undefined] or [null] are left out. *)
Definition build_map {V} (key : string) (row_of : V -> obj) (rows : list V)
  : list (jsval * list V) :=
  fold_left (fun m row =>
               match obj_get (row_of row) key with
               | None | Some JNull => m
               | Some val => map_push val row m
               end) rows [].

(** The rows of an array with their positions, which is what
    [joinRows.indexOf(rightRow)] finds again. *)
Fixpoint indexed {A} (i : nat) (l : list A) : list (nat * A) :=
  match l with
  | [] => []
  | x :: r => (i, x) :: indexed (S i) r
  end.

(** The rows of the joined table that the nested loop pairs with a row. *)
Fixpoint nested_right (joinTable : string) (on : on_clause) (leftRow : obj)
    (joinRows : list (nat * obj)) : outcome (list (nat * obj)) :=
  match joinRows with
  | [] => Ok []
  | (ri, rightRow) :: rest =>
      m <-? matchRows joinTable on leftRow rightRow ;;
      ms <-? nested_right joinTable on leftRow rest ;;
      Ok (if m then (ri, rightRow) :: ms else ms)
  end.

Fixpoint nested_left (joinTable : string) (on : on_clause) (rightRow : obj)
    (currentRows : list obj) : outcome (list obj) :=
  match currentRows with
  | [] => Ok []
  | leftRow :: rest =>
      m <-? matchRows joinTable on leftRow rightRow ;;
      ms <-? nested_left joinTable on rightRow rest ;;
      Ok (if m then leftRow :: ms else ms)
  end.

(** The loop over the rows so far of an INNER, LEFT or FULL join;
    returns the new rows and the positions of the matched rows of the
    joined table. *)
Fixpoint join_from_left (joinTable joinType : string) (on : on_clause)
    (joinMap : option (list (jsval * list (nat * obj))))
    (joinRows : list obj) (currentRows : list obj) : outcome (list obj * list nat) :=
  match currentRows with
  | [] => Ok ([], [])
  | leftRow :: rest =>
      matches <-?
        match joinMap with
        | Some m => Ok (map_get (obj_get leftRow (on_left on)) m)
        | None => nested_right joinTable on leftRow (indexed 0 joinRows)
        end ;;
      let rows :=
        map (fun m => spread2 leftRow (prefixRightRow joinTable (snd m))) matches in
      let rows :=
        match matches with
        | [] => if String.eqb joinType "LEFT" || String.eqb joinType "FULL"
                then [spread2 leftRow (createNullRightRow joinTable joinRows)] else []
        | _ => rows
        end in
      r <-? join_from_left joinTable joinType on joinMap joinRows rest ;;
      Ok (rows ++ fst r, map fst matches ++ snd r)
  end.

(** The loop over the rows of the joined table of a RIGHT join. *)
Fixpoint join_from_right (joinTable : string) (on : on_clause)
    (leftMap : option (list (jsval * list obj)))
    (currentRows : list obj) (joinRows : list obj) : outcome (list obj) :=
  match joinRows with
  | [] => Ok []
  | rightRow :: rest =>
      let prefixedRight := prefixRightRow joinTable rightRow in
      matches <-?
        match leftMap with
        | Some m => Ok (map_get (obj_get rightRow (rightKey joinTable on)) m)
        | None => nested_left joinTable on rightRow currentRows
        end ;;
      let rows :=
        match matches with
        | [] => [spread2 (createNullLeftRow currentRows) prefixedRight]
        | _ => map (fun leftRow => spread2 leftRow prefixedRight) matches
        end in
      r <-? join_from_right joinTable on leftMap currentRows rest ;;
      Ok (rows ++ r)
  end.

(** One turn of the loop over [joins]: the rows after the join. *)
Definition join_step (j : join_spec) (currentRows joinRows : list obj) : outcome (list obj) :=
  let joinTable := join_table j in
  let joinType := if String.eqb (join_type j) "" then "INNER" else join_type j in
  if String.eqb joinType "CROSS" then
    Ok (flat_map (fun leftRow =>
                    map (fun rightRow => spread2 leftRow (prefixRightRow joinTable rightRow))
                        joinRows) currentRows)
  else
    match join_on j with
    | None => Throw "Cannot read properties of undefined (reading 'op')"
    | Some on =>
        let useHashJoin := String.eqb (on_op on) "=" in
        let joinMap :=
          if useHashJoin
          then Some (build_map (rightKey joinTable on) snd (indexed 0 joinRows))
          else None in
        r1 <-?
          (if String.eqb joinType "INNER" || String.eqb joinType "LEFT"
              || String.eqb joinType "FULL"
           then join_from_left joinTable joinType on joinMap joinRows currentRows
           else Ok ([], [])) ;;
        r2 <-?
          (if String.eqb joinType "RIGHT" then
             let leftMap :=
               if useHashJoin then Some (build_map (on_left on) (fun r => r) currentRows)
               else None in
             join_from_right joinTable on leftMap currentRows joinRows
           else Ok []) ;;
        let r3 :=
          if String.eqb joinType "FULL" then
            map (fun m => spread2 (createNullLeftRow currentRows)
                                  (prefixRightRow joinTable (snd m)))
                (List.filter (fun m => negb (existsb (Nat.eqb (fst m)) (snd r1)))
                             (indexed 0 joinRows))
          else [] in
        Ok (fst r1 ++ r2 ++ r3)
    end.

(** The loop over [joins]. *)
Fixpoint join_pipeline (fuel : nat) (joins : list join_spec) (currentRows : list obj)
  : M (list obj) :=
  match joins with
  | [] => ret currentRows
  | j :: rest =>
      joinEntry <- _findTableEntry (join_table j) ;;
      match joinEntry with
      | None => throw (not_found (join_table j))
      | Some joinEntry =>
          joinRows <- _scanTable fuel joinEntry None None false ;;
          nextRows <- lift (join_step j currentRows joinRows) ;;
          join_pipeline fuel rest nextRows
      end
  end.

(** [results.filter(r => this._checkMatch(r, criteria))] *)
Fixpoint filter_matching (c : option criteria) (rows : list obj) : outcome (list obj) :=
  match rows with
  | [] => Ok []
  | r :: rest =>
      m <-? _checkMatch r c ;;
      rest <-? filter_matching c rest ;;
      Ok (if m then r :: rest else rest)
  end.

(** [_select] for a command with joins ([joins.length > 0]). *)
Definition _select_joins (fuel : nat) (table : string) (c : option criteria)
    (sort : option sort_spec) (limit offsetCount : option Z) (joins : list join_spec)
  : M (list obj) :=
  entry <- _findTableEntry table ;;
  match entry with
  | None => throw (not_found table)
  | Some entry =>
      rows <- _scanTable fuel entry None None false ;;
      let currentRows := map (prefixLeftRow table) rows in
      results <- join_pipeline fuel joins currentRows ;;
      results <-
        match c with
        | Some _ => lift (filter_matching c results)
        | None => ret results
        end ;;
      results <-
        match sort with
        | Some sort => lift (js_sort (sort_compare sort) results)
        | None => ret results
        end ;;
      let results := limit_offset results limit offsetCount in
      q <- gets queryString ;;
      emit (OnTableSelected table results q) ;;;
      ret results
  end.




(** ** Names of tables *)

Definition is_letter (c : ascii) : bool :=
  ((65 <=? code c) && (code c <=? 90)) || ((97 <=? code c) && (code c <=? 122)).

(** [/^[a-zA-Z_][a-zA-Z0-9_]*$/.test(name)] *)
Definition name_pattern (name : string) : bool :=
  match chars name with
  | [] => false
  | c :: rest =>
      (is_letter c || (code c =? 95))
      && forallb (fun x => is_letter x || (code x =? 95) || is_digit x) rest
  end.

Definition lower_char (c : ascii) : ascii :=
  if (65 <=? code c) && (code c <=? 90) then ascii_of_nat (Z.to_nat (code c + 32)) else c.

(** [name.toLowerCase()], of a name that passed the pattern. *)
Definition toLowerCase_ascii (name : string) : string := str (map lower_char (chars name)).

Definition reserved_names : list string :=
  ["_indexes"; "_system"; "_schema"; "null"; "true"; "false"].

(** [_validateName(name, type, allowSystem)]; [None] is a [name] that
    is not a string. *)
Definition _validateName (name : option string) (type : string) (allowSystem : bool)
  : outcome bool :=
  match name with
  | None => Throw (type ++ " name tidak boleh kosong")%string
  | Some name =>
      if String.eqb name "" then Throw (type ++ " name tidak boleh kosong")%string
      else if 32 <? Z.of_nat (String.length name) then Throw (type ++ " name max 32 karakter")%string
      else if negb (name_pattern name) then
        Throw (type ++ " name hanya boleh huruf, angka, underscore, dan harus dimulai dengan huruf atau underscore")%string
      else if negb allowSystem && String.eqb type "table"
              && mem_string (toLowerCase_ascii name) reserved_names then
        Throw (type ++ " name '" ++ name ++ "' adalah nama terproteksi")%string
      else Ok true
  end.

Definition has_dot (s : string) : bool := existsb (fun c => code c =? 46) (chars s).

(** ** Scenarios for the catalog and for the first engine *)

(** The modular engine with two user tables. *)
Definition two_tables_db : db := new_db ["_indexes"; "t"; "u"].

(** Two tables and an index on [t.k]: [_indexes] holds one record. *)
Definition two_tables_indexed_db : db := state_after 8 [CREATE_INDEX "t" "k"] two_tables_db.

Definition index_record (table field : string) : obj :=
  plain [("table", JStr table); ("field", JStr field)].

Definition rec_null : obj := plain [("k", JNull)].

Definition rec_id (n : Z) : obj := plain [("id", JNum n)].

(** The first engine on a new file, after [LAHAN karet]. *)
Definition karet_db : db := snd (Wowo._createTable "karet" Wowo.new_file).

(** ... after one and after two records were put into [karet]. *)
Definition karet_1_db : db := snd (Wowo._insert "karet" (rec_id 1) karet_db).
Definition karet_2_db : db := snd (Wowo._insert "karet" (rec_id 2) karet_1_db).

(** ... and after [LAHAN sawit], with one record in [karet] or none. *)
Definition karet_sawit_db : db := snd (Wowo._createTable "sawit" karet_db).
Definition karet_1_sawit_db : db := snd (Wowo._createTable "sawit" karet_1_db).

Definition karet_entry : table_entry := mkEntry 0 12 1 1.

Definition id_is (n : Z) : option Wowo.criteria :=
  Some (Wowo.Single (Wowo.mkCond "id" "=" (JNum n) "AND")).

Definition cond_a : Wowo.condition := Wowo.mkCond "a" "=" (JNum 1) "AND".
Definition cond_b : Wowo.condition := Wowo.mkCond "b" "=" (JNum 1) "OR".
Definition cond_c : Wowo.condition := Wowo.mkCond "c" "=" (JNum 1) "AND".
Definition rec_a1_b1_c0 : obj := plain [("a", JNum 1); ("b", JNum 1); ("c", JNum 0)].

(** The modular engine with one and with two records in [t]. *)
Definition one_row_db : db := state_after 8 [INSERT "t" (rec_id 1)] base_db.
Definition two_rows_db : db := state_after 8 [INSERT "t" (rec_id 2)] one_row_db.

Definition t_entry : table_entry := mkEntry 1 52 2 2.

Definition id_eq (n : Z) : option criteria := Some (Leaf "id" "=" (APrim (JNum n))).

Definition rec_kind (k : jsval) : obj := plain [("kind", k)].

Definition kinds : list obj :=
  [rec_kind (JStr "b"); rec_kind (JNum 10); rec_kind (JStr "b"); rec_kind JNull].





(** The page of [long_next_db] that holds the two records of [t]. *)
Definition long_next_page : buffer :=
  match file long_next_db !! 2 with Some b => b | None => [] end.

(** * Theorems *)


(** ** Compound criteria *)

Lemma conditions_evaluate (o : obj) (conditions : list criteria) :
  Forall (fun c => evaluable o c = true ->
                   checkMatch_criteria o c = Ok (criteria_truth o c)) conditions ->
  forallb (evaluable o) conditions = true ->
  Forall (fun c => checkMatch_criteria o c = Ok (criteria_truth o c)) conditions.
Proof.
  induction 1 as [|c cs Hc Hcs IHcs]; intros Hev; constructor;
    cbn [forallb] in Hev; apply andb_true_iff in Hev; destruct Hev as [H1 H2]; auto.
Qed.

Lemma or_loop (o : obj) (conditions : list criteria) :
  Forall (fun c => checkMatch_criteria o c = Ok (criteria_truth o c)) conditions ->
  checkMatch_criteria o (Compound "OR" conditions)
  = Ok (existsb (criteria_truth o) conditions).
Proof.
  intros H. cbn [checkMatch_criteria]. cbv zeta.
  change (String.eqb "OR" "OR") with true. cbv iota.
  induction H as [|c cs Hc _ IHcs]; [reflexivity|].
  rewrite Hc. cbn [obind existsb orb].
  destruct (criteria_truth o c); [reflexivity|exact IHcs].
Qed.

Lemma and_loop (o : obj) (conditions : list criteria) :
  Forall (fun c => checkMatch_criteria o c = Ok (criteria_truth o c)) conditions ->
  checkMatch_criteria o (Compound "AND" conditions)
  = Ok (forallb (criteria_truth o) conditions).
Proof.
  intros H. cbn [checkMatch_criteria]. cbv zeta.
  change (String.eqb "AND" "OR") with false. cbv iota.
  induction H as [|c cs Hc _ IHcs]; [reflexivity|].
  rewrite Hc. cbn [obind forallb andb negb].
  destruct (criteria_truth o c); [exact IHcs|reflexivity].
Qed.

(** C6.  For every record and every criteria tree built from leaves and
    compound nodes with logic AND or OR, nested to any depth, on which
    the leaf comparisons yield booleans: [_checkMatch] returns the
    conjunction of the recursively evaluated conditions at an AND node and
    their disjunction at an OR node. *)
Theorem C6_checkMatch_compound_is_conjunction_or_disjunction
    (o : obj) (c : criteria) :
  evaluable o c = true ->
  _checkMatch o (Some c) = Ok (criteria_truth o c).
Proof.
  unfold _checkMatch. revert c.
  apply (criteria_tree_ind
           (fun c => evaluable o c = true ->
                     checkMatch_criteria o c = Ok (criteria_truth o c))).
  - intros key op val H. simpl in *.
    destruct (_checkSingleCondition o key op val); congruence.
  - intros logic conditions IH H.
    cbn [evaluable] in H. apply andb_true_iff in H. destruct H as [Hl Hcs].
    apply orb_true_iff in Hl. destruct Hl as [Hl|Hl]; apply String.eqb_eq in Hl; subst logic.
    + rewrite (and_loop o conditions (conditions_evaluate o conditions IH Hcs)). reflexivity.
    + rewrite (or_loop o conditions (conditions_evaluate o conditions IH Hcs)). reflexivity.
Qed.

(** The rows of the specification's scenario: the criteria
    [b = 'D' OR b = 'P' AND l = 'B'], parsed with AND below OR, holds of
    the rows 1 and 3 and of no other. *)
Lemma C6_witness_and_below_or :
  evaluable (bibit_row 3 "P" "B") d_or_p_and_b = true
  /\ _checkMatch (bibit_row 3 "P" "B") (Some d_or_p_and_b)
     = Ok (criteria_truth (bibit_row 3 "P" "B") d_or_p_and_b)
  /\ map (fun r => criteria_truth r d_or_p_and_b)
         [bibit_row 1 "D" "A"; bibit_row 2 "T" "A"; bibit_row 3 "P" "B"; bibit_row 5 "T" "B"]
     = [true; false; true; false].
Proof.
  split; [reflexivity|].
  split; [|reflexivity].
  apply (C6_checkMatch_compound_is_conjunction_or_disjunction
           (bibit_row 3 "P" "B") d_or_p_and_b).
  reflexivity.
Defined.

(** ** DELETE through a page hint *)

(** C1.  In [two_page_db] the table holds a record with [k = 1] on page 2
    and another on page 3, and the first index entry for the key 1 hints
    at page 2.  [DELETE ... WHERE k = 1] then visits page 2 only: it
    reports one removed record and the matching record on page 3 stays in
    the table. *)
Theorem C1_delete_by_page_hint_leaves_matches_on_other_pages :
  fst (readPageObjects 2 two_page_db) = Ok (3, [rec_a; rec_filler])
  /\ fst (readPageObjects 3 two_page_db) = Ok (0, [rec_b])
  /\ index_hint (indexes two_page_db) "t" k_is_1 = Ok 2
  /\ _checkMatch rec_a k_is_1 = Ok true
  /\ _checkMatch rec_b k_is_1 = Ok true
  /\ results_of 8 [DELETE "t" k_is_1] two_page_db
     = [Ok (RString "Berhasil menggusur 1 bibit.")]
  /\ table_rows 8 "t" (state_after 8 [DELETE "t" k_is_1] two_page_db)
     = Ok [fields rec_filler; fields rec_b].
Proof. vm_compute. repeat split. Qed.

(** ** UPDATE that outgrows its slot *)

(** C2.  Two records match [k = 1].  The update makes the first of them
    longer than its slot, so [_update] calls [_delete] with the whole
    criteria, which removes both, inserts the one updated record and
    leaves the loop: it reports one update and the second matching record
    is gone from the table. *)
Theorem C2_update_overflow_deletes_every_match :
  table_rows 8 "t" two_match_db = Ok [fields rec_a; fields rec_b]
  /\ results_of 8 [UPDATE "t" [("v", JStr "longer")] k_is_1] two_match_db
     = [Ok (RString "Berhasil memupuk 1 bibit.")]
  /\ table_rows 8 "t" (state_after 8 [UPDATE "t" [("v", JStr "longer")] k_is_1] two_match_db)
     = Ok [[("k", JNum 1); ("v", JStr "longer")]].
Proof. vm_compute. repeat split. Qed.

(** ** UPDATE through a stale page hint *)

(** C3.  In [stale_hint_db] the only index entry for the key 1 hints at
    page 3, which holds no record, while a record with [k = 1] lives on
    page 2.  [UPDATE ... WHERE k = 1] visits page 3, updates nothing and
    stops there; the record on page 2 is not updated.  [DELETE] with the
    same criteria on the same state falls back to the full scan and finds
    the record. *)
Theorem C3_update_by_stale_hint_updates_nothing :
  index_hint (indexes stale_hint_db) "t" k_is_1 = Ok 3
  /\ fst (readPageObjects 3 stale_hint_db) = Ok (0, [])
  /\ table_rows 8 "t" stale_hint_db = Ok [fields rec_a; fields rec_filler]
  /\ results_of 8 [UPDATE "t" [("v", JStr "z")] k_is_1] stale_hint_db
     = [Ok (RString "Berhasil memupuk 0 bibit.")]
  /\ table_rows 8 "t" (state_after 8 [UPDATE "t" [("v", JStr "z")] k_is_1] stale_hint_db)
     = Ok [fields rec_a; fields rec_filler]
  /\ results_of 8 [DELETE "t" k_is_1] stale_hint_db
     = [Ok (RString "Berhasil menggusur 1 bibit.")]
  /\ table_rows 8 "t" (state_after 8 [DELETE "t" k_is_1] stale_hint_db)
     = Ok [fields rec_filler].
Proof. vm_compute. repeat split. Qed.

(** ** SELECT with limit and offset *)

(** C4.  On a table of three rows, [SELECT * LIMIT 1 OFFSET 1] stops the
    scan after one row and then skips one row: it returns nothing, where
    scanning everything and taking rows 1..1 returns the second row. *)
Theorem C4_select_limit_pushed_down_ignores_offset :
  table_rows 8 "t" three_rows_db = Ok [[("id", JNum 1)]; [("id", JNum 2)]; [("id", JNum 3)]]
  /\ select_access_path (indexes three_rows_db) "t" None None (Some 1) [] = TableScan (Some 1)
  /\ fst (_select 8 "t" None None (Some 1) (Some 1) [] three_rows_db) = Ok []
  /\ fst (naive_select 8 "t" None None (Some 1) (Some 1) three_rows_db)
     = Ok [plain [("id", JNum 2)]].
Proof. vm_compute. repeat split. Qed.

(** ** EXPLAIN and the access path of SELECT *)

(** C5.  With an index on [t.k], for [SELECT * FROM t WHERE k = 1 ORDER
    BY k] the plan of [_explain] has an INDEX SCAN step, while [_select]
    scans the table: it takes the index only when there is no sort. *)
Theorem C5_explain_reports_index_scan_for_sorted_select :
  has_index (indexes indexed_db) "t.k" = true
  /\ match fst (_explain (SELECT "t" ["*"] k_is_1 (Some (mkSort "k" "asc")) None None [] false)
                         indexed_db) with
     | Ok p => has_index_scan p
     | _ => false
     end = true
  /\ select_access_path (indexes indexed_db) "t" k_is_1 (Some (mkSort "k" "asc")) None []
     = TableScan None.
Proof. vm_compute. repeat split. Qed.

(** ** LIKE *)

(** C7.  The value ["abc"] and the pattern ["a.c"]: the general evaluator
    escapes the dot and finds no match; the condition check inlined in the
    scan does not escape it, the dot matches any character, and the SELECT
    returns the row. *)
Theorem C7_scan_fast_path_like_treats_dot_as_wildcard :
  table_rows 8 "t" abc_db = Ok [fields rec_abc]
  /\ _checkMatch rec_abc like_a_dot_c = Ok false
  /\ scan_matches like_a_dot_c rec_abc = Ok true
  /\ fst (query 8 (SELECT "t" ["*"] like_a_dot_c None None None [] false) abc_db)
     = Ok (RRows [rec_abc]).
Proof. vm_compute. repeat split. Qed.

(** ** INSERT of a record larger than a page *)

(** C8.  A record whose JSON text is 4108 bytes long does not fit on any
    page.  [INSERT] reports success; it has allocated page 3 and written
    there a record count of 1, a free offset of 4118 (past the end of the
    page) and the first 4086 bytes of the text, which no scan can decode:
    the table reads back empty. *)
Theorem C8_insert_oversize_record_reports_success :
  Buffer_byteLength (JSON_stringify rec_oversize) = 4108
  /\ results_of 8 [INSERT "t" rec_oversize] base_db = [Ok (RString "1 bibit tertanam.")]
  /\ fst (_findTableEntry "t" (state_after 8 [INSERT "t" rec_oversize] base_db))
     = Ok (Some (mkEntry 1 52 2 3))
  /\ page_header 3 (state_after 8 [INSERT "t" rec_oversize] base_db) = Ok (1, 4118)
  /\ table_rows 8 "t" (state_after 8 [INSERT "t" rec_oversize] base_db) = Ok [].
Proof. vm_compute. repeat split. Qed.

(** ** The hook called by DELETE *)

(** C9.  A DELETE that removes one record calls [OnTableInserted] with
    the removed record, and does not call [OnTableDeleted]. *)
Theorem C9_delete_calls_OnTableInserted :
  results_of 8 [DELETE "t" k_is_1] indexed_db = [Ok (RString "Berhasil menggusur 1 bibit.")]
  /\ events (state_after 8 [DELETE "t" k_is_1] indexed_db)
     = events indexed_db ++ [OnTableInserted "t" [rec_a] ""]
  /\ existsb is_OnTableDeleted (events (state_after 8 [DELETE "t" k_is_1] indexed_db)) = false.
Proof. vm_compute. repeat split. Qed.

(** ** The JSON codec: parsing what was printed *)

Lemma parse_escaped_char c l :
  is_ascii c = true ->
  parse_string_body (json_escape_char c ++ l)
  = (p <-? parse_string_body l ;; Ok (c :: fst p, snd p)).
Proof.
  destruct c as [[] [] [] [] [] [] [] []]; intros H; try discriminate H; reflexivity.
Qed.

Lemma parse_string_body_escaped cs rest :
  forallb is_ascii cs = true ->
  parse_string_body (flat_map json_escape_char cs ++ dquote :: rest) = Ok (cs, rest).
Proof.
  induction cs as [|c cs IH]; intros H.
  - reflexivity.
  - cbn [forallb] in H. apply andb_true_iff in H. destruct H as [Hc Hcs].
    cbn [flat_map]. rewrite <- app_assoc. rewrite parse_escaped_char by exact Hc.
    rewrite IH by exact Hcs. reflexivity.
Qed.

Lemma digits_acc_uint d acc :
  digits_acc acc (chars (NilEmpty.string_of_uint d)) = Some (uint_val d acc).
Proof.
  revert acc. unfold chars.
  induction d; intros acc; cbn [NilEmpty.string_of_uint list_ascii_of_string uint_val digits_acc];
    [reflexivity | ..];
    match goal with
    | |- context [is_digit ?c] =>
        let b := eval vm_compute in (is_digit c) in change (is_digit c) with b
    end;
    match goal with
    | |- context [code ?c - 48] =>
        let v := eval vm_compute in (code c - 48) in change (code c - 48) with v
    end;
    cbv iota; apply IHd.
Qed.

Lemma span_digits_uint d rest :
  number_end rest = true ->
  span is_digit (chars (NilEmpty.string_of_uint d) ++ rest) = (chars (NilEmpty.string_of_uint d), rest).
Proof.
  intros Hr. unfold chars.
  induction d; cbn [NilEmpty.string_of_uint list_ascii_of_string app span];
    [| match goal with
       | |- context [is_digit ?c] =>
           let b := eval vm_compute in (is_digit c) in change (is_digit c) with b
       end; cbv iota; rewrite IHd; reflexivity ..].
  destruct rest as [|c r]; [reflexivity|].
  cbn [span]. unfold number_end in Hr. destruct (is_digit c); [discriminate|reflexivity].
Qed.

Lemma uint_val_acc d p : uint_val d (Zpos p) = Zpos (Pos.of_uint_acc d p).
Proof.
  revert p. induction d; intros p; cbn [uint_val Pos.of_uint_acc]; [reflexivity | ..];
    rewrite <- IHd; f_equal; lia.
Qed.

Lemma uint_val_of_uint d : uint_val d 0 = Z.of_N (Pos.of_uint d).
Proof.
  induction d; cbn [uint_val Pos.of_uint]; [reflexivity | exact IHd | ..];
    change (10 * 0 + ?k) with k;
    match goal with |- uint_val _ ?k = _ => change k with (Zpos (Z.to_pos k)) end;
    rewrite uint_val_acc; reflexivity.
Qed.

Lemma uint_val_to_uint p : uint_val (Pos.to_uint p) 0 = Zpos p.
Proof. rewrite uint_val_of_uint, DecimalPos.Unsigned.of_to. reflexivity. Qed.

Lemma nzhead_not_D0 d d' : nzhead d <> D0 d'.
Proof. induction d; cbn; congruence. Qed.

Lemma to_uint_head p : match Pos.to_uint p with Nil | D0 _ => False | _ => True end.
Proof.
  pose proof (DecimalPos.Unsigned.to_of (Pos.to_uint p)) as H.
  rewrite DecimalPos.Unsigned.of_to in H. cbn [N.to_uint] in H.
  pose proof (DecimalPos.Unsigned.to_uint_nonzero p) as Hz.
  destruct (Pos.to_uint p) eqn:E; try exact I.
  - discriminate H.
  - unfold unorm in H. cbn [nzhead] in H.
    destruct (nzhead u) eqn:En; try (symmetry in H; exfalso; rewrite <- En in H; exact (nzhead_not_D0 _ _ H)).
    exfalso. apply Hz. rewrite H. reflexivity.
Qed.

Lemma parse_unsigned_digits neg d ds rest v :
  is_digit d = true -> (code d =? 48) = false ->
  span is_digit ((d :: ds) ++ rest) = (d :: ds, rest) ->
  number_end rest = true ->
  digits (d :: ds) = Some v ->
  parse_unsigned neg ((d :: ds) ++ rest) = Ok (if neg then - v else v, rest).
Proof.
  intros Hd H0 Hs Hr Hv. unfold parse_unsigned.
  change ((d :: ds) ++ rest) with (d :: (ds ++ rest)) in *. cbv iota beta.
  rewrite Hd, H0. cbn [negb]. rewrite Hs, Hv.
  replace (fraction_follows rest) with false; [reflexivity|].
  destruct rest as [|c r]; [reflexivity|]. unfold number_end in Hr. cbn [fraction_follows].
  destruct (is_digit c); [discriminate|]. cbn [orb] in Hr.
  destruct ((code c =? 46) || (code c =? 101) || (code c =? 69)); [discriminate|reflexivity].
Qed.

Lemma parse_unsigned_pos neg p rest :
  number_end rest = true ->
  parse_unsigned neg (chars (NilEmpty.string_of_uint (Pos.to_uint p)) ++ rest)
  = Ok (if neg then - Zpos p else Zpos p, rest).
Proof.
  intros Hr.
  pose proof (to_uint_head p) as Hh. pose proof (uint_val_to_uint p) as Hv.
  pose proof (span_digits_uint (Pos.to_uint p) rest Hr) as Hs.
  pose proof (digits_acc_uint (Pos.to_uint p) 0) as Hd. rewrite Hv in Hd.
  unfold chars in *.
  destruct (Pos.to_uint p) as [|u|u|u|u|u|u|u|u|u|u]; try contradiction;
    cbn [NilEmpty.string_of_uint list_ascii_of_string] in *;
    apply parse_unsigned_digits; auto.
Qed.

Lemma parse_number_of_Z z rest :
  number_end rest = true ->
  parse_number (chars (string_of_Z z) ++ rest) = Ok (z, rest).
Proof.
  intros Hr. unfold string_of_Z. destruct z as [|p|p]; cbn [Z.to_int NilZero.string_of_int].
  - change (parse_number (chars (NilZero.string_of_uint zero) ++ rest))
      with (if fraction_follows rest
            then Stuck "JSON.parse: number outside the integers"
            else Ok (0, rest)).
    replace (fraction_follows rest) with false; [reflexivity|].
    destruct rest as [|c r]; [reflexivity|]. unfold number_end in Hr. cbn [fraction_follows].
    destruct (is_digit c); [discriminate|]. cbn [orb] in Hr.
    destruct ((code c =? 46) || (code c =? 101) || (code c =? 69)); [discriminate|reflexivity].
  - pose proof (to_uint_head p) as Hh. pose proof (parse_unsigned_pos false p rest Hr) as H.
    unfold NilZero.string_of_uint. unfold chars in *.
    destruct (Pos.to_uint p) as [|u|u|u|u|u|u|u|u|u|u]; try contradiction;
      cbn [NilEmpty.string_of_uint list_ascii_of_string app] in *; exact H.
  - pose proof (to_uint_head p) as Hh. pose proof (parse_unsigned_pos true p rest Hr) as H.
    unfold NilZero.string_of_uint. unfold chars in *.
    destruct (Pos.to_uint p) as [|u|u|u|u|u|u|u|u|u|u]; try contradiction;
      cbn [NilEmpty.string_of_uint list_ascii_of_string app] in *; exact H.
Qed.

Lemma member_end_number_end rest : member_end rest = true -> number_end rest = true.
Proof.
  destruct rest as [|c r]; [discriminate|]. unfold member_end, number_end, is_digit.
  intros H. apply orb_true_iff in H.
  destruct H as [H|H]; apply Z.eqb_eq in H; rewrite H; reflexivity.
Qed.

Lemma member_end_skip_ws rest : member_end rest = true -> skip_ws rest = rest.
Proof.
  destruct rest as [|c r]; [discriminate|]. unfold member_end, skip_ws, is_json_ws.
  intros H. cbn [drop_while]. apply orb_true_iff in H.
  destruct H as [H|H]; apply Z.eqb_eq in H; rewrite H; reflexivity.
Qed.

Lemma string_of_Z_head z :
  exists c l, chars (string_of_Z z) = c :: l /\ num_head c = true.
Proof.
  unfold string_of_Z, chars.
  destruct z as [|p|p]; cbn [Z.to_int NilZero.string_of_int].
  - eexists _, _. split; reflexivity.
  - pose proof (to_uint_head p) as Hh. unfold NilZero.string_of_uint.
    destruct (Pos.to_uint p); try contradiction;
      cbn [NilEmpty.string_of_uint list_ascii_of_string]; eexists _, _; split; reflexivity.
  - cbn [list_ascii_of_string]. eexists _, _. split; reflexivity.
Qed.

Lemma num_head_facts c :
  num_head c = true -> (code c =? 34) = false /\ is_json_ws c = false.
Proof.
  unfold num_head, is_digit, is_json_ws. intros H.
  assert (Hc : code c = 45 \/ 48 <= code c <= 57).
  { apply orb_true_iff in H. destruct H as [H|H].
    - left. apply Z.eqb_eq, H.
    - right. apply andb_true_iff in H. destruct H as [H1 H2].
      apply Z.leb_le in H1. apply Z.leb_le in H2. lia. }
  split.
  - apply Z.eqb_neq. lia.
  - repeat (apply orb_false_iff; split); apply Z.eqb_neq; lia.
Qed.

Lemma chars_str l : chars (str l) = l.
Proof. apply list_ascii_of_string_of_list_ascii. Qed.

Lemma str_chars s : str (chars s) = s.
Proof. apply string_of_list_ascii_of_string. Qed.

Lemma parse_value_json v rest :
  value_ascii v = true -> member_end rest = true ->
  parse_value (json_value v ++ rest) = Ok (v, rest).
Proof.
  intros Hv Hr. destruct v as [|b|n|s]; cbn [json_value ToString].
  - reflexivity.
  - destruct b; reflexivity.
  - destruct (string_of_Z_head n) as (c & l & Hl & Hc).
    pose proof (parse_number_of_Z n rest (member_end_number_end rest Hr)) as Hp.
    destruct (num_head_facts c Hc) as [H34 _].
    rewrite Hl in *. cbn [app] in *. unfold parse_value.
    rewrite H34. unfold num_head in Hc. rewrite Hc. rewrite Hp. reflexivity.
  - unfold json_quote. cbn [app]. rewrite <- app_assoc. cbn [app].
    unfold parse_value. change (code dquote =? 34) with true. cbv iota.
    rewrite parse_string_body_escaped by exact Hv.
    cbn [obind fst snd]. rewrite str_chars. reflexivity.
Qed.

Lemma json_value_head v :
  exists c l, json_value v = c :: l /\ is_json_ws c = false.
Proof.
  destruct v as [|b|n|s]; cbn [json_value ToString].
  - eexists _, _. split; reflexivity.
  - destruct b; eexists _, _; split; reflexivity.
  - destruct (string_of_Z_head n) as (c & l & Hl & Hc). exists c, l.
    split; [exact Hl|]. apply num_head_facts, Hc.
  - unfold json_quote. eexists _, _. split; reflexivity.
Qed.

Lemma parse_members_json fuel fs rest :
  fs <> [] -> (length fs <= fuel)%nat ->
  forallb member_ascii fs = true ->
  parse_members fuel (json_members fs ++ "}"%char :: rest) = Ok (fs, rest).
Proof.
  revert fuel. induction fs as [|[k v] fs IH]; intros fuel Hne Hf Hwf; [congruence|].
  destruct fuel as [|fuel]; [cbn in Hf; lia|].
  cbn [forallb] in Hwf. apply andb_true_iff in Hwf. destruct Hwf as [Hkv Hfs].
  unfold member_ascii in Hkv. cbn [fst snd] in Hkv. apply andb_true_iff in Hkv.
  destruct Hkv as [Hk Hv].
  destruct (json_value_head v) as (c & l & Hl & Hc).
  assert (Hhead : forall tail, member_end tail = true ->
            parse_members (S fuel) (json_member (k, v) ++ tail)
            = match tail with
              | c3 :: r3 =>
                  if code c3 =? 44 then
                    ms <-? parse_members fuel r3 ;; Ok ((k, v) :: fst ms, snd ms)
                  else if code c3 =? 125 then Ok ([(k, v)], r3)
                  else Throw "Unexpected token in JSON"
              | [] => Throw "Unexpected end of JSON input"
              end).
  { intros tail Ht. unfold json_member, json_quote. cbn [fst snd app].
    rewrite <- !app_assoc. cbn [app parse_members].
    change (skip_ws (dquote :: ?x)) with (dquote :: x).
    change (code dquote =? 34) with true. cbv iota.
    rewrite parse_string_body_escaped by exact Hk.
    cbn [obind fst snd].
    change (skip_ws (":"%char :: ?x)) with (":"%char :: x).
    change (code ":" =? 58) with true. cbv iota.
    assert (Hs : skip_ws (json_value v ++ tail) = json_value v ++ tail).
    { rewrite Hl. cbn [app]. unfold skip_ws. cbn [drop_while]. rewrite Hc. reflexivity. }
    rewrite Hs. rewrite parse_value_json by assumption.
    cbn [obind fst snd]. rewrite member_end_skip_ws by exact Ht.
    rewrite str_chars. reflexivity. }
  destruct fs as [|kv' fs'].
  - cbn [json_members]. rewrite Hhead by reflexivity. reflexivity.
  - change (json_members ((k, v) :: kv' :: fs'))
      with (json_member (k, v) ++ ","%char :: json_members (kv' :: fs')).
    rewrite <- app_assoc. cbn [app]. rewrite Hhead by reflexivity.
    change (code "," =? 44) with true. cbv iota.
    rewrite IH; [reflexivity|congruence|cbn in *; lia|exact Hfs].
Qed.

Lemma mem_string_In k l : mem_string k l = true <-> In k l.
Proof.
  unfold mem_string. rewrite existsb_exists. split.
  - intros (x & Hx & He). apply String.eqb_eq in He. subst. exact Hx.
  - intros H. exists k. split; [exact H|apply String.eqb_refl].
Qed.

Lemma distinct_keys_NoDup l : distinct_keys l = true -> NoDup l.
Proof.
  induction l as [|x r IH]; intros H; [constructor|].
  cbn [distinct_keys] in H. apply andb_true_iff in H. destruct H as [Hx Hr].
  apply NoDup_cons_2; [|apply IH, Hr].
  intros Hin%list_elem_of_In. apply mem_string_In in Hin. rewrite Hin in Hx. discriminate.
Qed.

Lemma assoc_set_fresh {V} k (v : V) acc :
  ~ In k (keys acc) -> assoc_set k v acc = acc ++ [(k, v)].
Proof.
  induction acc as [|[k' v'] acc IH]; intros H; [reflexivity|].
  cbn [assoc_set]. destruct (String.eqb_spec k k') as [->|Hne].
  - exfalso. apply H. left. reflexivity.
  - cbn [app]. rewrite IH; [reflexivity|]. intros Hin. apply H. right. exact Hin.
Qed.

Lemma fold_assoc_set_fresh (fs acc : list (string * jsval)) :
  NoDup (keys acc ++ keys fs) ->
  fold_left (fun a kv => assoc_set (fst kv) (snd kv) a) fs acc = acc ++ fs.
Proof.
  revert acc. induction fs as [|[k v] fs IH]; intros acc H.
  - rewrite app_nil_r. reflexivity.
  - cbn [fold_left fst snd]. cbn [keys map fst] in H.
    rewrite assoc_set_fresh.
    + rewrite IH.
      * rewrite <- app_assoc. reflexivity.
      * unfold keys in *. rewrite map_app. cbn [map fst]. rewrite <- app_assoc. exact H.
    + apply NoDup_app in H. destruct H as (_ & H & _).
      intros Hin. apply (H k); [apply list_elem_of_In, Hin|left].
Qed.

Lemma obj_of_members_distinct fs :
  distinct_keys (keys fs) = true -> obj_of_members fs = plain fs.
Proof.
  intros H. unfold obj_of_members. rewrite fold_assoc_set_fresh; [reflexivity|].
  cbn [keys map app]. apply distinct_keys_NoDup, H.
Qed.

Lemma length_json_members fs : (length fs <= length (json_members fs))%nat.
Proof.
  induction fs as [|kv fs IH]; [cbn; lia|].
  destruct fs as [|kv' fs'].
  - cbn [json_members json_member json_quote length app]. cbn. lia.
  - change (json_members (kv :: kv' :: fs'))
      with (json_member kv ++ ","%char :: json_members (kv' :: fs')).
    rewrite length_app. cbn [length] in *. lia.
Qed.

Lemma json_members_head kv fs :
  exists l, json_members (kv :: fs) = dquote :: l.
Proof.
  destruct fs; cbn [json_members json_member json_quote app]; eexists; reflexivity.
Qed.

(** Parsing the JSON text of a well-formed record gives back its
    enumerable fields, and nothing else: a page hint on the object leaves
    no trace in the text. *)
Theorem JSON_parse_stringify (o : obj) :
  record_ok (fields o) = true ->
  JSON_parse (JSON_stringify o) = Ok (plain (fields o)).
Proof.
  intros H. unfold record_ok in H. apply andb_true_iff in H. destruct H as [Hd Ha].
  unfold JSON_stringify, JSON_parse. rewrite chars_str.
  change (skip_ws ("{"%char :: ?x)) with ("{"%char :: x).
  change (code "{" =? 123) with true. cbv iota.
  destruct (fields o) as [|kv fs] eqn:E.
  - reflexivity.
  - destruct (json_members_head kv fs) as [l Hl].
    pose proof (length_json_members (kv :: fs)) as Hlen.
    assert (Hs : skip_ws (json_members (kv :: fs) ++ ["}"%char])
                 = json_members (kv :: fs) ++ ["}"%char]).
    { rewrite Hl. reflexivity. }
    rewrite Hs.
    assert (Hp : parse_members (S (length (json_members (kv :: fs) ++ ["}"%char])))
                   (json_members (kv :: fs) ++ ["}"%char]) = Ok (kv :: fs, [])).
    { apply parse_members_json; [congruence| |exact Ha].
      rewrite length_app. lia. }
    rewrite Hl in *. cbn [app] in *.
    change (code dquote =? 125) with false. cbv iota.
    rewrite Hp. cbn [obind fst snd skip_ws drop_while].
    rewrite obj_of_members_distinct by exact Hd. reflexivity.
Qed.

(** ** Buffers: reading back what was written *)

Lemma length_blit b off d : length (blit b off d) = length b.
Proof.
  unfold blit, buf_length.
  destruct ((off <? 0) || (Z.of_nat (length b) <=? off)) eqn:E; [reflexivity|].
  apply orb_false_iff in E. destruct E as [E1 E2].
  apply Z.ltb_ge in E1. apply Z.leb_gt in E2.
  rewrite !length_app, length_take, length_drop, length_take. lia.
Qed.

Lemma buf_length_blit b off d : buf_length (blit b off d) = buf_length b.
Proof. unfold buf_length. rewrite length_blit. reflexivity. Qed.

Lemma blit_fits b off d :
  0 <= off -> off + Z.of_nat (length d) <= buf_length b ->
  blit b off d = take (Z.to_nat off) b ++ d ++ drop (Z.to_nat off + length d) b.
Proof.
  unfold blit, buf_length. intros H0 Hfit.
  destruct ((off <? 0) || (Z.of_nat (length b) <=? off)) eqn:E.
  - apply orb_true_iff in E. destruct E as [E|E]; [apply Z.ltb_lt in E; lia|].
    apply Z.leb_le in E.
    assert (length d = 0%nat) by lia. destruct d; [|discriminate].
    rewrite take_ge by lia. rewrite drop_ge by (cbn; lia). rewrite app_nil_r. reflexivity.
  - rewrite (take_ge d) by lia. reflexivity.
Qed.

Lemma byte_at_blit_before b off d i :
  0 <= i < off -> byte_at (blit b off d) i = byte_at b i.
Proof.
  unfold blit, buf_length, byte_at. intros Hi.
  destruct ((off <? 0) || (Z.of_nat (length b) <=? off)) eqn:E; [reflexivity|].
  apply orb_false_iff in E. destruct E as [E1 E2].
  apply Z.ltb_ge in E1. apply Z.leb_gt in E2.
  rewrite nth_error_app1 by (rewrite length_take; lia).
  rewrite nth_error_firstn.
  replace (Nat.ltb (Z.to_nat i) (Z.to_nat off)) with true; [reflexivity|].
  symmetry. apply Nat.ltb_lt. lia.
Qed.

Lemma byte_at_app_mid pre mid post i :
  (i < length mid)%nat ->
  byte_at (pre ++ mid ++ post) (Z.of_nat (length pre + i))
  = match nth_error mid i with Some x => byte_val x | None => 0 end.
Proof.
  intros Hi. unfold byte_at. rewrite Nat2Z.id.
  rewrite nth_error_app2 by lia.
  replace (length pre + i - length pre)%nat with i by lia.
  rewrite nth_error_app1 by exact Hi. reflexivity.
Qed.

Lemma buf_slice_app_mid pre mid post :
  buf_slice (pre ++ mid ++ post) (Z.of_nat (length pre))
            (Z.of_nat (length pre) + Z.of_nat (length mid)) = mid.
Proof.
  unfold buf_slice, buf_length. rewrite !length_app.
  rewrite Z.min_l by lia. rewrite Z.max_r by lia.
  rewrite Z.min_l by lia. rewrite Z.max_r by lia.
  rewrite Nat2Z.id.
  replace (Z.to_nat (Z.of_nat (length pre) + Z.of_nat (length mid) - Z.of_nat (length pre)))
    with (length mid) by lia.
  rewrite drop_app_length. rewrite take_app_length. reflexivity.
Qed.

Lemma buf_slice_blit b off d :
  0 <= off -> off + Z.of_nat (length d) <= buf_length b ->
  buf_slice (blit b off d) off (off + Z.of_nat (length d)) = d.
Proof.
  intros H0 Hfit. rewrite blit_fits by assumption.
  unfold buf_length in Hfit.
  pose proof (buf_slice_app_mid (take (Z.to_nat off) b) d
                (drop (Z.to_nat off + length d) b)) as H.
  rewrite length_take in H.
  replace (Z.of_nat (Z.to_nat off `min` length b)) with off in H by lia.
  exact H.
Qed.

Lemma buf_slice_blit_before b off d s e :
  0 <= s -> s <= e -> e <= off ->
  buf_slice (blit b off d) s e = buf_slice b s e.
Proof.
  intros Hs Hse He. unfold buf_slice. rewrite buf_length_blit.
  unfold blit, buf_length.
  destruct ((off <? 0) || (Z.of_nat (length b) <=? off)) eqn:E; [reflexivity|].
  apply orb_false_iff in E. destruct E as [E1 E2].
  apply Z.ltb_ge in E1. apply Z.leb_gt in E2.
  set (s' := Z.max 0 (Z.min s (Z.of_nat (length b)))).
  set (e' := Z.max s' (Z.min e (Z.of_nat (length b)))).
  assert (Hs' : s' = s) by (subst s'; lia).
  assert (He' : e' = e) by (subst e'; lia).
  rewrite Hs', He'.
  rewrite drop_app_le by (rewrite length_take; lia).
  rewrite take_app_le by (rewrite length_drop, length_take; lia).
  rewrite <- (take_drop (Z.to_nat off) b) at 2.
  rewrite drop_app_le by (rewrite length_take; lia).
  rewrite take_app_le by (rewrite length_drop, length_take; lia).
  reflexivity.
Qed.

Lemma byte_val_of_Z z : byte_val (byte_of_Z z) = z mod 256.
Proof.
  unfold byte_val, byte_of_Z.
  pose proof (Z.mod_pos_bound z 256 ltac:(lia)) as Hb.
  destruct (Byte.of_N (Z.to_N (z mod 256))) as [b|] eqn:E.
  - apply Byte.to_of_N in E. rewrite E. lia.
  - apply Byte.of_N_None_iff in E. lia.
Qed.

Lemma readUInt16LE_blit b off v :
  0 <= off -> off + 2 <= buf_length b -> 0 <= v <= 65535 ->
  readUInt16LE (blit b off [byte_of_Z v; byte_of_Z (v / 256)]) off = Ok v.
Proof.
  intros H0 Hfit Hv. unfold readUInt16LE. rewrite buf_length_blit.
  replace ((off <? 0) || (buf_length b - 2 <? off)) with false
    by (symmetry; apply orb_false_iff; split; [apply Z.ltb_ge|apply Z.ltb_ge]; lia).
  rewrite blit_fits by (cbn [length]; lia).
  unfold buf_length in Hfit.
  pose proof (byte_at_app_mid (take (Z.to_nat off) b) [byte_of_Z v; byte_of_Z (v / 256)]
                (drop (Z.to_nat off + 2) b)) as H.
  rewrite length_take in H.
  replace (Z.to_nat off `min` length b)%nat with (Z.to_nat off) in H by lia.
  pose proof (H 0%nat ltac:(cbn; lia)) as Ha. pose proof (H 1%nat ltac:(cbn; lia)) as Hb.
  replace (Z.of_nat (Z.to_nat off + 0)) with off in Ha by lia.
  replace (Z.of_nat (Z.to_nat off + 1)) with (off + 1) in Hb by lia.
  cbn [length] in *. rewrite Ha, Hb. cbn [nth_error].
  rewrite !byte_val_of_Z. f_equal.
  rewrite (Z.mod_small (v / 256)) by (split; [apply Z.div_pos; lia|apply Z.div_lt_upper_bound; lia]).
  pose proof (Z.div_mod v 256 ltac:(lia)). lia.
Qed.

Lemma readUInt16LE_blit_before b off d i :
  0 <= i -> i + 2 <= off ->
  readUInt16LE (blit b off d) i = readUInt16LE b i.
Proof.
  intros Hi Hoff. unfold readUInt16LE. rewrite buf_length_blit.
  rewrite !byte_at_blit_before by lia. reflexivity.
Qed.

Lemma buf_toString_from b s e text :
  buf_slice b s e = Buffer_from text -> buf_toString b s e = text.
Proof.
  intros H. unfold buf_toString. rewrite H. unfold Buffer_from.
  rewrite map_map. rewrite (map_ext _ id); [|intros c; apply ascii_of_byte_of_ascii].
  rewrite map_id. apply str_chars.
Qed.

Lemma length_Buffer_from text : Z.of_nat (length (Buffer_from text)) = Buffer_byteLength text.
Proof. reflexivity. Qed.

Lemma store_record_reads_back pData freeOffset text :
  0 <= freeOffset ->
  freeOffset + 2 + Buffer_byteLength text <= buf_length pData ->
  Buffer_byteLength text <= 65535 ->
  exists pData',
    store_record pData freeOffset (Buffer_from text) = Ok pData'
    /\ buf_length pData' = buf_length pData
    /\ readUInt16LE pData' freeOffset = Ok (Buffer_byteLength text)
    /\ buf_toString pData' (freeOffset + 2) (freeOffset + 2 + Buffer_byteLength text) = text.
Proof.
  intros H0 Hfit Hmax.
  assert (Hlen : 0 <= Buffer_byteLength text) by (unfold Buffer_byteLength, buf_length; lia).
  unfold store_record, writeUInt16LE.
  change (buf_length (Buffer_from text)) with (Buffer_byteLength text).
  replace ((Buffer_byteLength text <? 0) || (65535 <? Buffer_byteLength text)) with false
    by (symmetry; apply orb_false_iff; split; apply Z.ltb_ge; lia).
  replace ((freeOffset <? 0) || (buf_length pData - 2 <? freeOffset)) with false
    by (symmetry; apply orb_false_iff; split; apply Z.ltb_ge; lia).
  cbn [obind]. eexists. split; [reflexivity|]. unfold buf_copy.
  split; [rewrite !buf_length_blit; reflexivity|].
  split.
  - rewrite readUInt16LE_blit_before by lia. apply readUInt16LE_blit; lia.
  - apply buf_toString_from. rewrite <- length_Buffer_from.
    apply buf_slice_blit; [lia|]. rewrite buf_length_blit, length_Buffer_from. lia.
Qed.

Lemma write_in_place_reads_back pData offset len text :
  0 <= offset ->
  offset + 2 + len <= buf_length pData ->
  Buffer_byteLength text <= len ->
  len <= 65535 ->
  exists pData',
    write_in_place pData offset len text = Ok pData'
    /\ buf_length pData' = buf_length pData
    /\ readUInt16LE pData' offset = Ok (Buffer_byteLength text)
    /\ buf_toString pData' (offset + 2) (offset + 2 + Buffer_byteLength text) = text.
Proof.
  intros H0 Hfit Hle Hmax.
  assert (Hlen : 0 <= Buffer_byteLength text) by (unfold Buffer_byteLength, buf_length; lia).
  unfold write_in_place, writeUInt16LE.
  replace ((Buffer_byteLength text <? 0) || (65535 <? Buffer_byteLength text)) with false
    by (symmetry; apply orb_false_iff; split; apply Z.ltb_ge; lia).
  replace ((offset <? 0) || (buf_length pData - 2 <? offset)) with false
    by (symmetry; apply orb_false_iff; split; apply Z.ltb_ge; lia).
  cbn [obind]. eexists. split; [reflexivity|].
  unfold buf_write.
  replace (take (Z.to_nat (Buffer_byteLength text)) (Buffer_from text)) with (Buffer_from text)
    by (rewrite take_ge; [reflexivity|rewrite <- length_Buffer_from; lia]).
  set (b1 := blit pData offset _).
  set (b2 := blit b1 (offset + 2) (Buffer_from text)).
  assert (Hb2 : buf_length b2 = buf_length pData)
    by (subst b2 b1; rewrite !buf_length_blit; reflexivity).
  assert (Hr2 : readUInt16LE b2 offset = Ok (Buffer_byteLength text)).
  { subst b2 b1. rewrite readUInt16LE_blit_before by lia. apply readUInt16LE_blit; lia. }
  assert (Hs2 : buf_slice b2 (offset + 2) (offset + 2 + Buffer_byteLength text) = Buffer_from text).
  { subst b2. rewrite <- length_Buffer_from. apply buf_slice_blit; [lia|].
    subst b1. rewrite buf_length_blit, length_Buffer_from. lia. }
  destruct (Buffer_byteLength text <? len) eqn:E.
  - unfold buf_fill0. rewrite Hb2.
    rewrite (Z.min_l (offset + 2 + Buffer_byteLength text)) by lia.
    rewrite (Z.max_r 0) by lia.
    split; [rewrite buf_length_blit; exact Hb2|]. split.
    + rewrite readUInt16LE_blit_before by lia. exact Hr2.
    + apply buf_toString_from. rewrite buf_slice_blit_before by lia. exact Hs2.
  - split; [exact Hb2|]. split; [exact Hr2|]. apply buf_toString_from, Hs2.
Qed.

Lemma decode_one_slot buf offset len text o :
  readUInt16LE buf offset = Ok len ->
  buf_toString buf (offset + 2) (offset + 2 + len) = text ->
  JSON_parse text = Ok o ->
  decode_items 1 buf offset = Ok [o].
Proof.
  intros Hr Ht Hp. cbn [decode_items]. rewrite Hr. cbn [obind]. rewrite Ht, Hp. reflexivity.
Qed.

Lemma keys_assoc_remove k (l : list (string * jsval)) x :
  In x (keys (assoc_remove k l)) -> In x (keys l).
Proof.
  induction l as [|[k' v'] l IH]; [intros []|].
  cbn [assoc_remove]. destruct (String.eqb k k').
  - intros H. right. apply IH, H.
  - cbn [keys map fst]. intros [H|H]; [left; exact H|right; apply IH, H].
Qed.

Lemma mem_string_false k l : mem_string k l = false <-> ~ In k l.
Proof.
  rewrite <- mem_string_In. destruct (mem_string k l); split; intros H; congruence.
Qed.

Lemma distinct_keys_assoc_remove k (l : list (string * jsval)) :
  distinct_keys (keys l) = true -> distinct_keys (keys (assoc_remove k l)) = true.
Proof.
  induction l as [|[k' v'] l IH]; [reflexivity|].
  cbn [keys map fst distinct_keys assoc_remove]. intros H.
  apply andb_true_iff in H. destruct H as [Hk Hl].
  destruct (String.eqb k k'); [apply IH, Hl|].
  cbn [keys map fst distinct_keys]. apply andb_true_iff. split; [|apply IH, Hl].
  apply negb_true_iff in Hk. apply negb_true_iff. apply mem_string_false.
  apply mem_string_false in Hk. intros Hin. apply Hk. eapply keys_assoc_remove, Hin.
Qed.

Lemma members_ascii_assoc_remove k (l : list (string * jsval)) :
  forallb member_ascii l = true -> forallb member_ascii (assoc_remove k l) = true.
Proof.
  induction l as [|[k' v'] l IH]; [reflexivity|].
  cbn [forallb assoc_remove]. intros H. apply andb_true_iff in H. destruct H as [H1 H2].
  destruct (String.eqb k k'); [apply IH, H2|].
  cbn [forallb]. rewrite H1. apply IH, H2.
Qed.

Lemma record_ok_define_pageId o p :
  record_ok (fields o) = true -> record_ok (fields (define_pageId o p)) = true.
Proof.
  unfold record_ok. cbn [define_pageId fields]. intros H.
  apply andb_true_iff in H. destruct H as [H1 H2]. apply andb_true_iff. split.
  - apply distinct_keys_assoc_remove, H1.
  - apply members_ascii_assoc_remove, H2.
Qed.

Lemma assoc_assoc_remove k (l : list (string * jsval)) : assoc k (assoc_remove k l) = None.
Proof.
  induction l as [|[k' v'] l IH]; [reflexivity|].
  cbn [assoc_remove]. destruct (String.eqb k k') eqn:E; [exact IH|].
  cbn [assoc]. rewrite E. exact IH.
Qed.

Lemma keys_assoc_set k v (l : list (string * jsval)) :
  keys (assoc_set k v l) = if mem_string k (keys l) then keys l else keys l ++ [k].
Proof.
  induction l as [|[k' v'] l IH]; [reflexivity|].
  cbn [assoc_set keys map fst mem_string existsb].
  destruct (String.eqb_spec k k') as [->|Hne]; [reflexivity|].
  cbn [orb map fst]. fold (keys l). fold (keys (assoc_set k v l)). rewrite IH.
  change (existsb (String.eqb k) (keys l)) with (mem_string k (keys l)).
  destruct (mem_string k (keys l)); reflexivity.
Qed.

Lemma distinct_keys_app_fresh l k :
  distinct_keys l = true -> mem_string k l = false -> distinct_keys (l ++ [k]) = true.
Proof.
  induction l as [|x l IH]; intros Hd Hk; [reflexivity|].
  cbn [distinct_keys app] in *. apply andb_true_iff in Hd. destruct Hd as [Hx Hl].
  cbn [mem_string existsb] in Hk. apply orb_false_iff in Hk. destruct Hk as [Hkx Hkl].
  apply andb_true_iff. split; [|apply IH; assumption].
  apply negb_true_iff. apply negb_true_iff in Hx. apply mem_string_false.
  apply mem_string_false in Hx. intros Hin. apply in_app_or in Hin.
  destruct Hin as [Hin|[Hin|[]]]; [apply Hx, Hin|].
  subst. rewrite String.eqb_refl in Hkx. discriminate.
Qed.

Lemma record_ok_assoc_set k v l :
  member_ascii (k, v) = true -> record_ok l = true -> record_ok (assoc_set k v l) = true.
Proof.
  unfold record_ok. intros Hkv H. apply andb_true_iff in H. destruct H as [H1 H2].
  apply andb_true_iff. split.
  - rewrite keys_assoc_set. destruct (mem_string k (keys l)) eqn:E; [exact H1|].
    apply distinct_keys_app_fresh; assumption.
  - clear H1. induction l as [|[k' v'] l IH]; [cbn [assoc_set forallb]; rewrite Hkv; reflexivity|].
    cbn [forallb] in H2. apply andb_true_iff in H2. destruct H2 as [Ha Hb].
    cbn [assoc_set]. destruct (String.eqb_spec k k') as [->|Hne]; cbn [forallb].
    + apply andb_true_iff. split; [|exact Hb].
      unfold member_ascii in *. cbn [fst snd] in *.
      apply andb_true_iff in Hkv. apply andb_true_iff in Ha.
      apply andb_true_iff. tauto.
    + rewrite Ha. apply IH, Hb.
Qed.

Lemma record_ok_obj_set o k v :
  member_ascii (k, v) = true -> record_ok (fields o) = true ->
  record_ok (fields (obj_set o k v)) = true.
Proof.
  intros Hkv H. unfold obj_set.
  destruct (_ && _ && _); cbn [fields]; [exact H|apply record_ok_assoc_set; assumption].
Qed.

Lemma record_ok_apply_updates o updates :
  forallb member_ascii updates = true -> record_ok (fields o) = true ->
  record_ok (fields (apply_updates o updates)) = true.
Proof.
  unfold apply_updates. revert o.
  induction updates as [|[k v] updates IH]; intros o Hu Ho; [exact Ho|].
  cbn [forallb] in Hu. apply andb_true_iff in Hu. destruct Hu as [Hkv Hu].
  cbn [fold_left fst snd]. apply IH; [exact Hu|]. apply record_ok_obj_set; assumption.
Qed.

Lemma record_ok_updated_record o updates p :
  forallb member_ascii updates = true -> record_ok (fields o) = true ->
  record_ok (fields (updated_record o updates p)) = true.
Proof.
  intros Hu Ho. unfold updated_record.
  apply record_ok_define_pageId, record_ok_apply_updates; assumption.
Qed.

Lemma scan_items_rows c lim raw pid items results r :
  scan_items c lim raw pid items results = Ok r ->
  exists new,
    fst r = results ++ new
    /\ Forall (fun row => exists item, In item items
                 /\ row = (if raw then define_pageId item pid else item)) new.
Proof.
  revert results r. induction items as [|o rest IH]; intros results r H.
  - cbn [scan_items] in H. injection H as <-. exists []. rewrite app_nil_r. split; [reflexivity|constructor].
  - cbn [scan_items] in H.
    destruct (negb (below_limit (length results) lim)).
    + injection H as <-. exists []. rewrite app_nil_r. split; [reflexivity|constructor].
    + destruct (scan_matches c o) as [m| |]; cbn [obind] in H; try discriminate.
      destruct (scan_items c lim raw pid rest _) as [r'| |] eqn:E; cbn [obind] in H; try discriminate.
      injection H as <-. cbn [fst].
      destruct (IH _ _ E) as (new & Hnew & Hall).
      assert (Hmono : Forall (fun row => exists item, In item (o :: rest)
                 /\ row = (if raw then define_pageId item pid else item)) new).
      { eapply Forall_impl; [exact Hall|]. intros row (item & Hin & Hrow).
        exists item. split; [right; exact Hin|exact Hrow]. }
      destruct m.
      * exists ((if true && raw then define_pageId o pid else o) :: new).
        rewrite Hnew. rewrite <- app_assoc. split; [reflexivity|].
        constructor; [|exact Hmono]. exists o. split; [left; reflexivity|].
        destruct raw; reflexivity.
      * exists new. split; [exact Hnew|exact Hmono].
Qed.

Lemma assoc_project_other cols r k :
  ~ In k cols -> assoc k (fields (project cols r)) = None.
Proof.
  unfold project.
  assert (H : forall acc, hidden_pageId acc = None -> assoc k (fields acc) = None ->
              ~ In k cols ->
              assoc k (fields (fold_left
                (fun newRow c =>
                   obj_set newRow c (match obj_get r c with Some v => v | None => JNull end))
                cols acc)) = None).
  { induction cols as [|c cols IH]; intros acc Hh Ha Hk; [exact Ha|].
    cbn [fold_left]. apply IH.
    - unfold obj_set. rewrite Hh. rewrite !andb_false_r. reflexivity.
    - unfold obj_set. rewrite Hh. rewrite !andb_false_r. cbn [fields].
      assert (Hne : k <> c) by (intros ->; apply Hk; left; reflexivity).
      clear - Ha Hne. induction (fields acc) as [|[k' v'] l IHl].
      + cbn [assoc_set assoc]. destruct (String.eqb_spec k c); [contradiction|reflexivity].
      + cbn [assoc] in Ha. destruct (String.eqb k k') eqn:E; [discriminate|].
        cbn [assoc_set]. destruct (String.eqb c k'); cbn [assoc]; rewrite E; [exact Ha|].
        apply IHl, Ha.
    - intros Hin. apply Hk. right. exact Hin. }
  intros Hk. apply H; [reflexivity|reflexivity|exact Hk].
Qed.

(** ** The page hint *)

(** C10 at its failing input.  With an index on [t.k], INSERT stores
    the record [{k: 1, v: "a"}] on page 2: the record as read from the
    page has no field [_pageId].  The object that INSERT hands to the
    index carries the page hint, [_select] answers [k = 1] from the index
    with that object, and the projection of [query] reads the hint by its
    name: the SELECT of the columns [_pageId] and [v] returns the row
    [{_pageId: 2, v: "a"}]. *)
Theorem C10_select_returns_the_page_hint_as_a_column :
  results_of 8 [CREATE_INDEX "t" "k"; INSERT "t" rec_a;
                SELECT "t" ["_pageId"; "v"] k_is_1 None None None [] false] base_db
  = [Ok (RString "Indeks dibuat pada 't.k' (0 records indexed)");
     Ok (RString "1 bibit tertanam.");
     Ok (RRows [plain [("_pageId", JNum 2); ("v", JStr "a")]])]
  /\ assoc "_pageId" (fields rec_a) = None
  /\ fst (readPageObjects 2 indexed_db) = Ok (0, [rec_a])
  /\ fst (query 8 (SELECT "t" ["*"] k_is_1 None None None [] false) indexed_db)
     = Ok (RRows [define_pageId rec_a 2]).
Proof. vm_compute. repeat split. Qed.

(** Field names are not checked: a record submitted with a field of its
    own named [_pageId] is stored with it, a scan decodes it, and
    SELECT * returns it as a column. *)
Lemma record_with_own_pageId_field_is_stored_and_returned :
  assoc "_pageId" (fields rec_with_pageId) = Some (JNum 7)
  /\ results_of 8 [INSERT "t" rec_with_pageId] base_db = [Ok (RString "1 bibit tertanam.")]
  /\ fst (readPageObjects 2 (state_after 8 [INSERT "t" rec_with_pageId] base_db))
     = Ok (0, [rec_with_pageId])
  /\ fst (query 8 (SELECT "t" ["*"] None None None None [] false)
                (state_after 8 [INSERT "t" rec_with_pageId] base_db))
     = Ok (RRows [rec_with_pageId]).
Proof. vm_compute. repeat split. Qed.

(** ** The access path of SELECT and the plan of EXPLAIN *)




(** [_select] answers from an index exactly when there is no join, no
    sort, and the criteria is a single equality on a key of the table
    that has an index. *)
Theorem select_probes_index_iff ixs table c sort limit joins :
  is_index_probe (select_access_path ixs table c sort limit joins) = true
  <-> joins = [] /\ sort = None
      /\ exists key val, c = Some (Leaf key "=" val)
                         /\ has_index ixs (table ++ "." ++ key) = true.
Proof.
  unfold select_access_path. split.
  - intros H. destruct joins; [|discriminate H].
    destruct c as [[key op val|logic cs]|]; destruct sort; try discriminate H.
    destruct (String.eqb_spec op "="); [|discriminate H]. subst op.
    destruct (has_index ixs (table ++ "." ++ key)) eqn:E; [|discriminate H].
    split; [reflexivity|]. split; [reflexivity|]. exists key, val. split; [reflexivity|exact E].
  - intros (-> & -> & key & val & -> & Hi). cbn. rewrite Hi. reflexivity.
Qed.




(** ** The hook called by DELETE, on every input *)

Lemma silent_ret {A} (a : A) : silent (ret a).
Proof. intros s. split; reflexivity. Qed.

Lemma silent_throw {A} msg : silent (@throw A msg).
Proof. intros s. split; reflexivity. Qed.

Lemma silent_stuck {A} why : silent (@stuck A why).
Proof. intros s. split; reflexivity. Qed.

Lemma silent_lift {A} (o : outcome A) : silent (lift o).
Proof. intros s. split; reflexivity. Qed.

Lemma silent_gets {A} (f : db -> A) : silent (gets f).
Proof. intros s. split; reflexivity. Qed.

Lemma silent_bind {A B} (m : M A) (k : A -> M B) :
  silent m -> (forall a, silent (k a)) -> silent (bind m k).
Proof.
  intros Hm Hk s. unfold bind. specialize (Hm s).
  destruct (m s) as [[a|e|w] s1]; cbn [snd] in *; try exact Hm.
  destruct (Hk a s1) as [H1 H2]. destruct Hm as [H3 H4]. split; congruence.
Qed.

Lemma silent_if {A} (b : bool) (m1 m2 : M A) :
  silent m1 -> silent m2 -> silent (if b then m1 else m2).
Proof. destruct b; auto. Qed.

Lemma silent_readPage pageId : silent (readPage pageId).
Proof. unfold readPage. destruct (pageId <? 0); [apply silent_stuck|apply silent_gets]. Qed.

Lemma silent_writePage pageId buf : silent (writePage pageId buf).
Proof.
  unfold writePage. destruct (negb _); [apply silent_throw|].
  destruct (pageId <? 0); [apply silent_stuck|]. intros s. split; reflexivity.
Qed.

Lemma silent_set_indexes ixs : silent (set_indexes ixs).
Proof. intros s. split; reflexivity. Qed.

Create HintDb silent.

#[local] Hint Resolve silent_ret silent_throw silent_stuck silent_lift silent_gets
  silent_readPage silent_writePage silent_set_indexes : silent.

Ltac silent_step :=
  repeat match goal with
    | |- silent (bind _ _) => apply silent_bind; [|intros ?]
    | |- silent (if _ then _ else _) => apply silent_if
    | |- silent _ => solve [auto with silent]
    end.

Lemma silent_findTableEntry name : silent (_findTableEntry name).
Proof. unfold _findTableEntry. silent_step. Qed.

Lemma silent_removeFromIndexes table data : silent (_removeFromIndexes table data).
Proof. unfold _removeFromIndexes. silent_step. Qed.

#[local] Hint Resolve silent_findTableEntry silent_removeFromIndexes : silent.

Lemma silent_delete_slots n table c pData st : silent (_delete_slots n table c pData st).
Proof.
  revert st. induction n as [|n IH]; intros st; cbn [_delete_slots]; [auto with silent|].
  apply silent_bind; [auto with silent|intros len].
  apply silent_bind.
  - destruct (_ <-? JSON_parse _ ;; _) as [[o []]| |]; auto with silent.
  - intros [o|]; (apply silent_bind; [|intros ?; apply IH]); silent_step.
Qed.

#[local] Hint Resolve silent_delete_slots : silent.

Lemma silent_delete_pages fuel table c hint cur n data :
  silent (_delete_pages fuel table c hint cur n data).
Proof.
  revert cur n data. induction fuel as [|fuel IH]; intros cur n data; cbn [_delete_pages].
  - destruct (cur =? 0); auto with silent.
  - destruct (cur =? 0); [auto with silent|].
    apply silent_bind; [auto with silent|intros pData].
    apply silent_bind; [auto with silent|intros count].
    apply silent_bind; [auto with silent|intros st].
    apply silent_bind; [silent_step|intros pData'].
    destruct (negb (hint =? -1)); [auto with silent|].
    apply silent_bind; [auto with silent|intros next]. apply IH.
Qed.

Lemma bind_Ok {A B} (m : M A) (k : A -> M B) s b s' :
  bind m k s = (Ok b, s') -> exists a s1, m s = (Ok a, s1) /\ k a s1 = (Ok b, s').
Proof.
  unfold bind. destruct (m s) as [[a|e|w] s1]; intros H; try discriminate.
  exists a, s1. split; [reflexivity|exact H].
Qed.

(** What the slot loop of [_delete] adds to the removed records: records
    that match, one for each step of the counter. *)
Lemma delete_slots_data n table c pData : forall st s st' s',
  _delete_slots n table c pData st s = (Ok st', s') ->
  exists new,
    del_data st' = del_data st ++ new
    /\ del_count st' = del_count st + Z.of_nat (length new)
    /\ Forall (fun r => _checkMatch r c = Ok true) new.
Proof.
  induction n as [|n IH]; intros st s st' s' H; cbn [_delete_slots] in H.
  - unfold ret in H. injection H as <- <-. exists []. rewrite app_nil_r, Z.add_0_r.
    repeat split. constructor.
  - apply bind_Ok in H. destruct H as (len & s1 & _ & H).
    apply bind_Ok in H. destruct H as (should & s2 & Hshould & H).
    apply bind_Ok in H. destruct H as (st1 & s3 & Hst & H).
    apply IH in H. destruct H as (new & Hd & Hc & Hall).
    cbn [del_data del_count] in Hd, Hc.
    destruct should as [o|].
    + assert (Hm : _checkMatch o c = Ok true).
      { destruct (JSON_parse _) as [o'| |]; cbn [obind] in Hshould; try discriminate.
        destruct (_checkMatch o' c) as [[|]| |] eqn:E; cbn [obind] in Hshould; try discriminate.
        unfold ret in Hshould. injection Hshould as <- _. exact E. }
      apply bind_Ok in Hst. destruct Hst as (u & s4 & _ & Hst).
      unfold ret in Hst. injection Hst as <- _. cbn [del_data del_count] in Hd, Hc.
      exists (o :: new). rewrite Hd, Hc, <- app_assoc. cbn [app length].
      split; [reflexivity|]. split; [lia|]. constructor; assumption.
    + unfold ret in Hst. injection Hst as <- _. cbn [del_data del_count] in Hd, Hc.
      exists new. auto.
Qed.

Lemma delete_pages_data fuel table c hint : forall cur n data s r s',
  _delete_pages fuel table c hint cur n data s = (Ok r, s') ->
  exists new,
    snd r = data ++ new
    /\ fst r = n + Z.of_nat (length new)
    /\ Forall (fun r => _checkMatch r c = Ok true) new.
Proof.
  assert (Hnil : forall n data, exists new : list obj,
             data = data ++ new /\ n = n + Z.of_nat (length new)
             /\ Forall (fun r => _checkMatch r c = Ok true) new).
  { intros n data. exists []. rewrite app_nil_r, Z.add_0_r. repeat split. constructor. }
  induction fuel as [|fuel IH]; intros cur n data s r s' H; cbn [_delete_pages] in H.
  - destruct (cur =? 0); [|discriminate H].
    unfold ret in H. injection H as <- _. apply Hnil.
  - destruct (cur =? 0); [unfold ret in H; injection H as <- _; apply Hnil|].
    apply bind_Ok in H. destruct H as (pData & s1 & _ & H).
    apply bind_Ok in H. destruct H as (count & s2 & _ & H).
    apply bind_Ok in H. destruct H as (st & s3 & Hslots & H).
    apply delete_slots_data in Hslots. destruct Hslots as (new1 & Hd1 & Hc1 & Hall1).
    cbn [del_data del_count] in Hd1, Hc1.
    apply bind_Ok in H. destruct H as (pData' & s4 & _ & H).
    destruct (negb (hint =? -1)).
    + unfold ret in H. injection H as <- _. exists new1. cbn [fst snd]. auto.
    + apply bind_Ok in H. destruct H as (next & s5 & _ & H).
      apply IH in H. destruct H as (new2 & Hd2 & Hc2 & Hall2).
      exists (new1 ++ new2). rewrite Hd2, Hc2, Hd1, Hc1, <- app_assoc, length_app.
      split; [reflexivity|]. split; [lia|]. apply Forall_app. auto.
Qed.

Lemma delete_body_reports again fuel table c force :
  reports_deleted table c again ->
  reports_deleted table c (_delete_body again fuel table c force).
Proof.
  intros Hagain s msg s' H. unfold _delete_body in H.
  apply bind_Ok in H. destruct H as (entry & s1 & He & H).
  pose proof (silent_findTableEntry table s) as Hs1. rewrite He in Hs1. cbn [snd] in Hs1.
  destruct entry as [entry|]; [|discriminate H].
  apply bind_Ok in H. destruct H as (ixs & s2 & Hg & H).
  unfold gets in Hg. injection Hg as <- <-.
  apply bind_Ok in H. destruct H as (hint & s3 & Hh & H).
  assert (Hs3 : events s3 = events s1 /\ queryString s3 = queryString s1).
  { destruct force; [unfold ret in Hh; injection Hh as _ <-; split; reflexivity|].
    unfold lift in Hh. injection Hh as _ <-. split; reflexivity. }
  apply bind_Ok in H. destruct H as ([n data] & s4 & Hp & H).
  pose proof (silent_delete_pages fuel table c hint
                (if negb (hint =? -1) then hint else startPage entry) 0 [] s3) as Hs4.
  rewrite Hp in Hs4. cbn [snd] in Hs4.
  apply delete_pages_data in Hp. destruct Hp as (new & Hd & Hc & Hall).
  cbn [fst snd app] in Hd, Hc. subst data n.
  assert (Hev : events s4 = events s /\ queryString s4 = queryString s).
  { destruct Hs1, Hs3, Hs4. split; congruence. }
  destruct (negb (hint =? -1) && (0 + Z.of_nat (length new) =? 0)).
  - destruct (Hagain _ _ _ H) as (recs & Hrecs & Hmsg & Hm). exists recs.
    destruct Hev as [E1 E2]. rewrite Hrecs, E1, E2. auto.
  - apply bind_Ok in H. destruct H as (q & s5 & Hq & H).
    unfold gets in Hq. injection Hq as <- <-.
    apply bind_Ok in H. destruct H as ([] & s6 & Hem & H).
    unfold emit, modify in Hem. injection Hem as <-.
    unfold ret in H. injection H as <- <-. cbn [events].
    exists new. destruct Hev as [E1 E2]. rewrite E1, E2. auto.
Qed.

(** Every [_delete] that returns has called exactly one hook since it
    started, and that hook is [OnTableInserted], with the table, the
    removed records and the text of the running query: the records are
    records that [_checkMatch] matches, as many as the message counts.
    [OnTableDeleted] is called on no input. *)
Theorem delete_calls_OnTableInserted_once
    (fuel : nat) (table : string) (c : option criteria) (force : bool)
    (s s' : db) (msg : string) :
  _delete fuel table c force s = (Ok msg, s') ->
  exists recs,
    events s' = events s ++ [OnTableInserted table recs (queryString s)]
    /\ msg = deleted_message (Z.of_nat (length recs))
    /\ Forall (fun r => _checkMatch r c = Ok true) recs.
Proof.
  revert s msg s'. change (reports_deleted table c (_delete fuel table c force)).
  unfold _delete. apply delete_body_reports. apply delete_body_reports.
  intros s msg s' H. discriminate H.
Qed.

Lemma delete_calls_OnTableInserted_once_witness_two_matches :
  exists recs,
    events (snd (_delete 8 "t" k_is_1 false two_match_db))
    = events two_match_db ++ [OnTableInserted "t" recs (queryString two_match_db)]
    /\ "Berhasil menggusur 2 bibit." = deleted_message (Z.of_nat (length recs))
    /\ Forall (fun r => _checkMatch r k_is_1 = Ok true) recs.
Proof.
  apply (delete_calls_OnTableInserted_once 8 "t" k_is_1 false two_match_db
           (snd (_delete 8 "t" k_is_1 false two_match_db)) "Berhasil menggusur 2 bibit.").
  vm_compute. reflexivity.
Defined.

(** ** The limit pushed into the scan *)

Lemma scan_items_extends c lim raw pid items results r :
  scan_items c lim raw pid items results = Ok r -> exists new, fst r = results ++ new.
Proof.
  revert results r. induction items as [|o rest IH]; intros results r H; cbn [scan_items] in H.
  - injection H as <-. exists []. rewrite app_nil_r. reflexivity.
  - destruct (negb (below_limit (length results) lim)).
    + injection H as <-. exists []. rewrite app_nil_r. reflexivity.
    + destruct (scan_matches c o) as [m| |]; cbn [obind] in H; try discriminate.
      destruct (scan_items c lim raw pid rest _) as [r'| |] eqn:E; cbn [obind] in H; try discriminate.
      injection H as <-. cbn [fst]. destruct (IH _ _ E) as (new & ->).
      destruct m; [exists ((if true && raw then define_pageId o pid else o) :: new);
                   rewrite <- app_assoc; reflexivity|exists new; reflexivity].
Qed.

Lemma scan_pages_extends fuel c lim cur results s all s1 :
  scan_pages fuel c lim false cur results s = (Ok all, s1) -> exists new, all = results ++ new.
Proof.
  revert cur results s. induction fuel as [|fuel IH]; intros cur results s H; cbn [scan_pages] in H.
  - destruct ((cur =? 0) || negb (below_limit (length results) lim)); [|discriminate H].
    injection H as <- _. exists []. rewrite app_nil_r. reflexivity.
  - destruct ((cur =? 0) || negb (below_limit (length results) lim)).
    + injection H as <- _. exists []. rewrite app_nil_r. reflexivity.
    + apply bind_Ok in H. destruct H as (pageData & s2 & _ & H).
      apply bind_Ok in H. destruct H as (r & s3 & Hr & H).
      apply bind_Ok in H. destruct H as ([] & s4 & _ & H).
      unfold lift in Hr. injection Hr as Hr _.
      destruct (scan_items_extends _ _ _ _ _ _ _ Hr) as (new1 & Hn1).
      destruct (IH _ _ _ H) as (new2 & ->). rewrite Hn1.
      exists (new1 ++ new2). rewrite app_assoc. reflexivity.
Qed.

Lemma take_app_ge_length {A} (n : nat) (l k : list A) :
  (length l >= n)%nat -> take n (l ++ k) = take n l.
Proof. intros H. rewrite take_app_le by lia. reflexivity. Qed.

Lemma below_limit_take (L : Z) (results : list obj) :
  0 < L ->
  below_limit (length (take (Z.to_nat L) results)) (Some L)
  = (Z.of_nat (length results) <? L).
Proof.
  intros HL. cbn [below_limit]. rewrite length_take.
  destruct (Z.ltb_spec (Z.of_nat (length results)) L) as [H|H].
  - apply Z.ltb_lt. lia.
  - apply Z.ltb_ge. lia.
Qed.

Lemma scan_items_limit c (L : Z) pid items results r :
  0 < L ->
  scan_items c None false pid items results = Ok r ->
  exists r', scan_items c (Some L) false pid items (take (Z.to_nat L) results) = Ok r'
             /\ fst r' = take (Z.to_nat L) (fst r).
Proof.
  intros HL. revert results r.
  induction items as [|o rest IH]; intros results r H.
  - cbn [scan_items] in *. injection H as <-. eexists. split; reflexivity.
  - pose proof (scan_items_extends _ _ _ _ _ _ _ H) as (new & Hnew).
    cbn [scan_items] in *. rewrite below_limit_take by exact HL.
    cbn [below_limit negb] in H.
    destruct (Z.ltb_spec (Z.of_nat (length results)) L) as [Hlt|Hge]; cbn [negb].
    + rewrite take_ge by lia.
      destruct (scan_matches c o) as [m| |]; cbn [obind] in *; try discriminate.
      destruct (scan_items c None false pid rest _) as [ru| |] eqn:E; cbn [obind] in H; try discriminate.
      injection H as <-. cbn [fst].
      destruct (IH _ _ E) as (r' & Hr' & Hf).
      rewrite take_ge in Hr' by (destruct m; rewrite ?length_app; cbn [length]; lia).
      rewrite Hr'. cbn [obind]. eexists. split; [reflexivity|exact Hf].
    + eexists. split; [reflexivity|]. cbn [fst]. rewrite Hnew.
      rewrite take_app_ge_length by lia. reflexivity.
Qed.

Lemma scan_pages_limit fuel c (L : Z) cur results s all s1 :
  0 < L ->
  scan_pages fuel c None false cur results s = (Ok all, s1) ->
  exists s2, scan_pages fuel c (Some L) false cur (take (Z.to_nat L) results) s
             = (Ok (take (Z.to_nat L) all), s2).
Proof.
  intros HL. revert cur results s.
  induction fuel as [|fuel IH]; intros cur results s H.
  - cbn [scan_pages] in *. cbn [below_limit negb] in H. rewrite orb_false_r in H.
    destruct (cur =? 0); [|discriminate H]. injection H as <- <-. cbn [orb].
    eexists. reflexivity.
  - pose proof (scan_pages_extends _ _ _ _ _ _ _ _ H) as (new & Hnew).
    cbn [scan_pages] in *. cbn [below_limit negb] in H. rewrite orb_false_r in H.
    rewrite below_limit_take by exact HL.
    destruct (cur =? 0); cbn [orb].
    + injection H as <- <-. eexists. reflexivity.
    + destruct (Z.ltb_spec (Z.of_nat (length results)) L) as [Hlt|Hge]; cbn [negb].
      * rewrite take_ge by lia.
        apply bind_Ok in H. destruct H as (pageData & s2 & Hp & H).
        apply bind_Ok in H. destruct H as (r & s3 & Hr & H).
        apply bind_Ok in H. destruct H as ([] & s4 & Hm & H).
        unfold lift in Hr. injection Hr as Hr <-. unfold ret in Hm. injection Hm as <-.
        destruct (scan_items_limit c L cur (snd pageData) results r HL Hr) as (r' & Hr' & Hf).
        rewrite take_ge in Hr' by lia.
        destruct (IH _ _ _ H) as (s5 & Hs5).
        exists s5. unfold bind. rewrite Hp. unfold lift. rewrite Hr'. unfold ret.
        rewrite Hf. exact Hs5.
      * eexists. unfold ret. rewrite Hnew. rewrite take_app_ge_length by lia. reflexivity.
Qed.

Lemma limit_offset_take {A} (l : list A) (L : Z) :
  0 < L -> limit_offset l (Some L) None = take (Z.to_nat L) l.
Proof.
  intros HL. unfold limit_offset, js_slice.
  replace (L =? 0) with false by (symmetry; apply Z.eqb_neq; lia).
  pose proof (Nat2Z.is_nonneg (length l)) as Hlen.
  change (0 + L) with L.
  replace (Z.of_nat (length l) <? 0) with false by (symmetry; apply Z.ltb_ge; lia).
  change (0 <? 0) with false. cbv iota.
  rewrite (Z.min_l 0) by lia. change (drop (Z.to_nat 0) l) with l. rewrite Z.sub_0_r.
  destruct (Z.ltb_spec (Z.of_nat (length l)) L) as [H|H].
  - replace (Z.of_nat (length l) <? 0) with false by (symmetry; apply Z.ltb_ge; lia).
    rewrite Z.min_id.
    rewrite (take_ge l (Z.to_nat (Z.of_nat (length l)))) by lia.
    rewrite (take_ge l (Z.to_nat L)) by lia. reflexivity.
  - replace (L <? 0) with false by (symmetry; apply Z.ltb_ge; lia).
    rewrite Z.min_l by lia. reflexivity.
Qed.

(** Without sort, joins and offset, stopping the scan at the limit loses
    nothing: whenever the full scan followed by the cut to [L] rows
    returns [rows], so does [_select] with the limit [L] pushed into the
    scan. *)
Theorem select_limit_pushdown_without_offset
    (fuel : nat) (table : string) (c : option criteria) (L : Z) (s s1 : db) (rows : list obj) :
  0 < L ->
  select_access_path (indexes s) table c None (Some L) [] = TableScan (Some L) ->
  naive_select fuel table c None (Some L) None s = (Ok rows, s1) ->
  exists s2, _select fuel table c None (Some L) None [] s = (Ok rows, s2).
Proof.
  intros HL Hpath H. unfold naive_select in H. unfold _select.
  apply bind_Ok in H. destruct H as (entry & s2 & He & H).
  unfold bind at 1. rewrite He.
  destruct entry as [entry|]; [|discriminate H].
  apply bind_Ok in H. destruct H as (all & s3 & Hall & H).
  apply bind_Ok in H. destruct H as (sorted & s4 & Hs & H).
  unfold ret in Hs. injection Hs as <- <-. unfold ret in H. injection H as <- <-.
  assert (Hix : indexes s2 = indexes s).
  { unfold _findTableEntry, bind, readPage, gets, lift in He. cbn in He.
    destruct (readUInt32LE _ 8); try discriminate.
    injection He as _ <-. reflexivity. }
  unfold bind at 1. unfold gets at 1. cbv beta iota. rewrite Hix, Hpath.
  unfold _scanTable in *. cbn [effective_limit] in *.
  replace (L =? 0) with false by (symmetry; apply Z.eqb_neq; lia).
  destruct (scan_pages_limit fuel c L (startPage entry) [] s2 all s3 HL Hall) as (s5 & Hs5).
  rewrite take_nil in Hs5.
  unfold bind at 1. rewrite Hs5. unfold bind at 1. unfold ret at 1. cbv beta iota.
  rewrite !limit_offset_take by exact HL. rewrite take_take. rewrite Nat.min_id.
  eexists. unfold bind, gets, emit, modify, ret. cbn. reflexivity.
Qed.

Lemma select_limit_pushdown_witness_three_rows :
  exists s2,
    _select 8 "t" None None (Some 1) None [] three_rows_db = (Ok [plain [("id", JNum 1)]], s2).
Proof.
  apply (select_limit_pushdown_without_offset 8 "t" None 1 three_rows_db
           (snd (naive_select 8 "t" None None (Some 1) None three_rows_db))
           [plain [("id", JNum 1)]]);
    [lia | reflexivity | vm_compute; reflexivity].
Defined.

(** ** LIKE on the general evaluator *)

Lemma like_wildcards_app a b : like_wildcards (a ++ b) = like_wildcards a ++ like_wildcards b.
Proof. unfold like_wildcards. rewrite !flat_map_app. reflexivity. Qed.

Lemma tokenize_like_char c rest :
  tokenize (like_wildcards (escape_regex [c]) ++ rest) = like_toks c ++ tokenize rest.
Proof. destruct c as [[] [] [] [] [] [] [] []]; reflexivity. Qed.

Lemma tokenize_like p rest :
  tokenize (like_wildcards (escape_regex p) ++ rest) = flat_map like_toks p ++ tokenize rest.
Proof.
  induction p as [|c p IH]; [reflexivity|].
  replace (escape_regex (c :: p)) with (escape_regex [c] ++ escape_regex p)
    by (unfold escape_regex; cbn [flat_map]; rewrite app_nil_r; reflexivity).
  rewrite like_wildcards_app, <- app_assoc, tokenize_like_char, IH.
  cbn [flat_map]. rewrite <- app_assoc. reflexivity.
Qed.

Lemma like_toks_starts_plain p : starts_plain (flat_map like_toks p ++ [KEol]).
Proof.
  destruct p as [|c p]; [exact I|]. cbn [flat_map]. unfold like_toks.
  destruct (code c =? 37); [exact I|]. destruct (code c =? 95); exact I.
Qed.

Lemma assemble_atom_plain a r :
  starts_plain r ->
  assemble (KAtom a :: r) = (rs <-? assemble r ;; Ok (TAtom a QOne :: rs)).
Proof. destruct r as [|[] r]; intros H; try contradiction; reflexivity. Qed.

Lemma assemble_atom_star a r :
  starts_plain r ->
  assemble (KAtom a :: KStar :: r) = (rs <-? assemble r ;; Ok (TAtom a QStar :: rs)).
Proof. destruct r as [|[] r]; intros H; try contradiction; reflexivity. Qed.

Lemma assemble_like p :
  assemble (flat_map like_toks p ++ [KEol]) = Ok (map like_term p ++ [TEol]).
Proof.
  induction p as [|c p IH]; [reflexivity|].
  pose proof (like_toks_starts_plain p) as Hs.
  cbn [flat_map map]. rewrite <- app_assoc. unfold like_toks at 1. unfold like_term at 1.
  destruct (code c =? 37); [|destruct (code c =? 95)]; cbn [app].
  - rewrite assemble_atom_star, IH by exact Hs. reflexivity.
  - rewrite assemble_atom_plain, IH by exact Hs. reflexivity.
  - rewrite assemble_atom_plain, IH by exact Hs. reflexivity.
Qed.

Lemma match_anywhere_bol r s : match_anywhere (TBol :: r) s false = false.
Proof.
  induction s as [|d s IH]; [reflexivity|].
  cbn [match_anywhere match_here andb orb]. exact IH.
Qed.

Lemma match_anywhere_anchored r s :
  match_anywhere (TBol :: r) s true = match_here r s true.
Proof.
  destruct s as [|d s]; cbn [match_anywhere];
    [rewrite orb_false_r | rewrite match_anywhere_bol, orb_false_r]; reflexivity.
Qed.

Lemma star_like_any k s b :
  (forall s b1 b2, k s b1 = k s b2) ->
  star AAny k s b = like_any (fun s => k s false) s.
Proof.
  intros Hk. revert b. induction s as [|d s IH]; intros b; cbn [star like_any].
  - rewrite (Hk [] b false). reflexivity.
  - rewrite (Hk (d :: s) b false). rewrite IH. reflexivity.
Qed.

Lemma like_any_ext k1 k2 s : (forall s, k1 s = k2 s) -> like_any k1 s = like_any k2 s.
Proof.
  intros H. induction s as [|d s IH]; cbn [like_any]; rewrite H; [reflexivity|].
  rewrite IH. reflexivity.
Qed.

Lemma match_here_like p s b :
  match_here (map like_term p ++ [TEol]) s b = like_match p s.
Proof.
  revert s b. induction p as [|c p IH]; intros s b.
  - destruct s; reflexivity.
  - cbn [map app match_here like_match]. unfold like_term.
    destruct (code c =? 37).
    + rewrite star_like_any by (intros; rewrite !IH; reflexivity).
      apply like_any_ext. intros s0. apply IH.
    + destruct (code c =? 95); unfold step; destruct s as [|d s]; try reflexivity;
        rewrite IH; reflexivity.
Qed.

(** On the general evaluator, [LIKE] with a string pattern on a field
    that is not named like a member of [Object.prototype] never fails
    and decides [like_match] on the text of the field: the whole text
    must match, letters match in either case, [%] and [_] are the only
    wildcards, and every other character of the pattern, the
    metacharacters of regular expressions included, stands for itself. *)
Theorem like_general_evaluator (o : obj) (key pat : string) :
  mem_string key prototype_names = false ->
  _checkSingleCondition o key "LIKE" (APrim (JStr pat))
  = Ok (like_match (chars pat) (chars (String_of (obj_get o key)))).
Proof.
  intros _. unfold _checkSingleCondition.
  change (String.eqb "LIKE" "=") with false.
  change (String.eqb "LIKE" "!=") with false.
  change (String.eqb "LIKE" ">") with false.
  change (String.eqb "LIKE" "<") with false.
  change (String.eqb "LIKE" ">=") with false.
  change (String.eqb "LIKE" "<=") with false.
  change (String.eqb "LIKE" "IN") with false.
  change (String.eqb "LIKE" "NOT IN") with false.
  change (String.eqb "LIKE" "LIKE") with true. cbv iota.
  unfold RegExp_test, RegExp.
  unfold chars at 1, str. rewrite list_ascii_of_string_of_list_ascii.
  change ("^"%char :: like_wildcards (escape_regex (chars pat)) ++ ["$"%char])
    with (["^"%char] ++ like_wildcards (escape_regex (chars pat)) ++ ["$"%char]).
  change (tokenize (["^"%char] ++ ?l)) with (KBol :: tokenize l).
  rewrite tokenize_like. change (tokenize ["$"%char]) with [KEol].
  cbn [assemble]. rewrite assemble_like. cbn [obind].
  f_equal. rewrite match_anywhere_anchored. apply match_here_like.
Qed.

Lemma like_general_evaluator_witness_prefix :
  _checkSingleCondition rec_a "v" "LIKE" (APrim (JStr "A%"))
  = Ok (like_match (chars "A%") (chars (String_of (obj_get rec_a "v"))))
  /\ like_match (chars "A%") (chars (String_of (obj_get rec_a "v"))) = true.
Proof.
  split; [|reflexivity].
  apply (like_general_evaluator rec_a "v" "A%"). reflexivity.
Defined.

(** ** In-place UPDATE that shortens a record *)

(** An UPDATE that shortens a record in place stores the new length in
    the slot and leaves the following slot where it was.  Readers step
    from slot to slot by the stored length, so the record after the
    shortened one is no longer found: a scan does not return it, and
    UPDATE and DELETE on its key report no match, while the page still
    counts two records. *)
Theorem update_in_place_shorter_hides_following_records :
  table_rows 8 "t" long_next_db = Ok [fields rec_long; fields rec_next]
  /\ results_of 8 [shorten] long_next_db = [Ok (RString "Berhasil memupuk 1 bibit.")]
  /\ table_rows 8 "t" shortened_db = Ok [[("k", JNum 1); ("v", JStr "a")]]
  /\ page_header 2 shortened_db = Ok (2, 45)
  /\ results_of 8 [UPDATE "t" [("v", JStr "z")] k_is_2; DELETE "t" k_is_2] shortened_db
     = [Ok (RString "Berhasil memupuk 0 bibit."); Ok (RString "Berhasil menggusur 0 bibit.")].
Proof. vm_compute. repeat split. Qed.

(** ** A table that is not in the catalog *)

Lemma bind_Ok_l {A B} (m : M A) (k : A -> M B) s a s1 :
  m s = (Ok a, s1) -> bind m k s = k a s1.
Proof. intros H. unfold bind. rewrite H. reflexivity. Qed.

(** A statement on a table that is not in the catalog is answered by the
    string [Error: Kebun '<table>' tidak ditemukan.] and leaves the state
    as it was: INSERT of a record with fields, SELECT, DELETE, UPDATE and
    CREATE INDEX alike.  EXPLAIN of such a DELETE returns a plan whose
    error is [Table '<table>' not found]. *)
Theorem missing_table_is_reported_and_changes_nothing
    (fuel : nat) (table : string) (s : db) :
  _findTableEntry table s = (Ok None, s) ->
  (forall data, fields data <> [] ->
     query fuel (INSERT table data) s = (Ok (RString ("Error: " ++ not_found table)%string), s))
  /\ (forall cols c sort limit offset joins distinct,
        query fuel (SELECT table cols c sort limit offset joins distinct) s
        = (Ok (RString ("Error: " ++ not_found table)%string), s))
  /\ (forall c, query fuel (DELETE table c) s
                = (Ok (RString ("Error: " ++ not_found table)%string), s))
  /\ (forall updates c, query fuel (UPDATE table updates c) s
                        = (Ok (RString ("Error: " ++ not_found table)%string), s))
  /\ (forall field, query fuel (CREATE_INDEX table field) s
                    = (Ok (RString ("Error: " ++ not_found table)%string), s))
  /\ (forall c, fst (query fuel (EXPLAIN (DELETE table c)) s)
                = Ok (RPlan (mkPlan "DELETE" (Some table) []
                               (Some ("Table '" ++ table ++ "' not found")%string) None))).
Proof.
  intros H. repeat split; intros.
  - unfold query, try_catch, _insert.
    destruct (fields data) eqn:E; [contradiction|].
    unfold _insertMany, bind. rewrite H. reflexivity.
  - unfold query, try_catch, _select, bind. rewrite H. reflexivity.
  - unfold query, try_catch, _delete, _delete_body, bind. rewrite H. reflexivity.
  - unfold query, try_catch, _update, bind. rewrite H. reflexivity.
  - unfold query, try_catch, _createIndex, bind. rewrite H. reflexivity.
  - unfold query, try_catch, _explain, bind, gets. rewrite H. reflexivity.
Qed.

Lemma missing_table_witness_base_db :
  query 8 (DELETE "nope" None) base_db
  = (Ok (RString ("Error: " ++ not_found "nope")%string), base_db).
Proof.
  destruct (missing_table_is_reported_and_changes_nothing 8 "nope" base_db)
    as (_ & _ & H & _); [vm_compute; reflexivity|].
  exact (H None).
Defined.

(** ** LIMIT *)

Lemma findTableEntry_state name s : snd (_findTableEntry name s) = s.
Proof.
  unfold _findTableEntry, bind, readPage, gets, lift. cbn.
  destruct (readUInt32LE _ 8); reflexivity.
Qed.


Lemma limit_offset_zero {A} (l : list A) limit offset :
  limit_offset l (match limit with Some 0 => None | x => x end)
                 (match offset with Some 0 => None | x => x end)
  = limit_offset l limit offset.
Proof.
  unfold limit_offset.
  destruct limit as [[| |]|], offset as [[| |]|]; reflexivity.
Qed.

(** A limit of 0 is no limit and an offset of 0 is no offset: a SELECT
    without joins ([_select]) and a SELECT with joins ([_select_joins])
    return what they return without them, and reach the same state. *)
Theorem select_limit_zero_is_no_limit
    (fuel : nat) (table : string) (c : option criteria) (sort : option sort_spec)
    (j : join_spec) (joins : list join_spec) (s : db) :
  _select fuel table c sort (Some 0) (Some 0) [] s
  = _select fuel table c sort None None [] s
  /\ _select_joins fuel table c sort (Some 0) (Some 0) (j :: joins) s
     = _select_joins fuel table c sort None None (j :: joins) s.
Proof.
  split.
  - unfold _select, bind.
    destruct (_findTableEntry table s) as [[[entry|]| |] s1]; try reflexivity.
    unfold gets at 1 3. cbv beta iota.
    unfold select_access_path.
    destruct c as [[key op val|logic cs]|], sort as [so|]; try reflexivity;
      destruct (String.eqb op "="); try reflexivity;
      destruct (has_index (indexes s1) (table ++ "." ++ key)); reflexivity.
  - reflexivity.
Qed.


Lemma length_limit_offset {A} (l : list A) (L : Z) offset :
  0 < L -> Z.of_nat (length (limit_offset l (Some L) offset)) <= L.
Proof.
  intros HL. unfold limit_offset, js_slice.
  replace (L =? 0) with false by (symmetry; apply Z.eqb_neq; lia).
  rewrite length_take, length_drop.
  set (len := Z.of_nat (length l)).
  assert (0 <= len) by (subst len; lia).
  assert (Hn : length l = Z.to_nat len) by (subst len; lia). rewrite Hn. clear Hn.
  destruct offset as [o|]; [destruct (o =? 0) eqn:Eo|];
    repeat match goal with
           | |- context [if ?b then _ else _] => destruct b eqn:?
           end; lia.
Qed.

(** With a positive limit [_select] returns at most that many rows,
    whatever the criteria, the sort, the offset and the access path. *)
Theorem select_returns_at_most_limit_rows
    (fuel : nat) (table : string) (c : option criteria) (sort : option sort_spec)
    (L : Z) (offset : option Z) (joins : list join_spec) (s s' : db) (rows : list obj) :
  0 < L ->
  _select fuel table c sort (Some L) offset joins s = (Ok rows, s') ->
  Z.of_nat (length rows) <= L.
Proof.
  intros HL H. unfold _select in H.
  apply bind_Ok in H. destruct H as (entry & s1 & _ & H).
  destruct entry as [entry|]; [|discriminate H].
  apply bind_Ok in H. destruct H as (ixs & s2 & _ & H).
  apply bind_Ok in H. destruct H as (res & s3 & _ & H).
  apply bind_Ok in H. destruct H as (sorted & s4 & _ & H).
  apply bind_Ok in H. destruct H as (q & s5 & _ & H).
  apply bind_Ok in H. destruct H as ([] & s6 & _ & H).
  unfold ret in H. injection H as <- _.
  apply length_limit_offset, HL.
Qed.

Lemma select_at_most_limit_witness_three_rows :
  Z.of_nat (length (match fst (_select 8 "t" None None (Some 2) (Some 1) [] three_rows_db) with
                    | Ok rows => rows
                    | _ => []
                    end)) <= 2.
Proof.
  apply (select_returns_at_most_limit_rows 8 "t" None None 2 (Some 1) [] three_rows_db
           (snd (_select 8 "t" None None (Some 2) (Some 1) [] three_rows_db)));
    [lia | vm_compute; reflexivity].
Defined.

(** ** DISTINCT and projection *)

Lemma mem_string_true k l : mem_string k l = true <-> In k l.
Proof.
  unfold mem_string. rewrite existsb_exists. split.
  - intros (x & Hx & E). apply String.eqb_eq in E. subst. exact Hx.
  - intros H. exists k. split; [exact H|apply String.eqb_refl].
Qed.

Lemma distinct_rows_spec seen rows :
  NoDup (map JSON_stringify (distinct_rows seen rows))
  /\ (forall r, In r (distinct_rows seen rows) -> ~ In (JSON_stringify r) seen)
  /\ sublist (distinct_rows seen rows) rows
  /\ (forall r, In r rows ->
        In (JSON_stringify r) seen
        \/ exists r', In r' (distinct_rows seen rows) /\ JSON_stringify r' = JSON_stringify r).
Proof.
  revert seen. induction rows as [|row rest IH]; intros seen; cbn [distinct_rows].
  - split; [constructor|]. split; [intros r []|]. split; [constructor|intros r []].
  - destruct (mem_string (JSON_stringify row) seen) eqn:E.
    + destruct (IH seen) as (H1 & H2 & H3 & H4).
      split; [exact H1|]. split; [exact H2|]. split; [apply sublist_cons, H3|].
      intros r [<-|Hr]; [left; apply mem_string_true, E|apply H4, Hr].
    + destruct (IH (JSON_stringify row :: seen)) as (H1 & H2 & H3 & H4).
      assert (Hn : ~ In (JSON_stringify row) seen).
      { intros Hin. apply mem_string_true in Hin. congruence. }
      split.
      { cbn [map]. apply NoDup_cons. split; [|exact H1].
        rewrite list_elem_of_In. intros Hin. apply in_map_iff in Hin.
        destruct Hin as (r & Er & Hr). apply (H2 r Hr). left. symmetry. exact Er. }
      split.
      { intros r [<-|Hr]; [exact Hn|]. intros Hin. apply (H2 r Hr). right. exact Hin. }
      split; [apply sublist_skip, H3|].
      intros r [<-|Hr].
      * right. exists row. split; [left; reflexivity|reflexivity].
      * destruct (H4 r Hr) as [[E'|Hin]|(r' & Hr' & E')].
        -- right. exists row. split; [left; reflexivity|exact E'].
        -- left. exact Hin.
        -- right. exists r'. split; [right; exact Hr'|exact E'].
Qed.

Lemma mem_string_middle x k (a b : list string) :
  mem_string x (a ++ k :: b) = String.eqb x k || mem_string x (a ++ b).
Proof.
  unfold mem_string. rewrite !existsb_app. cbn [existsb].
  destruct (existsb (String.eqb x) a), (String.eqb x k); reflexivity.
Qed.

Lemma filter_shifted {A} (P : nat * A -> bool) (l : list A) : forall a,
  map snd (List.filter P (combine (seq (S a) (length l)) l))
  = map snd (List.filter (fun ir => P (S (fst ir), snd ir)) (combine (seq a (length l)) l)).
Proof.
  induction l as [|x l IH]; intros a; [reflexivity|].
  cbn [length seq combine List.filter fst snd].
  destruct (P (S a, x)); cbn [map snd]; rewrite IH; reflexivity.
Qed.

Lemma filter_ext_map {A B} (f : A -> B) (P Q : A -> bool) (l : list A) :
  (forall x, P x = Q x) -> map f (List.filter P l) = map f (List.filter Q l).
Proof. intros H. rewrite (List.filter_ext P Q H). reflexivity. Qed.

(** The DISTINCT filter keeps a row when its text is neither among the
    texts seen nor the text of a row before it. *)
Lemma distinct_rows_positions rows : forall seen,
  distinct_rows seen rows
  = map snd
      (List.filter
         (fun ir => negb (mem_string (JSON_stringify (snd ir))
                            (seen ++ map JSON_stringify (firstn (fst ir) rows))))
         (combine (seq 0 (length rows)) rows)).
Proof.
  induction rows as [|row rest IH]; intros seen; [reflexivity|].
  cbn [distinct_rows length seq combine List.filter fst snd firstn map].
  rewrite app_nil_r.
  destruct (mem_string (JSON_stringify row) seen) eqn:E; cbn [negb map snd].
  - rewrite IH, filter_shifted. apply filter_ext_map. intros [i r]. cbn [fst snd firstn map].
    rewrite mem_string_middle.
    destruct (String.eqb_spec (JSON_stringify r) (JSON_stringify row)) as [Heq|]; [|reflexivity].
    cbn [orb]. unfold mem_string. rewrite existsb_app. rewrite Heq.
    unfold mem_string in E. rewrite E. reflexivity.
  - f_equal. rewrite IH, filter_shifted. apply filter_ext_map. intros [i r].
    cbn [fst snd firstn map]. rewrite mem_string_middle. reflexivity.
Qed.

Lemma distinct_rows_first rows : distinct_rows [] rows = first_of_each_text rows.
Proof. apply (distinct_rows_positions rows []). Qed.

(** SELECT DISTINCT without joins returns, of the rows that the same
    SELECT returns without DISTINCT, the first of each JSON text, in
    their order: the rows whose text no row before them has.  No two of
    them have the same text, and the text of every row of the plain
    result is the text of one of them.  The state reached is the same. *)
Theorem select_distinct_rows_differ
    (fuel : nat) (table : string) (cols : list string) (c : option criteria)
    (sort : option sort_spec) (limit offset : option Z)
    (s s' : db) (all : list obj) :
  query fuel (SELECT table cols c sort limit offset [] false) s = (Ok (RRows all), s') ->
  query fuel (SELECT table cols c sort limit offset [] true) s
  = (Ok (RRows (first_of_each_text all)), s')
  /\ NoDup (map JSON_stringify (first_of_each_text all))
  /\ sublist (first_of_each_text all) all
  /\ forall r, In r all ->
       exists r', In r' (first_of_each_text all) /\ JSON_stringify r' = JSON_stringify r.
Proof.
  intros H. unfold query, try_catch in *.
  destruct (bind (_select fuel table c sort limit offset []) _ s) as [[res| |] s1] eqn:E in H;
    try discriminate.
  apply bind_Ok in E. destruct E as (rows0 & s2 & Hsel & E).
  unfold ret in E. injection E as <- <-. injection H as <- <-.
  unfold bind. rewrite Hsel. unfold ret.
  rewrite <- distinct_rows_first.
  split; [reflexivity|].
  destruct (distinct_rows_spec [] (if negb (is_star cols) then map (project cols) rows0 else rows0))
    as (H1 & _ & H3 & H4).
  split; [exact H1|]. split; [exact H3|].
  intros r Hr. destruct (H4 r Hr) as [[]|Hx]. exact Hx.
Qed.

Lemma select_distinct_witness_two_equal_rows :
  query 8 (SELECT "t" ["k"] None None None None [] true) two_match_db
  = (Ok (RRows (first_of_each_text [plain [("k", JNum 1)]; plain [("k", JNum 1)]])),
     snd (query 8 (SELECT "t" ["k"] None None None None [] false) two_match_db))
  /\ first_of_each_text [plain [("k", JNum 1)]; plain [("k", JNum 1)]] = [plain [("k", JNum 1)]].
Proof.
  split; [|reflexivity].
  apply (select_distinct_rows_differ 8 "t" ["k"] None None None None two_match_db).
  vm_compute. reflexivity.
Defined.


Lemma assoc_set_app_fresh {V} k (v : V) l :
  assoc k l = None -> assoc_set k v l = l ++ [(k, v)].
Proof.
  induction l as [|[k' v'] l IH]; [reflexivity|].
  cbn [assoc assoc_set]. destruct (String.eqb k k'); [discriminate|].
  intros H. rewrite (IH H). reflexivity.
Qed.

Lemma assoc_map_fresh {V} (f : string -> V) k cols :
  ~ In k cols -> assoc k (map (fun c => (c, f c)) cols) = None.
Proof.
  induction cols as [|c cols IH]; [reflexivity|].
  intros H. cbn [map assoc]. destruct (String.eqb_spec k c) as [->|Hne].
  - exfalso. apply H. left. reflexivity.
  - apply IH. intros Hin. apply H. right. exact Hin.
Qed.

Lemma project_fold (r : obj) cols done :
  Stdlib.Lists.List.NoDup (done ++ cols) ->
  fold_left (fun newRow c =>
               obj_set newRow c (match obj_get r c with Some v => v | None => JNull end))
            cols (plain (map (column_of r) done))
  = plain (map (column_of r) (done ++ cols)).
Proof.
  revert done. induction cols as [|c cols IH]; intros done Hnd.
  - rewrite app_nil_r. reflexivity.
  - cbn [fold_left].
    assert (Hfresh : ~ In c done).
    { intros Hin. apply NoDup_remove_2 in Hnd. apply Hnd. apply in_or_app. left. exact Hin. }
    assert (Hset : obj_set (plain (map (column_of r) done)) c
                     (match obj_get r c with Some v => v | None => JNull end)
                   = plain (map (column_of r) (done ++ [c]))).
    { unfold obj_set, plain. cbn [fields hidden_pageId]. rewrite andb_false_r.
      rewrite assoc_set_app_fresh by (apply (assoc_map_fresh (fun c => snd (column_of r c))), Hfresh).
      rewrite map_app. reflexivity. }
    rewrite Hset. rewrite IH by (rewrite <- app_assoc; exact Hnd).
    rewrite <- app_assoc. reflexivity.
Qed.

(** The projection of a row onto a list of distinct columns, none of
    them an array index or named like a member of [Object.prototype],
    has exactly these columns, in the order asked for; a column that the
    row lacks is [null]. *)
Theorem projection_has_exactly_the_requested_columns (cols : list string) (r : obj) :
  Stdlib.Lists.List.NoDup cols ->
  forallb plain_name cols = true ->
  project cols r = plain (map (column_of r) cols).
Proof.
  intros H _. unfold project. apply (project_fold r cols []). exact H.
Qed.

Lemma projection_witness_two_columns :
  project ["v"; "k"; "w"] rec_a = plain [("v", JStr "a"); ("k", JNum 1); ("w", JNull)].
Proof.
  apply (projection_has_exactly_the_requested_columns ["v"; "k"; "w"] rec_a).
  - repeat constructor; cbn; intuition discriminate.
  - reflexivity.
Defined.

(** ** The two condition checks *)

(** For [=], [!=], [<], [<=], [>] and [>=] between a field and a value of
    the same kind (two numbers, or two strings), the inlined check of the
    scan loop and [_checkMatch] give the same answer. *)
Theorem scan_and_evaluator_agree_on_same_kind
    (o : obj) (key op : string) (v t : jsval) :
  key <> "" ->
  comparison_op op = true ->
  obj_get o key = Some v ->
  same_kind v t = true ->
  scan_matches (Some (Leaf key op (APrim t))) o
  = _checkMatch o (Some (Leaf key op (APrim t))).
Proof.
  intros Hk Hop Hv Hs.
  unfold scan_matches, simple_criteria, _checkMatch, checkMatch_criteria, _checkSingleCondition.
  rewrite Hv.
  replace (String.eqb key "") with false by (symmetry; apply String.eqb_neq, Hk).
  unfold comparison_op, mem_string in Hop. cbn [existsb] in Hop.
  repeat (apply orb_prop in Hop; destruct Hop as [Hop|Hop]); try discriminate;
    apply String.eqb_eq in Hop; subst op; cbn [String.eqb Ascii.eqb Bool.eqb negb andb];
    destruct v as [|bv|n|a], t as [|bt|m|b]; try discriminate; cbn; rewrite ?Hv; cbn;
    try reflexivity;
    try (destruct (n =? m); reflexivity); try (destruct (String.eqb a b); reflexivity).
Qed.

Lemma scan_and_evaluator_agree_witness_less_than :
  scan_matches (Some (Leaf "k" "<" (APrim (JNum 2)))) rec_a
  = _checkMatch rec_a (Some (Leaf "k" "<" (APrim (JNum 2)))).
Proof.
  apply (scan_and_evaluator_agree_on_same_kind rec_a "k" "<" (JNum 1) (JNum 2));
    [discriminate | reflexivity | reflexivity | reflexivity].
Defined.

(** A field that is [null] equals the number 0, and no other number,
    for [_checkMatch], which compares [Number(null)]; for the inlined
    check of the scan loop it equals no number ([null == 0] is false).
    On such a record the two checks disagree about [= 0] and [!= 0]. *)
Theorem null_field_equals_zero_for_the_evaluator_only
    (o : obj) (key : string) (m : Z) :
  key <> "" ->
  obj_get o key = Some JNull ->
  _checkMatch o (Some (Leaf key "=" (APrim (JNum m)))) = Ok (m =? 0)
  /\ scan_matches (Some (Leaf key "=" (APrim (JNum m)))) o = Ok false
  /\ _checkMatch o (Some (Leaf key "!=" (APrim (JNum m)))) = Ok (negb (m =? 0))
  /\ scan_matches (Some (Leaf key "!=" (APrim (JNum m)))) o = Ok true.
Proof.
  intros Hk Hv.
  unfold scan_matches, simple_criteria, _checkMatch, checkMatch_criteria, _checkSingleCondition.
  rewrite Hv.
  replace (String.eqb key "") with false by (symmetry; apply String.eqb_neq, Hk).
  cbn. rewrite ?Hv. cbn. rewrite Z.eqb_sym. repeat split; reflexivity.
Qed.

Lemma null_field_witness_zero :
  _checkMatch rec_null (Some (Leaf "k" "=" (APrim (JNum 0)))) = Ok true
  /\ scan_matches (Some (Leaf "k" "=" (APrim (JNum 0)))) rec_null = Ok false.
Proof.
  destruct (null_field_equals_zero_for_the_evaluator_only rec_null "k" 0)
    as (H1 & H2 & _); [discriminate | reflexivity |].
  split; [exact H1 | exact H2].
Defined.

(** ** Buffers, byte by byte *)

Lemma nth_error_lookup {A} (l : list A) i : nth_error l i = l !! i.
Proof. revert i. induction l as [|x l IH]; intros [|i]; cbn; auto. Qed.

(** Position [i] of a buffer after [blit]. *)
Lemma lookup_blit (b d : list Byte.byte) off (i : nat) :
  0 <= off ->
  blit b off d !! i
  = if ((Z.to_nat off <=? i)%nat && (i <? Z.to_nat off + length d)%nat && (i <? length b)%nat)
    then d !! (i - Z.to_nat off)%nat
    else b !! i.
Proof.
  intros H0. unfold blit, buf_length, buffer.
  destruct ((off <? 0) || (Z.of_nat (length b) <=? off)) eqn:E.
  - apply orb_true_iff in E. destruct E as [E|E]; [apply Z.ltb_lt in E; lia|].
    apply Z.leb_le in E.
    destruct (Nat.leb_spec (Z.to_nat off) i); cbn [andb]; [|reflexivity].
    destruct (Nat.ltb_spec i (length b)); [lia|]. rewrite andb_false_r. reflexivity.
  - apply orb_false_iff in E. destruct E as [_ E]. apply Z.leb_gt in E.
    destruct (Nat.leb_spec (Z.to_nat off) i) as [Hle|Hlt]; cbn [andb].
    + rewrite lookup_app_r by (rewrite length_take; lia).
      rewrite length_take. replace (Z.to_nat off `min` length b)%nat with (Z.to_nat off) by lia.
      destruct (Nat.ltb_spec i (Z.to_nat off + length d)) as [H1|H1]; cbn [andb].
      * destruct (Nat.ltb_spec i (length b)) as [H2|H2].
        -- rewrite lookup_app_l by (rewrite length_take; lia).
           apply lookup_take_lt. lia.
        -- rewrite (lookup_ge_None_2 b) by lia.
           destruct (Nat.ltb_spec (i - Z.to_nat off) (length (take (length b - Z.to_nat off) d))) as [H3|H3].
           ++ rewrite length_take in H3. lia.
           ++ rewrite lookup_app_r by lia. apply lookup_ge_None_2.
              rewrite length_drop, !length_take. lia.
      * destruct (Nat.ltb_spec (i - Z.to_nat off) (length (take (length b - Z.to_nat off) d))) as [H3|H3].
        -- rewrite length_take in H3. lia.
        -- rewrite lookup_app_r by lia. rewrite lookup_drop. f_equal.
           rewrite length_take in *. lia.
    + rewrite lookup_app_l by (rewrite length_take; lia).
      apply lookup_take_lt. lia.
Qed.

Lemma byte_at_lookup (b : list Byte.byte) i :
  byte_at b i = match b !! Z.to_nat i with Some x => byte_val x | None => 0 end.
Proof. unfold byte_at. rewrite nth_error_lookup. reflexivity. Qed.

(** A byte outside the written range is unchanged. *)
Lemma byte_at_blit_outside (b d : list Byte.byte) off i :
  0 <= off -> 0 <= i -> (i < off \/ off + Z.of_nat (length d) <= i) ->
  byte_at (blit b off d) i = byte_at b i.
Proof.
  intros H0 Hi Hout. rewrite !byte_at_lookup, lookup_blit by exact H0.
  destruct (Nat.leb_spec (Z.to_nat off) (Z.to_nat i)); cbn [andb]; [|reflexivity].
  destruct (Nat.ltb_spec (Z.to_nat i) (Z.to_nat off + length d)); cbn [andb]; [lia|reflexivity].
Qed.

(** A byte inside the written range is the written one. *)
Lemma byte_at_blit_inside (b d : list Byte.byte) off i :
  0 <= off -> off <= i < off + Z.of_nat (length d) -> i < buf_length b ->
  byte_at (blit b off d) i = byte_at d (i - off).
Proof.
  intros H0 Hin Hb. unfold buf_length in Hb. rewrite !byte_at_lookup, lookup_blit by exact H0.
  destruct (Nat.leb_spec (Z.to_nat off) (Z.to_nat i)); [|lia]. cbn [andb].
  destruct (Nat.ltb_spec (Z.to_nat i) (Z.to_nat off + length d)); [|lia]. cbn [andb].
  destruct (Nat.ltb_spec (Z.to_nat i) (length b)); [|lia].
  replace (Z.to_nat (i - off)) with (Z.to_nat i - Z.to_nat off)%nat by lia. reflexivity.
Qed.

Lemma readUInt32LE_blit_outside b off d i :
  0 <= off -> 0 <= i -> (i + 4 <= off \/ off + Z.of_nat (length d) <= i) ->
  readUInt32LE (blit b off d) i = readUInt32LE b i.
Proof.
  intros H0 Hi Hout. unfold readUInt32LE. rewrite buf_length_blit.
  rewrite !byte_at_blit_outside by lia. reflexivity.
Qed.

Lemma readUInt16LE_blit_outside b off d i :
  0 <= off -> 0 <= i -> (i + 2 <= off \/ off + Z.of_nat (length d) <= i) ->
  readUInt16LE (blit b off d) i = readUInt16LE b i.
Proof.
  intros H0 Hi Hout. unfold readUInt16LE. rewrite buf_length_blit.
  rewrite !byte_at_blit_outside by lia. reflexivity.
Qed.

Lemma u32_decompose v :
  0 <= v <= 4294967295 ->
  v mod 256 + 256 * ((v / 256) mod 256) + 65536 * ((v / 65536) mod 256)
  + 16777216 * ((v / 16777216) mod 256) = v.
Proof.
  intros Hv.
  replace (v / 65536) with (v / 256 / 256) by (rewrite Z.div_div by lia; reflexivity).
  replace (v / 16777216) with (v / 256 / 256 / 256) by (rewrite !Z.div_div by lia; reflexivity).
  pose proof (Z.div_mod v 256 ltac:(lia)).
  pose proof (Z.div_mod (v / 256) 256 ltac:(lia)).
  pose proof (Z.div_mod (v / 256 / 256) 256 ltac:(lia)).
  assert (v / 256 / 256 / 256 < 256).
  { apply Z.div_lt_upper_bound; [lia|]. apply Z.div_lt_upper_bound; [lia|].
    apply Z.div_lt_upper_bound; lia. }
  assert (0 <= v / 256 / 256 / 256) by (repeat apply Z.div_pos; lia).
  rewrite (Z.mod_small (v / 256 / 256 / 256)) by lia.
  lia.
Qed.

Lemma readUInt32LE_blit_u32 b off v :
  0 <= off -> off + 4 <= buf_length b -> 0 <= v <= 4294967295 ->
  readUInt32LE (blit b off (u32_bytes v)) off = Ok v.
Proof.
  intros H0 Hfit Hv. unfold readUInt32LE. rewrite buf_length_blit.
  replace ((off <? 0) || (buf_length b - 4 <? off)) with false
    by (symmetry; apply orb_false_iff; split; apply Z.ltb_ge; lia).
  rewrite !byte_at_blit_inside by (cbn [length u32_bytes]; lia).
  replace (off - off) with 0 by lia. replace (off + 1 - off) with 1 by lia.
  replace (off + 2 - off) with 2 by lia. replace (off + 3 - off) with 3 by lia.
  unfold u32_bytes, byte_at.
  change (Z.to_nat 0) with 0%nat. change (Z.to_nat 1) with 1%nat.
  change (Z.to_nat 2) with 2%nat. change (Z.to_nat 3) with 3%nat. cbn [nth_error].
  rewrite !byte_val_of_Z. f_equal. apply u32_decompose, Hv.
Qed.

Lemma writeUInt32LE_Ok b v off :
  0 <= v <= 4294967295 -> 0 <= off -> off + 4 <= buf_length b ->
  writeUInt32LE b v off = Ok (blit b off (u32_bytes v)).
Proof.
  intros Hv H0 Hfit. unfold writeUInt32LE.
  replace ((v <? 0) || (4294967295 <? v)) with false
    by (symmetry; apply orb_false_iff; split; apply Z.ltb_ge; lia).
  replace ((off <? 0) || (buf_length b - 4 <? off)) with false
    by (symmetry; apply orb_false_iff; split; apply Z.ltb_ge; lia).
  reflexivity.
Qed.

Lemma readUInt32LE_range b off v :
  readUInt32LE b off = Ok v -> 0 <= v <= 4294967295 /\ 0 <= off /\ off + 4 <= buf_length b.
Proof.
  unfold readUInt32LE. destruct ((off <? 0) || (buf_length b - 4 <? off)) eqn:E; [discriminate|].
  apply orb_false_iff in E. destruct E as [E1 E2]. apply Z.ltb_ge in E1. apply Z.ltb_ge in E2.
  intros H. injection H as <-.
  assert (Hb : forall i, 0 <= byte_at b i <= 255).
  { intros i. unfold byte_at. destruct (nth_error b (Z.to_nat i)) as [x|]; [|lia].
    unfold byte_val. pose proof (Byte.to_N_bounded x). lia. }
  pose proof (Hb off). pose proof (Hb (off + 1)). pose proof (Hb (off + 2)). pose proof (Hb (off + 3)).
  lia.
Qed.

(** Slices, position by position. *)
Lemma lookup_buf_slice (b : list Byte.byte) s e (k : nat) :
  0 <= s -> s <= e -> e <= buf_length b ->
  buf_slice b s e !! k = if (k <? Z.to_nat (e - s))%nat then b !! (Z.to_nat s + k)%nat else None.
Proof.
  intros Hs Hse He. unfold buf_slice, buf_length in *.
  rewrite (Z.min_l s) by lia. rewrite (Z.max_r 0 s) by lia.
  rewrite (Z.min_l e) by lia. rewrite (Z.max_r s e) by lia.
  destruct (Nat.ltb_spec k (Z.to_nat (e - s))).
  - rewrite lookup_take_lt by lia. apply lookup_drop.
  - apply lookup_ge_None_2. rewrite length_take. lia.
Qed.

Lemma length_buf_slice b s e :
  0 <= s -> s <= e -> e <= buf_length b -> length (buf_slice b s e) = Z.to_nat (e - s).
Proof.
  intros Hs Hse He. unfold buf_slice, buf_length in *.
  rewrite (Z.min_l s) by lia. rewrite (Z.max_r 0 s) by lia.
  rewrite (Z.min_l e) by lia. rewrite (Z.max_r s e) by lia.
  rewrite length_take, length_drop. lia.
Qed.

Lemma buf_slice_blit_outside (b d : list Byte.byte) off s e :
  0 <= off -> 0 <= s -> s <= e -> e <= buf_length b ->
  (e <= off \/ off + Z.of_nat (length d) <= s) ->
  buf_slice (blit b off d) s e = buf_slice b s e.
Proof.
  intros H0 Hs Hse He Hout. apply list_eq. intros k.
  rewrite !lookup_buf_slice by (rewrite ?buf_length_blit; lia).
  destruct (Nat.ltb_spec k (Z.to_nat (e - s))); [|reflexivity].
  rewrite lookup_blit by exact H0.
  destruct (Nat.leb_spec (Z.to_nat off) (Z.to_nat s + k)); cbn [andb]; [|reflexivity].
  destruct (Nat.ltb_spec (Z.to_nat s + k) (Z.to_nat off + length d)); cbn [andb]; [lia|reflexivity].
Qed.

(** The slice over a range that was written in full is what was written. *)
Lemma buf_slice_blit_inside (b d : list Byte.byte) off s e :
  0 <= off -> off <= s -> s <= e -> e <= off + Z.of_nat (length d) -> e <= buf_length b ->
  buf_slice (blit b off d) s e = buf_slice d (s - off) (e - off).
Proof.
  intros H0 Hs Hse He Hb. apply list_eq. intros k.
  rewrite !lookup_buf_slice by (rewrite ?buf_length_blit; unfold buf_length in *; lia).
  replace (Z.to_nat (e - off - (s - off))) with (Z.to_nat (e - s)) by lia.
  destruct (Nat.ltb_spec k (Z.to_nat (e - s))); [|reflexivity].
  rewrite lookup_blit by exact H0. unfold buf_length in Hb.
  destruct (Nat.leb_spec (Z.to_nat off) (Z.to_nat s + k)); [|lia]. cbn [andb].
  destruct (Nat.ltb_spec (Z.to_nat s + k) (Z.to_nat off + length d)); [|lia]. cbn [andb].
  destruct (Nat.ltb_spec (Z.to_nat s + k) (length b)); [|lia].
  f_equal. lia.
Qed.

Lemma buf_slice_all (d : list Byte.byte) : buf_slice d 0 (buf_length d) = d.
Proof.
  unfold buf_slice, buf_length.
  replace (Z.max 0 (Z.min 0 (Z.of_nat (length d)))) with 0 by lia.
  replace (Z.max 0 (Z.min (Z.of_nat (length d)) (Z.of_nat (length d))))
    with (Z.of_nat (length d)) by lia.
  rewrite Z.sub_0_r, Nat2Z.id. change (drop (Z.to_nat 0) d) with d. apply take_ge. lia.
Qed.

(** ** The catalog as a list of slots *)

Lemma readUInt32LE_u32_at b off :
  0 <= off -> off + 4 <= buf_length b -> readUInt32LE b off = Ok (u32_at b off).
Proof.
  intros H0 H. unfold readUInt32LE.
  replace ((off <? 0) || (buf_length b - 4 <? off)) with false
    by (symmetry; apply orb_false_iff; split; apply Z.ltb_ge; lia).
  reflexivity.
Qed.

Lemma readUInt32LE_Ok_u32_at b off v : readUInt32LE b off = Ok v -> v = u32_at b off.
Proof.
  unfold readUInt32LE. destruct (_ || _); [discriminate|]. intros H. injection H as <-. reflexivity.
Qed.

Lemma readPage0 s : readPage 0 s = (Ok (page0 s), s).
Proof. reflexivity. Qed.

Lemma find_entry_loop_spec (p0 : buffer) (name : string) (n : nat) (i : Z) :
  0 <= i -> 12 + 40 * (i + Z.of_nat n) <= buf_length p0 ->
  (exists k, i <= k < i + Z.of_nat n
             /\ slot_name p0 k = name
             /\ (forall j, i <= j < k -> slot_name p0 j <> name)
             /\ find_entry_loop n p0 name i (12 + 40 * i) = Ok (Some (slot_entry p0 k)))
  \/ ((forall j, i <= j < i + Z.of_nat n -> slot_name p0 j <> name)
      /\ find_entry_loop n p0 name i (12 + 40 * i) = Ok None).
Proof.
  revert i. induction n as [|n IH]; intros i Hi Hlen.
  - right. split; [intros j Hj; lia|reflexivity].
  - cbn [find_entry_loop].
    change (strip_nul (buf_toString p0 (12 + 40 * i) (12 + 40 * i + 32))) with (slot_name p0 i).
    destruct (String.eqb_spec (slot_name p0 i) name) as [E|E].
    + left. exists i. split; [lia|]. split; [exact E|]. split; [intros j Hj; lia|].
      rewrite !readUInt32LE_u32_at by lia. reflexivity.
    + replace (12 + 40 * i + 40) with (12 + 40 * (i + 1)) by lia.
      destruct (IH (i + 1) ltac:(lia) ltac:(lia)) as [(k & Hk & Hn & Hb & Hf)|(Hb & Hf)].
      * left. exists k. split; [lia|]. split; [exact Hn|]. split; [|exact Hf].
        intros j Hj. destruct (Z.eq_dec j i) as [->|]; [exact E|apply Hb; lia].
      * right. split; [|exact Hf].
        intros j Hj. destruct (Z.eq_dec j i) as [->|]; [exact E|apply Hb; lia].
Qed.

Lemma numTables_read s :
  catalog_ok s -> readUInt32LE (page0 s) 8 = Ok (numTables s) /\ 0 <= numTables s.
Proof.
  intros [Hlen Hn]. unfold numTables. split.
  - apply readUInt32LE_u32_at; [lia|]. rewrite Hlen. unfold PAGE_SIZE. lia.
  - destruct (readUInt32LE_range (page0 s) 8 (u32_at (page0 s) 8)) as [H _]; [|lia].
    apply readUInt32LE_u32_at; [lia|]. rewrite Hlen. unfold PAGE_SIZE. lia.
Qed.

(** [_findTableEntry] returns the first slot in use that carries the
    name, and [null] when no slot does. *)
Lemma findTableEntry_spec (s : db) (name : string) :
  catalog_ok s ->
  (exists k, 0 <= k < numTables s
             /\ slot_name (page0 s) k = name
             /\ (forall j, 0 <= j < k -> slot_name (page0 s) j <> name)
             /\ _findTableEntry name s = (Ok (Some (slot_entry (page0 s) k)), s))
  \/ ((forall j, 0 <= j < numTables s -> slot_name (page0 s) j <> name)
      /\ _findTableEntry name s = (Ok None, s)).
Proof.
  intros Hok. destruct (numTables_read s Hok) as [Hr Hpos]. destruct Hok as [Hlen Hn].
  unfold _findTableEntry, bind. rewrite readPage0. unfold lift. rewrite Hr.
  destruct (find_entry_loop_spec (page0 s) name (Z.to_nat (numTables s)) 0)
    as [(k & Hk & Hname & Hb & Hf)|(Hb & Hf)]; [lia|rewrite Hlen; lia| |].
  - left. exists k. rewrite Z2Nat.id in Hk by lia. split; [lia|]. split; [exact Hname|].
    split; [exact Hb|]. change (12 + 40 * 0) with 12 in Hf. rewrite Hf. reflexivity.
  - right. rewrite Z2Nat.id in Hb by lia. split; [intros j Hj; apply Hb; lia|].
    change (12 + 40 * 0) with 12 in Hf. rewrite Hf. reflexivity.
Qed.

Lemma showTables_loop_spec (p0 : buffer) (name : string) (n : nat) (i : Z) :
  In name (showTables_loop n p0 (12 + 40 * i))
  <-> exists k, i <= k < i + Z.of_nat n /\ slot_name p0 k = name /\ starts_with "_" name = false.
Proof.
  revert i. induction n as [|n IH]; intros i.
  - split; [intros []|intros (k & Hk & _); lia].
  - cbn [showTables_loop].
    change (strip_nul (buf_toString p0 (12 + 40 * i) (12 + 40 * i + 32))) with (slot_name p0 i).
    replace (12 + 40 * i + 40) with (12 + 40 * (i + 1)) by lia.
    rewrite in_app_iff, IH. split.
    + intros [H|(k & Hk & Hn & Hu)].
      * destruct (starts_with "_" (slot_name p0 i)) eqn:E; cbn in H; [destruct H|].
        destruct H as [<-|[]]. exists i. split; [lia|]. split; [reflexivity|exact E].
      * exists k. split; [lia|]. split; assumption.
    + intros (k & Hk & Hn & Hu). destruct (Z.eq_dec k i) as [->|Hne].
      * left. rewrite Hn, Hu. left. reflexivity.
      * right. exists k. split; [lia|]. split; assumption.
Qed.

(** [_showTables] changes nothing and lists exactly the names that
    [_findTableEntry] finds and that do not start with an underscore. *)
Theorem show_tables_lists_the_user_tables_that_lookup_finds (s : db) (name : string) :
  catalog_ok s ->
  exists names,
    _showTables s = (Ok names, s)
    /\ (In name names
        <-> (exists e, fst (_findTableEntry name s) = Ok (Some e))
            /\ starts_with "_" name = false).
Proof.
  intros Hok. destruct (numTables_read s Hok) as [Hr Hpos].
  unfold _showTables, bind. rewrite readPage0. unfold lift. rewrite Hr. unfold ret.
  eexists. split; [reflexivity|].
  change 12 with (12 + 40 * 0). rewrite showTables_loop_spec. rewrite Z2Nat.id by lia.
  destruct (findTableEntry_spec s name Hok) as [(k & Hk & Hn & Hb & Hf)|(Hb & Hf)].
  - rewrite Hf. cbn [fst]. split.
    + intros (k' & _ & _ & Hu). split; [eexists; reflexivity|exact Hu].
    + intros [_ Hu]. exists k. split; [lia|]. split; assumption.
  - rewrite Hf. cbn [fst]. split.
    + intros (k' & Hk' & Hn & _). exfalso. apply (Hb k'); [lia|exact Hn].
    + intros [[e He] _]. discriminate He.
Qed.

Lemma show_tables_witness_two_tables :
  exists names,
    _showTables two_tables_db = (Ok names, two_tables_db)
    /\ (In "u" names
        <-> (exists e, fst (_findTableEntry "u" two_tables_db) = Ok (Some e))
            /\ starts_with "_" "u" = false).
Proof.
  apply (show_tables_lists_the_user_tables_that_lookup_finds two_tables_db "u").
  split; vm_compute; [reflexivity | discriminate].
Defined.

(** ** What a method leaves as it found it *)

(** *** What a method leaves alone *)

Lemma preserves_ret {X A} (f : db -> X) (a : A) : preserves f (ret a).
Proof. intros s. reflexivity. Qed.

Lemma preserves_throw {X A} (f : db -> X) msg : preserves f (@throw A msg).
Proof. intros s. reflexivity. Qed.

Lemma preserves_stuck {X A} (f : db -> X) why : preserves f (@stuck A why).
Proof. intros s. reflexivity. Qed.

Lemma preserves_lift {X A} (f : db -> X) (o : outcome A) : preserves f (lift o).
Proof. intros s. reflexivity. Qed.

Lemma preserves_gets {X A} (f : db -> X) (g : db -> A) : preserves f (gets g).
Proof. intros s. reflexivity. Qed.

Lemma preserves_bind {X A B} (f : db -> X) (m : M A) (k : A -> M B) :
  preserves f m -> (forall a, preserves f (k a)) -> preserves f (bind m k).
Proof.
  intros Hm Hk s. unfold bind. specialize (Hm s).
  destruct (m s) as [[a|e|w] s1]; cbn [snd] in *; try exact Hm.
  rewrite (Hk a s1). exact Hm.
Qed.

Lemma preserves_if {X A} (f : db -> X) (b : bool) (m1 m2 : M A) :
  preserves f m1 -> preserves f m2 -> preserves f (if b then m1 else m2).
Proof. destruct b; auto. Qed.

Lemma preserves_try_catch {X A} (f : db -> X) (m : M A) (h : string -> M A) :
  preserves f m -> (forall e, preserves f (h e)) -> preserves f (try_catch m h).
Proof.
  intros Hm Hh s. unfold try_catch. specialize (Hm s).
  destruct (m s) as [[a|e|w] s1]; cbn [snd] in *; try exact Hm.
  rewrite (Hh e s1). exact Hm.
Qed.

Lemma preserves_readPage {X} (f : db -> X) pageId : preserves f (readPage pageId).
Proof. unfold readPage. destruct (pageId <? 0); [apply preserves_stuck|apply preserves_gets]. Qed.

Lemma stable_page0 : stable page0.
Proof.
  split; [|split; intros ? s; reflexivity].
  intros pageId buf Hne. unfold writePage. destruct (negb _); [apply preserves_throw|].
  destruct (pageId <? 0); [apply preserves_stuck|]. intros s.
  unfold modify, page0. cbn [snd file]. rewrite lookup_insert_ne by exact Hne.
  reflexivity.
Qed.

Lemma stable_queryString : stable queryString.
Proof.
  split; [|split; intros ? s; reflexivity].
  intros pageId buf Hne. unfold writePage. destruct (negb _); [apply preserves_throw|].
  destruct (pageId <? 0); [apply preserves_stuck|]. intros s. reflexivity.
Qed.

Lemma indexes_writePage pageId buf : preserves indexes (writePage pageId buf).
Proof.
  unfold writePage. destruct (negb _); [apply preserves_throw|].
  destruct (pageId <? 0); [apply preserves_stuck|]. intros s. reflexivity.
Qed.

Lemma indexes_emit e : preserves indexes (emit e).
Proof. intros s. reflexivity. Qed.

Lemma preserves_findTableEntry {X} (f : db -> X) name : preserves f (_findTableEntry name).
Proof.
  unfold _findTableEntry.
  apply preserves_bind; [apply preserves_readPage|intros p0].
  apply preserves_bind; [apply preserves_lift|intros n]. apply preserves_lift.
Qed.

Lemma stable_removeFromIndexes {X} (f : db -> X) table data :
  stable f -> preserves f (_removeFromIndexes table data).
Proof.
  intros (_ & Hs & _). unfold _removeFromIndexes.
  apply preserves_bind; [apply preserves_gets|intros ixs]. apply Hs.
Qed.

Lemma stable_delete_slots {X} (f : db -> X) n table c pData st :
  stable f -> preserves f (_delete_slots n table c pData st).
Proof.
  intros Hf. revert st. induction n as [|n IH]; intros st; cbn [_delete_slots]; [apply preserves_ret|].
  apply preserves_bind; [apply preserves_lift|intros len].
  apply preserves_bind.
  - destruct (_ <-? JSON_parse _ ;; _) as [[o []]| |];
      first [apply preserves_ret|apply preserves_stuck].
  - intros [o|]; (apply preserves_bind; [|intros ?; apply IH]).
    + apply preserves_bind; [|intros ?; apply preserves_ret].
      apply preserves_if; [apply stable_removeFromIndexes, Hf|apply preserves_ret].
    + apply preserves_ret.
Qed.

Lemma indexes_delete_slots n c pData st :
  preserves indexes (_delete_slots n "_indexes" c pData st).
Proof.
  revert st. induction n as [|n IH]; intros st; cbn [_delete_slots]; [apply preserves_ret|].
  apply preserves_bind; [apply preserves_lift|intros len].
  apply preserves_bind.
  - destruct (_ <-? JSON_parse _ ;; _) as [[o []]| |];
      first [apply preserves_ret|apply preserves_stuck].
  - intros [o|]; (apply preserves_bind; [|intros ?; apply IH]).
    + change (String.eqb "_indexes" "_indexes") with true. cbn [negb].
      apply preserves_bind; [apply preserves_ret|intros ?; apply preserves_ret].
    + apply preserves_ret.
Qed.

Lemma delete_pages_preserves {X} (f : db -> X) fuel table c hint cur n data :
  (forall pageId buf, pageId <> 0 -> preserves f (writePage pageId buf)) ->
  (forall k st pData, preserves f (_delete_slots k table c pData st)) ->
  preserves f (_delete_pages fuel table c hint cur n data).
Proof.
  intros Hw Hslots.
  revert cur n data. induction fuel as [|fuel IH]; intros cur n data; cbn [_delete_pages].
  - destruct (cur =? 0); [apply preserves_ret|apply preserves_stuck].
  - destruct (Z.eqb_spec cur 0) as [|Hne]; [apply preserves_ret|].
    apply preserves_bind; [apply preserves_readPage|intros pData].
    apply preserves_bind; [apply preserves_lift|intros count].
    apply preserves_bind; [apply Hslots|intros st].
    apply preserves_bind.
    + apply preserves_if; [|apply preserves_ret].
      apply preserves_bind; [apply preserves_lift|intros p].
      apply preserves_bind; [apply Hw, Hne|intros ?; apply preserves_ret].
    + intros pData'. destruct (negb (hint =? -1)); [apply preserves_ret|].
      apply preserves_bind; [apply preserves_lift|intros next]. apply IH.
Qed.

Lemma preserves_delete_body {X} (f : db -> X) again fuel table c force :
  (forall hint cur n data, preserves f (_delete_pages fuel table c hint cur n data)) ->
  (forall e, preserves f (emit e)) ->
  preserves f again -> preserves f (_delete_body again fuel table c force).
Proof.
  intros Hpages Hemit Hagain. unfold _delete_body.
  apply preserves_bind; [apply preserves_findTableEntry|intros [entry|]]; [|apply preserves_throw].
  apply preserves_bind; [apply preserves_gets|intros ixs].
  apply preserves_bind; [destruct force; [apply preserves_ret|apply preserves_lift]|intros hint].
  apply preserves_bind; [apply Hpages|intros [n data]].
  destruct (_ && _); [exact Hagain|].
  apply preserves_bind; [apply preserves_gets|intros q].
  apply preserves_bind; [apply Hemit|intros ?; apply preserves_ret].
Qed.

(** [_delete] never writes page 0 and never changes the query text. *)
Lemma stable_delete {X} (f : db -> X) fuel table c force :
  stable f -> preserves f (_delete fuel table c force).
Proof.
  intros Hf. pose proof Hf as (Hw & _ & He). unfold _delete.
  assert (Hp : forall hint cur n data, preserves f (_delete_pages fuel table c hint cur n data)).
  { intros. apply delete_pages_preserves; [exact Hw|]. intros. apply stable_delete_slots, Hf. }
  apply preserves_delete_body; [exact Hp|exact He|].
  apply preserves_delete_body; [exact Hp|exact He|].
  apply preserves_stuck.
Qed.

(** A DELETE on the system table [_indexes] leaves the loaded indexes alone. *)
Lemma indexes_delete_system fuel c force : preserves indexes (_delete fuel "_indexes" c force).
Proof.
  unfold _delete.
  assert (Hp : forall hint cur n data,
             preserves indexes (_delete_pages fuel "_indexes" c hint cur n data)).
  { intros. apply delete_pages_preserves; [intros; apply indexes_writePage|].
    intros. apply indexes_delete_slots. }
  apply preserves_delete_body; [exact Hp|apply indexes_emit|].
  apply preserves_delete_body; [exact Hp|apply indexes_emit|].
  apply preserves_stuck.
Qed.

(** ** Dropping a slot of the catalog *)

(** *** Catalog slots, byte by byte *)

Lemma buf_slice_prefix (b : list Byte.byte) s e1 e2 :
  0 <= s -> s <= e1 -> e1 <= e2 -> e2 <= buf_length b ->
  buf_slice b s e1 = take (Z.to_nat (e1 - s)) (buf_slice b s e2).
Proof.
  intros Hs H1 H2 Hb. apply list_eq. intros k.
  rewrite lookup_buf_slice by lia.
  destruct (Nat.ltb_spec k (Z.to_nat (e1 - s))) as [Hk|Hk].
  - rewrite lookup_take_lt by lia. rewrite lookup_buf_slice by lia.
    destruct (Nat.ltb_spec k (Z.to_nat (e2 - s))); [reflexivity|lia].
  - symmetry. apply lookup_ge_None_2. rewrite length_take. lia.
Qed.

Lemma byte_at_buf_slice (b : list Byte.byte) s e t :
  0 <= s -> 0 <= t -> s + t < e -> e <= buf_length b ->
  byte_at (buf_slice b s e) t = byte_at b (s + t).
Proof.
  intros Hs Ht Hlt Hb. rewrite !byte_at_lookup. rewrite lookup_buf_slice by lia.
  destruct (Nat.ltb_spec (Z.to_nat t) (Z.to_nat (e - s))); [|lia].
  replace (Z.to_nat (s + t)) with (Z.to_nat s + Z.to_nat t)%nat by lia. reflexivity.
Qed.

Lemma slot_name_of_bytes b j :
  0 <= j -> 12 + 40 * j + 40 <= buf_length b ->
  slot_name b j = strip_nul (str (map ascii_of_byte (take 32 (slot_bytes b j)))).
Proof.
  intros Hj Hb. unfold slot_name, buf_toString, slot_bytes.
  rewrite (buf_slice_prefix b (12 + 40 * j) (12 + 40 * j + 32) (12 + 40 * j + 40)) by lia.
  replace (Z.to_nat (12 + 40 * j + 32 - (12 + 40 * j))) with 32%nat by lia. reflexivity.
Qed.

Lemma u32_at_of_bytes b j t :
  0 <= j -> 12 + 40 * j + 40 <= buf_length b -> 0 <= t -> t + 4 <= 40 ->
  u32_at b (12 + 40 * j + t) = u32_at (slot_bytes b j) t.
Proof.
  intros Hj Hb Ht Ht4. unfold u32_at, slot_bytes.
  rewrite !byte_at_buf_slice by lia.
  replace (12 + 40 * j + (t + 1)) with (12 + 40 * j + t + 1) by lia.
  replace (12 + 40 * j + (t + 2)) with (12 + 40 * j + t + 2) by lia.
  replace (12 + 40 * j + (t + 3)) with (12 + 40 * j + t + 3) by lia.
  reflexivity.
Qed.

(** A slot is its 40 bytes. *)
Lemma slot_of_bytes a b i j :
  0 <= i -> 12 + 40 * i + 40 <= buf_length a ->
  0 <= j -> 12 + 40 * j + 40 <= buf_length b ->
  slot_bytes a i = slot_bytes b j ->
  slot_name a i = slot_name b j
  /\ slot_startPage a i = slot_startPage b j
  /\ slot_lastPage a i = slot_lastPage b j.
Proof.
  intros Hi Ha Hj Hb E. unfold slot_startPage, slot_lastPage.
  rewrite !slot_name_of_bytes, !u32_at_of_bytes by lia. rewrite E. auto.
Qed.

Lemma u32_at_blit_outside (b d : list Byte.byte) off i :
  0 <= off -> 0 <= i -> (i + 4 <= off \/ off + Z.of_nat (length d) <= i) ->
  u32_at (blit b off d) i = u32_at b i.
Proof.
  intros H0 Hi Hout. unfold u32_at. rewrite !byte_at_blit_outside by lia. reflexivity.
Qed.

Lemma u32_at_blit_u32 b off v :
  0 <= off -> off + 4 <= buf_length b -> 0 <= v <= 4294967295 ->
  u32_at (blit b off (u32_bytes v)) off = v.
Proof.
  intros H0 Hb Hv. pose proof (readUInt32LE_blit_u32 b off v H0 Hb Hv) as H.
  apply readUInt32LE_Ok_u32_at in H. symmetry. exact H.
Qed.

Lemma buf_fill0_in_range b s e :
  0 <= s -> s <= e -> e <= buf_length b ->
  buf_fill0 b s e = blit b s (repeat Byte.x00 (Z.to_nat (e - s))).
Proof.
  intros Hs Hse He. unfold buf_fill0.
  replace (Z.max 0 (Z.min s (buf_length b))) with s by lia.
  replace (Z.max s (Z.min e (buf_length b))) with e by lia. reflexivity.
Qed.

(** What [_dropTable] leaves on page 0. *)
Lemma drop_slot_spec (p0 : buffer) (n k : Z) (e : table_entry) :
  buf_length p0 = PAGE_SIZE -> 12 + 40 * n <= PAGE_SIZE -> 0 <= k < n ->
  entry_index e = k -> entry_offset e = 12 + 40 * k ->
  exists p0',
    drop_slot p0 n e = Ok p0'
    /\ buf_length p0' = PAGE_SIZE
    /\ u32_at p0' 8 = n - 1
    /\ u32_at p0' 4 = u32_at p0 4
    /\ forall j, 0 <= j < n - 1 ->
         slot_bytes p0' j = slot_bytes p0 (if Z.eqb j k then n - 1 else j).
Proof.
  intros Hlen Hn Hk Hidx Hoff. unfold PAGE_SIZE in *.
  unfold drop_slot. rewrite Hidx, Hoff.
  set (L := 12 + (n - 1) * 40).
  set (p1 := if (1 <? n) && (k <? n - 1)
             then buf_copy (buf_slice p0 L (L + 40)) p0 (12 + 40 * k) else p0).
  assert (Hlen1 : buf_length p1 = 4096).
  { subst p1. destruct (_ && _); [unfold buf_copy; rewrite buf_length_blit|]; exact Hlen. }
  unfold buf_fill0_checked.
  replace ((L <? 0) || (L + 40 <? 0) || (buf_length p1 <? L + 40)) with false
    by (symmetry; rewrite !orb_false_iff; repeat split; apply Z.ltb_ge; subst L; lia).
  cbn [obind]. rewrite buf_fill0_in_range by (subst L; lia).
  replace (Z.to_nat (L + 40 - L)) with 40%nat by lia.
  set (p2 := blit p1 L (repeat Byte.x00 40)).
  assert (Hlen2 : buf_length p2 = 4096) by (subst p2; rewrite buf_length_blit; exact Hlen1).
  rewrite writeUInt32LE_Ok by lia.
  eexists. split; [reflexivity|]. split; [rewrite buf_length_blit; exact Hlen2|].
  split; [apply u32_at_blit_u32; lia|]. split.
  - rewrite u32_at_blit_outside by (cbn [length u32_bytes]; lia).
    subst p2. rewrite u32_at_blit_outside by (rewrite ?repeat_length; subst L; lia).
    subst p1. destruct (_ && _); [|reflexivity].
    unfold buf_copy. apply u32_at_blit_outside; lia.
  - intros j Hj. unfold slot_bytes.
    rewrite buf_slice_blit_outside by (cbn [length u32_bytes]; lia).
    subst p2. rewrite buf_slice_blit_outside by (rewrite ?repeat_length; subst L; lia).
    subst p1. destruct (Z.eqb_spec j k) as [->|Hne].
    + replace ((1 <? n) && (k <? n - 1)) with true
        by (symmetry; apply andb_true_iff; split; apply Z.ltb_lt; lia).
      unfold buf_copy.
      assert (Hl : length (buf_slice p0 L (L + 40)) = 40%nat).
      { rewrite length_buf_slice by (subst L; lia). lia. }
      pose proof (buf_slice_blit p0 (12 + 40 * k) (buf_slice p0 L (L + 40))) as H.
      rewrite Hl in H. change (Z.of_nat 40) with 40 in H. rewrite H by lia.
      subst L. f_equal; lia.
    + destruct (_ && _); [|reflexivity].
      unfold buf_copy. apply buf_slice_blit_outside; try lia.
      rewrite length_buf_slice by (subst L; lia). lia.
Qed.

(** ** DROP TABLE *)

Lemma try_catch_Ok {A} (m : M A) (h : string -> M A) s a s' :
  try_catch m h s = (Ok a, s') ->
  m s = (Ok a, s') \/ exists e s1, m s = (Throw e, s1) /\ h e s1 = (Ok a, s').
Proof.
  unfold try_catch. destruct (m s) as [[x|e|w] s1]; intros H.
  - left. exact H.
  - right. exists e, s1. split; [reflexivity|exact H].
  - discriminate H.
Qed.

Lemma strip_prefix_app (p x : list ascii) : strip_prefix p (p ++ x) = Some x.
Proof.
  induction p as [|c p IH]; [destruct x; reflexivity|].
  cbn [strip_prefix app]. rewrite Ascii.eqb_refl. exact IH.
Qed.

Lemma chars_append a b : chars (a ++ b)%string = chars a ++ chars b.
Proof.
  unfold chars. induction a as [|c a IH]; [reflexivity|]. simpl. rewrite IH. reflexivity.
Qed.

Lemma string_append_assoc (a b c : string) : ((a ++ b) ++ c = a ++ (b ++ c))%string.
Proof.
  induction a as [|x a IH]; [reflexivity|].
  change (String x ((a ++ b) ++ c) = String x (a ++ (b ++ c)))%string. rewrite IH. reflexivity.
Qed.

Lemma starts_with_append p x : starts_with p (p ++ x)%string = true.
Proof. unfold starts_with. rewrite chars_append, strip_prefix_app. reflexivity. Qed.

Lemma assoc_filter_out {V} (p : string * V -> bool) key (l : list (string * V)) :
  (forall v, In (key, v) l -> p (key, v) = false) -> assoc key (filter p l) = None.
Proof.
  induction l as [|[k v] l IH]; intros Hp; [reflexivity|].
  rewrite filter_cons. destruct (decide (p (k, v))) as [Hd|Hd].
  - cbn [assoc]. destruct (String.eqb_spec key k) as [->|].
    + rewrite (Hp v) in Hd by (left; reflexivity). destruct Hd.
    + apply IH. intros v' Hin. apply Hp. right. exact Hin.
  - apply IH. intros v' Hin. apply Hp. right. exact Hin.
Qed.

Lemma In_keys {V} key (v : V) (l : list (string * V)) : In (key, v) l -> In key (keys l).
Proof. intros H. unfold keys. apply in_map_iff. exists (key, v). split; [reflexivity|exact H]. Qed.

(** What a [_dropTable] that returns has done to a catalog without
    repeated names. *)
Lemma dropTable_effect
    (fuel : nat) (name : string) (s s' : db) (msg : string) (e : table_entry) :
  catalog_ok s ->
  catalog_distinct s ->
  name <> "_indexes" ->
  fst (_findTableEntry name s) = Ok (Some e) ->
  _dropTable fuel name s = (Ok msg, s') ->
  msg = dropped_message name
  /\ catalog_ok s'
  /\ numTables s' = numTables s - 1
  /\ totalPages s' = totalPages s
  /\ fst (_findTableEntry name s') = Ok None
  /\ (forall other e1, other <> name ->
        fst (_findTableEntry other s) = Ok (Some e1) ->
        exists e2, fst (_findTableEntry other s') = Ok (Some e2)
                   /\ startPage e2 = startPage e1 /\ lastPage e2 = lastPage e1)
  /\ (forall other, fst (_findTableEntry other s) = Ok None ->
        fst (_findTableEntry other s') = Ok None)
  /\ (forall field, has_index (indexes s') (name ++ "." ++ field) = false)
  /\ last (events s') = Some (OnTableDropped name e (queryString s)).
Proof.
  intros Hok Hdist Hsys Hfind H.
  destruct (numTables_read s Hok) as [Hr Hpos].
  pose proof Hok as [Hlen Hn].
  (* the slot of the table *)
  destruct (findTableEntry_spec s name Hok) as [(k & Hk & Hname & _ & Hf)|(_ & Hf)];
    rewrite Hf in Hfind; cbn [fst] in Hfind; [|discriminate].
  injection Hfind as <-.
  (* the run of [_dropTable] *)
  unfold _dropTable in H.
  replace (String.eqb name "_indexes") with false in H
    by (symmetry; apply String.eqb_neq, Hsys).
  apply bind_Ok in H. destruct H as (entry & s0 & He & H). rewrite Hf in He.
  injection He as <- <-.
  apply bind_Ok in H. destruct H as (ixs & s1 & Hg & H).
  unfold gets in Hg. injection Hg as <- <-.
  apply bind_Ok in H. destruct H as ([] & sa & Hset & H).
  unfold set_indexes, modify in Hset. injection Hset as <-.
  set (sa := mkDb (file s) (objectCache s) _ (events s) (queryString s)) in H.
  apply bind_Ok in H. destruct H as ([] & sb & Htry & H).
  assert (Hpre : page0 sb = page0 s /\ queryString sb = queryString s /\ indexes sb = indexes sa).
  { pose proof (preserves_try_catch page0 _ (fun _ : string => ret tt)
                  (preserves_bind page0 _ (fun _ => ret tt)
                     (stable_delete page0 fuel "_indexes"
                        (Some (Compound "AND" [Leaf "table" "=" (APrim (JStr name))])) false
                        stable_page0)
                     (fun _ => preserves_ret page0 tt))
                  (fun _ => preserves_ret page0 tt) sa) as H1.
    pose proof (preserves_try_catch queryString _ (fun _ : string => ret tt)
                  (preserves_bind queryString _ (fun _ => ret tt)
                     (stable_delete queryString fuel "_indexes"
                        (Some (Compound "AND" [Leaf "table" "=" (APrim (JStr name))])) false
                        stable_queryString)
                     (fun _ => preserves_ret queryString tt))
                  (fun _ => preserves_ret queryString tt) sa) as H2.
    pose proof (preserves_try_catch indexes _ (fun _ : string => ret tt)
                  (preserves_bind indexes _ (fun _ => ret tt)
                     (indexes_delete_system fuel
                        (Some (Compound "AND" [Leaf "table" "=" (APrim (JStr name))])) false)
                     (fun _ => preserves_ret indexes tt))
                  (fun _ => preserves_ret indexes tt) sa) as H3.
    rewrite Htry in H1, H2, H3. cbn [snd] in H1, H2, H3. auto. }
  destruct Hpre as (Hp0 & Hq & Hix).
  apply bind_Ok in H. destruct H as (p0 & s2 & Hrd & H).
  rewrite readPage0 in Hrd. injection Hrd as <- <-. rewrite Hp0 in H.
  apply bind_Ok in H. destruct H as (n & s3 & Hnum & H).
  unfold lift in Hnum. rewrite Hr in Hnum. injection Hnum as <- <-.
  apply bind_Ok in H. destruct H as (p0' & s4 & Hdrop & H).
  unfold lift in Hdrop.
  destruct (drop_slot_spec (page0 s) (numTables s) k (slot_entry (page0 s) k))
    as (p0'' & Hd & Hlen' & Hn' & Ht' & Hslots); try reflexivity; try assumption.
  rewrite Hd in Hdrop. injection Hdrop as <- <-.
  apply bind_Ok in H. destruct H as ([] & s5 & Hw & H).
  unfold writePage in Hw. rewrite Hlen' in Hw.
  change (negb (PAGE_SIZE =? PAGE_SIZE)) with false in Hw. change (0 <? 0) with false in Hw.
  cbv iota in Hw. unfold modify in Hw. injection Hw as <-.
  apply bind_Ok in H. destruct H as (q & s6 & Hgq & H).
  unfold gets in Hgq. injection Hgq as <- <-.
  apply bind_Ok in H. destruct H as ([] & s7 & Hem & H).
  unfold emit, modify in Hem. injection Hem as <-.
  unfold ret in H. injection H as <- <-.
  cbn [file objectCache indexes events queryString].
  (* the state reached *)
  match goal with |- context [fst (_findTableEntry name ?st)] => set (s' := st) end.
  assert (Hp0' : page0 s' = p0'').
  { unfold page0, s'. cbn [file]. rewrite lookup_insert. reflexivity. }
  assert (Hnt : numTables s' = numTables s - 1) by (unfold numTables; rewrite Hp0'; exact Hn').
  assert (Hok' : catalog_ok s').
  { split; [rewrite Hp0'; exact Hlen'|rewrite Hnt; lia]. }
  (* slots after, in terms of slots before *)
  assert (Hslot : forall j, 0 <= j < numTables s - 1 ->
            slot_name (page0 s') j = slot_name (page0 s) (moved_from (numTables s) k j)
            /\ slot_startPage (page0 s') j = slot_startPage (page0 s) (moved_from (numTables s) k j)
            /\ slot_lastPage (page0 s') j = slot_lastPage (page0 s) (moved_from (numTables s) k j)).
  { intros j Hj. rewrite Hp0'. unfold PAGE_SIZE in *.
    apply slot_of_bytes; try lia.
    - unfold moved_from. destruct (j =? k); lia.
    - unfold moved_from. destruct (j =? k); lia.
    - apply Hslots, Hj. }
  assert (Hmoved : forall j, 0 <= j < numTables s - 1 ->
            0 <= moved_from (numTables s) k j < numTables s /\ moved_from (numTables s) k j <> k).
  { intros j Hj. unfold moved_from. destruct (Z.eqb_spec j k); lia. }
  split; [reflexivity|]. split; [exact Hok'|]. split; [exact Hnt|].
  split; [unfold totalPages; rewrite Hp0'; exact Ht'|].
  split.
  { destruct (findTableEntry_spec s' name Hok') as [(k' & Hk' & Hn'' & _ & _)|(_ & Hf')];
      [|rewrite Hf'; reflexivity].
    exfalso. rewrite Hnt in Hk'. destruct (Hslot k' Hk') as (E & _). destruct (Hmoved k' Hk') as (Hr' & Hne).
    apply Hne. apply Hdist; [exact Hr'|exact Hk|]. rewrite <- E, Hn'', Hname. reflexivity. }
  split.
  { intros other e1 Hother He1.
    destruct (findTableEntry_spec s other Hok) as [(m & Hm & Hmn & _ & Hfm)|(_ & Hfm)];
      rewrite Hfm in He1; cbn [fst] in He1; [|discriminate].
    injection He1 as <-.
    assert (Hmk : m <> k) by (intros ->; apply Hother; rewrite <- Hmn, Hname; reflexivity).
    destruct (findTableEntry_spec s' other Hok') as [(k' & Hk' & Hn'' & _ & Hf')|(Hb & _)].
    - rewrite Hf'. eexists. split; [reflexivity|]. cbn [startPage lastPage slot_entry].
      rewrite Hnt in Hk'. destruct (Hslot k' Hk') as (E & Es & El). destruct (Hmoved k' Hk') as (Hr' & _).
      assert (moved_from (numTables s) k k' = m).
      { apply Hdist; [exact Hr'|exact Hm|]. rewrite <- E, Hn'', Hmn. reflexivity. }
      rewrite Es, El, H. split; reflexivity.
    - exfalso. rewrite Hnt in Hb.
      destruct (Z.eq_dec m (numTables s - 1)) as [Hlast|Hnl].
      + apply (Hb k); [lia|]. destruct (Hslot k ltac:(lia)) as (E & _). rewrite E.
        unfold moved_from. rewrite Z.eqb_refl. rewrite <- Hlast. exact Hmn.
      + apply (Hb m); [lia|]. destruct (Hslot m ltac:(lia)) as (E & _). rewrite E.
        unfold moved_from. replace (m =? k) with false by (symmetry; apply Z.eqb_neq, Hmk).
        exact Hmn. }
  split.
  { intros other Hnone.
    destruct (findTableEntry_spec s other Hok) as [(m & _ & _ & _ & Hfm)|(Hb & _)];
      [rewrite Hfm in Hnone; discriminate|].
    destruct (findTableEntry_spec s' other Hok') as [(k' & Hk' & Hn'' & _ & _)|(_ & Hf')];
      [|rewrite Hf'; reflexivity].
    exfalso. rewrite Hnt in Hk'. destruct (Hslot k' Hk') as (E & _). destruct (Hmoved k' Hk') as (Hr' & _).
    apply (Hb _ Hr'). rewrite <- E. exact Hn''. }
  split.
  { intros field. unfold has_index. rewrite Hix. unfold sa. cbn [indexes].
    rewrite assoc_filter_out; [reflexivity|].
    intros v Hin. cbn [fst]. apply negb_false_iff. apply mem_string_true.
    apply list_elem_of_In. apply list_elem_of_filter. split.
    - replace (name ++ "." ++ field)%string with ((name ++ ".") ++ field)%string
        by apply string_append_assoc.
      rewrite starts_with_append. exact I.
    - apply list_elem_of_In. apply (In_keys _ v). exact Hin. }
  rewrite last_snoc. rewrite Hq. reflexivity.
Qed.

(** ** The first engine: creating a table *)

Lemma allocPage_new_page :
  (newPage <-? writeUInt32LE (Buffer_alloc PAGE_SIZE) 0 0 ;;
   newPage <-? writeUInt16LE newPage 0 4 ;;
   writeUInt16LE newPage 8 6) = Ok empty_heap_page.
Proof. vm_compute. reflexivity. Qed.

(** [allocPage] on a whole page 0: the page count goes up by one and the
    page of that number is written as an empty heap page. *)
Lemma allocPage_spec (s : db) :
  buf_length (page0 s) = PAGE_SIZE ->
  totalPages s + 1 <= 4294967295 ->
  allocPage s
  = (Ok (totalPages s),
     mkDb (<[totalPages s := empty_heap_page]>
             (<[0 := blit (page0 s) 4 (u32_bytes (totalPages s + 1))]> (file s)))
          (delete (totalPages s) (delete 0 (objectCache s)))
          (indexes s) (events s) (queryString s)).
Proof.
  intros Hlen Hmax. unfold PAGE_SIZE in Hlen.
  assert (Hr : readUInt32LE (page0 s) 4 = Ok (totalPages s))
    by (apply readUInt32LE_u32_at; lia).
  destruct (readUInt32LE_range _ _ _ Hr) as (Hpos & _).
  unfold allocPage, bind. rewrite readPage0. unfold lift at 1. rewrite Hr.
  unfold lift at 1. rewrite writeUInt32LE_Ok by lia.
  unfold writePage at 1. rewrite buf_length_blit, Hlen.
  change (negb (4096 =? PAGE_SIZE)) with false. change (0 <? 0) with false. cbv iota.
  unfold modify at 1. cbv beta iota.
  pose proof allocPage_new_page as Hnew. unfold obind in Hnew.
  unfold lift.
  destruct (writeUInt32LE (Buffer_alloc PAGE_SIZE) 0 0) as [b1| |]; try discriminate.
  destruct (writeUInt16LE b1 0 4) as [b2| |]; try discriminate.
  destruct (writeUInt16LE b2 8 6) as [b3| |]; try discriminate.
  injection Hnew as ->.
  unfold writePage.
  change (negb (buf_length empty_heap_page =? PAGE_SIZE)) with false.
  replace (totalPages s <? 0) with false by (symmetry; apply Z.ltb_ge; lia).
  cbv iota. unfold modify, ret. reflexivity.
Qed.

Lemma length_Buffer_from_chars name : length (Buffer_from name) = String.length name.
Proof.
  unfold Buffer_from, chars. rewrite length_map.
  induction name as [|c name IH]; [reflexivity|]. cbn. rewrite IH. reflexivity.
Qed.

Lemma storable_name_spec name :
  storable_name name = true ->
  (length (Buffer_from name) <= 32)%nat
  /\ Forall (fun c => code c <> 0) (chars name).
Proof.
  unfold storable_name. intros H. apply andb_true_iff in H. destruct H as [H1 H2].
  apply Z.leb_le in H1. split; [rewrite length_Buffer_from_chars; lia|].
  apply Forall_forall. intros c Hc. rewrite forallb_forall in H2.
  apply list_elem_of_In in Hc. specialize (H2 c Hc). apply andb_true_iff in H2. destruct H2 as [_ H2].
  apply negb_true_iff in H2. apply Z.eqb_neq in H2. exact H2.
Qed.

Lemma storable_name_ascii name :
  storable_name name = true -> is_ascii_text name = true.
Proof.
  unfold storable_name, is_ascii_text. intros H. apply andb_true_iff in H. destruct H as [_ H].
  rewrite forallb_forall in H. apply forallb_forall. intros c Hc.
  specialize (H c Hc). apply andb_true_iff in H. destruct H as [H _]. exact H.
Qed.

Lemma strip_nul_padded (l : list ascii) k :
  Forall (fun c => code c <> 0) l ->
  filter (fun c => negb (code c =? 0)) (l ++ repeat (ascii_of_byte Byte.x00) k) = l.
Proof.
  intros H. rewrite filter_app.
  assert (H1 : filter (fun c => negb (code c =? 0)) l = l).
  { induction H as [|c l Hc Hl IH]; [reflexivity|].
    rewrite filter_cons. destruct (decide _) as [Hd|Hd].
    - rewrite IH. reflexivity.
    - exfalso. apply Hd. apply Is_true_true. apply negb_true_iff. apply Z.eqb_neq. exact Hc. }
  assert (H2 : filter (fun c => negb (code c =? 0)) (repeat (ascii_of_byte Byte.x00) k) = []).
  { induction k as [|k IH]; [reflexivity|]. cbn [repeat]. rewrite filter_cons.
    destruct (decide _) as [Hd|Hd]; [|exact IH]. exfalso. vm_compute in Hd. exact Hd. }
  rewrite H1, H2. apply app_nil_r.
Qed.

Lemma drop_repeat {A} (x : A) n m : drop n (repeat x m) = repeat x (m - n).
Proof.
  revert m. induction n as [|n IH]; intros m; [rewrite Nat.sub_0_r; reflexivity|].
  destruct m as [|m]; [reflexivity|]. cbn [repeat drop Nat.sub]. apply IH.
Qed.

(** The 32 bytes [_createTable] stores for a name read back as the name. *)
Lemma name_slot_reads_back name :
  storable_name name = true ->
  length (buf_write (Buffer_alloc 32) name 0 32) = 32%nat
  /\ strip_nul (str (map ascii_of_byte (buf_write (Buffer_alloc 32) name 0 32))) = name.
Proof.
  intros Hs. destruct (storable_name_spec name Hs) as [Hlen Hnul].
  unfold buf_write. split; [rewrite length_blit; reflexivity|].
  rewrite take_ge by (change (Z.to_nat 32) with 32%nat; lia).
  assert (Hb : blit (Buffer_alloc 32) 0 (Buffer_from name)
               = Buffer_from name ++ repeat Byte.x00 (32 - length (Buffer_from name))).
  { rewrite blit_fits by (unfold buf_length, Buffer_alloc; rewrite ?repeat_length; lia).
    change (take (Z.to_nat 0) (Buffer_alloc 32)) with (@nil Byte.byte). cbn [app].
    unfold Buffer_alloc. change (Z.to_nat 32) with 32%nat. change (Z.to_nat 0) with 0%nat.
    f_equal. rewrite Nat.add_0_l. apply drop_repeat. }
  rewrite Hb. rewrite map_app. unfold Buffer_from at 1. rewrite map_map.
  rewrite (map_ext _ id) by (intros c; apply ascii_of_byte_of_ascii). rewrite map_id.
  rewrite map_repeat. unfold strip_nul. rewrite chars_str.
  rewrite strip_nul_padded by exact Hnul. apply str_chars.
Qed.

Lemma append_inv_head (a b c : string) : (a ++ b = a ++ c)%string -> b = c.
Proof. induction a as [|x a IH]; [auto|]. intros H. injection H as H. apply IH, H. Qed.

(** What [_createTable] leaves on page 0, from the copy of the page it
    read before [allocPage] ran. *)
Lemma create_slot_spec (p0 : buffer) (n T : Z) (name : string) :
  buf_length p0 = PAGE_SIZE -> 0 <= n -> 12 + 40 * n + 40 <= PAGE_SIZE ->
  0 <= T <= 4294967295 -> storable_name name = true ->
  exists p0',
    (p1 <-? writeUInt32LE (buf_copy (buf_write (Buffer_alloc 32) name 0 32) p0 (12 + n * 40))
                          T (12 + n * 40 + 32) ;;
     p2 <-? writeUInt32LE p1 T (12 + n * 40 + 36) ;;
     writeUInt32LE p2 (n + 1) 8) = Ok p0'
    /\ buf_length p0' = PAGE_SIZE
    /\ u32_at p0' 8 = n + 1
    /\ u32_at p0' 4 = u32_at p0 4
    /\ slot_name p0' n = name
    /\ slot_startPage p0' n = T
    /\ slot_lastPage p0' n = T
    /\ forall j, 0 <= j < n -> slot_bytes p0' j = slot_bytes p0 j.
Proof.
  intros Hlen Hn Hfit HT Hs. unfold PAGE_SIZE in *.
  destruct (name_slot_reads_back name Hs) as [Hl32 Hback].
  set (nameBuf := buf_write (Buffer_alloc 32) name 0 32) in *.
  replace (12 + n * 40) with (12 + 40 * n) by lia.
  set (off := 12 + 40 * n).
  unfold buf_copy.
  set (p1 := blit p0 off nameBuf).
  assert (H1 : buf_length p1 = 4096) by (subst p1; rewrite buf_length_blit; exact Hlen).
  rewrite writeUInt32LE_Ok by (subst off; lia). cbn [obind].
  set (p2 := blit p1 (off + 32) (u32_bytes T)).
  assert (H2 : buf_length p2 = 4096) by (subst p2; rewrite buf_length_blit; exact H1).
  rewrite writeUInt32LE_Ok by (subst off; lia). cbn [obind].
  set (p3 := blit p2 (off + 36) (u32_bytes T)).
  assert (H3 : buf_length p3 = 4096) by (subst p3; rewrite buf_length_blit; exact H2).
  rewrite writeUInt32LE_Ok by (subst off; lia).
  eexists. split; [reflexivity|].
  split; [rewrite buf_length_blit; exact H3|].
  split; [apply u32_at_blit_u32; lia|].
  split.
  { rewrite u32_at_blit_outside by (cbn [length u32_bytes]; lia).
    subst p3. rewrite u32_at_blit_outside by (cbn [length u32_bytes]; subst off; lia).
    subst p2. rewrite u32_at_blit_outside by (cbn [length u32_bytes]; subst off; lia).
    subst p1. apply u32_at_blit_outside; subst off; lia. }
  split.
  { unfold slot_name, buf_toString. fold off.
    rewrite buf_slice_blit_outside by (cbn [length u32_bytes]; subst off; lia).
    subst p3. rewrite buf_slice_blit_outside by (cbn [length u32_bytes]; subst off; lia).
    subst p2. rewrite buf_slice_blit_outside by (cbn [length u32_bytes]; subst off; lia).
    subst p1. pose proof (buf_slice_blit p0 off nameBuf) as H. rewrite Hl32 in H.
    change (Z.of_nat 32) with 32 in H. rewrite H by (subst off; lia). exact Hback. }
  split.
  { unfold slot_startPage. fold off.
    rewrite u32_at_blit_outside by (cbn [length u32_bytes]; subst off; lia).
    subst p3. rewrite u32_at_blit_outside by (cbn [length u32_bytes]; subst off; lia).
    subst p2. apply u32_at_blit_u32; subst off; lia. }
  split.
  { unfold slot_lastPage. fold off.
    rewrite u32_at_blit_outside by (cbn [length u32_bytes]; subst off; lia).
    subst p3. apply u32_at_blit_u32; subst off; lia. }
  intros j Hj. unfold slot_bytes.
  rewrite buf_slice_blit_outside by (cbn [length u32_bytes]; subst off; lia).
  subst p3. rewrite buf_slice_blit_outside by (cbn [length u32_bytes]; subst off; lia).
  subst p2. rewrite buf_slice_blit_outside by (cbn [length u32_bytes]; subst off; lia).
  subst p1. apply buf_slice_blit_outside; subst off; lia.
Qed.

Lemma findTableEntry_page0 name s s' :
  page0 s = page0 s' -> fst (_findTableEntry name s') = fst (_findTableEntry name s).
Proof.
  intros H. unfold _findTableEntry, bind. rewrite !readPage0, H. unfold lift.
  destruct (readUInt32LE (page0 s') 8); reflexivity.
Qed.

Lemma findTableEntry_eq name s r :
  fst (_findTableEntry name s) = r -> _findTableEntry name s = (r, s).
Proof.
  intros H. pose proof (findTableEntry_state name s) as Hs.
  destruct (_findTableEntry name s) as [r' s']. cbn [fst snd] in *. subst. reflexivity.
Qed.

Lemma totalPages_range s :
  buf_length (page0 s) = PAGE_SIZE -> 0 <= totalPages s <= 4294967295.
Proof.
  intros Hlen. unfold PAGE_SIZE in Hlen.
  destruct (readUInt32LE_range (page0 s) 4 (totalPages s)) as (H & _); [|exact H].
  apply readUInt32LE_u32_at; lia.
Qed.

Lemma createTable_spec
    (name : string) (s s' : db) (msg : string) :
  catalog_ok s ->
  storable_name name = true ->
  fst (_findTableEntry name s) = Ok None ->
  Wowo._createTable name s = (Ok msg, s') ->
  msg = Wowo.opened_message name
  /\ catalog_ok s'
  /\ numTables s' = numTables s + 1
  /\ totalPages s' = totalPages s
  /\ fst (_findTableEntry name s')
     = Ok (Some (mkEntry (numTables s) (12 + 40 * numTables s) (totalPages s) (totalPages s)))
  /\ (forall other, other <> name ->
        fst (_findTableEntry other s') = fst (_findTableEntry other s))
  /\ (totalPages s <> 0 -> file s' !! totalPages s = Some empty_heap_page).
Proof.
  intros Hok Hs Hfind H.
  destruct (numTables_read s Hok) as [Hr Hpos]. pose proof Hok as [Hlen Hn].
  pose proof (totalPages_range s Hlen) as HT.
  destruct (storable_name_spec name Hs) as [Hl _]. rewrite length_Buffer_from_chars in Hl.
  destruct (findTableEntry_spec s name Hok) as [(k & _ & _ & _ & Hf)|(Hnone & Hf)];
    rewrite Hf in Hfind; cbn [fst] in Hfind; [discriminate|]. clear Hfind.
  unfold Wowo._createTable in H. rewrite (storable_name_ascii name Hs) in H.
  cbn [negb] in H.
  replace (32 <? Z.of_nat (String.length name)) with false in H
    by (symmetry; apply Z.ltb_ge; lia).
  apply bind_Ok in H. destruct H as (entry & s0 & He & H). rewrite Hf in He.
  injection He as <- <-.
  apply bind_Ok in H. destruct H as (p0 & s1 & Hrd & H).
  rewrite readPage0 in Hrd. injection Hrd as <- <-.
  apply bind_Ok in H. destruct H as (n & s2 & Hnum & H).
  unfold lift in Hnum. rewrite Hr in Hnum. injection Hnum as <- <-.
  destruct (PAGE_SIZE <? 12 + numTables s * 40 + 40) eqn:Efull; [discriminate H|].
  apply Z.ltb_ge in Efull.
  apply bind_Ok in H. destruct H as (newPageId & sa & Halloc & H).
  assert (Hmax : totalPages s + 1 <= 4294967295).
  { destruct (Z_le_gt_dec (totalPages s + 1) 4294967295) as [Hle|Hgt]; [exact Hle|].
    exfalso. unfold allocPage, bind in Halloc. rewrite readPage0 in Halloc.
    unfold lift at 1 in Halloc.
    rewrite readUInt32LE_u32_at in Halloc by (rewrite ?Hlen; unfold PAGE_SIZE; lia).
    fold (totalPages s) in Halloc. unfold lift at 1, writeUInt32LE in Halloc.
    replace ((totalPages s + 1 <? 0) || (4294967295 <? totalPages s + 1)) with true in Halloc
      by (symmetry; apply orb_true_iff; right; apply Z.ltb_lt; lia).
    discriminate Halloc. }
  rewrite (allocPage_spec s Hlen Hmax) in Halloc. injection Halloc as <- <-.
  destruct (create_slot_spec (page0 s) (numTables s) (totalPages s) name Hlen Hpos ltac:(lia) HT Hs)
    as (p0' & Hw & Hlen' & Hn' & Ht' & Hname & Hsp & Hlp & Hslots).
  unfold obind in Hw.
  apply bind_Ok in H. destruct H as (p1 & s3 & H1 & H). unfold lift in H1.
  destruct (writeUInt32LE (buf_copy _ _ _) _ _) as [q1| |] eqn:E1; try discriminate.
  injection H1 as <- <-.
  apply bind_Ok in H. destruct H as (p2 & s4 & H2 & H). unfold lift in H2.
  destruct (writeUInt32LE q1 _ _) as [q2| |] eqn:E2; try discriminate.
  injection H2 as <- <-.
  apply bind_Ok in H. destruct H as (p3 & s5 & H3 & H). unfold lift in H3.
  rewrite Hw in H3. injection H3 as <- <-.
  apply bind_Ok in H. destruct H as ([] & s6 & Hwp & H).
  unfold writePage in Hwp. rewrite Hlen' in Hwp.
  change (negb (PAGE_SIZE =? PAGE_SIZE)) with false in Hwp. change (0 <? 0) with false in Hwp.
  cbv iota in Hwp. unfold modify in Hwp. injection Hwp as <-.
  unfold ret in H. injection H as <- <-.
  cbn [file objectCache indexes events queryString].
  match goal with |- context [fst (_findTableEntry name ?st)] => set (s' := st) end.
  assert (Hp0' : page0 s' = p0').
  { unfold page0, s'. cbn [file]. rewrite lookup_insert. reflexivity. }
  assert (Hnt : numTables s' = numTables s + 1) by (unfold numTables; rewrite Hp0'; exact Hn').
  assert (Hok' : catalog_ok s').
  { split; [rewrite Hp0'; exact Hlen'|rewrite Hnt; lia]. }
  assert (Hold : forall j, 0 <= j < numTables s ->
            slot_name (page0 s') j = slot_name (page0 s) j
            /\ slot_startPage (page0 s') j = slot_startPage (page0 s) j
            /\ slot_lastPage (page0 s') j = slot_lastPage (page0 s) j).
  { intros j Hj. rewrite Hp0'. unfold PAGE_SIZE in *. apply slot_of_bytes; try lia.
    apply Hslots, Hj. }
  split; [reflexivity|]. split; [exact Hok'|]. split; [exact Hnt|].
  split; [unfold totalPages; rewrite Hp0'; exact Ht'|].
  split.
  { destruct (findTableEntry_spec s' name Hok') as [(k & Hk & Hkn & Hb & Hf')|(Hb & _)].
    - rewrite Hf'. cbn [fst]. rewrite Hnt in Hk.
      assert (k = numTables s).
      { destruct (Z.eq_dec k (numTables s)) as [E|E]; [exact E|]. exfalso.
        destruct (Hold k ltac:(lia)) as (En & _). apply (Hnone k); [lia|].
        rewrite <- En. exact Hkn. }
      subst k. unfold slot_entry. rewrite Hp0', Hsp, Hlp. reflexivity.
    - exfalso. apply (Hb (numTables s)); [lia|]. rewrite Hp0'. exact Hname. }
  split.
  { intros other Hother.
    destruct (findTableEntry_spec s other Hok) as [(m & Hm & Hmn & Hmb & Hfm)|(Hmb & Hfm)];
      rewrite Hfm; cbn [fst].
    - destruct (findTableEntry_spec s' other Hok') as [(k & Hk & Hkn & Hb & Hf')|(Hb & _)].
      + rewrite Hf'. cbn [fst]. rewrite Hnt in Hk.
        assert (k = m).
        { destruct (Z.lt_trichotomy k m) as [Hlt|[E|Hgt]]; [|exact E|].
          - exfalso. destruct (Hold k ltac:(lia)) as (En & _). apply (Hmb k); [lia|].
            rewrite <- En. exact Hkn.
          - exfalso. destruct (Hold m Hm) as (En & _). apply (Hb m); [lia|].
            rewrite En. exact Hmn. }
        subst k. destruct (Hold m Hm) as (_ & Es & El). unfold slot_entry. rewrite Es, El.
        reflexivity.
      + exfalso. destruct (Hold m Hm) as (En & _). apply (Hb m); [lia|]. rewrite En. exact Hmn.
    - destruct (findTableEntry_spec s' other Hok') as [(k & Hk & Hkn & _ & _)|(_ & Hf')];
        [|rewrite Hf'; reflexivity].
      exfalso. rewrite Hnt in Hk.
      destruct (Z.eq_dec k (numTables s)) as [E|E].
      + subst k. rewrite Hp0', Hname in Hkn. apply Hother. symmetry. exact Hkn.
      + destruct (Hold k ltac:(lia)) as (En & _). apply (Hmb k); [lia|]. rewrite <- En. exact Hkn. }
  intros HT0. unfold s'. cbn [file].
  rewrite lookup_insert_ne by (intros E; apply HT0; symmetry; exact E).
  apply lookup_insert_eq.
Qed.

(** [_createTable] reads page 0, lets [allocPage] raise the page count
    on the file, and then writes its own copy of page 0 back: the new
    table is found from then on, on the page whose number the old count
    gave, and the count on the file is the old one again. *)
Theorem create_table_puts_back_the_old_page_count
    (name : string) (s s' : db) (msg : string) :
  catalog_ok s ->
  storable_name name = true ->
  fst (_findTableEntry name s) = Ok None ->
  Wowo._createTable name s = (Ok msg, s') ->
  msg = Wowo.opened_message name
  /\ numTables s' = numTables s + 1
  /\ totalPages s' = totalPages s
  /\ fst (_findTableEntry name s')
     = Ok (Some (mkEntry (numTables s) (12 + 40 * numTables s) (totalPages s) (totalPages s)))
  /\ (forall other, other <> name ->
        fst (_findTableEntry other s') = fst (_findTableEntry other s)).
Proof.
  intros Hok Hs Hfind H.
  destruct (createTable_spec name s s' msg Hok Hs Hfind H) as (H1 & _ & H2 & H3 & H4 & H5 & _).
  auto.
Qed.

Lemma create_table_witness_new_file :
  totalPages karet_db = totalPages Wowo.new_file
  /\ fst (_findTableEntry "karet" karet_db) = Ok (Some karet_entry).
Proof.
  destruct (create_table_puts_back_the_old_page_count "karet" Wowo.new_file karet_db
              (Wowo.opened_message "karet"))
    as (_ & _ & Ht & Hf & _).
  - split; vm_compute; [reflexivity | discriminate].
  - reflexivity.
  - vm_compute. reflexivity.
  - vm_compute. reflexivity.
  - split; [exact Ht | exact Hf].
Defined.

Lemma select_empty_page fuel c s p :
  p <> 0 -> 0 <= p -> file s !! p = Some empty_heap_page ->
  Wowo.select_pages (S fuel) c p [] s = (Ok [], s).
Proof.
  intros Hp Hpos Hfile. cbn [Wowo.select_pages].
  replace (p =? 0) with false by (symmetry; apply Z.eqb_neq, Hp).
  unfold bind, readPage. replace (p <? 0) with false by (symmetry; apply Z.ltb_ge, Hpos).
  unfold gets. rewrite Hfile. unfold lift.
  change (readUInt16LE empty_heap_page 4) with (@Ok Z 0).
  change (Z.to_nat 0) with 0%nat. cbn [Wowo.select_slots].
  change (readUInt32LE empty_heap_page 0) with (@Ok Z 0).
  destruct fuel; reflexivity.
Qed.

(** A table created after another one gets the same first page, if
    page 0 is still as the first creation left it (as it is after
    inserts that fit into that page), and the second creation writes
    that page anew: whatever the first table held by then, a scan of
    either table finds nothing. *)
Theorem tables_created_in_a_row_share_their_page
    (fuel : nat) (a b : string) (s s1 s1' s2 : db) (m1 m2 : string) :
  catalog_ok s ->
  totalPages s <> 0 ->
  storable_name a = true -> storable_name b = true -> a <> b ->
  fst (_findTableEntry a s) = Ok None ->
  fst (_findTableEntry b s) = Ok None ->
  Wowo._createTable a s = (Ok m1, s1) ->
  page0 s1' = page0 s1 ->
  Wowo._createTable b s1' = (Ok m2, s2) ->
  (exists ea eb,
     fst (_findTableEntry a s2) = Ok (Some ea)
     /\ fst (_findTableEntry b s2) = Ok (Some eb)
     /\ startPage ea = totalPages s /\ startPage eb = totalPages s)
  /\ file s2 !! totalPages s = Some empty_heap_page
  /\ fst (Wowo._select (S fuel) a None s2) = Ok []
  /\ fst (Wowo._select (S fuel) b None s2) = Ok [].
Proof.
  intros Hok HT Ha Hb Hab Hfa Hfb H1 Hsame H2.
  destruct (createTable_spec a s s1 m1 Hok Ha Hfa H1) as (_ & Hok1 & Hn1 & Ht1 & Hea & Ho1 & _).
  assert (Hok1' : catalog_ok s1').
  { unfold catalog_ok, numTables in *. rewrite Hsame. exact Hok1. }
  assert (Hfb1 : fst (_findTableEntry b s1') = Ok None).
  { rewrite (findTableEntry_page0 b s1 s1') by (symmetry; exact Hsame).
    rewrite Ho1 by (intros E; apply Hab; symmetry; exact E). exact Hfb. }
  assert (Ht1' : totalPages s1' = totalPages s) by (unfold totalPages in *; rewrite Hsame; exact Ht1).
  assert (Hn1' : numTables s1' = numTables s1) by (unfold numTables; rewrite Hsame; reflexivity).
  destruct (createTable_spec b s1' s2 m2 Hok1' Hb Hfb1 H2)
    as (_ & Hok2 & Hn2 & Ht2 & Heb & Ho2 & Hp).
  rewrite Ht1' in *.
  assert (Hea2 : fst (_findTableEntry a s2)
                 = Ok (Some (mkEntry (numTables s) (12 + 40 * numTables s)
                                     (totalPages s) (totalPages s)))).
  { rewrite Ho2 by exact Hab.
    rewrite (findTableEntry_page0 a s1 s1') by (symmetry; exact Hsame). exact Hea. }
  specialize (Hp HT).
  pose proof (totalPages_range s (proj1 Hok)) as Hr.
  split; [eexists; eexists; split; [exact Hea2|]; split; [exact Heb|]; split; reflexivity|].
  split; [exact Hp|].
  assert (Hsel : forall t e, fst (_findTableEntry t s2) = Ok (Some e) ->
            startPage e = totalPages s -> fst (Wowo._select (S fuel) t None s2) = Ok []).
  { intros t e He Hs. unfold Wowo._select, bind.
    pose proof (findTableEntry_state t s2) as Hst.
    destruct (_findTableEntry t s2) as [r st]. cbn [fst snd] in He, Hst. subst r st.
    unfold gets. cbv beta iota. rewrite Hs.
    rewrite select_empty_page by (try exact HT; try lia; exact Hp). reflexivity. }
  split; [apply (Hsel _ _ Hea2); reflexivity|apply (Hsel _ _ Heb); reflexivity].
Qed.

Lemma shared_page_witness_karet_sawit :
  fst (Wowo._select 1 "karet" None karet_1_sawit_db) = Ok []
  /\ fst (Wowo._select 1 "karet" None karet_1_db) = Ok [rec_id 1].
Proof.
  destruct (tables_created_in_a_row_share_their_page 0 "karet" "sawit" Wowo.new_file
              karet_db karet_1_db karet_1_sawit_db
              (Wowo.opened_message "karet") (Wowo.opened_message "sawit"))
    as (_ & _ & Ha & _).
  - split; vm_compute; [reflexivity | discriminate].
  - vm_compute. discriminate.
  - reflexivity.
  - reflexivity.
  - discriminate.
  - vm_compute. reflexivity.
  - vm_compute. reflexivity.
  - vm_compute. reflexivity.
  - vm_compute. reflexivity.
  - vm_compute. reflexivity.
  - split; [exact Ha | vm_compute; reflexivity].
Defined.

(** ** The first engine: pages as lists of slots *)

(** *** Reading slots *)

Lemma readUInt16LE_u16_at b off :
  0 <= off -> off + 2 <= buf_length b -> readUInt16LE b off = Ok (u16_at b off).
Proof.
  intros H0 H. unfold readUInt16LE.
  replace ((off <? 0) || (buf_length b - 2 <? off)) with false
    by (symmetry; apply orb_false_iff; split; apply Z.ltb_ge; lia).
  reflexivity.
Qed.

Lemma u16_at_range b off : 0 <= u16_at b off <= 65535.
Proof.
  assert (Hb : forall i, 0 <= byte_at b i <= 255).
  { intros i. unfold byte_at. destruct (nth_error b (Z.to_nat i)) as [x|]; [|lia].
    unfold byte_val. pose proof (Byte.to_N_bounded x). lia. }
  unfold u16_at. pose proof (Hb off). pose proof (Hb (off + 1)). lia.
Qed.

Lemma u16_at_u16_bytes v :
  0 <= v <= 65535 -> u16_at (u16_bytes v) 0 = v.
Proof.
  intros Hv. unfold u16_at, u16_bytes, byte_at.
  change (Z.to_nat 0) with 0%nat. change (Z.to_nat (0 + 1)) with 1%nat. cbn [nth_error].
  rewrite !byte_val_of_Z.
  rewrite (Z.mod_small (v / 256)) by (split; [apply Z.div_pos; lia|apply Z.div_lt_upper_bound; lia]).
  pose proof (Z.div_mod v 256 ltac:(lia)). lia.
Qed.

(** A slice of a slice. *)
Lemma buf_slice_sub (b : list Byte.byte) s e s1 e1 :
  0 <= s -> s <= s1 -> s1 <= e1 -> e1 <= e -> e <= buf_length b ->
  buf_slice b s1 e1 = buf_slice (buf_slice b s e) (s1 - s) (e1 - s).
Proof.
  intros Hs H1 H2 H3 Hb. apply list_eq. intros k.
  assert (Hl : buf_length (buf_slice b s e) = e - s).
  { unfold buf_length at 1. rewrite length_buf_slice by lia. lia. }
  rewrite (lookup_buf_slice b s1 e1) by lia.
  rewrite (lookup_buf_slice (buf_slice b s e)) by lia.
  replace (Z.to_nat (e1 - s - (s1 - s))) with (Z.to_nat (e1 - s1)) by lia.
  destruct (Nat.ltb_spec k (Z.to_nat (e1 - s1))); [|reflexivity].
  rewrite lookup_buf_slice by lia.
  destruct (Nat.ltb_spec (Z.to_nat (s1 - s) + k) (Z.to_nat (e - s))); [|lia].
  f_equal. lia.
Qed.

Lemma u16_at_buf_slice (b : list Byte.byte) s e t :
  0 <= s -> 0 <= t -> s + t + 2 <= e -> e <= buf_length b ->
  u16_at (buf_slice b s e) t = u16_at b (s + t).
Proof.
  intros Hs Ht Hlt Hb. unfold u16_at. rewrite !byte_at_buf_slice by lia.
  replace (s + (t + 1)) with (s + t + 1) by lia. reflexivity.
Qed.

Lemma length_layout_cons d rest :
  Z.of_nat (length (layout (d :: rest)))
  = 2 + Z.of_nat (length d) + Z.of_nat (length (layout rest)).
Proof.
  unfold layout. cbn [flat_map]. unfold slot_image. rewrite !length_app. cbn [length u16_bytes]. lia.
Qed.

Lemma layout_app a b : layout (a ++ b) = layout a ++ layout b.
Proof. unfold layout. apply flat_map_app. Qed.

Lemma buf_slice_app_l (a b : list Byte.byte) s e :
  0 <= s -> s <= e -> e <= buf_length a -> buf_slice (a ++ b) s e = buf_slice a s e.
Proof.
  intros Hs Hse He. apply list_eq. intros k. unfold buf_length in He.
  rewrite !lookup_buf_slice by (unfold buf_length; rewrite ?length_app; lia).
  destruct (Nat.ltb_spec k (Z.to_nat (e - s))); [|reflexivity].
  apply lookup_app_l. lia.
Qed.

Lemma buf_slice_app_r (a b : list Byte.byte) s e :
  0 <= s -> s <= e -> e <= buf_length b ->
  buf_slice (a ++ b) (buf_length a + s) (buf_length a + e) = buf_slice b s e.
Proof.
  intros Hs Hse He. apply list_eq. intros k. unfold buf_length in *.
  rewrite !lookup_buf_slice by (unfold buf_length; rewrite ?length_app; lia).
  replace (Z.to_nat (Z.of_nat (length a) + e - (Z.of_nat (length a) + s))) with (Z.to_nat (e - s)) by lia.
  destruct (Nat.ltb_spec k (Z.to_nat (e - s))); [|reflexivity].
  rewrite lookup_app_r by lia. f_equal. lia.
Qed.

Lemma holds_at_cons buf off d rest :
  holds_at buf off (d :: rest) ->
  Z.of_nat (length d) <= 65535 ->
  readUInt16LE buf off = Ok (Z.of_nat (length d))
  /\ buf_slice buf (off + 2) (off + 2 + Z.of_nat (length d)) = d
  /\ holds_at buf (off + 2 + Z.of_nat (length d)) rest.
Proof.
  intros (H0 & Hfit & Hs) Hd. pose proof (length_layout_cons d rest) as Hl.
  set (E := off + Z.of_nat (length (layout (d :: rest)))) in *.
  assert (Himg : layout (d :: rest) = (u16_bytes (Z.of_nat (length d)) ++ d) ++ layout rest)
    by reflexivity.
  split; [|split].
  - rewrite readUInt16LE_u16_at by lia. f_equal.
    replace off with (off + 0) at 1 by lia.
    rewrite <- (u16_at_buf_slice buf off E 0) by lia.
    rewrite Hs, Himg. unfold u16_at.
    unfold byte_at. change (Z.to_nat 0) with 0%nat. change (Z.to_nat (0 + 1)) with 1%nat.
    cbn [u16_bytes app nth_error].
    pose proof (u16_at_u16_bytes (Z.of_nat (length d)) ltac:(lia)) as Hu.
    unfold u16_at, u16_bytes, byte_at in Hu.
    change (Z.to_nat 0) with 0%nat in Hu. change (Z.to_nat (0 + 1)) with 1%nat in Hu.
    cbn [nth_error] in Hu. exact Hu.
  - rewrite (buf_slice_sub buf off E) by lia. rewrite Hs, Himg.
    rewrite <- app_assoc.
    replace (off + 2 - off) with (buf_length (u16_bytes (Z.of_nat (length d))) + 0)
      by (unfold buf_length; cbn [length u16_bytes]; lia).
    replace (off + 2 + Z.of_nat (length d) - off)
      with (buf_length (u16_bytes (Z.of_nat (length d))) + Z.of_nat (length d))
      by (unfold buf_length; cbn [length u16_bytes]; lia).
    rewrite buf_slice_app_r by (unfold buf_length; rewrite ?length_app; lia).
    rewrite buf_slice_app_l by (unfold buf_length; lia).
    apply buf_slice_all.
  - split; [lia|]. split; [lia|].
    rewrite (buf_slice_sub buf off E) by lia. rewrite Hs, Himg.
    replace (off + 2 + Z.of_nat (length d) - off)
      with (buf_length (u16_bytes (Z.of_nat (length d)) ++ d) + 0)
      by (unfold buf_length; rewrite length_app; cbn [length u16_bytes]; lia).
    replace (off + 2 + Z.of_nat (length d) + Z.of_nat (length (layout rest)) - off)
      with (buf_length (u16_bytes (Z.of_nat (length d)) ++ d) + buf_length (layout rest))
      by (unfold buf_length; rewrite length_app; cbn [length u16_bytes]; lia).
    rewrite buf_slice_app_r by (unfold buf_length; lia).
    apply buf_slice_all.
Qed.

Lemma holds_at_length_bound buf off slots :
  holds_at buf off slots -> buf_length buf <= 65535 ->
  Forall (fun d => Z.of_nat (length d) <= 65535) slots.
Proof.
  intros (H0 & Hfit & _) Hb. apply Forall_forall. intros d Hd.
  apply list_elem_of_In in Hd. apply in_split in Hd. destruct Hd as (l1 & l2 & ->).
  rewrite layout_app in Hfit. rewrite length_app in Hfit.
  pose proof (length_layout_cons d l2). lia.
Qed.

(** The scan of a page reads the slots the page holds. *)
Lemma select_slots_holds c buf off slots results :
  holds_at buf off slots -> buf_length buf <= 65535 ->
  Wowo.select_slots (length slots) c buf off results = rows_of_slots c slots results.
Proof.
  intros H Hb. revert off results H. induction slots as [|d rest IH]; intros off results H.
  - reflexivity.
  - pose proof (holds_at_length_bound _ _ _ H Hb) as Hbound.
    apply Forall_cons in Hbound. destruct Hbound as [Hd _].
    destruct (holds_at_cons buf off d rest H Hd) as (Hr & Hs & Hrest).
    cbn [length Wowo.select_slots rows_of_slots]. rewrite Hr. cbn [obind].
    unfold buf_toString. rewrite Hs. fold (slot_text d).
    destruct (match (o <-? JSON_parse (slot_text d);; m <-? Wowo._checkMatch o c;; Ok (o, m)) with
              | Ok (o, true) => Ok (results ++ [o])
              | Ok (_, false) => Ok results
              | Throw _ => Ok results
              | Stuck w => Stuck w
              end) as [res'| |]; cbn [obind]; try reflexivity.
    apply IH. exact Hrest.
Qed.

Lemma page_holds_at buf next slots :
  page_holds buf next slots -> holds_at buf 8 slots /\ buf_length buf <= 65535.
Proof.
  intros (Hlen & _ & _ & _ & Hfit & Hs). unfold layout_end, PAGE_SIZE in *.
  split; [|lia]. split; [lia|]. split; [lia|exact Hs].
Qed.

Lemma page_holds_reads buf next slots :
  page_holds buf next slots ->
  readUInt32LE buf 0 = Ok next
  /\ readUInt16LE buf 4 = Ok (Z.of_nat (length slots))
  /\ readUInt16LE buf 6 = Ok (layout_end slots).
Proof.
  intros (Hlen & Hn & Hc & Hf & _ & _). unfold PAGE_SIZE in Hlen.
  rewrite readUInt32LE_u32_at, !readUInt16LE_u16_at by lia.
  rewrite Hn, Hc, Hf. auto.
Qed.

Lemma readPage_file s p buf :
  0 <= p -> file s !! p = Some buf -> readPage p s = (Ok buf, s).
Proof.
  intros Hp Hf. unfold readPage. replace (p <? 0) with false by (symmetry; apply Z.ltb_ge, Hp).
  unfold gets. rewrite Hf. reflexivity.
Qed.

(** A scan of a chain reads the slots of its pages, page after page. *)
Lemma select_pages_chain fuel c s p pages results :
  chain_holds (file s) p pages ->
  (length pages <= fuel)%nat ->
  Wowo.select_pages fuel c p results s = (rows_of_pages c pages results, s).
Proof.
  intros Hch. revert fuel results. induction Hch as [|p next buf slots rest Hp Hf Hpage Hch IH];
    intros fuel results Hfuel.
  - destruct fuel; reflexivity.
  - destruct fuel as [|fuel]; [cbn [length] in Hfuel; lia|].
    cbn [Wowo.select_pages rows_of_pages].
    replace (p =? 0) with false by (symmetry; apply Z.eqb_neq; lia).
    unfold bind. rewrite (readPage_file s p buf) by (try lia; exact Hf).
    destruct (page_holds_reads _ _ _ Hpage) as (Hn & Hc & _).
    destruct (page_holds_at _ _ _ Hpage) as (Hat & Hb).
    unfold lift. rewrite Hc. rewrite Nat2Z.id.
    rewrite (select_slots_holds c buf 8 slots results Hat Hb).
    destruct (rows_of_slots c slots results) as [r| |]; cbn [obind]; try reflexivity.
    rewrite Hn. apply IH. cbn [length] in Hfuel. lia.
Qed.

Lemma buf_slice_split (b : list Byte.byte) s m e :
  0 <= s -> s <= m -> m <= e -> e <= buf_length b ->
  buf_slice b s e = buf_slice b s m ++ buf_slice b m e.
Proof.
  intros Hs H1 H2 Hb. apply list_eq. intros k.
  rewrite (lookup_buf_slice b s e) by lia.
  destruct (Nat.ltb_spec k (Z.to_nat (m - s))) as [Hk|Hk].
  - rewrite lookup_app_l by (rewrite length_buf_slice by lia; lia).
    rewrite (lookup_buf_slice b s m) by lia.
    destruct (Nat.ltb_spec k (Z.to_nat (e - s))); [|lia].
    destruct (Nat.ltb_spec k (Z.to_nat (m - s))); [reflexivity|lia].
  - rewrite lookup_app_r by (rewrite length_buf_slice by lia; lia).
    rewrite length_buf_slice by lia.
    rewrite (lookup_buf_slice b m e) by lia.
    destruct (Nat.ltb_spec k (Z.to_nat (e - s))) as [Hk2|Hk2];
      destruct (Nat.ltb_spec (k - Z.to_nat (m - s)) (Z.to_nat (e - m))); try lia; [|reflexivity].
    f_equal. lia.
Qed.

Lemma u16_at_blit_outside (b d : list Byte.byte) off i :
  0 <= off -> 0 <= i -> (i + 2 <= off \/ off + Z.of_nat (length d) <= i) ->
  u16_at (blit b off d) i = u16_at b i.
Proof.
  intros H0 Hi Hout. unfold u16_at. rewrite !byte_at_blit_outside by lia. reflexivity.
Qed.

Lemma u16_at_blit_u16 b off v :
  0 <= off -> off + 2 <= buf_length b -> 0 <= v <= 65535 ->
  u16_at (blit b off (u16_bytes v)) off = v.
Proof.
  intros H0 Hb Hv. pose proof (readUInt16LE_blit b off v H0 Hb Hv) as H.
  unfold readUInt16LE in H. rewrite buf_length_blit in H.
  replace ((off <? 0) || (buf_length b - 2 <? off)) with false in H
    by (symmetry; apply orb_false_iff; split; apply Z.ltb_ge; lia).
  injection H as H. exact H.
Qed.

Lemma writeUInt16LE_Ok b v off :
  0 <= v <= 65535 -> 0 <= off -> off + 2 <= buf_length b ->
  writeUInt16LE b v off = Ok (blit b off (u16_bytes v)).
Proof.
  intros Hv H0 Hfit. unfold writeUInt16LE.
  replace ((v <? 0) || (65535 <? v)) with false
    by (symmetry; apply orb_false_iff; split; apply Z.ltb_ge; lia).
  replace ((off <? 0) || (buf_length b - 2 <? off)) with false
    by (symmetry; apply orb_false_iff; split; apply Z.ltb_ge; lia).
  reflexivity.
Qed.

Lemma layout_end_snoc slots d :
  layout_end (slots ++ [d]) = layout_end slots + 2 + Z.of_nat (length d).
Proof.
  unfold layout_end. rewrite layout_app, length_app.
  pose proof (length_layout_cons d []) as H. cbn [layout flat_map length] in H.
  unfold layout at 2. cbn [flat_map]. rewrite app_nil_r.
  unfold slot_image. rewrite length_app. cbn [length u16_bytes]. lia.
Qed.

(** What the writes of [_insert] make of a page that has room: the page
    holds one more slot, the record's text. *)
Lemma insert_into_page buf next slots (d : list Byte.byte) :
  page_holds buf next slots ->
  layout_end slots + 2 + Z.of_nat (length d) <= PAGE_SIZE ->
  exists buf',
    (pData <-? store_record buf (layout_end slots) d ;;
     count <-? readUInt16LE pData 4 ;;
     pData <-? writeUInt16LE pData (count + 1) 4 ;;
     writeUInt16LE pData (layout_end slots + (2 + buf_length d)) 6) = Ok buf'
    /\ page_holds buf' next (slots ++ [d]).
Proof.
  intros Hpage Hfit. pose proof Hpage as (Hlen & Hn & Hc & Hf & Hle & Hs).
  unfold PAGE_SIZE in *. set (free := layout_end slots) in *.
  assert (Hfree : 8 <= free) by (subst free; unfold layout_end; lia).
  unfold store_record, buf_copy. unfold buf_length at 1.
  rewrite writeUInt16LE_Ok by (unfold buf_length in *; lia). cbn [obind].
  set (p1 := blit buf free (u16_bytes (Z.of_nat (length d)))).
  assert (H1 : buf_length p1 = 4096) by (subst p1; rewrite buf_length_blit; exact Hlen).
  set (p2 := blit p1 (free + 2) d).
  assert (H2 : buf_length p2 = 4096) by (subst p2; rewrite buf_length_blit; exact H1).
  rewrite readUInt16LE_u16_at by lia. cbn [obind].
  assert (Hcount : u16_at p2 4 = Z.of_nat (length slots)).
  { subst p2. rewrite u16_at_blit_outside by lia.
    subst p1. rewrite u16_at_blit_outside by (cbn [length u16_bytes]; lia). exact Hc. }
  rewrite Hcount.
  assert (Hcnt : Z.of_nat (length slots) + 1 <= 65535).
  { assert (2 * Z.of_nat (length slots) <= Z.of_nat (length (layout slots))).
    { clear. induction slots as [|x l IH]; [cbn; lia|].
      pose proof (length_layout_cons x l). cbn [length]. lia. }
    unfold layout_end in *. lia. }
  rewrite writeUInt16LE_Ok by lia. cbn [obind].
  set (p3 := blit p2 4 (u16_bytes (Z.of_nat (length slots) + 1))).
  assert (H3 : buf_length p3 = 4096) by (subst p3; rewrite buf_length_blit; exact H2).
  unfold buf_length at 1.
  rewrite writeUInt16LE_Ok by lia.
  set (p4 := blit p3 6 (u16_bytes (free + (2 + Z.of_nat (length d))))).
  exists p4. split; [reflexivity|].
  assert (H4 : buf_length p4 = 4096) by (subst p4; rewrite buf_length_blit; exact H3).
  pose proof (layout_end_snoc slots d) as Hend. fold free in Hend.
  (* the region of the slots *)
  assert (Hregion : forall a b, 8 <= a -> a <= b -> b <= 4096 ->
            buf_slice p4 a b = buf_slice p2 a b).
  { intros a b Ha Hab Hb. subst p4. rewrite buf_slice_blit_outside by (cbn [length u16_bytes]; lia).
    subst p3. apply buf_slice_blit_outside; cbn [length u16_bytes]; lia. }
  split; [exact H4|]. split.
  { subst p4. unfold u32_at. rewrite !byte_at_blit_outside by (cbn [length u16_bytes]; lia).
    subst p3. rewrite !byte_at_blit_outside by (cbn [length u16_bytes]; lia).
    subst p2. rewrite !byte_at_blit_outside by lia.
    subst p1. rewrite !byte_at_blit_outside by lia. exact Hn. }
  split.
  { subst p4. rewrite u16_at_blit_outside by (cbn [length u16_bytes]; lia).
    subst p3. rewrite u16_at_blit_u16 by lia. rewrite length_app. cbn [length]. lia. }
  split.
  { subst p4. rewrite u16_at_blit_u16 by lia. lia. }
  split; [unfold PAGE_SIZE; lia|].
  rewrite Hend. rewrite (buf_slice_split p4 8 free) by lia.
  rewrite (buf_slice_split p4 free (free + 2)) by lia.
  rewrite !Hregion by lia.
  rewrite layout_app. f_equal.
  - subst p2. rewrite buf_slice_blit_outside by lia.
    subst p1. rewrite buf_slice_blit_outside by lia. exact Hs.
  - unfold layout. cbn [flat_map]. rewrite app_nil_r. unfold slot_image. f_equal.
    + subst p2. rewrite buf_slice_blit_outside by lia.
      subst p1. pose proof (buf_slice_blit buf free (u16_bytes (Z.of_nat (length d)))) as H.
      cbn [length u16_bytes] in H. change (Z.of_nat 2) with 2 in H. apply H; lia.
    + subst p2. replace (free + 2 + Z.of_nat (length d)) with (free + 2 + Z.of_nat (length d)) by lia.
      apply buf_slice_blit; lia.
Qed.

Lemma chain_holds_pos f p pages :
  chain_holds f p pages -> Forall (fun pg => 0 < fst pg) pages.
Proof. induction 1; constructor; auto. Qed.

(** The last page of a chain: it is in the file and links to no page. *)
Lemma chain_holds_last f p init L slots :
  chain_holds f p (init ++ [(L, slots)]) ->
  0 < L /\ exists buf, f !! L = Some buf /\ page_holds buf 0 slots.
Proof.
  revert p. induction init as [|[q qs] init IH]; intros p H.
  - inversion H as [|p' next buf sl rest Hp Hf Hpage Hrest]; subst.
    inversion Hrest; subst. split; [exact Hp|]. exists buf. split; assumption.
  - inversion H as [|p' next buf sl rest Hp Hf Hpage Hrest]; subst.
    apply (IH next). exact Hrest.
Qed.

(** Rewriting the last page of a chain that visits no page twice. *)
Lemma chain_holds_update_last f p init L slots slots' buf' :
  chain_holds f p (init ++ [(L, slots)]) ->
  NoDup (map fst (init ++ [(L, slots)])) ->
  page_holds buf' 0 slots' ->
  chain_holds (<[L := buf']> f) p (init ++ [(L, slots')]).
Proof.
  revert p. induction init as [|[q qs] init IH]; intros p H Hnd Hpage'.
  - inversion H as [|p' next buf sl rest Hp Hf Hpage Hrest]; subst.
    inversion Hrest; subst. cbn [app].
    apply (chain_page _ L 0 buf'); [exact Hp|apply lookup_insert_eq|exact Hpage'|constructor].
  - inversion H as [|p' next buf sl rest Hp Hf Hpage Hrest]; subst.
    cbn [app map fst] in Hnd. apply NoDup_cons in Hnd. destruct Hnd as [Hnotin Hnd].
    cbn [app]. apply (chain_page _ q next buf); [exact Hp| |exact Hpage|apply IH; assumption].
    rewrite lookup_insert_ne; [exact Hf|].
    intros ->. apply Hnotin. rewrite map_app. apply elem_of_app. right.
    cbn. apply elem_of_cons. left. reflexivity.
Qed.

Lemma rows_of_slots_app c a b results :
  rows_of_slots c (a ++ b) results = (r <-? rows_of_slots c a results ;; rows_of_slots c b r).
Proof.
  revert results. induction a as [|d a IH]; intros results; [reflexivity|].
  cbn [app rows_of_slots].
  destruct (match (o <-? JSON_parse (slot_text d);; m <-? Wowo._checkMatch o c;; Ok (o, m)) with
            | Ok (o, true) => Ok (results ++ [o])
            | Ok (_, false) => Ok results
            | Throw _ => Ok results
            | Stuck w => Stuck w
            end) as [r| |]; cbn [obind]; [apply IH|reflexivity|reflexivity].
Qed.

Lemma rows_of_pages_app c a b results :
  rows_of_pages c (a ++ b) results = (r <-? rows_of_pages c a results ;; rows_of_pages c b r).
Proof.
  revert results. induction a as [|[p sl] a IH]; intros results; [reflexivity|].
  cbn [app rows_of_pages].
  destruct (rows_of_slots c sl results) as [r| |]; cbn [obind]; [apply IH|reflexivity|reflexivity].
Qed.

Lemma slot_text_Buffer_from text : slot_text (Buffer_from text) = text.
Proof.
  unfold slot_text, Buffer_from. rewrite map_map.
  rewrite (map_ext _ id) by (intros c; apply ascii_of_byte_of_ascii).
  rewrite map_id. apply str_chars.
Qed.

Lemma obind_Ok {A B} (m : outcome A) (k : A -> outcome B) b :
  obind m k = Ok b -> exists a, m = Ok a /\ k a = Ok b.
Proof. destruct m as [a| |]; intros H; try discriminate. exists a. auto. Qed.

(** An insert that fits the last page of a table: the table holds one
    more slot there, and every scan returns what it returned before,
    followed by the new record when it matches. *)
Lemma insert_fits_spec (table : string) (data : obj) (s : db) (e : table_entry)
    (init : list (Z * list (list Byte.byte))) (slots : list (list Byte.byte)) :
  fst (_findTableEntry table s) = Ok (Some e) ->
  table_holds s e (init ++ [(lastPage e, slots)]) ->
  fields data <> [] ->
  layout_end slots + 2 + Buffer_byteLength (JSON_stringify data) <= PAGE_SIZE ->
  exists s',
    Wowo._insert table data s = (Ok "Bibit tertanam.", s')
    /\ table_holds s' e (init ++ [(lastPage e, slots ++ [Buffer_from (JSON_stringify data)])])
    /\ page0 s' = page0 s
    /\ indexes s' = indexes s.
Proof.
  intros Hfind (Hch & Hnd & Hlast) Hne Hfit.
  destruct (chain_holds_last _ _ _ _ _ Hch) as (HL & buf & Hbuf & Hpage).
  destruct (page_holds_reads _ _ _ Hpage) as (_ & _ & Hfree).
  unfold Wowo._insert. destruct (fields data) eqn:Ef; [contradiction|]. clear Ef.
  unfold bind at 1. rewrite (findTableEntry_eq _ _ _ Hfind).
  unfold bind at 1. rewrite (readPage_file s (lastPage e) buf) by (try lia; exact Hbuf).
  unfold bind at 1. unfold lift at 1. rewrite Hfree.
  unfold bind at 1.
  change (buf_length (Buffer_from (JSON_stringify data))) with (Buffer_byteLength (JSON_stringify data)).
  replace (PAGE_SIZE <? layout_end slots + (2 + Buffer_byteLength (JSON_stringify data)))
    with false by (symmetry; apply Z.ltb_ge; lia).
  unfold ret at 1. cbv beta iota.
  destruct (insert_into_page buf 0 slots (Buffer_from (JSON_stringify data)) Hpage)
    as (buf' & Hw & Hpage'); [exact Hfit|].
  apply obind_Ok in Hw. destruct Hw as (q1 & Hq1 & Hw).
  apply obind_Ok in Hw. destruct Hw as (cnt & Hcnt & Hw).
  apply obind_Ok in Hw. destruct Hw as (q2 & Hq2 & Hw).
  unfold bind, lift. rewrite Hq1, Hcnt, Hq2.
  change (buf_length (Buffer_from (JSON_stringify data))) with (Buffer_byteLength (JSON_stringify data)) in Hw.
  unfold Buffer_byteLength in Hw |- *. rewrite Hw.
  unfold writePage. destruct Hpage' as (Hlen' & Hrest'). rewrite Hlen'.
  change (negb (PAGE_SIZE =? PAGE_SIZE)) with false.
  replace (lastPage e <? 0) with false by (symmetry; apply Z.ltb_ge; lia).
  cbv iota. unfold modify, ret.
  eexists. split; [reflexivity|]. split; [|split].
  - split; [|split].
    + cbn [file]. apply (chain_holds_update_last _ _ _ _ slots); [exact Hch|exact Hnd|].
      split; [exact Hlen'|exact Hrest'].
    + rewrite map_app in *. exact Hnd.
    + rewrite map_app in *. exact Hlast.
  - unfold page0. cbn [file]. rewrite lookup_insert_ne by lia. reflexivity.
  - reflexivity.
Qed.

(** ** The first engine: INSERT, then SELECT *)

Lemma obind_assoc {A B C} (m : outcome A) (f : A -> outcome B) (g : B -> outcome C) :
  obind (obind m f) g = obind m (fun a => obind (f a) g).
Proof. destruct m; reflexivity. Qed.

Lemma obind_ret {A} (m : outcome A) : obind m Ok = m.
Proof. destruct m; reflexivity. Qed.

Lemma rows_of_pages_snoc_slot c init L slots d results :
  rows_of_pages c (init ++ [(L, slots ++ [d])]) results
  = (r <-? rows_of_pages c (init ++ [(L, slots)]) results ;; rows_of_slots c [d] r).
Proof.
  rewrite !rows_of_pages_app. rewrite obind_assoc.
  destruct (rows_of_pages c init results) as [r| |]; cbn [obind]; try reflexivity.
  cbn [rows_of_pages]. rewrite rows_of_slots_app. rewrite !obind_assoc.
  destruct (rows_of_slots c slots r) as [r'| |]; cbn [obind]; try reflexivity.
  rewrite obind_ret. reflexivity.
Qed.

(** [_select] with no index to probe is the scan of the pages the table holds. *)
Lemma select_scans_the_chain fuel table c s e pages :
  fst (_findTableEntry table s) = Ok (Some e) ->
  indexes s = [] ->
  table_holds s e pages ->
  (length pages <= fuel)%nat ->
  Wowo._select fuel table c s = (rows_of_pages c pages [], s).
Proof.
  intros Hfind Hix (Hch & _ & _) Hfuel.
  unfold Wowo._select, bind. rewrite (findTableEntry_eq _ _ _ Hfind).
  unfold gets. cbv beta iota. rewrite Hix.
  assert (Hprobe : match c with
                   | Some (Wowo.Single cond) =>
                       if String.eqb (Wowo.cond_op cond) "=" then
                         match assoc (table ++ "." ++ Wowo.cond_key cond)%string [] with
                         | Some index => Some (index_search (APrim (Wowo.cond_val cond)) index)
                         | None => None
                         end
                       else None
                   | _ => None
                   end = None).
  { destruct c as [[cond|conds]|]; try reflexivity. destruct (String.eqb _ "="); reflexivity. }
  rewrite Hprobe. apply select_pages_chain; assumption.
Qed.

(** First engine: a record that fits into the last page of its table is
    appended to that page, and [_select] then returns what it returned
    before, followed by the record if it matches the criteria. *)
Theorem insert_then_select_returns_the_record
    (fuel : nat) (table : string) (c : option Wowo.criteria) (data : obj) (m : bool)
    (s : db) (e : table_entry)
    (init : list (Z * list (list Byte.byte))) (slots : list (list Byte.byte))
    (rows : list obj) :
  fst (_findTableEntry table s) = Ok (Some e) ->
  table_holds s e (init ++ [(lastPage e, slots)]) ->
  indexes s = [] ->
  fields data <> [] ->
  record_ok (fields data) = true ->
  layout_end slots + 2 + Buffer_byteLength (JSON_stringify data) <= PAGE_SIZE ->
  (length init < fuel)%nat ->
  Wowo._checkMatch (plain (fields data)) c = Ok m ->
  fst (Wowo._select fuel table c s) = Ok rows ->
  exists s',
    Wowo._insert table data s = (Ok "Bibit tertanam.", s')
    /\ table_holds s' e (init ++ [(lastPage e, slots ++ [Buffer_from (JSON_stringify data)])])
    /\ fst (Wowo._select fuel table c s')
       = Ok (rows ++ (if m then [plain (fields data)] else [])).
Proof.
  intros Hfind Hth Hix Hne Hok Hfit Hfuel Hm Hsel.
  destruct (insert_fits_spec table data s e init slots Hfind Hth Hne Hfit)
    as (s' & Hins & Hth' & Hp0 & Hix').
  exists s'. split; [exact Hins|]. split; [exact Hth'|].
  assert (Hfind' : fst (_findTableEntry table s') = Ok (Some e)).
  { rewrite (findTableEntry_page0 table s s') by (symmetry; exact Hp0). exact Hfind. }
  assert (Hlen : forall x, (length (init ++ [x]) <= fuel)%nat).
  { intros x. rewrite length_app. cbn [length]. lia. }
  rewrite (select_scans_the_chain fuel table c s e _ Hfind Hix Hth (Hlen _)) in Hsel.
  rewrite (select_scans_the_chain fuel table c s' e _ Hfind' (eq_trans Hix' Hix) Hth' (Hlen _)).
  cbn [fst] in *. rewrite rows_of_pages_snoc_slot, Hsel. cbn [obind rows_of_slots].
  rewrite slot_text_Buffer_from, (JSON_parse_stringify data Hok). cbn [obind]. rewrite Hm.
  cbn [obind]. destruct m; [reflexivity|rewrite app_nil_r; reflexivity].
Qed.

Lemma insert_then_select_witness_second_record :
  exists s',
    Wowo._insert "karet" (rec_id 2) karet_1_db = (Ok "Bibit tertanam.", s')
    /\ table_holds s' karet_entry
         ([] ++ [(lastPage karet_entry,
                  [Buffer_from (JSON_stringify (rec_id 1))]
                  ++ [Buffer_from (JSON_stringify (rec_id 2))])])
    /\ fst (Wowo._select 1 "karet" None s') = Ok ([rec_id 1] ++ [plain (fields (rec_id 2))]).
Proof.
  apply (insert_then_select_returns_the_record 1 "karet" None (rec_id 2) true karet_1_db
           karet_entry [] [Buffer_from (JSON_stringify (rec_id 1))] [rec_id 1]).
  - vm_compute. reflexivity.
  - split; [|split].
    + eapply chain_page; [reflexivity | vm_compute; reflexivity | | constructor].
      repeat split; vm_compute; try reflexivity; discriminate.
    + apply NoDup_singleton.
    + reflexivity.
  - reflexivity.
  - discriminate.
  - reflexivity.
  - vm_compute. discriminate.
  - cbn. lia.
  - reflexivity.
  - vm_compute. reflexivity.
Defined.

(** ** The first engine: two tables on one page *)

(** [_select] without criteria never probes an index. *)
Lemma select_all_scans_the_chain fuel table s e pages :
  fst (_findTableEntry table s) = Ok (Some e) ->
  table_holds s e pages ->
  (length pages <= fuel)%nat ->
  Wowo._select fuel table None s = (rows_of_pages None pages [], s).
Proof.
  intros Hfind (Hch & _ & _) Hfuel.
  unfold Wowo._select, bind. rewrite (findTableEntry_eq _ _ _ Hfind).
  unfold gets. cbv beta iota. apply select_pages_chain; assumption.
Qed.

Lemma page_holds_empty : page_holds empty_heap_page 0 [].
Proof. repeat split; vm_compute; try reflexivity; discriminate. Qed.

(** Two tables created one after the other are one heap: a record put
    into the first is what a scan of the second returns. *)
Theorem record_put_into_one_table_is_read_from_the_other
    (fuel : nat) (a b : string) (s s1 s2 : db) (m1 m2 : string) (data : obj) :
  catalog_ok s ->
  totalPages s <> 0 ->
  storable_name a = true -> storable_name b = true -> a <> b ->
  fst (_findTableEntry a s) = Ok None ->
  fst (_findTableEntry b s) = Ok None ->
  Wowo._createTable a s = (Ok m1, s1) ->
  Wowo._createTable b s1 = (Ok m2, s2) ->
  fields data <> [] ->
  record_ok (fields data) = true ->
  10 + Buffer_byteLength (JSON_stringify data) <= PAGE_SIZE ->
  exists s3,
    Wowo._insert a data s2 = (Ok "Bibit tertanam.", s3)
    /\ fst (Wowo._select (S fuel) b None s3) = Ok [plain (fields data)]
    /\ fst (Wowo._select (S fuel) a None s3) = Ok [plain (fields data)].
Proof.
  intros Hok HT Ha Hb Hab Hfa Hfb H1 H2 Hne Hrec Hfit.
  destruct (createTable_spec a s s1 m1 Hok Ha Hfa H1) as (_ & Hok1 & Hn1 & Ht1 & Hea & Ho1 & _).
  assert (Hfb1 : fst (_findTableEntry b s1) = Ok None).
  { rewrite Ho1 by (intros E; apply Hab; symmetry; exact E). exact Hfb. }
  destruct (createTable_spec b s1 s2 m2 Hok1 Hb Hfb1 H2) as (_ & Hok2 & Hn2 & Ht2 & Heb & Ho2 & Hp).
  rewrite Ht1 in *. specialize (Hp HT).
  pose proof (totalPages_range s (proj1 Hok)) as Hr.
  set (ea := mkEntry (numTables s) (12 + 40 * numTables s) (totalPages s) (totalPages s)) in *.
  set (eb := mkEntry (numTables s1) (12 + 40 * numTables s1) (totalPages s) (totalPages s)) in *.
  assert (Hea2 : fst (_findTableEntry a s2) = Ok (Some ea)).
  { rewrite Ho2 by exact Hab. exact Hea. }
  assert (Hholds : table_holds s2 ea ([] ++ [(lastPage ea, [])])).
  { unfold ea, table_holds. cbn [app lastPage startPage]. split; [|split].
    - apply (chain_page _ _ 0 empty_heap_page); [lia|exact Hp|exact page_holds_empty|constructor].
    - cbn [map fst]. apply NoDup_singleton.
    - reflexivity. }
  destruct (insert_fits_spec a data s2 ea [] [] Hea2 Hholds Hne)
    as (s3 & Hins & Hth & Hp0 & _).
  { change (layout_end []) with 8. lia. }
  exists s3. split; [exact Hins|].
  unfold ea in Hth at 2. cbn [app lastPage] in Hth.
  assert (Hfa3 : fst (_findTableEntry a s3) = Ok (Some ea)).
  { rewrite (findTableEntry_page0 a s2 s3) by (symmetry; exact Hp0). exact Hea2. }
  assert (Hfb3 : fst (_findTableEntry b s3) = Ok (Some eb)).
  { rewrite (findTableEntry_page0 b s2 s3) by (symmetry; exact Hp0). exact Heb. }
  assert (Hthb : table_holds s3 eb [(totalPages s, [Buffer_from (JSON_stringify data)])]).
  { exact Hth. }
  rewrite (select_all_scans_the_chain (S fuel) b s3 eb _ Hfb3 Hthb) by (cbn [length]; lia).
  rewrite (select_all_scans_the_chain (S fuel) a s3 ea _ Hfa3 Hth) by (cbn [length]; lia).
  cbn [fst rows_of_pages rows_of_slots obind].
  rewrite slot_text_Buffer_from, (JSON_parse_stringify data Hrec).
  cbn [obind Wowo._checkMatch app]. split; reflexivity.
Qed.

Lemma one_heap_witness_karet_sawit :
  exists s3,
    Wowo._insert "karet" (rec_id 7) karet_sawit_db = (Ok "Bibit tertanam.", s3)
    /\ fst (Wowo._select 1 "sawit" None s3) = Ok [plain (fields (rec_id 7))]
    /\ fst (Wowo._select 1 "karet" None s3) = Ok [plain (fields (rec_id 7))].
Proof.
  apply (record_put_into_one_table_is_read_from_the_other 0 "karet" "sawit" Wowo.new_file
           karet_db karet_sawit_db
           (Wowo.opened_message "karet") (Wowo.opened_message "sawit") (rec_id 7)).
  - split; vm_compute; [reflexivity | discriminate].
  - vm_compute. discriminate.
  - reflexivity.
  - reflexivity.
  - discriminate.
  - vm_compute. reflexivity.
  - vm_compute. reflexivity.
  - vm_compute. reflexivity.
  - vm_compute. reflexivity.
  - discriminate.
  - reflexivity.
  - vm_compute. discriminate.
Defined.

(** ** The first engine: DELETE *)

(** Two writes side by side are one write. *)
Lemma blit_app (b a c : list Byte.byte) w :
  0 <= w -> w + Z.of_nat (length a) + Z.of_nat (length c) <= buf_length b ->
  blit (blit b w a) (w + Z.of_nat (length a)) c = blit b w (a ++ c).
Proof.
  intros Hw Hfit. unfold buf_length in Hfit. apply list_eq. intros i.
  rewrite !lookup_blit by lia. rewrite length_blit, length_app.
  replace (Z.to_nat (w + Z.of_nat (length a))) with (Z.to_nat w + length a)%nat by lia.
  destruct (Nat.leb_spec (Z.to_nat w + length a) i) as [H1|H1];
    destruct (Nat.ltb_spec i (Z.to_nat w + length a + length c)) as [H2|H2];
    destruct (Nat.ltb_spec i (length b)) as [H3|H3];
    destruct (Nat.leb_spec (Z.to_nat w) i) as [H4|H4];
    destruct (Nat.ltb_spec i (Z.to_nat w + length a)) as [H5|H5];
    destruct (Nat.ltb_spec i (Z.to_nat w + (length a + length c))) as [H6|H6];
    cbn [andb]; try lia; try reflexivity.
  - rewrite lookup_app_r by lia. f_equal. lia.
  - rewrite lookup_app_l by lia. reflexivity.
Qed.

Lemma write_kept_spec (ks : list (list Byte.byte)) (buf : buffer) (w : Z) :
  0 <= w -> w + Z.of_nat (length (layout ks)) <= buf_length buf -> buf_length buf <= 65535 ->
  write_kept (map kept_of ks) buf w
  = Ok (blit buf w (layout ks), w + Z.of_nat (length (layout ks))).
Proof.
  revert buf w. induction ks as [|d ks IH]; intros buf w Hw Hfit Hb.
  - cbn [map write_kept layout flat_map length]. f_equal. f_equal; [|lia].
    apply list_eq. intros i. rewrite lookup_blit by lia. cbn [length].
    destruct (Nat.leb_spec (Z.to_nat w) i); destruct (Nat.ltb_spec i (Z.to_nat w + 0));
      cbn [andb]; try lia; try reflexivity.
  - pose proof (length_layout_cons d ks) as Hl.
    cbn [map write_kept kept_of kept_len kept_data].
    rewrite writeUInt16LE_Ok by lia. cbn [obind]. unfold buf_copy.
    pose proof (blit_app buf (u16_bytes (Z.of_nat (length d))) d w Hw) as Hab.
    cbn [length u16_bytes] in Hab. change (Z.of_nat 2) with 2 in Hab.
    rewrite Hab by lia.
    rewrite IH by (rewrite ?buf_length_blit; lia).
    f_equal. f_equal; [|lia].
    pose proof (blit_app buf (u16_bytes (Z.of_nat (length d)) ++ d) (layout ks) w Hw) as Hab2.
    rewrite length_app in Hab2. cbn [length u16_bytes] in Hab2.
    replace (w + Z.of_nat (2 + length d)) with (w + 2 + Z.of_nat (length d)) in Hab2 by lia.
    rewrite Hab2 by lia. reflexivity.
Qed.

Lemma length_layout_count slots :
  2 * Z.of_nat (length slots) <= Z.of_nat (length (layout slots)).
Proof.
  induction slots as [|x l IH]; [cbn; lia|].
  pose proof (length_layout_cons x l). cbn [length]. lia.
Qed.

(** Packing the kept slots of a page: the page holds them and nothing
    else, with the link it had. *)
Lemma compact_page_spec (buf : buffer) (next : Z) (slots ks : list (list Byte.byte)) :
  page_holds buf next slots ->
  layout_end ks <= layout_end slots ->
  exists buf',
    compact_page (map kept_of ks) buf = Ok buf' /\ page_holds buf' next ks.
Proof.
  intros (Hlen & Hn & Hc & Hf & Hle & Hs) Hks. unfold PAGE_SIZE, layout_end in *.
  pose proof (length_layout_count ks) as Hcnt.
  unfold compact_page. rewrite length_map.
  rewrite writeUInt16LE_Ok by lia. cbn [obind].
  set (p1 := blit buf 4 (u16_bytes (Z.of_nat (length ks)))).
  assert (H1 : buf_length p1 = 4096) by (subst p1; rewrite buf_length_blit; exact Hlen).
  rewrite write_kept_spec by lia. cbn [obind].
  set (w := 8 + Z.of_nat (length (layout ks))).
  set (p2 := blit p1 8 (layout ks)).
  assert (H2 : buf_length p2 = 4096) by (subst p2; rewrite buf_length_blit; exact H1).
  rewrite writeUInt16LE_Ok by (subst w; lia). cbn [obind].
  set (p3 := blit p2 6 (u16_bytes w)).
  assert (H3 : buf_length p3 = 4096) by (subst p3; rewrite buf_length_blit; exact H2).
  rewrite H3.
  eexists. split; [reflexivity|].
  rewrite buf_fill0_in_range by (subst w; lia).
  set (p4 := blit p3 w (repeat Byte.x00 (Z.to_nat (4096 - w)))).
  assert (H4 : buf_length p4 = 4096) by (subst p4; rewrite buf_length_blit; exact H3).
  split; [exact H4|]. split.
  { subst p4. rewrite u32_at_blit_outside by (subst w; lia).
    subst p3. rewrite u32_at_blit_outside by (cbn [length u16_bytes]; lia).
    subst p2. rewrite u32_at_blit_outside by lia.
    subst p1. rewrite u32_at_blit_outside by (cbn [length u16_bytes]; lia). exact Hn. }
  split.
  { subst p4. rewrite u16_at_blit_outside by (subst w; lia).
    subst p3. rewrite u16_at_blit_outside by (cbn [length u16_bytes]; lia).
    subst p2. rewrite u16_at_blit_outside by lia.
    subst p1. apply u16_at_blit_u16; lia. }
  split.
  { subst p4. rewrite u16_at_blit_outside by (subst w; lia).
    subst p3. apply u16_at_blit_u16; subst w; unfold layout_end; lia. }
  split; [unfold PAGE_SIZE, layout_end; subst w; lia|].
  unfold layout_end. fold w. subst p4. rewrite buf_slice_blit_outside by (subst w; lia).
  subst p3. rewrite buf_slice_blit_outside by (cbn [length u16_bytes]; subst w; lia).
  subst p2. subst w. apply buf_slice_blit; lia.
Qed.

Lemma split_slots_facts c slots ks n :
  split_slots c slots = Ok (ks, n) ->
  Z.of_nat (length ks) + n = Z.of_nat (length slots)
  /\ 0 <= n
  /\ layout_end ks <= layout_end slots
  /\ (n = 0 -> ks = slots).
Proof.
  revert ks n. induction slots as [|d rest IH]; intros ks n H.
  - cbn in H. injection H as <- <-. cbn. repeat split; try lia; try reflexivity.
  - cbn [split_slots] in H. apply obind_Ok in H. destruct H as (m & Hm & H).
    apply obind_Ok in H. destruct H as ([ks' n'] & Hr & H).
    destruct (IH ks' n' Hr) as (Hlen & Hn & Hle & Hall).
    pose proof (length_layout_cons d rest) as Hl. unfold layout_end in *.
    cbn [fst snd] in H. destruct m; injection H as <- <-; cbn [length].
    + repeat split; try lia.
    + pose proof (length_layout_cons d ks') as Hl'.
      repeat split; try lia. intros Hz. rewrite (Hall Hz). reflexivity.
Qed.

(** The slot loop of [_delete] on a region that holds slots. *)
Lemma delete_slots_holds c buf slots : forall off keep cnt,
  holds_at buf off slots -> buf_length buf <= 65535 ->
  Wowo.delete_slots (length slots) c buf (Wowo.mkDelPage off keep cnt)
  = (r <-? split_slots c slots ;;
     Ok (Wowo.mkDelPage (off + Z.of_nat (length (layout slots)))
                        (keep ++ map kept_of (fst r)) (cnt + snd r))).
Proof.
  induction slots as [|d rest IH]; intros off keep cnt H Hb.
  - cbn. rewrite app_nil_r, !Z.add_0_r. reflexivity.
  - pose proof (holds_at_length_bound _ _ _ H Hb) as Hbound.
    apply Forall_cons in Hbound. destruct Hbound as [Hd _].
    destruct (holds_at_cons buf off d rest H Hd) as (Hr & Hs & Hrest).
    pose proof (length_layout_cons d rest) as Hl.
    cbn [length Wowo.delete_slots split_slots Wowo.del_offset Wowo.del_keep Wowo.del_count].
    rewrite Hr. cbn [obind]. unfold buf_toString. rewrite Hs. fold (slot_text d).
    fold (slot_matches c d).
    destruct (slot_matches c d) as [m| |]; cbn [obind]; try reflexivity.
    destruct m; cbn [Wowo.del_offset Wowo.del_keep Wowo.del_count].
    + rewrite (IH _ _ _ Hrest Hb).
      destruct (split_slots c rest) as [[ks n]| |]; cbn [obind fst snd]; try reflexivity.
      f_equal. f_equal; lia.
    + rewrite (IH _ _ _ Hrest Hb).
      destruct (split_slots c rest) as [[ks n]| |]; cbn [obind fst snd]; try reflexivity.
      f_equal. f_equal; [lia|]. rewrite <- app_assoc. reflexivity.
Qed.

Lemma chain_holds_insert_other f p pages q b :
  chain_holds f p pages -> q ∉ map fst pages -> chain_holds (<[q := b]> f) p pages.
Proof.
  induction 1 as [|p next buf slots rest Hp Hf Hpage Hch IH]; intros Hq.
  - constructor.
  - cbn [map fst] in Hq. apply not_elem_of_cons in Hq. destruct Hq as [Hne Hq].
    apply (chain_page _ p next buf); [exact Hp| |exact Hpage|apply IH, Hq].
    rewrite lookup_insert_ne; [exact Hf|]. congruence.
Qed.

Lemma split_pages_ids c pages r :
  split_pages c pages = Ok r -> map fst (fst r) = map fst pages.
Proof.
  revert r. induction pages as [|[p slots] rest IH]; intros r H.
  - cbn in H. injection H as <-. reflexivity.
  - cbn [split_pages] in H. apply obind_Ok in H. destruct H as (r1 & H1 & H).
    apply obind_Ok in H. destruct H as (r2 & H2 & H). injection H as <-.
    cbn [fst map]. rewrite (IH r2 H2). reflexivity.
Qed.

(** The page loop of [_delete] on a chain that visits no page twice: the
    chain keeps its pages, each holding the slots that were kept. *)
Lemma delete_pages_chain c pages : forall fuel p cnt s r,
  chain_holds (file s) p pages ->
  NoDup (map fst pages) ->
  (length pages <= fuel)%nat ->
  split_pages c pages = Ok r ->
  exists s',
    Wowo.delete_pages fuel c p cnt s = (Ok (cnt + snd r), s')
    /\ chain_holds (file s') p (fst r)
    /\ (forall q, q ∉ map fst pages -> file s' !! q = file s !! q)
    /\ indexes s' = indexes s.
Proof.
  induction pages as [|[p0 slots] rest IH]; intros fuel p cnt s r Hch Hnd Hfuel Hsp.
  - inversion Hch; subst. cbn in Hsp. injection Hsp as <-. exists s.
    split; [destruct fuel; cbn; rewrite Z.add_0_r; reflexivity|].
    split; [constructor|]. split; [reflexivity..].
  - inversion Hch as [|p' next buf sl rest' Hp Hf Hpage Hrest]; subst.
    destruct fuel as [|fuel]; [cbn [length] in Hfuel; lia|].
    cbn [split_pages] in Hsp. apply obind_Ok in Hsp. destruct Hsp as ([ks n] & H1 & Hsp).
    apply obind_Ok in Hsp. destruct Hsp as (r2 & H2 & Hsp). injection Hsp as <-.
    cbn [fst snd]. cbn [map fst] in Hnd. apply NoDup_cons in Hnd. destruct Hnd as [Hnotin Hnd].
    destruct (split_slots_facts _ _ _ _ H1) as (Hlen & Hn & Hle & Hall).
    destruct (page_holds_reads _ _ _ Hpage) as (Hrn & Hrc & _).
    destruct (page_holds_at _ _ _ Hpage) as (Hat & Hb).
    cbn [Wowo.delete_pages].
    replace (p0 =? 0) with false by (symmetry; apply Z.eqb_neq; lia).
    unfold bind at 1. rewrite (readPage_file s p0 buf) by (try lia; exact Hf).
    unfold bind at 1. unfold lift at 1. rewrite Hrc.
    unfold bind at 1. unfold lift at 1. rewrite Nat2Z.id.
    rewrite (delete_slots_holds c buf slots 8 [] cnt Hat Hb). rewrite H1.
    cbn [obind fst snd app Wowo.del_keep Wowo.del_count]. rewrite length_map.
    destruct (Z.ltb_spec (Z.of_nat (length ks)) (Z.of_nat (length slots))) as [Hlt|Hge].
    + destruct (compact_page_spec buf next slots ks Hpage Hle) as (buf' & Hcp & Hpage').
      destruct (page_holds_reads _ _ _ Hpage') as (Hrn' & _).
      assert (Hb' : buf_length buf' = PAGE_SIZE) by (destruct Hpage'; assumption).
      unfold bind at 1. unfold bind at 1. unfold lift at 1. rewrite Hcp.
      unfold bind at 1. unfold writePage. rewrite Hb'.
      change (negb (PAGE_SIZE =? PAGE_SIZE)) with false. cbv beta iota.
      replace (p0 <? 0) with false by (symmetry; apply Z.ltb_ge; lia).
      unfold modify, ret. unfold bind at 1. unfold lift at 1. rewrite Hrn'.
      set (s1 := mkDb (<[p0:=buf']> (file s)) (delete p0 (objectCache s)) (indexes s)
                      (events s) (queryString s)).
      assert (Hch1 : chain_holds (file s1) next rest).
      { subst s1. cbn [file]. apply chain_holds_insert_other; assumption. }
      destruct (IH fuel next (cnt + n) s1 r2 Hch1 Hnd ltac:(cbn [length] in Hfuel; lia) H2)
        as (s' & Hdel & Hch' & Hother & Hix).
      exists s'. rewrite Hdel. split; [f_equal; f_equal; lia|].
      split.
      { apply (chain_page _ p0 next buf'); [exact Hp| |exact Hpage'|exact Hch'].
        rewrite (Hother p0 Hnotin). subst s1. cbn [file]. apply lookup_insert_eq. }
      split; [|rewrite Hix; reflexivity].
      intros q Hq. cbn [map fst] in Hq. apply not_elem_of_cons in Hq. destruct Hq as [Hne Hq].
      rewrite (Hother q Hq). subst s1. cbn [file]. apply lookup_insert_ne. congruence.
    + assert (n = 0) by lia. subst n. rewrite (Hall eq_refl) in *.
      unfold ret. unfold bind at 1. unfold bind at 1. unfold lift at 1. rewrite Hrn.
      destruct (IH fuel next (cnt + 0) s r2 Hrest Hnd ltac:(cbn [length] in Hfuel; lia) H2)
        as (s' & Hdel & Hch' & Hother & Hix).
      exists s'. rewrite Hdel. split; [f_equal; f_equal; lia|].
      split.
      { apply (chain_page _ p0 next buf); [exact Hp| |exact Hpage|exact Hch'].
        rewrite (Hother p0 Hnotin). exact Hf. }
      split; [|exact Hix].
      intros q Hq. cbn [map fst] in Hq. apply not_elem_of_cons in Hq. destruct Hq as [Hne Hq].
      apply Hother, Hq.
Qed.

(** The slots [_delete] keeps and removes, in terms of the records an
    unconditional scan reads from them. *)
Lemma split_slots_rows c slots : forall res all,
  rows_of_slots None slots res = Ok all ->
  (forall r, In r all -> exists b, Wowo._checkMatch r c = Ok b) ->
  exists ks new,
    all = res ++ new
    /\ split_slots c slots = Ok (ks, Z.of_nat (length (List.filter (row_matches c) new)))
    /\ (forall res', rows_of_slots None ks res'
                     = Ok (res' ++ List.filter (fun r => negb (row_matches c r)) new))
    /\ (forall res', rows_of_slots c ks res' = Ok res').
Proof.
  induction slots as [|d rest IH]; intros res all H Hall.
  - cbn in H. injection H as <-. exists [], []. rewrite app_nil_r.
    split; [reflexivity|]. split; [reflexivity|].
    split; intros res'; cbn; rewrite ?app_nil_r; reflexivity.
  - cbn [rows_of_slots] in H. cbn [split_slots]. unfold slot_matches.
    destruct (JSON_parse (slot_text d)) as [o|w|w] eqn:Ep; cbn [obind] in H |- *.
    + destruct (IH _ _ H Hall) as (ks & new & -> & Hsp & Hnone & Hc).
      destruct (Hall o) as [b Hb].
      { apply in_or_app. left. apply in_or_app. right. left. reflexivity. }
      rewrite Hb, Hsp. cbn [obind fst snd].
      exists (if b then ks else d :: ks), (o :: new).
      split; [rewrite <- app_assoc; reflexivity|].
      assert (Hrm : row_matches c o = b) by (unfold row_matches; rewrite Hb; destruct b; reflexivity).
      cbn [List.filter]. rewrite !Hrm.
      destruct b; cbn [negb].
      * split; [cbn [length]; rewrite Nat2Z.inj_succ; reflexivity|]. split; assumption.
      * split; [reflexivity|].
        split; intros res'; cbn [rows_of_slots]; rewrite Ep; cbn [obind Wowo._checkMatch].
        -- rewrite Hnone, <- app_assoc. reflexivity.
        -- change (Wowo._checkMatch o c) with (Wowo._checkMatch o c). rewrite Hb. cbn [obind].
           apply Hc.
    + destruct (IH _ _ H Hall) as (ks & new & -> & Hsp & Hnone & Hc).
      rewrite Hsp. cbn [obind fst snd].
      exists (d :: ks), new. split; [reflexivity|]. split; [reflexivity|].
      split; intros res'; cbn [rows_of_slots]; rewrite Ep; cbn [obind]; [apply Hnone|apply Hc].
    + discriminate H.
Qed.

Lemma split_pages_rows c pages : forall res all,
  rows_of_pages None pages res = Ok all ->
  (forall r, In r all -> exists b, Wowo._checkMatch r c = Ok b) ->
  exists pages' new,
    all = res ++ new
    /\ split_pages c pages
       = Ok (pages', Z.of_nat (length (List.filter (row_matches c) new)))
    /\ (forall res', rows_of_pages None pages' res'
                     = Ok (res' ++ List.filter (fun r => negb (row_matches c r)) new))
    /\ (forall res', rows_of_pages c pages' res' = Ok res').
Proof.
  induction pages as [|[p slots] rest IH]; intros res all H Hall.
  - cbn in H. injection H as <-. exists [], []. rewrite app_nil_r.
    split; [reflexivity|]. split; [reflexivity|].
    split; intros res'; cbn; rewrite ?app_nil_r; reflexivity.
  - cbn [rows_of_pages] in H. apply obind_Ok in H. destruct H as (mid & H1 & H2).
    destruct (IH _ _ H2 Hall) as (pages' & new2 & -> & Hsp2 & Hnone2 & Hc2).
    destruct (split_slots_rows c slots res mid H1) as (ks & new1 & -> & Hsp1 & Hnone1 & Hc1).
    { intros r Hr. apply Hall. apply in_or_app. left. exact Hr. }
    exists ((p, ks) :: pages'), (new1 ++ new2).
    split; [rewrite <- app_assoc; reflexivity|].
    cbn [split_pages]. rewrite Hsp1, Hsp2. cbn [obind fst snd].
    rewrite !List.filter_app, length_app.
    split; [f_equal; f_equal; lia|].
    split; intros res'; cbn [rows_of_pages].
    + rewrite Hnone1. cbn [obind]. rewrite Hnone2, <- app_assoc. reflexivity.
    + rewrite Hc1. cbn [obind]. apply Hc2.
Qed.

(** First engine, DELETE: the records that match are gone, the others
    stay in their order, and the message counts the removed ones. *)
Theorem delete_removes_the_matching_records
    (fuel : nat) (table : string) (c : option Wowo.criteria) (s : db) (e : table_entry)
    (pages : list (Z * list (list Byte.byte))) (all : list obj) :
  fst (_findTableEntry table s) = Ok (Some e) ->
  table_holds s e pages ->
  indexes s = [] ->
  (length pages <= fuel)%nat ->
  fst (Wowo._select fuel table None s) = Ok all ->
  (forall r, In r all -> exists b, Wowo._checkMatch r c = Ok b) ->
  exists s',
    Wowo._delete fuel table c s
    = (Ok (deleted_message (Z.of_nat (length (List.filter (row_matches c) all)))), s')
    /\ fst (Wowo._select fuel table None s')
       = Ok (List.filter (fun r => negb (row_matches c r)) all)
    /\ fst (Wowo._select fuel table c s') = Ok []
    /\ (forall other, fst (_findTableEntry other s') = fst (_findTableEntry other s)).
Proof.
  intros Hfind Hholds Hix Hfuel Hsel Hall.
  rewrite (select_scans_the_chain fuel table None s e pages Hfind Hix Hholds Hfuel) in Hsel.
  cbn [fst] in Hsel.
  destruct (split_pages_rows c pages [] all Hsel Hall) as (pages' & new & Hnew & Hsp & Hnone & Hc).
  cbn [app] in Hnew. subst new.
  destruct Hholds as (Hch & Hnd & Hlast).
  destruct (delete_pages_chain c pages fuel (startPage e) 0 s _ Hch Hnd Hfuel Hsp)
    as (s' & Hdel & Hch' & Hother & Hix').
  pose proof (split_pages_ids _ _ _ Hsp) as Hids. cbn [fst snd] in *.
  assert (Hp0 : page0 s' = page0 s).
  { unfold page0. rewrite Hother; [reflexivity|].
    intros Hin. pose proof (chain_holds_pos _ _ _ Hch) as Hpos.
    apply list_elem_of_fmap in Hin. destruct Hin as (pg & H0 & Hpg).
    rewrite Forall_forall in Hpos. specialize (Hpos pg Hpg). lia. }
  assert (Hfind' : forall other, fst (_findTableEntry other s') = fst (_findTableEntry other s)).
  { intros other. symmetry. apply findTableEntry_page0. exact Hp0. }
  assert (Hholds' : table_holds s' e pages').
  { split; [exact Hch'|]. rewrite Hids. split; assumption. }
  assert (Hlen' : (length pages' <= fuel)%nat).
  { rewrite <- (length_map fst pages'), Hids, length_map. exact Hfuel. }
  exists s'. split.
  { unfold Wowo._delete, bind. rewrite (findTableEntry_eq _ _ _ Hfind). rewrite Hdel.
    reflexivity. }
  rewrite !(select_scans_the_chain fuel table _ s' e pages')
    by (try assumption; try (rewrite Hfind'; assumption); rewrite Hix'; assumption).
  cbn [fst]. rewrite Hnone, Hc. cbn [app]. repeat split. exact Hfind'.
Qed.

Lemma delete_witness_one_of_two :
  exists s',
    Wowo._delete 1 "karet" (id_is 1) karet_2_db = (Ok (deleted_message 1), s')
    /\ fst (Wowo._select 1 "karet" None s') = Ok [rec_id 2]
    /\ fst (Wowo._select 1 "karet" (id_is 1) s') = Ok []
    /\ (forall other,
          fst (_findTableEntry other s') = fst (_findTableEntry other karet_2_db)).
Proof.
  apply (delete_removes_the_matching_records 1 "karet" (id_is 1) karet_2_db karet_entry
           [(1, [Buffer_from (JSON_stringify (rec_id 1));
                 Buffer_from (JSON_stringify (rec_id 2))])]
           [rec_id 1; rec_id 2]).
  - vm_compute. reflexivity.
  - split; [|split].
    + eapply chain_page; [reflexivity | vm_compute; reflexivity | | constructor].
      repeat split; vm_compute; try reflexivity; discriminate.
    + apply NoDup_singleton.
    + reflexivity.
  - reflexivity.
  - cbn. lia.
  - vm_compute. reflexivity.
  - intros r [<- | [<- | []]]; eexists; vm_compute; reflexivity.
Defined.

(** ** The first engine: compound criteria *)

Lemma cond_holds_Ok o cond b :
  Wowo._checkSingleCondition o cond = Ok b -> cond_holds o cond = b.
Proof. intros H. unfold cond_holds. rewrite H. destruct b; reflexivity. Qed.

Lemma checkMatch_loop_or o conds : forall result,
  Forall (fun cond => exists b, Wowo._checkSingleCondition o cond = Ok b) conds ->
  Wowo.checkMatch_loop o conds result "OR" = Ok (result || existsb (cond_holds o) conds).
Proof.
  induction conds as [|cond rest IH]; intros result Hall.
  - cbn. rewrite orb_false_r. reflexivity.
  - apply Forall_cons in Hall. destruct Hall as [[b Hb] Hall].
    cbn [Wowo.checkMatch_loop existsb]. rewrite Hb. cbn [obind].
    rewrite orb_true_r. rewrite (IH _ Hall). rewrite (cond_holds_Ok _ _ _ Hb).
    rewrite orb_assoc. reflexivity.
Qed.

Lemma checkMatch_loop_and o pre rest : forall result,
  Forall (fun cond => exists b, Wowo._checkSingleCondition o cond = Ok b) pre ->
  forallb (fun cond => negb (is_or cond)) pre = true ->
  Wowo.checkMatch_loop o (pre ++ rest) result "AND"
  = Wowo.checkMatch_loop o rest (result && forallb (cond_holds o) pre) "AND".
Proof.
  induction pre as [|cond pre IH]; intros result Hall Hnor.
  - cbn. rewrite andb_true_r. reflexivity.
  - apply Forall_cons in Hall. destruct Hall as [[b Hb] Hall].
    cbn [forallb] in Hnor. apply andb_true_iff in Hnor. destruct Hnor as [Hc Hnor].
    apply negb_true_iff in Hc. unfold is_or in Hc.
    cbn [app Wowo.checkMatch_loop forallb]. rewrite Hb. cbn [obind]. rewrite Hc.
    cbn [orb String.eqb Ascii.eqb Bool.eqb].
    rewrite (IH _ Hall Hnor). rewrite (cond_holds_Ok _ _ _ Hb).
    rewrite andb_assoc. reflexivity.
Qed.

(** First engine, compound criteria: from the first condition joined
    with OR on, every condition is OR-ed to the result, also one that is
    joined with AND. *)
Theorem compound_criteria_or_is_sticky
    (o : obj) (pre post : list Wowo.condition) (cond : Wowo.condition) :
  Forall (fun x => exists b, Wowo._checkSingleCondition o x = Ok b) (pre ++ cond :: post) ->
  forallb (fun x => negb (is_or x)) pre = true ->
  is_or cond = true ->
  Wowo._checkMatch o (Some (Wowo.Compound (pre ++ cond :: post)))
  = Ok (forallb (cond_holds o) pre || cond_holds o cond || existsb (cond_holds o) post).
Proof.
  intros Hall Hpre Hor. apply Forall_app in Hall. destruct Hall as [Hall1 Hall2].
  cbn [Wowo._checkMatch]. rewrite (checkMatch_loop_and o pre _ true Hall1 Hpre).
  apply Forall_cons in Hall2. destruct Hall2 as [[b Hb] Hall2].
  cbn [Wowo.checkMatch_loop andb]. rewrite Hb. cbn [obind]. unfold is_or in Hor. rewrite Hor.
  cbn [orb]. rewrite (checkMatch_loop_or o post _ Hall2). rewrite (cond_holds_Ok _ _ _ Hb).
  reflexivity.
Qed.

Lemma compound_or_is_sticky_witness_and_after_or :
  Wowo._checkMatch rec_a1_b1_c0 (Some (Wowo.Compound [cond_a; cond_b; cond_c])) = Ok true.
Proof.
  apply (compound_criteria_or_is_sticky rec_a1_b1_c0 [cond_a] [cond_c] cond_b);
    [|reflexivity|reflexivity].
  repeat constructor; eexists; vm_compute; reflexivity.
Defined.

(** ** Scans of the modular engine *)

Lemma decode_items_holds buf slots : forall off,
  holds_at buf off slots -> buf_length buf <= 65535 ->
  decode_items (length slots) buf off = items_of_slots slots.
Proof.
  induction slots as [|d rest IH]; intros off H Hb.
  - reflexivity.
  - pose proof (holds_at_length_bound _ _ _ H Hb) as Hbound.
    apply Forall_cons in Hbound. destruct Hbound as [Hd _].
    destruct (holds_at_cons buf off d rest H Hd) as (Hr & Hs & Hrest).
    cbn [length decode_items items_of_slots]. rewrite Hr. cbn [obind].
    unfold buf_toString. rewrite Hs. fold (slot_text d).
    rewrite (IH _ Hrest Hb). reflexivity.
Qed.

Lemma decode_page_holds buf next slots :
  page_holds buf next slots ->
  decode_page buf = (items <-? items_of_slots slots ;; Ok (next, items)).
Proof.
  intros Hpage. destruct (page_holds_reads _ _ _ Hpage) as (Hn & Hc & _).
  destruct (page_holds_at _ _ _ Hpage) as (Hat & Hb).
  unfold decode_page. rewrite Hn, Hc. cbn [obind]. rewrite Nat2Z.id.
  rewrite (decode_items_holds buf slots 8 Hat Hb). reflexivity.
Qed.

(** [readPageObjects] on a page of the file, with a cache that agrees
    with the file: the decoded page, and a state that differs in the
    cache only. *)
Lemma readPageObjects_decodes s p buf :
  0 <= p -> file s !! p = Some buf -> cache_ok s ->
  exists s',
    readPageObjects p s = (decode_page buf, s')
    /\ file s' = file s /\ indexes s' = indexes s /\ events s' = events s
    /\ queryString s' = queryString s
    /\ cache_ok s'.
Proof.
  intros Hp Hf Hc. unfold readPageObjects, bind at 1, gets at 1. cbv beta iota.
  destruct (objectCache s !! p) as [entry|] eqn:Ec.
  - destruct (Hc p entry Ec) as (buf' & Hf' & Hd). rewrite Hf in Hf'. injection Hf' as <-.
    exists s. rewrite Hd. unfold ret. repeat split; try reflexivity. exact Hc.
  - unfold bind at 1. rewrite (readPage_file s p buf Hp Hf).
    unfold decode_page, bind, lift.
    destruct (readUInt32LE buf 0) as [next| |] eqn:En; cbn [obind];
      [|exists s; repeat split; try reflexivity; exact Hc..].
    destruct (readUInt16LE buf 4) as [count| |] eqn:Ecount; cbn [obind];
      [|exists s; repeat split; try reflexivity; exact Hc..].
    destruct (decode_items (Z.to_nat count) buf 8) as [items| |] eqn:Ei; cbn [obind];
      [|exists s; repeat split; try reflexivity; exact Hc..].
    unfold modify, ret. eexists. split; [reflexivity|]. cbn [file indexes events queryString].
    repeat split; try reflexivity.
    intros q entry Hq. cbn [objectCache file] in *.
    destruct (Z.eq_dec q p) as [->|Hne].
    + rewrite lookup_insert_eq in Hq. injection Hq as <-. exists buf. split; [exact Hf|].
      unfold decode_page. rewrite En, Ecount. cbn [obind]. rewrite Ei. reflexivity.
    + rewrite lookup_insert_ne in Hq by congruence. apply Hc, Hq.
Qed.

(** An unlimited scan of a chain, with a cache that agrees with the file. *)
Lemma scan_pages_chain c pages : forall fuel p results s,
  chain_holds (file s) p pages ->
  cache_ok s ->
  (length pages <= fuel)%nat ->
  exists s',
    scan_pages fuel c None false p results s = (scan_of_pages c pages results, s')
    /\ file s' = file s /\ indexes s' = indexes s /\ events s' = events s
    /\ queryString s' = queryString s
    /\ cache_ok s'.
Proof.
  induction pages as [|[p0 slots] rest IH]; intros fuel p results s Hch Hc Hfuel.
  - inversion Hch; subst. exists s. split; [destruct fuel; reflexivity|].
    repeat split; try reflexivity. exact Hc.
  - inversion Hch as [|p' next buf sl rest' Hp Hf Hpage Hrest]; subst.
    destruct fuel as [|fuel]; [cbn [length] in Hfuel; lia|].
    cbn [scan_pages scan_of_pages below_limit].
    replace (p0 =? 0) with false by (symmetry; apply Z.eqb_neq; lia).
    cbn [orb negb].
    destruct (readPageObjects_decodes s p0 buf ltac:(lia) Hf Hc)
      as (s1 & Hrd & Hf1 & Hi1 & He1 & Hq1 & Hc1).
    unfold bind at 1. rewrite Hrd. rewrite (decode_page_holds _ _ _ Hpage).
    destruct (items_of_slots slots) as [items| |]; cbn [obind];
      [|exists s1; repeat split; try reflexivity; assumption..].
    cbn [snd fst]. unfold bind at 1. unfold lift at 1.
    destruct (scan_items c None false p0 items results) as [r| |]; cbn [obind];
      [|exists s1; repeat split; try reflexivity; assumption..].
    unfold bind at 1. unfold ret at 1. cbv beta iota.
    assert (Hch1 : chain_holds (file s1) next rest) by (rewrite Hf1; exact Hrest).
    destruct (IH fuel next (fst r) s1 Hch1 Hc1 ltac:(cbn [length] in Hfuel; lia))
      as (s' & Hs & Hf' & Hi' & He' & Hq' & Hc').
    exists s'. rewrite Hs. split; [reflexivity|].
    repeat split; try congruence. exact Hc'.
Qed.

(** ** INSERT, then SELECT *)

Lemma store_record_keeps_count buf free d q :
  6 <= free -> store_record buf free d = Ok q -> readUInt16LE q 4 = readUInt16LE buf 4.
Proof.
  intros Hfree H. unfold store_record, writeUInt16LE in H.
  destruct ((buf_length d <? 0) || (65535 <? buf_length d)); [discriminate|].
  destruct ((free <? 0) || (buf_length buf - 2 <? free)); [discriminate|].
  cbn [obind] in H. injection H as <-. unfold buf_copy.
  rewrite readUInt16LE_blit_outside by lia.
  rewrite readUInt16LE_blit_outside by (cbn [length]; lia). reflexivity.
Qed.

Lemma set_indexes_same s : set_indexes (indexes s) s = (Ok tt, s).
Proof. unfold set_indexes, modify. destruct s. reflexivity. Qed.

(** [_insert] of a record that fits into the last page of its table, in
    a database without indexes. *)
Lemma insert_fits_main (table : string) (data : obj) (s : db) (e : table_entry)
    (init : list (Z * list (list Byte.byte))) (slots : list (list Byte.byte)) :
  fst (_findTableEntry table s) = Ok (Some e) ->
  table_holds s e (init ++ [(lastPage e, slots)]) ->
  cache_ok s ->
  indexes s = [] ->
  fields data <> [] ->
  layout_end slots + 2 + Buffer_byteLength (JSON_stringify data) <= PAGE_SIZE ->
  exists s',
    _insert table data s = (Ok (inserted_message 1), s')
    /\ table_holds s' e (init ++ [(lastPage e, slots ++ [Buffer_from (JSON_stringify data)])])
    /\ page0 s' = page0 s
    /\ indexes s' = []
    /\ cache_ok s'
    /\ queryString s' = queryString s
    /\ events s'
       = events s ++ [OnTableInserted table [define_pageId data (lastPage e)] (queryString s)].
Proof.
  intros Hfind (Hch & Hnd & Hlast) Hc Hix Hne Hfit.
  destruct (chain_holds_last _ _ _ _ _ Hch) as (HL & buf & Hbuf & Hpage).
  destruct (page_holds_reads _ _ _ Hpage) as (_ & Hcount & Hfree).
  destruct (insert_into_page buf 0 slots (Buffer_from (JSON_stringify data)) Hpage)
    as (buf' & Hw & Hpage'); [exact Hfit|].
  apply obind_Ok in Hw. destruct Hw as (q1 & Hq1 & Hw).
  apply obind_Ok in Hw. destruct Hw as (cnt & Hcnt & Hw).
  apply obind_Ok in Hw. destruct Hw as (q2 & Hq2 & Hw).
  assert (cnt = Z.of_nat (length slots)).
  { assert (H6 : 6 <= layout_end slots) by (unfold layout_end; lia).
    rewrite (store_record_keeps_count _ _ _ _ H6 Hq1), Hcount in Hcnt.
    injection Hcnt as <-. reflexivity. }
  subst cnt.
  unfold _insert. destruct (fields data) eqn:Ef; [contradiction|]. clear Ef.
  unfold _insertMany.
  unfold bind at 1. rewrite (findTableEntry_eq _ _ _ Hfind).
  unfold bind at 1. rewrite (readPage_file s (lastPage e) buf) by (try lia; exact Hbuf).
  unfold bind at 1. unfold lift at 1. rewrite Hfree.
  unfold bind at 1. unfold lift at 1. rewrite Hcount.
  unfold bind at 1. cbn [_insertMany_loop]. unfold bind at 1.
  unfold _insertMany_step. cbn [ins_free ins_buf ins_page ins_count ins_changed].
  change (buf_length (Buffer_from (JSON_stringify data)))
    with (Buffer_byteLength (JSON_stringify data)).
  replace (PAGE_SIZE <? layout_end slots + (2 + Buffer_byteLength (JSON_stringify data)))
    with false by (symmetry; apply Z.ltb_ge; lia).
  unfold bind at 1. unfold ret at 1. cbv beta iota.
  cbn [ins_free ins_buf ins_page ins_count ins_changed].
  unfold bind at 1. unfold lift at 1. rewrite Hq1.
  assert (Hupd : (if negb (String.eqb table "_indexes")
                  then _updateIndexes table (Some (define_pageId data (lastPage e))) None
                  else ret tt) s = (Ok tt, s)).
  { destruct (negb (String.eqb table "_indexes")); [|reflexivity].
    unfold _updateIndexes, bind, gets. rewrite Hix. cbn [map]. rewrite <- Hix.
    apply set_indexes_same. }
  unfold bind at 1. rewrite Hupd. unfold ret at 1.
  unfold bind at 1. unfold ret at 1. unfold ret at 1. cbn [fst snd].
  cbn [ins_free ins_buf ins_page ins_count ins_changed].
  unfold bind at 1. unfold lift at 1. rewrite Hq2.
  unfold bind at 1. unfold lift at 1.
  change (buf_length (Buffer_from (JSON_stringify data)))
    with (Buffer_byteLength (JSON_stringify data)) in Hw.
  rewrite Hw.
  unfold bind at 1. unfold writePage. destruct Hpage' as (Hlen' & Hrest'). rewrite Hlen'.
  change (negb (PAGE_SIZE =? PAGE_SIZE)) with false.
  replace (lastPage e <? 0) with false by (symmetry; apply Z.ltb_ge; lia).
  cbv iota. unfold modify at 1.
  unfold bind at 1. unfold ret at 1.
  unfold bind at 1. unfold gets at 1.
  unfold bind at 1. unfold emit, modify. unfold ret.
  cbn [file objectCache indexes events queryString length].
  eexists. split; [reflexivity|]. cbn [file objectCache indexes events queryString].
  split; [|split; [|split; [exact Hix|split; [|split; reflexivity]]]].
  - split; [|split].
    + apply (chain_holds_update_last _ _ _ _ slots); [exact Hch|exact Hnd|].
      split; [exact Hlen'|exact Hrest'].
    + rewrite map_app in *. exact Hnd.
    + rewrite map_app in *. exact Hlast.
  - unfold page0. cbn [file]. rewrite lookup_insert_ne by lia. reflexivity.
  - intros pg entry Hpg. cbn [objectCache file] in *.
    destruct (Z.eq_dec pg (lastPage e)) as [->|Hneq].
    + rewrite lookup_delete_eq in Hpg. discriminate.
    + rewrite lookup_delete_ne in Hpg by congruence.
      rewrite lookup_insert_ne by congruence. apply Hc, Hpg.
Qed.

Lemma limit_offset_none {A} (l : list A) : limit_offset l None None = l.
Proof.
  unfold limit_offset, js_slice. rewrite Z.ltb_irrefl.
  pose proof (Nat2Z.is_nonneg (length l)) as Hlen.
  replace (Z.of_nat (length l) <? 0) with false by (symmetry; apply Z.ltb_ge; lia).
  change (0 <? 0) with false. cbv iota.
  rewrite Z.min_id. rewrite (Z.min_l 0) by lia. rewrite Z.sub_0_r, Nat2Z.id.
  change (drop (Z.to_nat 0) l) with l. apply firstn_all.
Qed.

Lemma no_index_scans table c :
  select_access_path [] table c None None [] = TableScan None.
Proof.
  unfold select_access_path. destruct c as [[key op val|logic cs]|]; try reflexivity.
  destruct (String.eqb op "="); reflexivity.
Qed.

(** [_select] without sort, limit, offset and joins, in a database
    without indexes and with a cache that agrees with the file, returns
    the scan of the pages the table holds. *)
Lemma select_scans_main fuel table c s e pages :
  fst (_findTableEntry table s) = Ok (Some e) ->
  indexes s = [] ->
  table_holds s e pages ->
  cache_ok s ->
  (length pages <= fuel)%nat ->
  fst (_select fuel table c None None None [] s) = scan_of_pages c pages [].
Proof.
  intros Hfind Hix (Hch & _ & _) Hc Hfuel.
  unfold _select. unfold bind at 1. rewrite (findTableEntry_eq _ _ _ Hfind).
  unfold bind at 1. unfold gets at 1. cbv beta iota. rewrite Hix, no_index_scans.
  unfold _scanTable. cbn [effective_limit].
  destruct (scan_pages_chain c pages fuel (startPage e) [] s Hch Hc Hfuel) as (s1 & Hs & _).
  unfold bind at 1. rewrite Hs.
  destruct (scan_of_pages c pages []) as [r| |]; [|reflexivity..].
  unfold bind, ret, gets, emit, modify. cbn [fst]. rewrite limit_offset_none. reflexivity.
Qed.

Lemma scan_of_pages_app c a b results :
  scan_of_pages c (a ++ b) results
  = (r <-? scan_of_pages c a results ;; scan_of_pages c b r).
Proof.
  revert results. induction a as [|[p slots] a IH]; intros results; [reflexivity|].
  cbn [app scan_of_pages].
  destruct (items_of_slots slots) as [items| |]; cbn [obind]; try reflexivity.
  destruct (scan_items c None false p items results) as [r| |]; cbn [obind]; try reflexivity.
  apply IH.
Qed.

Lemma items_of_slots_snoc slots d o :
  JSON_parse (slot_text d) = Ok o ->
  items_of_slots (slots ++ [d]) = (items <-? items_of_slots slots ;; Ok (items ++ [o])).
Proof.
  intros Hp. induction slots as [|x slots IH].
  - cbn. rewrite Hp. reflexivity.
  - cbn [app items_of_slots]. rewrite IH.
    destruct (items_of_slots slots) as [items| |]; cbn [obind]; try reflexivity.
    destruct (JSON_parse (slot_text x)); reflexivity.
Qed.

Lemma scan_items_snoc c p items o : forall results,
  scan_items c None false p (items ++ [o]) results
  = (r <-? scan_items c None false p items results ;;
     m <-? scan_matches c o ;;
     Ok (if m then fst r ++ [o] else fst r, snd r ++ [o])).
Proof.
  induction items as [|x items IH]; intros results.
  - cbn [app scan_items below_limit negb obind fst snd].
    destruct (scan_matches c o) as [m| |]; cbn [obind]; try reflexivity.
    rewrite andb_false_r. reflexivity.
  - cbn [app scan_items below_limit negb].
    destruct (scan_matches c x) as [mx| |]; cbn [obind]; try reflexivity.
    rewrite andb_false_r. rewrite IH.
    destruct (scan_items c None false p items _) as [r| |]; cbn [obind]; try reflexivity.
    destruct (scan_matches c o) as [m| |]; cbn [obind]; reflexivity.
Qed.

Lemma scan_of_pages_snoc_slot c init L slots d o m rows :
  JSON_parse (slot_text d) = Ok o ->
  scan_matches c o = Ok m ->
  scan_of_pages c (init ++ [(L, slots)]) [] = Ok rows ->
  scan_of_pages c (init ++ [(L, slots ++ [d])]) [] = Ok (rows ++ (if m then [o] else [])).
Proof.
  intros Hp Hm H. rewrite scan_of_pages_app in *.
  destruct (scan_of_pages c init []) as [r0| |]; cbn [obind] in *; try discriminate.
  cbn [scan_of_pages] in *. rewrite (items_of_slots_snoc slots d o Hp).
  destruct (items_of_slots slots) as [items| |]; cbn [obind] in *; try discriminate.
  rewrite scan_items_snoc.
  destruct (scan_items c None false L items r0) as [r| |]; cbn [obind] in *; try discriminate.
  injection H as <-. rewrite Hm. cbn [obind fst].
  destruct m; [reflexivity|rewrite app_nil_r; reflexivity].
Qed.

(** INSERT, then SELECT: a record that fits into the last page of its
    table is appended to that page, and a SELECT without sort, limit and
    offset then returns what it returned before, followed by the record
    if it passes the condition check of the scan. *)
Theorem insert_then_scan_returns_the_record
    (fuel : nat) (table : string) (c : option criteria) (data : obj) (m : bool)
    (s : db) (e : table_entry)
    (init : list (Z * list (list Byte.byte))) (slots : list (list Byte.byte))
    (rows : list obj) :
  fst (_findTableEntry table s) = Ok (Some e) ->
  table_holds s e (init ++ [(lastPage e, slots)]) ->
  cache_ok s ->
  indexes s = [] ->
  fields data <> [] ->
  record_ok (fields data) = true ->
  layout_end slots + 2 + Buffer_byteLength (JSON_stringify data) <= PAGE_SIZE ->
  (length init < fuel)%nat ->
  scan_matches c (plain (fields data)) = Ok m ->
  fst (_select fuel table c None None None [] s) = Ok rows ->
  exists s',
    _insert table data s = (Ok (inserted_message 1), s')
    /\ table_holds s' e (init ++ [(lastPage e, slots ++ [Buffer_from (JSON_stringify data)])])
    /\ events s'
       = events s ++ [OnTableInserted table [define_pageId data (lastPage e)] (queryString s)]
    /\ fst (_select fuel table c None None None [] s')
       = Ok (rows ++ (if m then [plain (fields data)] else [])).
Proof.
  intros Hfind Hth Hc Hix Hne Hok Hfit Hfuel Hm Hsel.
  destruct (insert_fits_main table data s e init slots Hfind Hth Hc Hix Hne Hfit)
    as (s' & Hins & Hth' & Hp0 & Hix' & Hc' & _ & Hev).
  exists s'. split; [exact Hins|]. split; [exact Hth'|]. split; [exact Hev|].
  assert (Hfind' : fst (_findTableEntry table s') = Ok (Some e)).
  { rewrite (findTableEntry_page0 table s s') by (symmetry; exact Hp0). exact Hfind. }
  assert (Hlen : forall x, (length (init ++ [x]) <= fuel)%nat).
  { intros x. rewrite length_app. cbn [length]. lia. }
  rewrite (select_scans_main fuel table c s e _ Hfind Hix Hth Hc (Hlen _)) in Hsel.
  rewrite (select_scans_main fuel table c s' e _ Hfind' Hix' Hth' Hc' (Hlen _)).
  apply (scan_of_pages_snoc_slot c init (lastPage e) slots _ (plain (fields data)) m rows);
    [|exact Hm|exact Hsel].
  rewrite slot_text_Buffer_from. apply JSON_parse_stringify, Hok.
Qed.

Lemma insert_then_scan_witness_second_record :
  exists s',
    _insert "t" (rec_id 2) one_row_db = (Ok (inserted_message 1), s')
    /\ table_holds s' t_entry
         ([] ++ [(lastPage t_entry,
                  [Buffer_from (JSON_stringify (rec_id 1))]
                  ++ [Buffer_from (JSON_stringify (rec_id 2))])])
    /\ events s'
       = events one_row_db
         ++ [OnTableInserted "t" [define_pageId (rec_id 2) (lastPage t_entry)]
                             (queryString one_row_db)]
    /\ fst (_select 1 "t" (id_eq 2) None None None [] s')
       = Ok ([] ++ [plain (fields (rec_id 2))]).
Proof.
  apply (insert_then_scan_returns_the_record 1 "t" (id_eq 2) (rec_id 2) true one_row_db
           t_entry [] [Buffer_from (JSON_stringify (rec_id 1))] []).
  - vm_compute. reflexivity.
  - split; [|split].
    + eapply chain_page; [reflexivity | vm_compute; reflexivity | | constructor].
      repeat split; vm_compute; try reflexivity; discriminate.
    + apply NoDup_singleton.
    + reflexivity.
  - intros p entry H. vm_compute in H. discriminate H.
  - reflexivity.
  - discriminate.
  - reflexivity.
  - vm_compute. discriminate.
  - cbn. lia.
  - reflexivity.
  - vm_compute. reflexivity.
Defined.

(** ** DELETE by a full scan *)

Lemma keep_slots_facts c slots ks del :
  keep_slots c slots = Ok (ks, del) ->
  (length ks + length del = length slots)%nat
  /\ layout_end ks <= layout_end slots
  /\ (del = [] -> ks = slots).
Proof.
  revert ks del. induction slots as [|d rest IH]; intros ks del H.
  - cbn in H. injection H as <- <-. cbn. repeat split; lia.
  - cbn [keep_slots] in H.
    pose proof (length_layout_cons d rest) as Hl. unfold layout_end in *.
    destruct (parsedObj <-? JSON_parse (slot_text d);; m <-? _checkMatch parsedObj c;; Ok (parsedObj, m))
      as [[o [|]]| |]; try discriminate;
      apply obind_Ok in H; destruct H as ([ks' del'] & Hr & H); cbn [fst snd] in H;
      injection H as <- <-; destruct (IH ks' del' Hr) as (Hlen & Hle & Hall); cbn [length].
    + repeat split; try lia. discriminate.
    + pose proof (length_layout_cons d ks') as Hl'.
      repeat split; try lia. intros Hz. rewrite (Hall Hz). reflexivity.
    + pose proof (length_layout_cons d ks') as Hl'.
      repeat split; try lia. intros Hz. rewrite (Hall Hz). reflexivity.
Qed.

Lemma removeFromIndexes_none table o s :
  indexes s = [] ->
  (if negb (String.eqb table "_indexes") then _removeFromIndexes table o else ret tt) s
  = (Ok tt, s).
Proof.
  intros Hix. destruct (negb (String.eqb table "_indexes")); [|reflexivity].
  unfold _removeFromIndexes, bind, gets. rewrite Hix. cbn [map]. rewrite <- Hix.
  apply set_indexes_same.
Qed.

Lemma removeFromIndexes_skip table o s :
  table = "_indexes" \/ indexes s = [] ->
  (if negb (String.eqb table "_indexes") then _removeFromIndexes table o else ret tt) s
  = (Ok tt, s).
Proof. intros [->|Hix]; [reflexivity|apply removeFromIndexes_none, Hix]. Qed.

(** The slot loop of [_delete] on a region that holds slots, on the
    table [_indexes] or in a database without indexes: the state stays
    as it is. *)
Lemma delete_slots_main table c buf s slots : forall off keep modified cnt data,
  holds_at buf off slots -> buf_length buf <= 65535 ->
  table = "_indexes" \/ indexes s = [] ->
  _delete_slots (length slots) table c buf (mkDelPage off keep modified cnt data) s
  = (r <-? keep_slots c slots ;;
     Ok (mkDelPage (off + Z.of_nat (length (layout slots)))
                   (keep ++ map kept_of (fst r))
                   (modified || negb (Nat.eqb (length (snd r)) 0))
                   (cnt + Z.of_nat (length (snd r)))
                   (data ++ snd r)), s).
Proof.
  induction slots as [|d rest IH]; intros off keep modified cnt data H Hb Hix.
  - cbn. rewrite !app_nil_r, !Z.add_0_r, orb_false_r. reflexivity.
  - pose proof (holds_at_length_bound _ _ _ H Hb) as Hbound.
    apply Forall_cons in Hbound. destruct Hbound as [Hd _].
    destruct (holds_at_cons buf off d rest H Hd) as (Hr & Hs & Hrest).
    pose proof (length_layout_cons d rest) as Hl.
    cbn [length _delete_slots keep_slots del_offset del_keep del_modified del_count del_data].
    unfold bind at 1. unfold lift at 1. rewrite Hr.
    unfold buf_toString. rewrite Hs. fold (slot_text d).
    destruct (parsedObj <-? JSON_parse (slot_text d);; m <-? _checkMatch parsedObj c;; Ok (parsedObj, m))
      as [[o [|]]| |]; try reflexivity.
    + unfold bind at 1. unfold ret at 1. unfold bind at 1. unfold bind at 1.
      rewrite (removeFromIndexes_skip table o s Hix). unfold ret at 1.
      cbn [del_offset del_keep del_modified del_count del_data].
      rewrite (IH _ _ _ _ _ Hrest Hb Hix).
      destruct (keep_slots c rest) as [[ks del]| |]; cbn [obind fst snd]; try reflexivity.
      cbn [length Nat.eqb negb]. rewrite orb_true_r. rewrite <- app_assoc. cbn [app].
      f_equal. f_equal. f_equal; lia.
    + unfold bind at 1. unfold ret at 1. unfold bind at 1. unfold ret at 1.
      cbn [del_offset del_keep del_modified del_count del_data].
      rewrite (IH _ _ _ _ _ Hrest Hb Hix).
      destruct (keep_slots c rest) as [[ks del]| |]; cbn [obind fst snd]; try reflexivity.
      rewrite <- app_assoc. cbn [app map kept_of].
      f_equal. f_equal. f_equal; lia.
    + unfold bind at 1. unfold ret at 1. unfold bind at 1. unfold ret at 1.
      cbn [del_offset del_keep del_modified del_count del_data].
      rewrite (IH _ _ _ _ _ Hrest Hb Hix).
      destruct (keep_slots c rest) as [[ks del]| |]; cbn [obind fst snd]; try reflexivity.
      rewrite <- app_assoc. cbn [app map kept_of].
      f_equal. f_equal. f_equal; lia.
Qed.

Lemma keep_pages_ids c pages r :
  keep_pages c pages = Ok r -> map fst (fst r) = map fst pages.
Proof.
  revert r. induction pages as [|[p slots] rest IH]; intros r H.
  - cbn in H. injection H as <-. reflexivity.
  - cbn [keep_pages] in H. apply obind_Ok in H. destruct H as (r1 & H1 & H).
    apply obind_Ok in H. destruct H as (r2 & H2 & H). injection H as <-.
    cbn [fst map]. rewrite (IH r2 H2). reflexivity.
Qed.

(** The page loop of a full-scan [_delete] on a chain that visits no
    page twice, on the table [_indexes] or in a database without
    indexes. *)
Lemma delete_pages_main table c pages : forall fuel p cnt data s r,
  chain_holds (file s) p pages ->
  NoDup (map fst pages) ->
  (length pages <= fuel)%nat ->
  table = "_indexes" \/ indexes s = [] ->
  keep_pages c pages = Ok r ->
  exists s',
    _delete_pages fuel table c (-1) p cnt data s
    = (Ok (cnt + Z.of_nat (length (snd r)), data ++ snd r), s')
    /\ chain_holds (file s') p (fst r)
    /\ (forall q, q ∉ map fst pages -> file s' !! q = file s !! q)
    /\ indexes s' = indexes s
    /\ events s' = events s
    /\ queryString s' = queryString s
    /\ (cache_ok s -> cache_ok s').
Proof.
  induction pages as [|[p0 slots] rest IH]; intros fuel p cnt data s r Hch Hnd Hfuel Hix Hsp.
  - inversion Hch; subst. cbn in Hsp. injection Hsp as <-. exists s.
    split; [destruct fuel; cbn; rewrite Z.add_0_r, app_nil_r; reflexivity|].
    split; [constructor|]. repeat split; try reflexivity; auto.
  - inversion Hch as [|p' next buf sl rest' Hp Hf Hpage Hrest]; subst.
    destruct fuel as [|fuel]; [cbn [length] in Hfuel; lia|].
    cbn [keep_pages] in Hsp. apply obind_Ok in Hsp. destruct Hsp as ([ks del] & H1 & Hsp).
    apply obind_Ok in Hsp. destruct Hsp as (r2 & H2 & Hsp). injection Hsp as <-.
    cbn [fst snd]. cbn [map fst] in Hnd. apply NoDup_cons in Hnd. destruct Hnd as [Hnotin Hnd].
    destruct (keep_slots_facts _ _ _ _ H1) as (Hlen & Hle & Hall).
    destruct (page_holds_reads _ _ _ Hpage) as (Hrn & Hrc & _).
    destruct (page_holds_at _ _ _ Hpage) as (Hat & Hb).
    cbn [_delete_pages].
    replace (p0 =? 0) with false by (symmetry; apply Z.eqb_neq; lia).
    unfold bind at 1. rewrite (readPage_file s p0 buf) by (try lia; exact Hf).
    unfold bind at 1. unfold lift at 1. rewrite Hrc.
    unfold bind at 1. rewrite Nat2Z.id.
    rewrite (delete_slots_main table c buf s slots 8 [] false cnt data Hat Hb Hix). rewrite H1.
    cbn [obind fst snd app orb del_keep del_modified del_count del_data].
    change (negb (-1 =? -1)) with false. cbv iota.
    destruct del as [|o del].
    + rewrite (Hall eq_refl) in *. cbn [length Nat.eqb negb].
      unfold bind at 1. unfold ret at 1. unfold bind at 1. unfold lift at 1. rewrite Hrn.
      destruct (IH fuel next (cnt + Z.of_nat 0) (data ++ []) s r2 Hrest Hnd
                  ltac:(cbn [length] in Hfuel; lia) Hix H2)
        as (s' & Hdel & Hch' & Hother & Hix' & Hev' & Hq' & Hc').
      exists s'. rewrite Hdel. split; [cbn [app length]; rewrite app_nil_r; f_equal; f_equal; f_equal; lia|].
      split.
      { apply (chain_page _ p0 next buf); [exact Hp| |exact Hpage|exact Hch'].
        rewrite (Hother p0 Hnotin). exact Hf. }
      split; [|repeat split; try assumption; auto].
      intros q Hq. cbn [map fst] in Hq. apply not_elem_of_cons in Hq. destruct Hq as [Hne Hq].
      apply Hother, Hq.
    + cbn [length Nat.eqb negb].
      destruct (compact_page_spec buf next slots ks Hpage Hle) as (buf' & Hcp & Hpage').
      destruct (page_holds_reads _ _ _ Hpage') as (Hrn' & _).
      assert (Hb' : buf_length buf' = PAGE_SIZE) by (destruct Hpage'; assumption).
      unfold bind at 1. unfold bind at 1. unfold lift at 1. rewrite Hcp.
      unfold bind at 1. unfold writePage. rewrite Hb'.
      change (negb (PAGE_SIZE =? PAGE_SIZE)) with false. cbv beta iota.
      replace (p0 <? 0) with false by (symmetry; apply Z.ltb_ge; lia).
      unfold modify, ret. unfold bind at 1. unfold lift at 1. rewrite Hrn'.
      set (s1 := mkDb (<[p0:=buf']> (file s)) (delete p0 (objectCache s)) (indexes s)
                      (events s) (queryString s)).
      assert (Hch1 : chain_holds (file s1) next rest).
      { subst s1. cbn [file]. apply chain_holds_insert_other; assumption. }
      assert (Hc1 : cache_ok s -> cache_ok s1).
      { intros Hc q entry Hq. subst s1. cbn [objectCache file] in *.
        destruct (Z.eq_dec q p0) as [->|Hneq].
        - rewrite lookup_delete_eq in Hq. discriminate.
        - rewrite lookup_delete_ne in Hq by congruence.
          rewrite lookup_insert_ne by congruence. apply Hc, Hq. }
      destruct (IH fuel next (cnt + Z.of_nat (S (length del))) (data ++ o :: del) s1 r2 Hch1 Hnd
                  ltac:(cbn [length] in Hfuel; lia) Hix H2)
        as (s' & Hdel & Hch' & Hother & Hix' & Hev' & Hq' & Hc').
      exists s'. rewrite Hdel.
      split; [rewrite length_app, <- app_assoc; cbn [length]; f_equal; f_equal; f_equal; lia|].
      split.
      { apply (chain_page _ p0 next buf'); [exact Hp| |exact Hpage'|exact Hch'].
        rewrite (Hother p0 Hnotin). subst s1. cbn [file]. apply lookup_insert_eq. }
      split; [|repeat split; try assumption; auto].
      intros q Hq. cbn [map fst] in Hq. apply not_elem_of_cons in Hq. destruct Hq as [Hne Hq].
      rewrite (Hother q Hq). subst s1. cbn [file]. apply lookup_insert_ne. congruence.
Qed.

Lemma evaluator_matches_Ok c o b :
  _checkMatch o c = Ok b -> evaluator_matches c o = b.
Proof. intros H. unfold evaluator_matches. rewrite H. destruct b; reflexivity. Qed.

(** The slots a full-scan [_delete] keeps and the records it removes, in
    terms of the records a scan reads from the slots. *)
Lemma keep_slots_items c slots : forall items,
  items_of_slots slots = Ok items ->
  (forall r, In r items -> exists b, _checkMatch r c = Ok b) ->
  exists ks,
    keep_slots c slots = Ok (ks, List.filter (evaluator_matches c) items)
    /\ items_of_slots ks = Ok (List.filter (fun r => negb (evaluator_matches c r)) items).
Proof.
  induction slots as [|d rest IH]; intros items H Hall.
  - cbn in H. injection H as <-. exists []. split; reflexivity.
  - cbn [items_of_slots] in H. apply obind_Ok in H. destruct H as (rest' & Hrest & H).
    cbn [keep_slots].
    destruct (JSON_parse (slot_text d)) as [o|w|w] eqn:Ep; cbn [obind]; try discriminate.
    + injection H as <-.
      destruct (IH rest' Hrest) as (ks & Hk & Hi).
      { intros r Hr. apply Hall. right. exact Hr. }
      destruct (Hall o (or_introl eq_refl)) as [b Hb]. rewrite Hb. cbn [obind].
      cbn [List.filter]. rewrite !(evaluator_matches_Ok c o b Hb).
      destruct b; cbn [negb]; rewrite Hk; cbn [obind fst snd].
      * exists ks. split; [reflexivity|exact Hi].
      * exists (d :: ks). split; [reflexivity|].
        cbn [items_of_slots]. rewrite Hi, Ep. reflexivity.
    + injection H as <-.
      destruct (IH rest' Hrest Hall) as (ks & Hk & Hi).
      rewrite Hk. cbn [obind fst snd]. exists (d :: ks). split; [reflexivity|].
      cbn [items_of_slots]. rewrite Hi, Ep. reflexivity.
Qed.

Lemma scan_items_all p items : forall results,
  scan_items None None false p items results = Ok (results ++ items, items).
Proof.
  induction items as [|o items IH]; intros results.
  - cbn. rewrite app_nil_r. reflexivity.
  - cbn [scan_items below_limit negb]. unfold scan_matches at 1. cbn [simple_criteria obind andb].
    rewrite IH. cbn [obind fst snd]. rewrite <- app_assoc. reflexivity.
Qed.

Lemma keep_pages_rows c pages : forall res all,
  scan_of_pages None pages res = Ok all ->
  (forall r, In r all -> exists b, _checkMatch r c = Ok b) ->
  exists pages' new,
    all = res ++ new
    /\ keep_pages c pages = Ok (pages', List.filter (evaluator_matches c) new)
    /\ (forall res', scan_of_pages None pages' res'
                     = Ok (res' ++ List.filter (fun r => negb (evaluator_matches c r)) new)).
Proof.
  induction pages as [|[p slots] rest IH]; intros res all H Hall.
  - cbn in H. injection H as <-. exists [], []. rewrite app_nil_r.
    split; [reflexivity|]. split; [reflexivity|].
    intros res'; cbn; rewrite ?app_nil_r; reflexivity.
  - cbn [scan_of_pages] in H. apply obind_Ok in H. destruct H as (items & Hi & H).
    rewrite scan_items_all in H. cbn [obind fst] in H.
    destruct (IH _ _ H Hall) as (pages' & new2 & -> & Hk2 & Hs2).
    destruct (keep_slots_items c slots items Hi) as (ks & Hk1 & Hi1).
    { intros r Hr. apply Hall. apply in_or_app. left. apply in_or_app. right. exact Hr. }
    exists ((p, ks) :: pages'), (items ++ new2).
    split; [rewrite <- app_assoc; reflexivity|].
    cbn [keep_pages]. rewrite Hk1, Hk2. cbn [obind fst snd].
    rewrite !List.filter_app.
    split; [reflexivity|].
    intros res'. cbn [scan_of_pages]. rewrite Hi1. cbn [obind].
    rewrite scan_items_all. cbn [obind fst]. rewrite Hs2, <- app_assoc. reflexivity.
Qed.

Lemma index_hint_none table c : index_hint [] table c = Ok (-1).
Proof.
  unfold index_hint. destruct c as [[key op val|logic cs]|]; try reflexivity.
  destruct (String.eqb op "=" && negb (String.eqb key "")); reflexivity.
Qed.

(** DELETE by a full scan, in a database without indexes: the records
    for which [_checkMatch] holds are gone and the others stay in their
    order, the message counts the removed records, and the one hook
    called is [OnTableInserted], with the removed records. *)
Theorem delete_removes_what_the_evaluator_matches
    (fuel : nat) (table : string) (c : option criteria) (s : db) (e : table_entry)
    (pages : list (Z * list (list Byte.byte))) (all : list obj) :
  fst (_findTableEntry table s) = Ok (Some e) ->
  table_holds s e pages ->
  cache_ok s ->
  indexes s = [] ->
  (length pages <= fuel)%nat ->
  fst (_select fuel table None None None None [] s) = Ok all ->
  (forall r, In r all -> exists b, _checkMatch r c = Ok b) ->
  exists s',
    _delete fuel table c false s
    = (Ok (deleted_message (Z.of_nat (length (List.filter (evaluator_matches c) all)))), s')
    /\ fst (_select fuel table None None None None [] s')
       = Ok (List.filter (fun r => negb (evaluator_matches c r)) all)
    /\ events s'
       = events s ++ [OnTableInserted table (List.filter (evaluator_matches c) all)
                                      (queryString s)]
    /\ (forall other, fst (_findTableEntry other s') = fst (_findTableEntry other s)).
Proof.
  intros Hfind Hholds Hc Hix Hfuel Hsel Hall.
  rewrite (select_scans_main fuel table None s e pages Hfind Hix Hholds Hc Hfuel) in Hsel.
  destruct (keep_pages_rows c pages [] all Hsel Hall) as (pages' & new & Hnew & Hk & Hs).
  cbn [app] in Hnew. subst new.
  destruct Hholds as (Hch & Hnd & Hlast).
  destruct (delete_pages_main table c pages fuel (startPage e) 0 [] s _ Hch Hnd Hfuel
              (or_intror Hix) Hk)
    as (s1 & Hdel & Hch' & Hother & Hix' & Hev' & Hq' & Hc').
  rewrite Hix in Hix'. specialize (Hc' Hc).
  pose proof (keep_pages_ids _ _ _ Hk) as Hids. cbn [fst snd app] in *.
  set (gone := List.filter (evaluator_matches c) all) in *.
  set (s' := mkDb (file s1) (objectCache s1) (indexes s1)
                  (events s1 ++ [OnTableInserted table gone (queryString s1)])
                  (queryString s1)).
  assert (Hp0 : page0 s' = page0 s).
  { unfold page0, s'. cbn [file]. rewrite Hother; [reflexivity|].
    intros Hin. pose proof (chain_holds_pos _ _ _ Hch) as Hpos.
    apply list_elem_of_fmap in Hin. destruct Hin as (pg & H0 & Hpg).
    rewrite Forall_forall in Hpos. specialize (Hpos pg Hpg). lia. }
  assert (Hfind' : forall other, fst (_findTableEntry other s') = fst (_findTableEntry other s)).
  { intros other. symmetry. apply findTableEntry_page0. exact Hp0. }
  assert (Hholds' : table_holds s' e pages').
  { split; [exact Hch'|]. rewrite Hids. split; assumption. }
  assert (Hlen' : (length pages' <= fuel)%nat).
  { rewrite <- (length_map fst pages'), Hids, length_map. exact Hfuel. }
  exists s'. split.
  { unfold _delete, _delete_body. unfold bind at 1. rewrite (findTableEntry_eq _ _ _ Hfind).
    unfold bind at 1. unfold gets at 1. cbv beta iota. rewrite Hix.
    unfold bind at 1. unfold lift at 1. rewrite index_hint_none.
    change (negb (-1 =? -1)) with false. cbv iota.
    unfold bind at 1. rewrite Hdel. cbn [andb].
    unfold bind, gets, emit, modify, ret. reflexivity. }
  split.
  { rewrite (select_scans_main fuel table None s' e pages')
      by (try assumption; try (rewrite Hfind'; assumption)).
    apply (Hs []). }
  split; [unfold s'; cbn [events]; rewrite Hev', Hq'; reflexivity|exact Hfind'].
Qed.

Lemma delete_by_scan_witness_one_of_two :
  exists s',
    _delete 1 "t" (id_eq 1) false two_rows_db = (Ok (deleted_message 1), s')
    /\ fst (_select 1 "t" None None None None [] s') = Ok [rec_id 2]
    /\ events s'
       = events two_rows_db ++ [OnTableInserted "t" [rec_id 1] (queryString two_rows_db)]
    /\ (forall other,
          fst (_findTableEntry other s') = fst (_findTableEntry other two_rows_db)).
Proof.
  apply (delete_removes_what_the_evaluator_matches 1 "t" (id_eq 1) two_rows_db t_entry
           [(2, [Buffer_from (JSON_stringify (rec_id 1));
                 Buffer_from (JSON_stringify (rec_id 2))])]
           [rec_id 1; rec_id 2]).
  - vm_compute. reflexivity.
  - split; [|split].
    + eapply chain_page; [reflexivity | vm_compute; reflexivity | | constructor].
      repeat split; vm_compute; try reflexivity; discriminate.
    + apply NoDup_singleton.
    + reflexivity.
  - intros p entry H. vm_compute in H. discriminate H.
  - reflexivity.
  - cbn. lia.
  - vm_compute. reflexivity.
  - intros r [<- | [<- | []]]; eexists; vm_compute; reflexivity.
Defined.

(** ** DROP TABLE returns *)

Lemma keep_slots_returns c slots :
  Forall (slot_decided c) slots -> exists r, keep_slots c slots = Ok r.
Proof.
  induction 1 as [|d rest (o & b & Hp & Hm) _ (r & Hr)]; [eexists; reflexivity|].
  cbn [keep_slots]. rewrite Hp. cbn [obind]. rewrite Hm. cbn [obind]. rewrite Hr. cbn [obind].
  destruct b; eexists; reflexivity.
Qed.

Lemma keep_pages_returns c (pages : list (Z * list (list Byte.byte))) :
  Forall (fun pg => Forall (slot_decided c) (snd pg)) pages -> exists r, keep_pages c pages = Ok r.
Proof.
  induction 1 as [|[p slots] rest Hs _ (r & Hr)]; [eexists; reflexivity|].
  cbn [keep_pages]. destruct (keep_slots_returns c slots Hs) as (r1 & H1).
  rewrite H1, Hr. cbn [obind]. eexists. reflexivity.
Qed.

(** A DELETE on [_indexes] with the criteria of [_dropTable] returns,
    when the pages of [_indexes] hold records that the criteria decides
    and the fuel covers them. *)
Lemma delete_system_returns fuel name s ei ipages :
  fst (_findTableEntry "_indexes" s) = Ok (Some ei) ->
  table_holds s ei ipages ->
  (length ipages <= fuel)%nat ->
  Forall (fun pg => Forall (slot_decided (indexes_of_table name)) (snd pg)) ipages ->
  exists msg s', _delete fuel "_indexes" (indexes_of_table name) false s = (Ok msg, s').
Proof.
  intros Hfind (Hch & Hnd & _) Hfuel Hdec.
  destruct (keep_pages_returns _ _ Hdec) as (r & Hk).
  destruct (delete_pages_main "_indexes" (indexes_of_table name) ipages fuel (startPage ei) 0 [] s r
              Hch Hnd Hfuel (or_introl eq_refl) Hk) as (s1 & Hdel & _).
  unfold _delete, _delete_body. unfold bind at 1. rewrite (findTableEntry_eq _ _ _ Hfind).
  unfold bind at 1. unfold gets at 1. cbv beta iota.
  unfold bind at 1. unfold lift at 1. cbn [index_hint indexes_of_table].
  change (negb (-1 =? -1)) with false. cbv iota.
  unfold bind at 1. cbn [indexes_of_table] in Hdel. rewrite Hdel. cbn [andb].
  unfold bind, gets, emit, modify, ret. eexists. eexists. reflexivity.
Qed.

(** [_dropTable] of a table that is in a catalog without repeated names,
    when the pages of [_indexes] hold records that the criteria
    [table = name] decides and the fuel covers them: it returns its
    message; the table is no longer found, every other table is found
    with the first and last page it had, no name appears, the table count
    goes down by one and the page count stays (the pages of the table are
    not given back), no index of the table is left in memory, and the
    last hook called is [OnTableDropped] with the entry of the table. *)
Theorem drop_table_takes_one_entry_out_of_the_catalog
    (fuel : nat) (name : string) (s : db) (e ei : table_entry)
    (ipages : list (Z * list (list Byte.byte))) :
  catalog_ok s ->
  catalog_distinct s ->
  name <> "_indexes" ->
  fst (_findTableEntry name s) = Ok (Some e) ->
  fst (_findTableEntry "_indexes" s) = Ok (Some ei) ->
  table_holds s ei ipages ->
  (length ipages <= fuel)%nat ->
  Forall (fun pg => Forall (slot_decided (indexes_of_table name)) (snd pg)) ipages ->
  exists s',
    _dropTable fuel name s = (Ok (dropped_message name), s')
    /\ catalog_ok s'
    /\ numTables s' = numTables s - 1
    /\ totalPages s' = totalPages s
    /\ fst (_findTableEntry name s') = Ok None
    /\ (forall other e1, other <> name ->
          fst (_findTableEntry other s) = Ok (Some e1) ->
          exists e2, fst (_findTableEntry other s') = Ok (Some e2)
                     /\ startPage e2 = startPage e1 /\ lastPage e2 = lastPage e1)
    /\ (forall other, fst (_findTableEntry other s) = Ok None ->
          fst (_findTableEntry other s') = Ok None)
    /\ (forall field, has_index (indexes s') (name ++ "." ++ field) = false)
    /\ last (events s') = Some (OnTableDropped name e (queryString s)).
Proof.
  intros Hok Hdist Hsys Hfind Hsysfind Hholds Hfuel Hdec.
  assert (Hrun : exists s', _dropTable fuel name s = (Ok (dropped_message name), s')).
  { destruct (numTables_read s Hok) as [Hr Hpos]. pose proof Hok as [Hlen Hn].
    destruct (findTableEntry_spec s name Hok) as [(k & Hk & Hname & _ & Hf)|(_ & Hf)];
      rewrite Hf in Hfind; cbn [fst] in Hfind; [|discriminate].
    injection Hfind as <-.
    unfold _dropTable.
    replace (String.eqb name "_indexes") with false by (symmetry; apply String.eqb_neq, Hsys).
    unfold bind at 1. rewrite Hf.
    unfold bind at 1. unfold gets at 1. cbv beta iota.
    unfold bind at 1. unfold set_indexes at 1, modify at 1.
    set (sa := mkDb (file s) (objectCache s) _ (events s) (queryString s)).
    assert (Hfa : fst (_findTableEntry "_indexes" sa) = Ok (Some ei)).
    { rewrite (findTableEntry_page0 "_indexes" s sa); [exact Hsysfind|reflexivity]. }
    destruct (delete_system_returns fuel name sa ei ipages Hfa Hholds Hfuel Hdec)
      as (msg & sb & Hdel).
    fold (indexes_of_table name).
    pose proof (stable_delete page0 fuel "_indexes" (indexes_of_table name) false
                  stable_page0 sa) as Hp0.
    rewrite Hdel in Hp0. cbn [snd] in Hp0. change (page0 sa) with (page0 s) in Hp0.
    unfold bind at 1. unfold try_catch at 1. unfold bind at 1. rewrite Hdel. unfold ret at 1.
    unfold bind at 1. rewrite readPage0. rewrite Hp0.
    unfold bind at 1. unfold lift at 1. rewrite Hr.
    destruct (drop_slot_spec (page0 s) (numTables s) k (slot_entry (page0 s) k))
      as (p0' & Hd & Hlen' & _); try reflexivity; try assumption.
    unfold bind at 1. unfold lift at 1. rewrite Hd.
    unfold bind at 1. unfold writePage. rewrite Hlen'.
    change (negb (PAGE_SIZE =? PAGE_SIZE)) with false. change (0 <? 0) with false. cbv iota.
    unfold bind, modify, gets, emit, modify, ret. eexists. reflexivity. }
  destruct Hrun as (s' & Hrun). exists s'. split; [exact Hrun|].
  destruct (dropTable_effect fuel name s s' (dropped_message name) e
              Hok Hdist Hsys Hfind Hrun) as (_ & H).
  exact H.
Qed.

Lemma drop_table_witness_two_tables :
  exists s',
    _dropTable 8 "t" two_tables_indexed_db = (Ok (dropped_message "t"), s')
    /\ fst (_findTableEntry "t" s') = Ok None
    /\ numTables s' = numTables two_tables_indexed_db - 1
    /\ has_index (indexes s') "t.k" = false.
Proof.
  destruct (drop_table_takes_one_entry_out_of_the_catalog 8 "t" two_tables_indexed_db
              (mkEntry 1 52 2 2) (mkEntry 0 12 1 1)
              [(1, [Buffer_from (JSON_stringify (index_record "t" "k"))])])
    as (s' & Hrun & _ & Hn & _ & Hf & _ & _ & Hix & _).
  - split; vm_compute; [reflexivity | discriminate].
  - intros i j Hi Hj. change (numTables two_tables_indexed_db) with 3 in Hi, Hj.
    assert (Ei : i = 0 \/ i = 1 \/ i = 2) by lia.
    assert (Ej : j = 0 \/ j = 1 \/ j = 2) by lia.
    destruct Ei as [-> | [-> | ->]], Ej as [-> | [-> | ->]];
      vm_compute; intros H; try reflexivity; discriminate H.
  - discriminate.
  - vm_compute. reflexivity.
  - vm_compute. reflexivity.
  - split; [|split].
    + eapply chain_page; [reflexivity | vm_compute; reflexivity | | constructor].
      repeat split; vm_compute; try reflexivity; discriminate.
    + apply NoDup_singleton.
    + reflexivity.
  - cbn. lia.
  - repeat constructor. exists (index_record "t" "k"), true. split; vm_compute; reflexivity.
  - exists s'. split; [exact Hrun|]. split; [exact Hf|]. split; [exact Hn|apply (Hix "k")].
Defined.

(** ** UPDATE in place with a shorter text *)

Lemma blit_nil (b : list Byte.byte) w : 0 <= w -> blit b w [] = b.
Proof.
  intros Hw. apply list_eq. intros i. rewrite lookup_blit by lia. cbn [length].
  destruct (Nat.leb_spec (Z.to_nat w) i); destruct (Nat.ltb_spec i (Z.to_nat w + 0));
    cbn [andb]; try lia; try reflexivity.
Qed.

Lemma layout_empties k : layout (repeat [] k) = repeat Byte.x00 (2 * k).
Proof.
  induction k as [|k IH]; [reflexivity|].
  cbn [repeat]. change (layout ([] :: repeat [] k)) with (slot_image [] ++ layout (repeat [] k)).
  rewrite IH. replace (2 * S k)%nat with (S (S (2 * k))) by lia. reflexivity.
Qed.

Lemma items_of_empties k : items_of_slots (repeat [] k) = Ok [].
Proof. induction k as [|k IH]; [reflexivity|]. cbn [repeat items_of_slots]. rewrite IH. reflexivity. Qed.

(** What [write_in_place] leaves in the slot and in the bytes behind it. *)
Lemma write_in_place_image (buf : list Byte.byte) off len text :
  0 <= off -> off + 2 + len <= buf_length buf ->
  Buffer_byteLength text <= len -> len <= 65535 ->
  write_in_place buf off len text
  = Ok (blit buf off (u16_bytes (Buffer_byteLength text) ++ Buffer_from text
                      ++ repeat Byte.x00 (Z.to_nat (len - Buffer_byteLength text)))).
Proof.
  intros H0 Hfit Hle Hmax.
  assert (Hlen : 0 <= Buffer_byteLength text) by (unfold Buffer_byteLength, buf_length; lia).
  assert (Hl : Z.of_nat (length (Buffer_from text)) = Buffer_byteLength text) by reflexivity.
  unfold write_in_place. rewrite writeUInt16LE_Ok by lia. cbn [obind]. f_equal.
  unfold buf_write.
  replace (take (Z.to_nat (Buffer_byteLength text)) (Buffer_from text)) with (Buffer_from text)
    by (rewrite take_ge; [reflexivity|lia]).
  set (b1 := blit buf off (u16_bytes (Buffer_byteLength text))).
  set (b2 := blit b1 (off + 2) (Buffer_from text)).
  assert (Hb1 : buf_length b1 = buf_length buf) by (subst b1; apply buf_length_blit).
  assert (Hb2 : buf_length b2 = buf_length buf) by (subst b2; rewrite buf_length_blit; exact Hb1).
  assert (E : (if Buffer_byteLength text <? len
               then buf_fill0 b2 (off + 2 + Buffer_byteLength text) (off + 2 + len) else b2)
              = blit b2 (off + 2 + Buffer_byteLength text)
                     (repeat Byte.x00 (Z.to_nat (len - Buffer_byteLength text)))).
  { destruct (Z.ltb_spec (Buffer_byteLength text) len) as [Hlt|Hge].
    - rewrite buf_fill0_in_range by lia. f_equal. f_equal. lia.
    - replace (len - Buffer_byteLength text) with 0 by lia. cbn [Z.to_nat repeat].
      symmetry. apply blit_nil. lia. }
  rewrite E. subst b2 b1.
  pose proof (blit_app buf (u16_bytes (Buffer_byteLength text)) (Buffer_from text) off H0) as A1.
  cbn [length u16_bytes] in A1. change (Z.of_nat 2) with 2 in A1.
  rewrite A1 by lia.
  pose proof (blit_app buf (u16_bytes (Buffer_byteLength text) ++ Buffer_from text)
                (repeat Byte.x00 (Z.to_nat (len - Buffer_byteLength text))) off H0) as A2.
  rewrite length_app, repeat_length in A2. cbn [length u16_bytes] in A2.
  replace (off + Z.of_nat (2 + length (Buffer_from text)))
    with (off + 2 + Buffer_byteLength text) in A2 by lia.
  rewrite A2 by lia. rewrite <- app_assoc. reflexivity.
Qed.

(** UPDATE in place with a shorter text: the slot takes the new length
    and the bytes it gives up are zeroed, but the slots behind it stay
    where they were.  If the text is shorter by at least two bytes for
    every slot that follows on the page, a reader that steps from slot
    to slot finds the new record and then one empty slot for each of
    the following slots: their records are read by no one. *)
Theorem shorter_in_place_update_buries_the_following_slots
    (buf : buffer) (off : Z) (d : list Byte.byte) (following : list (list Byte.byte))
    (text : string) :
  holds_at buf off (d :: following) ->
  buf_length buf <= 65535 ->
  Buffer_byteLength text + 2 * Z.of_nat (length following) <= Z.of_nat (length d) ->
  exists buf',
    write_in_place buf off (Z.of_nat (length d)) text = Ok buf'
    /\ buf_length buf' = buf_length buf
    /\ holds_at buf' off (Buffer_from text :: repeat [] (length following))
    /\ decode_items (S (length following)) buf' off
       = match JSON_parse text with
         | Ok o => Ok [o]
         | Throw _ => Ok []
         | Stuck w => Stuck w
         end.
Proof.
  intros Hat Hb Hshort. pose proof Hat as (H0 & Hfit & _).
  pose proof (length_layout_cons d following) as Hl.
  assert (Hlen : 0 <= Buffer_byteLength text) by (unfold Buffer_byteLength, buf_length; lia).
  assert (Hlt : Z.of_nat (length (Buffer_from text)) = Buffer_byteLength text) by reflexivity.
  set (k := length following) in *.
  set (newLen := Buffer_byteLength text) in *.
  rewrite (write_in_place_image buf off (Z.of_nat (length d)) text) by lia.
  fold newLen.
  set (image := u16_bytes newLen ++ Buffer_from text
                ++ repeat Byte.x00 (Z.to_nat (Z.of_nat (length d) - newLen))).
  assert (Hb' : buf_length (blit buf off image) = buf_length buf) by apply buf_length_blit.
  assert (Hhold : holds_at (blit buf off image) off (Buffer_from text :: repeat [] k)).
  { assert (Hlay : layout (Buffer_from text :: repeat [] k)
                   = u16_bytes newLen ++ Buffer_from text ++ repeat Byte.x00 (2 * k)).
    { change (layout (Buffer_from text :: repeat [] k))
        with (slot_image (Buffer_from text) ++ layout (repeat [] k)).
      rewrite layout_empties. unfold slot_image. rewrite Hlt, <- app_assoc. reflexivity. }
    assert (Hll : Z.of_nat (length (layout (Buffer_from text :: repeat [] k)))
                  = 2 + newLen + 2 * Z.of_nat k).
    { rewrite Hlay, !length_app, repeat_length. cbn [length u16_bytes]. lia. }
    split; [exact H0|]. split; [rewrite Hb', Hll; lia|].
    rewrite Hll, Hlay.
    assert (Himg : image = (u16_bytes newLen ++ Buffer_from text ++ repeat Byte.x00 (2 * k))
                           ++ repeat Byte.x00 (Z.to_nat (Z.of_nat (length d) - newLen) - 2 * k)).
    { subst image. rewrite <- !app_assoc. f_equal. f_equal. rewrite <- repeat_app. f_equal. lia. }
    set (front := u16_bytes newLen ++ Buffer_from text ++ repeat Byte.x00 (2 * k)) in *.
    assert (Hfl : Z.of_nat (length front) = 2 + newLen + 2 * Z.of_nat k).
    { subst front. rewrite !length_app, repeat_length. cbn [length u16_bytes]. lia. }
    rewrite (buf_slice_blit_inside buf image off off (off + (2 + newLen + 2 * Z.of_nat k)));
      try lia.
    - rewrite Himg. replace (off - off) with 0 by lia.
      replace (off + (2 + newLen + 2 * Z.of_nat k) - off) with (buf_length front)
        by (unfold buf_length; lia).
      rewrite buf_slice_app_l by (unfold buf_length; lia). apply buf_slice_all.
    - rewrite Himg, length_app, repeat_length. lia. }
  eexists. split; [reflexivity|]. split; [exact Hb'|]. split; [exact Hhold|].
  assert (Hb65 : buf_length (blit buf off image) <= 65535) by (rewrite Hb'; exact Hb).
  pose proof (decode_items_holds _ _ off Hhold Hb65) as Hd.
  cbn [length] in Hd. rewrite repeat_length in Hd. rewrite Hd.
  cbn [items_of_slots]. rewrite items_of_empties. cbn [obind].
  rewrite slot_text_Buffer_from. reflexivity.
Qed.

Lemma shorter_update_witness_long_next :
  exists buf',
    write_in_place long_next_page 8
      (Z.of_nat (length (Buffer_from (JSON_stringify rec_long))))
      (JSON_stringify (plain [("k", JNum 1); ("v", JStr "a")])) = Ok buf'
    /\ buf_length buf' = buf_length long_next_page
    /\ holds_at buf' 8
         (Buffer_from (JSON_stringify (plain [("k", JNum 1); ("v", JStr "a")]))
          :: repeat [] (length [Buffer_from (JSON_stringify rec_next)]))
    /\ decode_items (S (length [Buffer_from (JSON_stringify rec_next)])) buf' 8
       = match JSON_parse (JSON_stringify (plain [("k", JNum 1); ("v", JStr "a")])) with
         | Ok o => Ok [o]
         | Throw _ => Ok []
         | Stuck w => Stuck w
         end.
Proof.
  apply (shorter_in_place_update_buries_the_following_slots long_next_page 8
           (Buffer_from (JSON_stringify rec_long)) [Buffer_from (JSON_stringify rec_next)]
           (JSON_stringify (plain [("k", JNum 1); ("v", JStr "a")]))).
  - repeat split; vm_compute; try reflexivity; discriminate.
  - vm_compute. discriminate.
  - vm_compute. discriminate.
Defined.

(** ** AGGREGATE: MIN and MAX *)

Lemma min_loop_spec field records : forall min,
  (forall r, In r records -> exists n, ToNumber (obj_get r field) = Ok n) ->
  exists res,
    min_loop field records min = Ok res
    /\ (res = None <-> min = None /\ numeric_values field records = [])
    /\ (forall z, res = Some z ->
          (min = Some z \/ In z (numeric_values field records))
          /\ (forall m, min = Some m -> z <= m)
          /\ (forall y, In y (numeric_values field records) -> z <= y)).
Proof.
  induction records as [|r rest IH]; intros min Hall.
  - exists min. split; [reflexivity|]. split.
    + split; [intros ->; split; reflexivity|intros [-> _]; reflexivity].
    + intros z ->. split; [left; reflexivity|]. split.
      * intros m Hm. injection Hm as <-. lia.
      * intros y [].
  - destruct (Hall r (or_introl eq_refl)) as [n Hn].
    assert (Hrest : forall r', In r' rest -> exists n', ToNumber (obj_get r' field) = Ok n').
    { intros r' Hr'. apply Hall. right. exact Hr'. }
    cbn [min_loop]. unfold numeric_values. cbn [flat_map]. fold (numeric_values field rest).
    rewrite Hn. cbn [obind].
    destruct n as [|z0].
    + destruct (IH min Hrest) as (res & Hres & Hnone & Hsome).
      exists res. split; [exact Hres|]. cbn [app]. split; assumption.
    + set (min' := if match min with None => true | Some m => z0 <? m end then Some z0 else min).
      destruct (IH min' Hrest) as (res & Hres & Hnone & Hsome).
      exists res. split; [exact Hres|]. cbn [app]. split.
      * split.
        -- intros E. apply Hnone in E. destruct E as [E _]. subst min'.
           destruct min as [m|]; [destruct (z0 <? m)|]; discriminate.
        -- intros [_ E]. discriminate.
      * intros z Hz. destruct (Hsome z Hz) as (Hin & Hle & Hall').
        assert (Hz0 : z <= z0 /\ (forall m, min = Some m -> z <= m)).
        { subst min'. destruct min as [m|].
          - destruct (Z.ltb_spec z0 m) as [Hlt|Hge].
            + specialize (Hle z0 eq_refl). split; [lia|]. intros m' Hm'. injection Hm' as <-. lia.
            + specialize (Hle m eq_refl). split; [lia|]. intros m' Hm'. injection Hm' as <-. lia.
          - specialize (Hle z0 eq_refl). split; [lia|]. intros m' Hm'. discriminate. }
        destruct Hz0 as [Hz0 Hmin].
        split; [|split; [exact Hmin|]].
        -- destruct Hin as [Hin|Hin]; [|right; right; exact Hin].
           subst min'. destruct min as [m|].
           ++ destruct (z0 <? m); [injection Hin as <-; right; left; reflexivity|left; exact Hin].
           ++ injection Hin as <-. right. left. reflexivity.
        -- intros y [<-|Hy]; [exact Hz0|apply Hall', Hy].
Qed.

Lemma max_loop_spec field records : forall max,
  (forall r, In r records -> exists n, ToNumber (obj_get r field) = Ok n) ->
  exists res,
    max_loop field records max = Ok res
    /\ (res = None <-> max = None /\ numeric_values field records = [])
    /\ (forall z, res = Some z ->
          (max = Some z \/ In z (numeric_values field records))
          /\ (forall m, max = Some m -> m <= z)
          /\ (forall y, In y (numeric_values field records) -> y <= z)).
Proof.
  induction records as [|r rest IH]; intros max Hall.
  - exists max. split; [reflexivity|]. split.
    + split; [intros ->; split; reflexivity|intros [-> _]; reflexivity].
    + intros z ->. split; [left; reflexivity|]. split.
      * intros m Hm. injection Hm as <-. lia.
      * intros y [].
  - destruct (Hall r (or_introl eq_refl)) as [n Hn].
    assert (Hrest : forall r', In r' rest -> exists n', ToNumber (obj_get r' field) = Ok n').
    { intros r' Hr'. apply Hall. right. exact Hr'. }
    cbn [max_loop]. unfold numeric_values. cbn [flat_map]. fold (numeric_values field rest).
    rewrite Hn. cbn [obind].
    destruct n as [|z0].
    + destruct (IH max Hrest) as (res & Hres & Hnone & Hsome).
      exists res. split; [exact Hres|]. cbn [app]. split; assumption.
    + set (max' := if match max with None => true | Some m => m <? z0 end then Some z0 else max).
      destruct (IH max' Hrest) as (res & Hres & Hnone & Hsome).
      exists res. split; [exact Hres|]. cbn [app]. split.
      * split.
        -- intros E. apply Hnone in E. destruct E as [E _]. subst max'.
           destruct max as [m|]; [destruct (m <? z0)|]; discriminate.
        -- intros [_ E]. discriminate.
      * intros z Hz. destruct (Hsome z Hz) as (Hin & Hle & Hall').
        assert (Hz0 : z0 <= z /\ (forall m, max = Some m -> m <= z)).
        { subst max'. destruct max as [m|].
          - destruct (Z.ltb_spec m z0) as [Hlt|Hge].
            + specialize (Hle z0 eq_refl). split; [lia|]. intros m' Hm'. injection Hm' as <-. lia.
            + specialize (Hle m eq_refl). split; [lia|]. intros m' Hm'. injection Hm' as <-. lia.
          - specialize (Hle z0 eq_refl). split; [lia|]. intros m' Hm'. discriminate. }
        destruct Hz0 as [Hz0 Hmax].
        split; [|split; [exact Hmax|]].
        -- destruct Hin as [Hin|Hin]; [|right; right; exact Hin].
           subst max'. destruct max as [m|].
           ++ destruct (m <? z0); [injection Hin as <-; right; left; reflexivity|left; exact Hin].
           ++ injection Hin as <-. right. left. reflexivity.
        -- intros y [<-|Hy]; [exact Hz0|apply Hall', Hy].
Qed.

(** MIN and MAX without GROUP BY return the least and the greatest of
    the numbers [Number(r[field])] of the selected records, leaving out
    the records where that is [NaN], and [null] when no number is left.
    A field that is [null] counts as 0, one that is [true] as 1, and a
    string as the number it spells. *)
Theorem aggregate_min_max_are_the_extreme_numbers
    (fuel : nat) (table func field : string) (c : option criteria) (s : db)
    (rows : list obj) :
  field <> "" ->
  fst (_select fuel table c None None None [] s) = Ok rows ->
  (forall r, In r rows -> exists n, ToNumber (obj_get r field) = Ok n) ->
  (toUpperCase func = Ok "MIN" ->
   exists v,
     fst (_aggregate fuel table func (Some field) c None None s)
     = Ok (AggObject (plain [("min", num_or_null v); ("field", JStr field)]))
     /\ (v = None <-> numeric_values field rows = [])
     /\ (forall z, v = Some z ->
           In z (numeric_values field rows)
           /\ forall y, In y (numeric_values field rows) -> z <= y))
  /\ (toUpperCase func = Ok "MAX" ->
      exists v,
        fst (_aggregate fuel table func (Some field) c None None s)
        = Ok (AggObject (plain [("max", num_or_null v); ("field", JStr field)]))
        /\ (v = None <-> numeric_values field rows = [])
        /\ (forall z, v = Some z ->
              In z (numeric_values field rows)
              /\ forall y, In y (numeric_values field rows) -> y <= z)).
Proof.
  intros Hf Hsel Hall.
  assert (Hsel' : exists s1, _select fuel table c None None None [] s = (Ok rows, s1)).
  { destruct (_select fuel table c None None None [] s) as [o s1]. cbn [fst] in Hsel.
    subst o. exists s1. reflexivity. }
  destruct Hsel' as [s1 Hs1].
  assert (Htruthy : truthy (option_map JStr (Some field)) = true).
  { cbn. apply negb_true_iff, String.eqb_neq, Hf. }
  split; intros Hfunc.
  - destruct (min_loop_spec field rows None Hall) as (res & Hres & Hnone & Hsome).
    exists res. split; [|split].
    + unfold _aggregate. unfold bind at 1. rewrite Hs1.
      change (truthy (option_map JStr None)) with false. cbv iota.
      unfold bind at 1, lift at 1. rewrite Hfunc. cbv beta iota.
      cbn [String.eqb Ascii.eqb Bool.eqb]. rewrite Htruthy. cbn [negb option_map String_of ToString].
      destruct rows as [|r0 rows'].
      * cbn in Hres. injection Hres as <-. reflexivity.
      * unfold bind, lift. rewrite Hres. reflexivity.
    + split; [intros E; apply Hnone, E|intros E; apply Hnone; split; [reflexivity|exact E]].
    + intros z Hz. destruct (Hsome z Hz) as ([H|H] & _ & Hle); [discriminate|].
      split; assumption.
  - destruct (max_loop_spec field rows None Hall) as (res & Hres & Hnone & Hsome).
    exists res. split; [|split].
    + unfold _aggregate. unfold bind at 1. rewrite Hs1.
      change (truthy (option_map JStr None)) with false. cbv iota.
      unfold bind at 1, lift at 1. rewrite Hfunc. cbv beta iota.
      cbn [String.eqb Ascii.eqb Bool.eqb]. rewrite Htruthy. cbn [negb option_map String_of ToString].
      destruct rows as [|r0 rows'].
      * cbn in Hres. injection Hres as <-. reflexivity.
      * unfold bind, lift. rewrite Hres. reflexivity.
    + split; [intros E; apply Hnone, E|intros E; apply Hnone; split; [reflexivity|exact E]].
    + intros z Hz. destruct (Hsome z Hz) as ([H|H] & _ & Hle); [discriminate|].
      split; assumption.
Qed.

Lemma aggregate_min_witness_three_rows :
  exists v,
    fst (_aggregate 8 "t" "Min" (Some "id") None None None three_rows_db)
    = Ok (AggObject (plain [("min", num_or_null v); ("field", JStr "id")]))
    /\ (v = None <-> numeric_values "id" [rec_id 1; rec_id 2; rec_id 3] = [])
    /\ (forall z, v = Some z ->
          In z (numeric_values "id" [rec_id 1; rec_id 2; rec_id 3])
          /\ forall y, In y (numeric_values "id" [rec_id 1; rec_id 2; rec_id 3]) -> z <= y).
Proof.
  destruct (aggregate_min_max_are_the_extreme_numbers 8 "t" "Min" "id" None three_rows_db
              [rec_id 1; rec_id 2; rec_id 3]) as [Hmin _].
  - discriminate.
  - vm_compute. reflexivity.
  - intros r [<- | [<- | [<- | []]]]; eexists; vm_compute; reflexivity.
  - apply Hmin. reflexivity.
Defined.

(** ** AGGREGATE: GROUP BY *)

(** GROUP BY fails on a value that is the name of an inherited property:
    if the group column of some record holds, say, [constructor] or
    [toString] (or the record lacks the column and the column is filed
    under such a name), [_groupedAggregate] throws, whatever the
    function and the HAVING clause. *)
Theorem group_by_throws_on_an_inherited_name
    (records : list obj) (func field groupBy : string) (having : option having_clause)
    (r : obj) :
  In r records ->
  In (group_key groupBy r) prototype_names ->
  _groupedAggregate records func field groupBy having
  = Throw "groups[key].push is not a function".
Proof.
  intros Hr Hk. unfold _groupedAggregate.
  assert (H : forall groups, group_loop groupBy records groups
                             = Throw "groups[key].push is not a function").
  { induction records as [|r0 rest IH]; [destruct Hr|]. intros groups.
    cbn [group_loop]. fold (group_key groupBy r0).
    destruct (mem_string (group_key groupBy r0) prototype_names) eqn:E; [reflexivity|].
    destruct Hr as [->|Hr]; [|apply IH, Hr].
    rewrite (proj2 (mem_string_In _ _) Hk) in E. discriminate. }
  rewrite H. reflexivity.
Qed.

Lemma group_by_throws_witness_toString :
  _groupedAggregate (kinds ++ [rec_kind (JStr "toString")]) "COUNT" "x" "kind" None
  = Throw "groups[key].push is not a function".
Proof.
  apply (group_by_throws_on_an_inherited_name _ "COUNT" "x" "kind" None
           (rec_kind (JStr "toString"))).
  - apply in_or_app. right. left. reflexivity.
  - vm_compute. tauto.
Defined.

Lemma group_loop_fold g records : forall groups,
  (forall r, In r records -> ~ In (group_key g r) prototype_names) ->
  group_loop g records groups
  = Ok (fold_left (fun gs r => add_to_group (group_key g r) r gs) records groups).
Proof.
  induction records as [|r rest IH]; intros groups Hall; [reflexivity|].
  cbn [group_loop fold_left]. fold (group_key g r).
  rewrite (proj2 (mem_string_false _ _) (Hall r (or_introl eq_refl))).
  apply IH. intros r' Hr'. apply Hall. right. exact Hr'.
Qed.

Lemma assoc_add_to_group k r (gs : list (string * list obj)) k' :
  assoc k' (add_to_group k r gs)
  = if String.eqb k' k
    then Some (match assoc k gs with Some rs => rs ++ [r] | None => [r] end)
    else assoc k' gs.
Proof.
  induction gs as [|[k0 rs] gs IH].
  - cbn. destruct (String.eqb k' k); reflexivity.
  - cbn [add_to_group assoc]. destruct (String.eqb_spec k k0) as [->|Hne].
    + cbn [assoc]. destruct (String.eqb k' k0); reflexivity.
    + cbn [assoc]. rewrite IH.
      destruct (String.eqb_spec k' k0) as [->|Hne'].
      * replace (String.eqb k0 k) with false by (symmetry; apply String.eqb_neq; congruence).
        reflexivity.
      * reflexivity.
Qed.

Lemma keys_add_to_group k r (gs : list (string * list obj)) :
  map fst (add_to_group k r gs)
  = if mem_string k (map fst gs) then map fst gs else map fst gs ++ [k].
Proof.
  induction gs as [|[k0 rs] gs IH]; [reflexivity|].
  cbn [add_to_group map fst mem_string existsb]. fold (mem_string k (map fst gs)).
  destruct (String.eqb k k0); cbn [orb map fst]; [reflexivity|].
  rewrite IH. destruct (mem_string k (map fst gs)); reflexivity.
Qed.

Lemma NoDup_add_to_group k r (gs : list (string * list obj)) :
  NoDup (map fst gs) -> NoDup (map fst (add_to_group k r gs)).
Proof.
  intros H. rewrite keys_add_to_group.
  destruct (mem_string k (map fst gs)) eqn:E; [exact H|].
  apply mem_string_false in E. apply NoDup_app. split; [exact H|]. split.
  - intros x Hx Hk. apply list_elem_of_singleton in Hk. subst x.
    apply E. apply list_elem_of_In. exact Hx.
  - apply NoDup_singleton.
Qed.

Lemma groups_of_step g gs processed r :
  groups_of g gs processed ->
  groups_of g (add_to_group (group_key g r) r gs) (processed ++ [r]).
Proof.
  intros [Hnd Hassoc]. split; [apply NoDup_add_to_group, Hnd|].
  intros k. rewrite assoc_add_to_group, List.filter_app. cbn [List.filter].
  unfold in_group at 2.
  destruct (String.eqb_spec k (group_key g r)) as [->|Hne].
  - rewrite String.eqb_refl. rewrite Hassoc.
    destruct (List.filter (in_group g (group_key g r)) processed); reflexivity.
  - replace (String.eqb (group_key g r) k) with false
      by (symmetry; apply String.eqb_neq; congruence).
    rewrite app_nil_r. apply Hassoc.
Qed.

Lemma groups_of_fold g records : forall gs processed,
  groups_of g gs processed ->
  groups_of g (fold_left (fun gs r => add_to_group (group_key g r) r gs) records gs)
            (processed ++ records).
Proof.
  induction records as [|r rest IH]; intros gs processed H.
  - rewrite app_nil_r. exact H.
  - cbn [fold_left]. replace (processed ++ r :: rest) with ((processed ++ [r]) ++ rest)
      by (rewrite <- app_assoc; reflexivity).
    apply IH. apply groups_of_step, H.
Qed.

Lemma In_assoc_NoDup {V} (l : list (string * V)) k v :
  NoDup (map fst l) -> In (k, v) l -> assoc k l = Some v.
Proof.
  induction l as [|[k0 v0] l IH]; intros Hnd Hin; [destruct Hin|].
  cbn [map fst] in Hnd. apply NoDup_cons in Hnd. destruct Hnd as [Hnotin Hnd].
  cbn [assoc]. destruct Hin as [E|Hin].
  - injection E as -> ->. rewrite String.eqb_refl. reflexivity.
  - destruct (String.eqb_spec k k0) as [->|Hne]; [|apply IH; assumption].
    exfalso. apply Hnotin. apply list_elem_of_In. apply in_map_iff. exists (k0, v). split; [reflexivity|exact Hin].
Qed.

Lemma assoc_Some_In {V} (l : list (string * V)) k v :
  assoc k l = Some v -> In (k, v) l.
Proof.
  induction l as [|[k0 v0] l IH]; [discriminate|]. cbn [assoc].
  destruct (String.eqb_spec k k0) as [->|Hne].
  - intros E. injection E as ->. left. reflexivity.
  - intros E. right. apply IH, E.
Qed.

Lemma insert_by_index_perm {V} n (e : string * V) l :
  Permutation (insert_by_index n e l) ((n, e) :: l).
Proof.
  induction l as [|[m e'] l IH]; [reflexivity|]. cbn [insert_by_index].
  destruct (n <? m); [reflexivity|]. rewrite IH. apply perm_swap.
Qed.

Lemma entries_fold_perm {V} (gs : list (string * V)) : forall acc,
  Permutation
    (map snd (fold_left (fun acc e => match array_index (fst e) with
                                      | Some n => insert_by_index n e acc
                                      | None => acc
                                      end) gs acc))
    (map snd acc ++ List.filter is_index_entry gs).
Proof.
  induction gs as [|e gs IH]; intros acc.
  - cbn. rewrite app_nil_r. reflexivity.
  - cbn [fold_left].
    replace (List.filter is_index_entry (e :: gs))
      with (if is_index_entry e then e :: List.filter is_index_entry gs else List.filter is_index_entry gs)
      by reflexivity.
    unfold is_index_entry at 1.
    destruct (array_index (fst e)) as [n|].
    + rewrite IH.
      transitivity (map snd ((n, e) :: acc) ++ List.filter is_index_entry gs).
      * apply Permutation_app_tail, Permutation_map, insert_by_index_perm.
      * cbn [map snd app]. apply Permutation_middle.
    + apply IH.
Qed.

Lemma filter_partition_perm {A} (p : A -> bool) (l : list A) :
  Permutation (List.filter p l ++ List.filter (fun x => negb (p x)) l) l.
Proof.
  induction l as [|x l IH]; [reflexivity|]. cbn [List.filter].
  destruct (p x); cbn [negb app].
  - constructor. exact IH.
  - rewrite <- Permutation_middle. constructor. exact IH.
Qed.

Lemma entries_perm {V} (gs : list (string * V)) : Permutation (entries gs) gs.
Proof.
  unfold entries. rewrite entries_fold_perm. cbn [map app].
  rewrite <- (filter_partition_perm is_index_entry gs) at 3.
  apply Permutation_app_head.
  assert (E : forall l : list (string * V),
            List.filter (fun e => match array_index (fst e) with Some _ => false | None => true end) l
            = List.filter (fun x => negb (is_index_entry x)) l).
  { intros l. apply List.filter_ext. intros e. unfold is_index_entry.
    destruct (array_index (fst e)); reflexivity. }
  rewrite E. reflexivity.
Qed.

Lemma group_rows_count func field g es :
  toUpperCase func = Ok "COUNT" ->
  g <> "count" ->
  group_rows func field g es
  = Ok (map (fun e => plain [(g, JStr (fst e)); ("count", JNum (Z.of_nat (length (snd e))))]) es).
Proof.
  intros Hf Hg. induction es as [|[k rs] es IH]; [reflexivity|].
  cbn [group_rows map fst snd]. rewrite Hf. cbn [obind]. unfold group_row.
  cbn [String.eqb Ascii.eqb Bool.eqb obind]. rewrite IH. cbn [obind].
  f_equal. f_equal. unfold obj_set, plain. cbn [fields hidden_pageId keys map mem_string existsb].
  rewrite !andb_false_r. cbn [assoc_set fields hidden_pageId].
  replace (String.eqb "count" g) with false
    by (symmetry; apply String.eqb_neq; congruence).
  reflexivity.
Qed.

(** GROUP BY with COUNT, when neither the group column nor a group
    value is named like a member of [Object.prototype]: one row for each
    string that the group column takes (a number, [null] or a missing
    column is its text), no string twice, and each row counts the
    records with that string. *)
Theorem grouped_count_counts_the_records_of_each_key
    (records : list obj) (func field groupBy : string) :
  toUpperCase func = Ok "COUNT" ->
  groupBy <> "count" ->
  mem_string groupBy prototype_names = false ->
  (forall r, In r records -> ~ In (group_key groupBy r) prototype_names) ->
  exists ks,
    _groupedAggregate records func field groupBy None
    = Ok (map (fun k => plain [(groupBy, JStr k);
                               ("count", JNum (group_size groupBy k records))]) ks)
    /\ NoDup ks
    /\ (forall k, In k ks <-> exists r, In r records /\ group_key groupBy r = k).
Proof.
  intros Hf Hg _ Hall. unfold _groupedAggregate.
  rewrite (group_loop_fold groupBy records [] Hall). cbn [obind].
  set (gs := fold_left _ records []).
  assert (Hgs : groups_of groupBy gs records).
  { apply (groups_of_fold groupBy records [] []). split; [constructor|].
    intros k. reflexivity. }
  destruct Hgs as [Hnd Hassoc].
  rewrite (group_rows_count func field groupBy _ Hf Hg). cbn [obind].
  pose proof (entries_perm gs) as Hperm.
  exists (map fst (entries gs)). split; [|split].
  - f_equal. rewrite map_map. apply map_ext_in. intros [k rs] Hin. cbn [fst snd].
    assert (Hin' : In (k, rs) gs).
    { apply list_elem_of_In. rewrite <- Hperm. apply list_elem_of_In. exact Hin. }
    pose proof (In_assoc_NoDup gs k rs Hnd Hin') as Ha. rewrite Hassoc in Ha.
    unfold group_size.
    destruct (List.filter (in_group groupBy k) records); [discriminate|].
    injection Ha as <-. reflexivity.
  - rewrite Hperm. exact Hnd.
  - intros k. split.
    + intros Hk. apply in_map_iff in Hk. destruct Hk as ([k' rs] & E & Hin). cbn [fst] in E. subst k'.
      assert (Hin' : In (k, rs) gs).
      { apply list_elem_of_In. rewrite <- Hperm. apply list_elem_of_In. exact Hin. }
      pose proof (In_assoc_NoDup gs k rs Hnd Hin') as Ha. rewrite Hassoc in Ha.
      destruct (List.filter (in_group groupBy k) records) as [|r l] eqn:Ef; [discriminate|].
      assert (Hr : In r (List.filter (in_group groupBy k) records)) by (rewrite Ef; left; reflexivity).
      apply List.filter_In in Hr. destruct Hr as [Hr Hk]. exists r. split; [exact Hr|].
      apply String.eqb_eq. exact Hk.
    + intros (r & Hr & Hk).
      assert (Hf' : In r (List.filter (in_group groupBy k) records)).
      { apply List.filter_In. split; [exact Hr|]. apply String.eqb_eq. exact Hk. }
      specialize (Hassoc k).
      destruct (List.filter (in_group groupBy k) records) as [|r0 l]; [destruct Hf'|].
      apply assoc_Some_In in Hassoc.
      apply in_map_iff. exists (k, r0 :: l). split; [reflexivity|].
      apply list_elem_of_In. rewrite Hperm. apply list_elem_of_In. exact Hassoc.
Qed.

Lemma grouped_count_witness_kinds :
  exists ks,
    _groupedAggregate kinds "Count" "x" "kind" None
    = Ok (map (fun k => plain [("kind", JStr k); ("count", JNum (group_size "kind" k kinds))]) ks)
    /\ NoDup ks
    /\ (forall k, In k ks <-> exists r, In r kinds /\ group_key "kind" r = k).
Proof.
  apply (grouped_count_counts_the_records_of_each_key kinds "Count" "x" "kind").
  - reflexivity.
  - discriminate.
  - reflexivity.
  - intros r [<- | [<- | [<- | [<- | []]]]]; vm_compute; intuition discriminate.
Defined.

(** ** Joins on equality *)












(** ** Names that pass validation *)

Lemma is_letter_range c : is_letter c = true -> 65 <= code c <= 122.
Proof.
  unfold is_letter. intros H. apply orb_true_iff in H.
  destruct H as [H|H]; apply andb_true_iff in H; destruct H as [H1 H2];
    apply Z.leb_le in H1; apply Z.leb_le in H2; lia.
Qed.

Lemma name_char_range c :
  is_letter c || (code c =? 95) || is_digit c = true -> 48 <= code c <= 122.
Proof.
  intros H. apply orb_true_iff in H. destruct H as [H|H].
  - apply orb_true_iff in H. destruct H as [H|H].
    + apply is_letter_range in H. lia.
    + apply Z.eqb_eq in H. lia.
  - unfold is_digit in H. apply andb_true_iff in H. destruct H as [H1 H2].
    apply Z.leb_le in H1. apply Z.leb_le in H2. lia.
Qed.

Lemma name_pattern_chars name :
  name_pattern name = true -> Forall (fun c => 48 <= code c <= 122) (chars name).
Proof.
  unfold name_pattern. destruct (chars name) as [|c rest]; [discriminate|].
  intros H. apply andb_true_iff in H. destruct H as [H1 H2].
  apply Forall_cons. split.
  - apply name_char_range. rewrite H1. reflexivity.
  - apply Forall_forall. intros x Hx. rewrite forallb_forall in H2.
    apply name_char_range. apply H2. apply list_elem_of_In. exact Hx.
Qed.

Lemma validated_is_storable name :
  (32 <? Z.of_nat (String.length name)) = false -> name_pattern name = true ->
  storable_name name = true.
Proof.
  intros Hlen Hp. pose proof (name_pattern_chars name Hp) as Hc.
  apply Z.ltb_ge in Hlen.
  unfold storable_name. apply andb_true_iff. split; [apply Z.leb_le; lia|].
  apply forallb_forall. intros c Hin. rewrite Forall_forall in Hc.
  specialize (Hc c (proj2 (list_elem_of_In _ _) Hin)).
  unfold is_ascii. apply andb_true_iff. split; [apply Z.ltb_lt; lia|].
  apply negb_true_iff, Z.eqb_neq. lia.
Qed.

Lemma split_dot_aux_no_dot (a : list ascii) : forall cur rest,
  existsb (fun c => code c =? 46) a = false ->
  split_dot_aux cur (a ++ rest) = split_dot_aux (rev a ++ cur) rest.
Proof.
  induction a as [|c a IH]; intros cur rest H; [reflexivity|].
  cbn [existsb] in H. apply orb_false_iff in H. destruct H as [Hc H].
  cbn [app split_dot_aux]. rewrite Hc. rewrite (IH _ _ H). cbn [rev].
  rewrite <- app_assoc. reflexivity.
Qed.

Lemma index_key_parts_joined table field :
  has_dot table = false -> has_dot field = false ->
  index_key_parts (table ++ "." ++ field) = (table, field).
Proof.
  intros Ht Hf. unfold index_key_parts, split_dot, has_dot in *.
  rewrite !chars_append. change (chars ".") with ["."%char].
  rewrite (split_dot_aux_no_dot (chars table) [] _ Ht). cbn [app split_dot_aux].
  change (code "." =? 46) with true. cbv iota.
  rewrite <- (app_nil_r (chars field)).
  rewrite (split_dot_aux_no_dot (chars field) [] [] Hf). cbn [split_dot_aux].
  rewrite !app_nil_r, !rev_involutive, !str_chars. reflexivity.
Qed.

Lemma name_pattern_no_dot name : name_pattern name = true -> has_dot name = false.
Proof.
  intros Hp. pose proof (name_pattern_chars name Hp) as Hc. unfold has_dot.
  induction Hc as [|c l Hc0 Hl IH]; [reflexivity|].
  cbn [existsb]. rewrite IH.
  replace (code c =? 46) with false by (symmetry; apply Z.eqb_neq; lia). reflexivity.
Qed.

(** A name that [_validateName] accepts is stored and found again: the
    32 bytes that [_createTable] writes for it read back, as
    [_findTableEntry] reads a slot, as the name itself; and the index
    key ["name.field"] of a field without a dot is split again, as
    [_updateIndexes] splits it, into the name and the field.  A user
    table is never given a reserved name, whatever the case of its
    letters. *)
Theorem validated_names_are_stored_and_split_back
    (name type : string) (allowSystem : bool) :
  _validateName (Some name) type allowSystem = Ok true ->
  strip_nul (str (map ascii_of_byte (buf_write (Buffer_alloc 32) name 0 32))) = name
  /\ (forall field, has_dot field = false ->
        index_key_parts (name ++ "." ++ field) = (name, field))
  /\ (allowSystem = false -> type = "table" ->
        ~ In (toLowerCase_ascii name) reserved_names).
Proof.
  unfold _validateName. intros H.
  destruct (String.eqb name ""); [discriminate|].
  destruct (32 <? Z.of_nat (String.length name)) eqn:Hlen; [discriminate|].
  destruct (name_pattern name) eqn:Hp; [|discriminate]. cbn [negb] in H.
  split; [|split].
  - apply name_slot_reads_back. apply validated_is_storable; assumption.
  - intros field Hf. apply index_key_parts_joined; [apply name_pattern_no_dot, Hp|exact Hf].
  - intros -> ->. cbn [negb andb] in H. rewrite String.eqb_refl in H. cbn [andb] in H.
    destruct (mem_string (toLowerCase_ascii name) reserved_names) eqn:E; [discriminate|].
    apply mem_string_false. exact E.
Qed.

Lemma validated_name_witness_kebun_1 :
  strip_nul (str (map ascii_of_byte (buf_write (Buffer_alloc 32) "kebun_1" 0 32))) = "kebun_1"
  /\ index_key_parts ("kebun_1" ++ "." ++ "umur") = ("kebun_1", "umur").
Proof.
  destruct (validated_names_are_stored_and_split_back "kebun_1" "table" false)
    as (H1 & H2 & _); [vm_compute; reflexivity|].
  split; [exact H1|apply H2; reflexivity].
Defined.

